(** * Pattern-Fitting-Algorithm: k-value calibration and crop matching

    A shallow embedding of [k-calibration.js] ([computeCropKValues]) and
    [crop-matching.js] ([runCropMatching]) together with the properties
    the design document states about them, and of the two pure parts
    around them: [formatOpenMeteoParams] of [weather-service.js] and the
    merge of the base importances in [crop-calibration-handler.js].

    Numbers.  JavaScript numbers are modelled by exact rationals [Q]
    (no rounding error, no infinities); [NaN] and [null] are separate
    constructors of [jsval].  [Math.exp] and [Math.pow (_, 0.5)] are
    functions of the host; they are parameters of the matching engine
    and the facts used about them are collected in [MathSpec] (and, for
    one refutation, [HostGrowth]).

    Objects.  A JavaScript object used as a dictionary is an association
    list in insertion order: writing an existing key replaces its value
    in place, writing a new key appends.  (Keys are names; a key that is
    an array index would be enumerated first by JavaScript, whenever it
    was written.)  The crop objects that
    [computeCropKValues] writes to live in a heap, so that the crops
    table of the caller and the one returned share them.

    Dates.  A date is its epoch value in milliseconds ([Z]); only valid
    dates are modelled.

    Control.  [STEP_SIZE] is a positive integer (the window loop of the
    source does not end on a stride of 0).  What is thrown inside the
    per-crop [try] of [processCrops] is modelled by [outcome]; the log
    written before the throw stays. *)

From Stdlib Require Import QArith ZArith List String Bool Lia Lqa Qround Qabs.
From Stdlib Require Import PeanoNat Permutation Sorted.
Import ListNotations.
Open Scope Q_scope.

Set Implicit Arguments.

(* ================================================================== *)
(** * JavaScript values and objects *)

Module JS.

(** A value found where the code expects a number.  [VNaN] stands for
    every value on which [isNaN] answers true. *)
Inductive jsval : Type :=
| VNull
| VNaN
| VNum (q : Q).

(** [v !== null && !isNaN(v)] for the result of a property read
    ([None] is [undefined], on which [isNaN] is true). *)
Definition valid (v : option jsval) : bool :=
  match v with
  | Some (VNum _) => true
  | _ => false
  end.

(** [x || d] when the result is used as a number: [undefined], [null],
    [NaN] and [0] are falsy. *)
Definition or_default (v : option jsval) (d : Q) : Q :=
  match v with
  | Some (VNum q) => if Qeq_bool q 0 then d else q
  | _ => d
  end.

Definition Qlt_bool (a b : Q) : bool := negb (Qle_bool b a).

Definition Qmaxb (a b : Q) : Q := if Qle_bool a b then b else a.
Definition Qminb (a b : Q) : Q := if Qle_bool a b then a else b.

Section Assoc.
Variables (K V : Type) (eqb : K -> K -> bool).

Fixpoint lookup (k : K) (o : list (K * V)) : option V :=
  match o with
  | [] => None
  | (k', v) :: o' => if eqb k k' then Some v else lookup k o'
  end.

(** [k in o] *)
Definition has (k : K) (o : list (K * V)) : bool :=
  match lookup k o with Some _ => true | None => false end.

(** [o[k] = v] *)
Fixpoint set (k : K) (v : V) (o : list (K * V)) : list (K * V) :=
  match o with
  | [] => [(k, v)]
  | (k', v') :: o' =>
      if eqb k k' then (k', v) :: o' else (k', v') :: set k v o'
  end.

(** [o[k]] rewritten by [f] when [k] is a key of [o]. *)
Fixpoint update (k : K) (f : V -> V) (o : list (K * V)) : list (K * V) :=
  match o with
  | [] => []
  | (k', v') :: o' =>
      if eqb k k' then (k', f v') :: o' else (k', v') :: update k f o'
  end.

Definition keys (o : list (K * V)) : list K := map fst o.
Definition values (o : list (K * V)) : list V := map snd o.
End Assoc.

(** Objects keyed by strings. *)
Definition obj (V : Type) : Type := list (string * V).
Definition get {V} (k : string) (o : obj V) : option V := lookup String.eqb k o.
Definition mem {V} (k : string) (o : obj V) : bool := has String.eqb k o.
Definition put {V} (k : string) (v : V) (o : obj V) : obj V := set String.eqb k v o.
Definition upd {V} (k : string) (f : V -> V) (o : obj V) : obj V :=
  update String.eqb k f o.

(** [xs.reduce((sum, x) => sum + x, 0)] *)
Definition sum (xs : list Q) : Q := fold_left Qplus xs 0.

(** Stable sort, as [Array.prototype.sort] with a comparator: [le a b]
    says that [a] may stay in front of [b]. *)
Section Sort.
Variables (A : Type) (le : A -> A -> bool).

Fixpoint insert (x : A) (l : list A) : list A :=
  match l with
  | [] => [x]
  | y :: t => if le x y then x :: y :: t else y :: insert x t
  end.

Definition sort (l : list A) : list A := fold_right insert [] l.
End Sort.

End JS.
Import JS.

(** One daily weather record: [date] and the variables it carries. *)
Record day : Type := mkDay {
  date : Z;
  vals : obj jsval
}.

(** [variable in day] and [day[variable]]. *)
Definition day_has (v : string) (d : day) : bool := mem v (vals d).
Definition day_get (v : string) (d : day) : option jsval := get v (vals d).

(** A crop record.  [daily_weather] and [k_values] may be absent. *)
Record crop : Type := mkCrop {
  variety : option string;
  region : option string;
  duration_days : nat;
  daily_weather : option (list day);
  k_values : option (obj jsval)
}.

Definition set_k_values (c : crop) (k : obj jsval) : crop :=
  {| variety := variety c; region := region c; duration_days := duration_days c;
     daily_weather := daily_weather c; k_values := Some k |}.

(* ================================================================== *)
(** * Calibration: [k-calibration.js] *)

Module Calibration.

(** The numbers among [values], in order. *)
Fixpoint validValues (values : list (option jsval)) : list Q :=
  match values with
  | [] => []
  | Some (VNum q) :: r => q :: validValues r
  | _ :: r => validValues r
  end.

(** [Math.min(...xs)] and [Math.max(...xs)] of a non-empty list. *)
Definition list_min (x : Q) (xs : list Q) : Q := fold_left Qminb xs x.
Definition list_max (x : Q) (xs : list Q) : Q := fold_left Qmaxb xs x.

Definition calculateRange (values : list (option jsval)) : Q :=
  match values with
  | [] => 1
  | _ =>
      match validValues values with
      | [] => 1
      | x :: xs =>
          let mn := list_min x xs in
          let mx := list_max x xs in
          if Qeq_bool (mx - mn) 0 then 1 else mx - mn
      end
  end.

(** [crop.daily_weather.some((day) => variable in day)] *)
Definition in_some_day (variable : string) (dw : list day) : bool :=
  existsb (day_has variable) dw.

(** First loop: the range of every variable of [baseImportance] that
    occurs in the data. *)
Fixpoint compute_ranges (dw : list day) (vars : list string) (ranges : obj Q) : obj Q :=
  match vars with
  | [] => ranges
  | variable :: r =>
      if in_some_day variable dw
      then compute_ranges dw r
             (put variable (calculateRange (map (day_get variable) dw)) ranges)
      else compute_ranges dw r ranges
  end.

(** [Math.max(...Object.values(ranges), 1.0)] *)
Definition maxRange (ranges : obj Q) : Q := list_max 1 (values ranges).

(** [for (variable in ranges) ranges[variable] = ranges[variable] / maxRange] *)
Definition normalize (ranges : obj Q) : obj Q :=
  let m := maxRange ranges in
  map (fun kv => (fst kv, snd kv / m)) ranges.

Definition variationFactor (normalized : Q) : Q :=
  Qmaxb (1 # 10) (1 - (1 # 2) * normalized).

(** [baseImportance[variable] * variationFactor]; [null] counts as 0. *)
Definition times (b : jsval) (f : Q) : jsval :=
  match b with
  | VNull => VNum (0 * f)
  | VNaN => VNaN
  | VNum q => VNum (q * f)
  end.

(** [baseImportance[variable] || null] *)
Definition or_null (b : jsval) : jsval :=
  match b with
  | VNum q => if Qeq_bool q 0 then VNull else VNum q
  | _ => VNull
  end.

Record calibration_entry : Type := mkEntry {
  ce_crop : string;
  ce_variable : string;
  ce_range : option Q;
  ce_importance : jsval;
  ce_variation_factor : option Q;
  ce_k_value : jsval;
  ce_note_missing : bool
}.

(** Second loop: the k value of every variable of [baseImportance]. *)
Fixpoint compute_k (cropName : string) (dw : list day) (ranges : obj Q)
         (base : obj jsval) (kDict : obj jsval) (logs : list calibration_entry)
  : obj jsval * list calibration_entry :=
  match base with
  | [] => (kDict, logs)
  | (variable, importance) :: r =>
      match in_some_day variable dw, get variable ranges with
      | true, Some rng =>
          let vf := variationFactor rng in
          let k := times importance vf in
          compute_k cropName dw ranges r (put variable k kDict)
            (logs ++ [mkEntry cropName variable (Some rng) importance (Some vf) k false])
      | _, _ =>
          let k := or_null importance in
          compute_k cropName dw ranges r (put variable k kDict)
            (logs ++ [mkEntry cropName variable None importance None k true])
      end
  end.

(** The body of the loop over crops for a crop that has weather data. *)
Definition crop_k_values (cropName : string) (dw : list day) (base : obj jsval)
           (logs : list calibration_entry) : obj jsval * list calibration_entry :=
  let ranges := normalize (compute_ranges dw (keys base) []) in
  compute_k cropName dw ranges base [] logs.

(** ** The store.  The crops object maps names to crop objects that
    live in a heap; [{ ...crops }] copies the name table, not the
    objects. *)
Definition loc : Type := nat.
Definition heap : Type := list crop.

Definition deref (h : heap) (l : loc) : option crop := nth_error h l.

Fixpoint write (h : heap) (l : loc) (c : crop) : heap :=
  match h, l with
  | [], _ => []
  | _ :: t, O => c :: t
  | x :: t, S l' => x :: write t l' c
  end.

Record error_entry : Type := mkErr { err_crop : string }.

Record state : Type := mkState {
  st_heap : heap;
  st_errors : list error_entry;          (* [logs.errors] of the caller *)
  st_calibration : list calibration_entry (* [calibrationLogs] *)
}.

Definition step (base : obj jsval) (st : state) (entry : string * loc) : state :=
  let (cropName, l) := entry in
  match deref (st_heap st) l with
  | None => st
  | Some c =>
      match daily_weather c with
      | None | Some [] =>
          mkState (st_heap st) (st_errors st ++ [mkErr cropName]) (st_calibration st)
      | Some dw =>
          let (kDict, logs) := crop_k_values cropName dw base (st_calibration st) in
          mkState (write (st_heap st) l (set_k_values c kDict)) (st_errors st) logs
      end
  end.

Record output : Type := mkOut {
  out_crops : obj loc;
  out_logs : list calibration_entry;
  out_heap : heap;
  out_errors : list error_entry
}.

Definition computeCropKValues (h : heap) (crops : obj loc) (baseImportance : obj jsval)
           (errors : list error_entry) : output :=
  let updatedCrops := crops in
  let st := fold_left (step baseImportance) updatedCrops (mkState h errors []) in
  mkOut updatedCrops (st_calibration st) (st_heap st) (st_errors st).

(** What the second loop records for one variable. *)
Definition entry_of (cropName : string) (dw : list day) (ranges : obj Q)
           (vi : string * jsval) : calibration_entry :=
  match in_some_day (fst vi) dw, get (fst vi) ranges with
  | true, Some rng =>
      mkEntry cropName (fst vi) (Some rng) (snd vi) (Some (variationFactor rng))
        (times (snd vi) (variationFactor rng)) false
  | _, _ => mkEntry cropName (fst vi) None (snd vi) None (or_null (snd vi)) true
  end.

End Calibration.

(* ================================================================== *)
(** * Matching: [crop-matching.js] *)

Module Matching.

(** ** Configuration *)

Record config : Type := mkConfig {
  STEP_SIZE : positive;   (* the window loop does not end on a stride of 0 *)
  MAX_NAN_RATIO : Q;
  DEFAULT_K : Q;
  REQUIRED_FIELDS : list string
}.

Definition DEFAULT_CONFIG : config :=
  {| STEP_SIZE := 30;
     MAX_NAN_RATIO := 15 # 100;
     DEFAULT_K := 2;
     REQUIRED_FIELDS :=
       [ "soil_moisture_0_to_10cm_mean"; "temperature_2m_max"; "temperature_2m_min";
         "wind_speed_10m_mean"; "relative_humidity_2m_mean"; "precipitation_sum" ]%string |}.

Record client_config : Type := mkClient {
  c_STEP_SIZE : option positive;
  c_MAX_NAN_RATIO : option Q;
  c_DEFAULT_K : option Q;
  c_REQUIRED_FIELDS : option (list string)
}.

Definition no_override : client_config := mkClient None None None None.

Definition override {A} (d : A) (o : option A) : A :=
  match o with Some x => x | None => d end.

(** [{ ...DEFAULT_CONFIG, ...clientConfig }] *)
Definition merge (c : client_config) : config :=
  {| STEP_SIZE := override (STEP_SIZE DEFAULT_CONFIG) (c_STEP_SIZE c);
     MAX_NAN_RATIO := override (MAX_NAN_RATIO DEFAULT_CONFIG) (c_MAX_NAN_RATIO c);
     DEFAULT_K := override (DEFAULT_K DEFAULT_CONFIG) (c_DEFAULT_K c);
     REQUIRED_FIELDS := override (REQUIRED_FIELDS DEFAULT_CONFIG) (c_REQUIRED_FIELDS c) |}.

(** ** The log *)

Inductive exn : Type :=
| NoDailyWeather      (* [crop.daily_weather.map] on a crop without weather *)
| EmptyWindow         (* [windowDf[0].date] on an empty slice *)
| NoVariablesObject.  (* [windowLog.variables[varName] = ...] without [variables] *)

Inductive message : Type :=
| ErrVariable (varName : string) (e : exn)   (* Error processing variable '...' *)
| ErrCrop (cropName : string) (e : exn).     (* Error processing crop '...' *)

Inductive warning : Type :=
| WDisqualified (duration forecastLength : nat)
| WNoKValues                       (* No k_values found, using defaults *)
| WMissingK (field : string)       (* Missing k value for '...', will use default *)
| WInsufficient (percent need : Q) (* Insufficient data: ..% valid (need >..%) *)
| WNoValidScoreProduced            (* No valid score produced *)
| WNoValidWindows                  (* No valid windows found *)
| WNotFound (varName : string)     (* Variable '...' not found in data *)
| WNoValidPoints (varName : string)(* No valid data points for variable '...' *)
| WNoValidScores                   (* No valid scores computed *)
| WMessage (m : message).

Record error_entry : Type := mkError {
  e_message : message;
  e_crop : option string;
  e_window_start : option Z
}.

Record var_detail : Type := mkDetail {
  d_k_value : Q;
  d_weight : Q;
  d_valid_points : nat;
  d_nan_forecast : nat;
  d_nan_optimal : nat;
  d_avg_rel_delta : Q;
  d_score : Q;
  d_weighted_score : Q
}.

Record window_log : Type := mkWindowLog {
  wl_variables : option (obj var_detail);
  wl_warnings : list warning;
  wl_final_score : option Q
}.

Record windows_stats : Type := mkStats {
  total_windows : nat;
  insufficient_data : nat;
  valid_windows : nat
}.

Record crop_log : Type := mkCropLog {
  cl_windows : list (Z * window_log);
  cl_warnings : list warning;
  cl_duration_days : option nat;
  cl_region : option string;
  cl_variety : option string;
  cl_k_values_used : option (obj jsval);
  cl_normalized_weights : option (obj jsval);
  cl_windows_stats : option windows_stats;
  cl_top_windows : option (list Z)
}.

Record summary : Type := mkSummary {
  crops_processed : nat;
  crops_disqualified_duration : nat;
  crops_no_valid_windows : nat;
  crops_successful : nat;
  total_windows_processed : nat;
  windows_insufficient_data : nat;
  windows_successful : nat
}.

Record logData : Type := mkLog {
  ld_summary : summary;
  ld_crop_logs : obj crop_log;
  ld_errors : list error_entry
}.

Definition empty_log : logData := mkLog (mkSummary 0 0 0 0 0 0 0) [] [].

(** Field updates. *)
Definition on_summary (f : summary -> summary) (L : logData) : logData :=
  mkLog (f (ld_summary L)) (ld_crop_logs L) (ld_errors L).
Definition on_crop (cropName : string) (f : crop_log -> crop_log) (L : logData) : logData :=
  mkLog (ld_summary L) (upd cropName f (ld_crop_logs L)) (ld_errors L).

Definition inc_crops_processed (s : summary) : summary :=
  mkSummary (S (crops_processed s)) (crops_disqualified_duration s)
    (crops_no_valid_windows s) (crops_successful s) (total_windows_processed s)
    (windows_insufficient_data s) (windows_successful s).
Definition inc_crops_disqualified_duration (s : summary) : summary :=
  mkSummary (crops_processed s) (S (crops_disqualified_duration s))
    (crops_no_valid_windows s) (crops_successful s) (total_windows_processed s)
    (windows_insufficient_data s) (windows_successful s).
Definition inc_crops_no_valid_windows (s : summary) : summary :=
  mkSummary (crops_processed s) (crops_disqualified_duration s)
    (S (crops_no_valid_windows s)) (crops_successful s) (total_windows_processed s)
    (windows_insufficient_data s) (windows_successful s).
Definition inc_crops_successful (s : summary) : summary :=
  mkSummary (crops_processed s) (crops_disqualified_duration s)
    (crops_no_valid_windows s) (S (crops_successful s)) (total_windows_processed s)
    (windows_insufficient_data s) (windows_successful s).
Definition inc_total_windows_processed (s : summary) : summary :=
  mkSummary (crops_processed s) (crops_disqualified_duration s)
    (crops_no_valid_windows s) (crops_successful s) (S (total_windows_processed s))
    (windows_insufficient_data s) (windows_successful s).
Definition inc_windows_insufficient_data (s : summary) : summary :=
  mkSummary (crops_processed s) (crops_disqualified_duration s)
    (crops_no_valid_windows s) (crops_successful s) (total_windows_processed s)
    (S (windows_insufficient_data s)) (windows_successful s).
Definition inc_windows_successful (s : summary) : summary :=
  mkSummary (crops_processed s) (crops_disqualified_duration s)
    (crops_no_valid_windows s) (crops_successful s) (total_windows_processed s)
    (windows_insufficient_data s) (S (windows_successful s)).

Definition cl_warn (w : warning) (c : crop_log) : crop_log :=
  mkCropLog (cl_windows c) (cl_warnings c ++ [w]) (cl_duration_days c) (cl_region c)
    (cl_variety c) (cl_k_values_used c) (cl_normalized_weights c) (cl_windows_stats c)
    (cl_top_windows c).
Definition cl_set_windows (ws : list (Z * window_log)) (c : crop_log) : crop_log :=
  mkCropLog ws (cl_warnings c) (cl_duration_days c) (cl_region c)
    (cl_variety c) (cl_k_values_used c) (cl_normalized_weights c) (cl_windows_stats c)
    (cl_top_windows c).
Definition cl_set_k_values_used (k : obj jsval) (c : crop_log) : crop_log :=
  mkCropLog (cl_windows c) (cl_warnings c) (cl_duration_days c) (cl_region c)
    (cl_variety c) (Some k) (cl_normalized_weights c) (cl_windows_stats c)
    (cl_top_windows c).
Definition cl_set_normalized_weights (w : obj jsval) (c : crop_log) : crop_log :=
  mkCropLog (cl_windows c) (cl_warnings c) (cl_duration_days c) (cl_region c)
    (cl_variety c) (cl_k_values_used c) (Some w) (cl_windows_stats c)
    (cl_top_windows c).
Definition cl_set_windows_stats (s : option windows_stats) (c : crop_log) : crop_log :=
  mkCropLog (cl_windows c) (cl_warnings c) (cl_duration_days c) (cl_region c)
    (cl_variety c) (cl_k_values_used c) (cl_normalized_weights c) s
    (cl_top_windows c).
Definition cl_set_top_windows (t : list Z) (c : crop_log) : crop_log :=
  mkCropLog (cl_windows c) (cl_warnings c) (cl_duration_days c) (cl_region c)
    (cl_variety c) (cl_k_values_used c) (cl_normalized_weights c) (cl_windows_stats c)
    (Some t).
Definition cl_on_stats (f : windows_stats -> windows_stats) (c : crop_log) : crop_log :=
  cl_set_windows_stats (option_map f (cl_windows_stats c)) c.

Definition inc_total_windows (s : windows_stats) : windows_stats :=
  mkStats (S (total_windows s)) (insufficient_data s) (valid_windows s).
Definition inc_insufficient_data (s : windows_stats) : windows_stats :=
  mkStats (total_windows s) (S (insufficient_data s)) (valid_windows s).
Definition inc_valid_windows (s : windows_stats) : windows_stats :=
  mkStats (total_windows s) (insufficient_data s) (S (valid_windows s)).

Definition wl_warn (w : warning) (l : window_log) : window_log :=
  mkWindowLog (wl_variables l) (wl_warnings l ++ [w]) (wl_final_score l).

(** Windows of a crop log are keyed by their start day. *)
Definition wget (k : Z) (ws : list (Z * window_log)) : option window_log :=
  lookup Z.eqb k ws.
Definition wput (k : Z) (l : window_log) (ws : list (Z * window_log)) :=
  set Z.eqb k l ws.

(** [logError(message, cropName, windowStart)] *)
Definition logError (m : message) (cropName : string) (windowStart : option Z)
           (errors : list error_entry) : list error_entry :=
  errors ++ [mkError m (if String.eqb cropName "" then None else Some cropName) windowStart].

(** [date.toISOString().split("T")[0]]: the UTC day of a timestamp. *)
Definition iso_day (t : Z) : Z := (t / 86400000)%Z.

Definition of_nat (n : nat) : Q := inject_Z (Z.of_nat n).

(** [Math.round(score * 10000) / 10000] *)
Definition round4 (score : Q) : Q :=
  inject_Z (Qfloor (score * 10000 + (1 # 2))) / 10000.

(** ** The engine.  Everything below lives inside [runCropMatching]
    and sees its [CONFIG]. *)
Section Engine.
Variable Math_exp : Q -> Q.       (* [Math.exp] *)
Variable Math_pow_half : Q -> Q.  (* [Math.pow(_, 0.5)] *)
Variable CONFIG : config.

Definition nfields : Q := of_nat (List.length (REQUIRED_FIELDS CONFIG)).

(** [DEFAULT_VARIABLE_WEIGHTS] *)
Definition DEFAULT_VARIABLE_WEIGHTS : obj jsval :=
  fold_left (fun o field => put field (VNum (1 / nfields)) o) (REQUIRED_FIELDS CONFIG) [].

(** [safeExp] on one value: the argument is clipped to [-709, 709]. *)
Definition clip (x : Q) : Q := Qmaxb (-709) (Qminb 709 x).
Definition safeExp (xs : list Q) : list Q :=
  map (fun val => Math_exp (clip val)) xs.

Definition logisticScore (relDelta : list Q) (k : Q) : list Q :=
  let powValues := map Math_pow_half relDelta in
  let negK := map (fun v => (- k) * v) powValues in
  let expValues := safeExp negK in
  map (fun e => 1 / (1 + e)) expValues.

(** The pairs of the days on which both sides carry a number. *)
Fixpoint validPairs (forecastVals optimalVals : list (option jsval)) : list (Q * Q) :=
  match forecastVals, optimalVals with
  | Some (VNum f) :: fs, Some (VNum o) :: os => (f, o) :: validPairs fs os
  | _ :: fs, _ :: os => validPairs fs os
  | _, _ => []
  end.

Definition count_nan (xs : list (option jsval)) : nat :=
  List.length (filter (fun v => negb (valid v)) xs).

Definition relDelta (pair : Q * Q) : Q :=
  Qabs (fst pair - snd pair) / (Qabs (snd pair) + (1 # 100000)).

(** State of the loop over [REQUIRED_FIELDS] in [computeScore]. *)
Record acc : Type := mkAcc {
  scores : list Q;
  totalWeight : Q;
  windowLog : window_log;
  errors : list error_entry
}.

Definition acc_warn (w : warning) (a : acc) : acc :=
  mkAcc (scores a) (totalWeight a) (wl_warn w (windowLog a)) (errors a).

Definition kOf (kValues : obj jsval) (varName : string) : Q :=
  or_default (get varName kValues) (DEFAULT_K CONFIG).
Definition weightOf (variableWeights : obj jsval) (varName : string) : Q :=
  or_default (get varName variableWeights) (1 / nfields).

Definition variableScoreOf (pairs : list (Q * Q)) (k : Q) : Q :=
  let relDeltas := map relDelta pairs in
  let dailyScores := logisticScore relDeltas k in
  sum dailyScores / of_nat (List.length dailyScores).

(** One turn of the loop over [REQUIRED_FIELDS]. *)
Definition score_variable (windowData cropData : list day)
           (kValues variableWeights : obj jsval) (cropName : string)
           (windowStart : Z) (a : acc) (varName : string) : acc :=
  if negb (forallb (day_has varName) windowData)
     || negb (forallb (day_has varName) cropData)
  then acc_warn (WNotFound varName) a
  else
    let forecastVals := map (day_get varName) windowData in
    let optimalVals := map (day_get varName) cropData in
    let nanForecast := count_nan forecastVals in
    let nanOptimal := count_nan optimalVals in
    let pairs := validPairs forecastVals optimalVals in
    let validCount := List.length pairs in
    if Nat.eqb validCount 0
    then acc_warn (WNoValidPoints varName) a
    else
      let k := kOf kValues varName in
      let weight := weightOf variableWeights varName in
      let relDeltas := map relDelta pairs in
      let variableScore := variableScoreOf pairs k in
      let weightedScore := variableScore * weight in
      let scores' := scores a ++ [weightedScore] in
      let totalWeight' := totalWeight a + weight in
      match wl_variables (windowLog a) with
      | Some variables =>
          let detail :=
            mkDetail k weight validCount nanForecast nanOptimal
              (sum relDeltas / of_nat (List.length relDeltas)) variableScore weightedScore in
          mkAcc scores' totalWeight'
            (mkWindowLog (Some (put varName detail variables))
               (wl_warnings (windowLog a)) (wl_final_score (windowLog a)))
            (errors a)
      | None =>
          let errorMsg := ErrVariable varName NoVariablesObject in
          mkAcc scores' totalWeight'
            (wl_warn (WMessage errorMsg) (windowLog a))
            (logError errorMsg cropName (Some windowStart) (errors a))
      end.

Definition fresh_crop_log (kValues : obj jsval) : crop_log :=
  mkCropLog [] [] None None None (Some kValues) None None None.
Definition fresh_window_log : window_log := mkWindowLog (Some []) [] None.

(** [computeScore]: the score, the [variables] object of the window
    log (returned by reference) and the log afterwards. *)
Definition computeScore (windowData cropData : list day)
           (kValues variableWeights : obj jsval) (cropName : string)
           (windowStart : Z) (L : logData)
  : option Q * option (obj var_detail) * logData :=
  let cropLog :=
    match get cropName (ld_crop_logs L) with
    | Some c => c
    | None => fresh_crop_log kValues
    end in
  let windowLog0 :=
    match wget windowStart (cl_windows cropLog) with
    | Some w => w
    | None => fresh_window_log
    end in
  let a := fold_left
             (score_variable windowData cropData kValues variableWeights cropName windowStart)
             (REQUIRED_FIELDS CONFIG)
             (mkAcc [] 0 windowLog0 (ld_errors L)) in
  let finish (w : window_log) : logData :=
    mkLog (ld_summary L)
      (put cropName (cl_set_windows (wput windowStart w (cl_windows cropLog)) cropLog)
         (ld_crop_logs L))
      (errors a) in
  if Nat.eqb (List.length (scores a)) 0 || Qeq_bool (totalWeight a) 0
  then (None, None, finish (wl_warn WNoValidScores (windowLog a)))
  else
    let finalScore := sum (scores a) / totalWeight a in
    (Some finalScore, wl_variables (windowLog a),
     finish (mkWindowLog (wl_variables (windowLog a)) (wl_warnings (windowLog a))
               (Some finalScore))).


(** *** [processCrops] *)

(** A scored window of the result.  Its [variable_details] is not a
    copy: it is the [variables] object of the window log kept under
    the same start day (see [variable_details] below). *)
Record window : Type := mkWindow {
  w_start : Z;
  w_score : Q
}.

Record result : Type := mkResult {
  r_name : string;
  r_variety : option string;
  r_region : option string;
  r_duration_days : nat;
  r_k_values_used : obj jsval;
  r_windows : list window
}.

(** What a block inside the per-crop [try] does: it ends normally or
    throws, and the log written so far stays. *)
Inductive outcome (A : Type) : Type :=
| Normal (a : A)
| Throws (L : logData) (e : exn).
Arguments Normal {A} a.
Arguments Throws {A} L e.

Definition by_date (a b : day) : bool := (date a <=? date b)%Z.
Definition by_score_desc (a b : window) : bool := Qle_bool (w_score b) (w_score a).

(** [crop.region || "Unknown"] *)
Definition or_unknown (s : option string) : string :=
  match s with
  | Some x => if String.eqb x "" then "Unknown"%string else x
  | None => "Unknown"%string
  end.

(** The k values of the required fields that are present and not [null]. *)
Definition validKValues (kValues : obj jsval) : obj jsval :=
  fold_left
    (fun o field =>
       match get field kValues with
       | None | Some VNull => o
       | Some v => put field v o
       end)
    (REQUIRED_FIELDS CONFIG) [].

(** [sum + val] of the reduce; [None] is [NaN]. *)
Definition plus_js (s : option Q) (v : jsval) : option Q :=
  match s, v with
  | Some a, VNum q => Some (a + q)
  | Some a, VNull => Some (a + 0)
  | _, _ => None
  end.

(** [Object.values(validKValues).reduce(...) || 1] *)
Definition kSum (valid : obj jsval) : Q :=
  match fold_left plus_js (values valid) (Some 0) with
  | Some s => if Qeq_bool s 0 then 1 else s
  | None => 1
  end.

Definition div_js (v : jsval) (s : Q) : jsval :=
  match v with
  | VNum q => VNum (q / s)
  | VNull => VNum (0 / s)
  | VNaN => VNaN
  end.

(** The normalized weights; the keys of [validKValues] are distinct,
    so writing them one by one into a new object is a map. *)
Definition normalized_weights (valid : obj jsval) : obj jsval :=
  let s := kSum valid in
  map (fun kv => (fst kv, div_js (snd kv) s)) valid.

Definition missing_k_warnings (valid : obj jsval) : list warning :=
  map WMissingK (filter (fun field => negb (mem field valid)) (REQUIRED_FIELDS CONFIG)).

Definition cl_warn_all (ws : list warning) (c : crop_log) : crop_log :=
  fold_left (fun c w => cl_warn w c) ws c.

(** The weights used for a crop, and the log once they are chosen. *)
Definition derive_weights (cropName : string) (kValues : obj jsval) (L : logData)
  : obj jsval * logData :=
  if Nat.ltb 0 (List.length (keys kValues))
  then
    let valid := validKValues kValues in
    let L1 := on_crop cropName (cl_warn_all (missing_k_warnings valid)) L in
    let variableWeights := normalized_weights valid in
    (variableWeights, on_crop cropName (cl_set_normalized_weights variableWeights) L1)
  else
    (DEFAULT_VARIABLE_WEIGHTS,
     on_crop cropName (cl_set_normalized_weights DEFAULT_VARIABLE_WEIGHTS) L).

(** [forecastDf.slice(i, i + duration)] *)
Definition slice (i duration : nat) (forecastDf : list day) : list day :=
  firstn duration (skipn i forecastDf).

Definition validValues (windowDf : list day) : nat :=
  list_sum
    (map (fun d =>
            List.length
              (filter (fun field => day_has field d && valid (day_get field d))
                 (REQUIRED_FIELDS CONFIG)))
       windowDf).

Definition dataRatio (validCount totalValues : nat) : Q :=
  of_nat validCount / of_nat totalValues.

(** [dataRatio < 1 - CONFIG.MAX_NAN_RATIO]; with no slot at all the
    ratio is [0 / 0 = NaN] and the comparison is false. *)
Definition insufficient (validCount totalValues : nat) : bool :=
  if Nat.eqb totalValues 0 then false
  else Qlt_bool (dataRatio validCount totalValues) (1 - MAX_NAN_RATIO CONFIG).

Definition note_insufficient (windowStart : Z) (w : warning) (c : crop_log) : crop_log :=
  match wget windowStart (cl_windows c) with
  | None => cl_set_windows (wput windowStart (mkWindowLog None [w] None) (cl_windows c)) c
  | Some wl => cl_set_windows (wput windowStart (wl_warn w wl) (cl_windows c)) c
  end.

Definition note_scored (windowStart : Z) (score : Q) (details : option (obj var_detail))
           (c : crop_log) : crop_log :=
  match wget windowStart (cl_windows c) with
  | None =>
      cl_set_windows (wput windowStart (mkWindowLog details [] (Some score)) (cl_windows c)) c
  | Some wl =>
      cl_set_windows
        (wput windowStart (mkWindowLog details (wl_warnings wl) (Some score)) (cl_windows c)) c
  end.

Definition note_unscored (windowStart : Z) (c : crop_log) : crop_log :=
  match wget windowStart (cl_windows c) with
  | None =>
      cl_set_windows
        (wput windowStart (mkWindowLog (Some []) [WNoValidScoreProduced] None) (cl_windows c)) c
  | Some wl =>
      cl_set_windows (wput windowStart (wl_warn WNoValidScoreProduced wl) (cl_windows c)) c
  end.

(** One turn of the loop over the windows of a crop. *)
Definition process_window (forecastDf cropDf : list day) (duration : nat)
           (kValues variableWeights : obj jsval) (cropName : string)
           (st : logData * list window) (i : nat) : outcome (logData * list window) :=
  let (L0, cropWindows) := st in
  let L1 := on_summary inc_total_windows_processed L0 in
  let L2 := on_crop cropName (cl_on_stats inc_total_windows) L1 in
  let windowDf := slice i duration forecastDf in
  match windowDf with
  | [] => Throws L2 EmptyWindow
  | first :: _ =>
      let windowStart := iso_day (date first) in
      let validCount := validValues windowDf in
      let totalValues := (duration * List.length (REQUIRED_FIELDS CONFIG))%nat in
      if insufficient validCount totalValues
      then
        let w := WInsufficient (dataRatio validCount totalValues * 100)
                   ((1 - MAX_NAN_RATIO CONFIG) * 100) in
        let L3 := on_crop cropName (note_insufficient windowStart w) L2 in
        let L4 := on_crop cropName (cl_on_stats inc_insufficient_data) L3 in
        Normal (on_summary inc_windows_insufficient_data L4, cropWindows)
      else
        let '(score, details, L3) :=
          computeScore windowDf cropDf kValues variableWeights cropName windowStart L2 in
        match score with
        | Some s =>
            let L4 := on_crop cropName (cl_on_stats inc_valid_windows) L3 in
            let L5 := on_summary inc_windows_successful L4 in
            Normal (on_crop cropName (note_scored windowStart s details) L5,
                    cropWindows ++ [mkWindow windowStart (round4 s)])
        | None =>
            Normal (on_crop cropName (note_unscored windowStart) L3, cropWindows)
        end
  end.

Fixpoint windows_loop (forecastDf cropDf : list day) (duration : nat)
         (kValues variableWeights : obj jsval) (cropName : string)
         (starts : list nat) (st : logData * list window)
  : outcome (logData * list window) :=
  match starts with
  | [] => Normal st
  | i :: rest =>
      match process_window forecastDf cropDf duration kValues variableWeights cropName st i with
      | Normal st' =>
          windows_loop forecastDf cropDf duration kValues variableWeights cropName rest st'
      | Throws L e => Throws L e
      end
  end.

(** [for (let i = 0; i <= limit; i += STEP_SIZE)]: the values of [i]. *)
Fixpoint starts_from (fuel i limit : nat) : list nat :=
  match fuel with
  | O => []
  | S fuel' =>
      if Nat.leb i limit
      then i :: starts_from fuel' (i + Pos.to_nat (STEP_SIZE CONFIG)) limit
      else []
  end.

Definition window_starts (forecastLength duration : nat) : list nat :=
  starts_from (S (forecastLength - duration)) 0 (forecastLength - duration).


Definition new_crop_log (duration : nat) (c : crop) : crop_log :=
  mkCropLog [] [] (Some duration) (Some (or_unknown (region c)))
    (Some (or_unknown (variety c))) None None None None.

(** The body of the per-crop [try]. *)
Definition crop_body (forecastDf : list day) (cropName : string) (c : crop)
           (st : logData * list result) : outcome (logData * list result) :=
  let (L0, results) := st in
  match daily_weather c with
  | None => Throws L0 NoDailyWeather
  | Some dw =>
      let cropDf := sort by_date dw in
      let duration := List.length cropDf in
      let L1 :=
        if mem cropName (ld_crop_logs L0) then L0
        else mkLog (ld_summary L0)
               (put cropName (new_crop_log duration c) (ld_crop_logs L0)) (ld_errors L0) in
      if Nat.ltb (List.length forecastDf) duration
      then
        let L2 := on_crop cropName
                    (cl_warn (WDisqualified duration (List.length forecastDf))) L1 in
        Normal (on_summary inc_crops_disqualified_duration L2, results)
      else
        let kValues := match k_values c with Some k => k | None => [] end in
        let L2 :=
          if Nat.eqb (List.length (keys kValues)) 0
          then on_crop cropName (cl_warn WNoKValues) L1 else L1 in
        let L3 := on_crop cropName (cl_set_k_values_used kValues) L2 in
        let (variableWeights, L4) := derive_weights cropName kValues L3 in
        let L5 := on_crop cropName (cl_set_windows_stats (Some (mkStats 0 0 0))) L4 in
        match windows_loop forecastDf cropDf duration kValues variableWeights cropName
                (window_starts (List.length forecastDf) duration) (L5, []) with
        | Throws L e => Throws L e
        | Normal (L6, cropWindows) =>
            if Nat.ltb 0 (List.length cropWindows)
            then
              let L7 := on_summary inc_crops_successful L6 in
              let sorted := sort by_score_desc cropWindows in
              let L8 := on_crop cropName
                          (cl_set_top_windows (map w_start (firstn 3 sorted))) L7 in
              Normal (L8, results ++
                            [mkResult cropName (variety c) (region c) duration kValues sorted])
            else
              let L7 := on_summary inc_crops_no_valid_windows L6 in
              Normal (on_crop cropName (cl_warn WNoValidWindows) L7, results)
        end
  end.

(** One turn of the loop over the crops, with its [catch]. *)
Definition process_crop (forecastDf : list day) (st : logData * list result)
           (entry : string * crop) : logData * list result :=
  let (cropName, c) := entry in
  let (L, results) := st in
  match crop_body forecastDf cropName c (on_summary inc_crops_processed L, results) with
  | Normal st' => st'
  | Throws L' e =>
      let errorMsg := ErrCrop cropName e in
      let L'' := mkLog (ld_summary L') (ld_crop_logs L')
                   (logError errorMsg cropName None (ld_errors L')) in
      (on_crop cropName (cl_warn (WMessage errorMsg)) L'', results)
  end.

Definition processCrops (crops : obj crop) (forecastData : list day)
  : logData * list result :=
  let forecastDf := sort by_date forecastData in
  fold_left (process_crop forecastDf) crops (empty_log, []).

End Engine.

(** [runCropMatching(crops, forecastData, clientConfig)]: the results
    and the log. *)
Definition runCropMatching (Math_exp Math_pow_half : Q -> Q) (crops : obj crop)
           (forecastData : list day) (clientConfig : client_config)
  : list result * logData :=
  let (L, results) := processCrops Math_exp Math_pow_half (merge clientConfig)
                        crops forecastData in
  (results, L).

(** [variable_details] of a result window: the [variables] object of
    the window log with the same start day. *)
Definition variable_details (L : logData) (cropName : string) (w : window)
  : option (obj var_detail) :=
  match get cropName (ld_crop_logs L) with
  | None => None
  | Some c =>
      match wget (w_start w) (cl_windows c) with
      | None => None
      | Some wl => wl_variables wl
      end
  end.

(** [logs.crop_logs[cropName].windows_stats] *)
Definition stats_of (L : logData) (cropName : string) : option windows_stats :=
  match get cropName (ld_crop_logs L) with
  | Some c => cl_windows_stats c
  | None => None
  end.

(** [logs.crop_logs[cropName].windows[windowStart]] *)
Definition window_log_of (L : logData) (cropName : string) (windowStart : Z)
  : option window_log :=
  match get cropName (ld_crop_logs L) with
  | Some c => wget windowStart (cl_windows c)
  | None => None
  end.

(** The pair a day contributes: none unless both sides carry a number. *)
Definition pair_of_day (p : option jsval * option jsval) : list (Q * Q) :=
  match p with
  | (Some (VNum f), Some (VNum o)) => [(f, o)]
  | _ => []
  end.

(** A k value that is present and not [null]. *)
Definition present_k (v : option jsval) : option jsval :=
  match v with
  | None | Some VNull => None
  | Some v => Some v
  end.

(** The values on which [x || d] takes [d]. *)
Definition falsy (v : option jsval) : bool :=
  match v with
  | Some (VNum q) => Qeq_bool q 0
  | _ => true
  end.

(** What is used of the host's [Math.exp] and [Math.pow(_, 0.5)]. *)
Record MathSpec (Math_exp Math_pow_half : Q -> Q) : Prop := {
  exp_pos : forall x, 0 < Math_exp x;
  exp_zero : forall x, x == 0 -> Math_exp x == 1;
  pow_half_zero : forall x, x == 0 -> Math_pow_half x == 0
}.

(** Two more facts about the host functions, true of the exponential
    and of the square root; they are used only to show that a score can
    leave [0, 1]. *)
Record HostGrowth (Math_exp Math_pow_half : Q -> Q) : Prop := {
  exp_above : forall x, 1 + x <= Math_exp x;
  pow_half_four : forall x, x == 4 -> Math_pow_half x == 2
}.

(** ** The matching as a function of its inputs alone.

    The definitions below say what the loops of the engine compute,
    without the log; the theorems relate them to the engine. *)
Section Reference.
Variable Math_exp : Q -> Q.
Variable Math_pow_half : Q -> Q.
Variable CONFIG : config.

Definition pairsOf (windowData cropData : list day) (varName : string) : list (Q * Q) :=
  validPairs (map (day_get varName) windowData) (map (day_get varName) cropData).

(** The variable is a key of every day on both sides. *)
Definition in_all_days (windowData cropData : list day) (varName : string) : bool :=
  forallb (day_has varName) windowData && forallb (day_has varName) cropData.

(** The variable produces a score for the window. *)
Definition is_scored (windowData cropData : list day) (varName : string) : bool :=
  in_all_days windowData cropData varName
  && negb (Nat.eqb (List.length (pairsOf windowData cropData varName)) 0).

Definition scored_fields (windowData cropData : list day) : list string :=
  filter (is_scored windowData cropData) (REQUIRED_FIELDS CONFIG).

Definition variable_score (windowData cropData : list day) (kValues : obj jsval)
           (varName : string) : Q :=
  variableScoreOf Math_exp Math_pow_half (pairsOf windowData cropData varName)
    (kOf CONFIG kValues varName).

Definition weighted_score (windowData cropData : list day)
           (kValues variableWeights : obj jsval) (varName : string) : Q :=
  variable_score windowData cropData kValues varName * weightOf CONFIG variableWeights varName.

Definition weighted_scores (windowData cropData : list day)
           (kValues variableWeights : obj jsval) : list Q :=
  map (weighted_score windowData cropData kValues variableWeights)
      (scored_fields windowData cropData).

Definition weights_used (windowData cropData : list day) (variableWeights : obj jsval)
  : list Q :=
  map (weightOf CONFIG variableWeights) (scored_fields windowData cropData).

Definition window_score (windowData cropData : list day)
           (kValues variableWeights : obj jsval) : option Q :=
  let ss := weighted_scores windowData cropData kValues variableWeights in
  let tw := sum (weights_used windowData cropData variableWeights) in
  if Nat.eqb (List.length ss) 0 || Qeq_bool tw 0 then None else Some (sum ss / tw).

Definition total_slots (duration : nat) : nat :=
  (duration * List.length (REQUIRED_FIELDS CONFIG))%nat.

Definition window_insufficient (forecastDf : list day) (duration i : nat) : bool :=
  insufficient CONFIG (validValues CONFIG (slice i duration forecastDf)) (total_slots duration).

(** What the window at index [i] adds to [cropWindows]. *)
Definition window_result (forecastDf cropDf : list day) (kValues variableWeights : obj jsval)
           (i : nat) : list window :=
  let windowDf := slice i (List.length cropDf) forecastDf in
  match windowDf with
  | [] => []
  | first :: _ =>
      if window_insufficient forecastDf (List.length cropDf) i then []
      else
        match window_score windowDf cropDf kValues variableWeights with
        | Some s => [mkWindow (iso_day (date first)) (round4 s)]
        | None => []
        end
  end.

(** What the window at index [i] does to the summary and to the
    [windows_stats] of its crop. *)
Definition window_summary (forecastDf cropDf : list day) (kValues variableWeights : obj jsval)
           (i : nat) (s : summary) : summary :=
  let s1 := inc_total_windows_processed s in
  if window_insufficient forecastDf (List.length cropDf) i
  then inc_windows_insufficient_data s1
  else
    match window_score (slice i (List.length cropDf) forecastDf) cropDf
            kValues variableWeights with
    | Some _ => inc_windows_successful s1
    | None => s1
    end.

Definition window_stats (forecastDf cropDf : list day) (kValues variableWeights : obj jsval)
           (i : nat) (s : windows_stats) : windows_stats :=
  let s1 := inc_total_windows s in
  if window_insufficient forecastDf (List.length cropDf) i
  then inc_insufficient_data s1
  else
    match window_score (slice i (List.length cropDf) forecastDf) cropDf
            kValues variableWeights with
    | Some _ => inc_valid_windows s1
    | None => s1
    end.

Definition weights_for (kValues : obj jsval) : obj jsval :=
  if Nat.ltb 0 (List.length (keys kValues))
  then normalized_weights (validKValues CONFIG kValues)
  else DEFAULT_VARIABLE_WEIGHTS CONFIG.

Definition kValues_of (c : crop) : obj jsval :=
  match k_values c with Some k => k | None => [] end.

Definition crop_windows (forecastDf cropDf : list day) (kValues : obj jsval) : list window :=
  flat_map (window_result forecastDf cropDf kValues (weights_for kValues))
           (window_starts CONFIG (List.length forecastDf) (List.length cropDf)).

(** The crop is longer than the forecast. *)
Definition too_long (forecastDf : list day) (c : crop) : bool :=
  match daily_weather c with
  | Some dw => Nat.ltb (List.length forecastDf) (List.length dw)
  | None => false
  end.

(** What a crop adds to [results]. *)
Definition crop_result (forecastDf : list day) (entry : string * crop) : list result :=
  let (cropName, c) := entry in
  match daily_weather c with
  | None => []
  | Some dw =>
      let cropDf := sort by_date dw in
      if Nat.ltb (List.length forecastDf) (List.length cropDf) then []
      else if Nat.eqb (List.length cropDf) 0 then []
      else
        let cropWindows := crop_windows forecastDf cropDf (kValues_of c) in
        if Nat.ltb 0 (List.length cropWindows)
        then [mkResult cropName (variety c) (region c) (List.length cropDf) (kValues_of c)
                (sort by_score_desc cropWindows)]
        else []
  end.

(** The windows of a crop that the gate rejects. *)
Definition insufficient_windows (forecastDf : list day) (c : crop) : nat :=
  match daily_weather c with
  | None => 0%nat
  | Some dw =>
      let cropDf := sort by_date dw in
      if Nat.ltb (List.length forecastDf) (List.length cropDf) then 0%nat
      else if Nat.eqb (List.length cropDf) 0 then 0%nat
      else List.length
             (filter (window_insufficient forecastDf (List.length cropDf))
                (window_starts CONFIG (List.length forecastDf) (List.length cropDf)))
  end.

(** What a crop adds to the summary counters. *)
Definition crop_summary (forecastDf : list day) (entry : string * crop) (s : summary)
  : summary :=
  let c := snd entry in
  let s1 := inc_crops_processed s in
  match daily_weather c with
  | None => s1
  | Some dw =>
      let cropDf := sort by_date dw in
      let duration := List.length cropDf in
      if Nat.ltb (List.length forecastDf) duration
      then inc_crops_disqualified_duration s1
      else if Nat.eqb duration 0
      then inc_total_windows_processed s1
      else
        let starts := window_starts CONFIG (List.length forecastDf) duration in
        let cropWindows := crop_windows forecastDf cropDf (kValues_of c) in
        let s2 :=
          mkSummary (crops_processed s1) (crops_disqualified_duration s1)
            (crops_no_valid_windows s1) (crops_successful s1)
            (total_windows_processed s1 + List.length starts)
            (windows_insufficient_data s1
             + List.length (filter (window_insufficient forecastDf duration) starts))
            (windows_successful s1 + List.length cropWindows) in
        if Nat.ltb 0 (List.length cropWindows)
        then inc_crops_successful s2
        else inc_crops_no_valid_windows s2
  end.

End Reference.

(** ** Other parts of [runCropMatching] *)

(** [linearScore(relDelta, maxDelta)] *)
Definition linearScore (relDelta : list Q) (maxDelta : Q) : list Q :=
  map (fun d => Qmaxb 0 (Qminb 1 (1 - d / maxDelta))) relDelta.

(** The per-crop [try] of [processCrops] throws for this crop: it has
    no [daily_weather], or an empty one. *)
Definition throws_at (c : crop) : bool :=
  match daily_weather c with
  | None => true
  | Some dw => Nat.eqb (List.length dw) 0
  end.

(** The error entry written by the [catch] of the loop over the crops. *)
Definition crop_error (cropName : string) (e : exn) : error_entry :=
  mkError (ErrCrop cropName e)
    (if String.eqb cropName "" then None else Some cropName) None.

(** The part of a crop log that the loop over the windows leaves alone. *)
Definition cl_fixed (c : crop_log) :=
  (cl_duration_days c, cl_region c, cl_variety c,
   cl_k_values_used c, cl_normalized_weights c, cl_top_windows c).

(** From [L] to [L'] the crop logs keep their names and order, the logs of
    the other crops are untouched, and the log of [cropName], if there is
    one, keeps everything but its windows, warnings and counters. *)
Definition log_frame (cropName : string) (L L' : logData) : Prop :=
  keys (ld_crop_logs L') = keys (ld_crop_logs L)
  /\ (forall other, other <> cropName ->
        get other (ld_crop_logs L') = get other (ld_crop_logs L))
  /\ (forall cl, get cropName (ld_crop_logs L) = Some cl ->
        exists cl', get cropName (ld_crop_logs L') = Some cl' /\ cl_fixed cl' = cl_fixed cl).

(** At [L] the crop logs have the names of [L0], the logs of the other
    crops are those of [L0], and the log of [cropName] is [c]. *)
Definition log_at (cropName : string) (L0 L : logData) (c : crop_log) : Prop :=
  keys (ld_crop_logs L) = keys (ld_crop_logs L0)
  /\ (forall other, other <> cropName ->
        get other (ld_crop_logs L) = get other (ld_crop_logs L0))
  /\ get cropName (ld_crop_logs L) = Some c.

(** What the log of a crop with the daily weather [dw] says once the crop
    has been processed against [forecastDf]. *)
Definition crop_logged (Math_exp Math_pow_half : Q -> Q) (CONFIG : config)
           (forecastDf : list day) (c : crop) (dw : list day) (cl : crop_log) : Prop :=
  let cropDf := sort by_date dw in
  let d := List.length cropDf in
  let n := List.length forecastDf in
  cl_duration_days cl = Some d
  /\ cl_region cl = Some (or_unknown (region c))
  /\ cl_variety cl = Some (or_unknown (variety c))
  /\ ((n < d)%nat ->
      cl_k_values_used cl = None /\ cl_normalized_weights cl = None
      /\ cl_windows_stats cl = None /\ cl_top_windows cl = None)
  /\ ((1 <= d <= n)%nat ->
      let starts := window_starts CONFIG n d in
      let tried := crop_windows Math_exp Math_pow_half CONFIG forecastDf cropDf
                     (kValues_of c) in
      cl_k_values_used cl = Some (kValues_of c)
      /\ cl_normalized_weights cl = Some (weights_for CONFIG (kValues_of c))
      /\ cl_windows_stats cl
         = Some (mkStats (List.length starts)
                   (List.length (filter (window_insufficient CONFIG forecastDf d) starts))
                   (List.length tried))
      /\ cl_top_windows cl
         = if Nat.ltb 0 (List.length tried)
           then Some (map w_start (firstn 3 (sort by_score_desc tried)))
           else None).

(** The window log [wl] is the log of the scored window [w] over
    [windowData]: it holds the score before rounding and an entry for
    exactly the variables that produced a score. *)
Definition window_logged (Math_exp Math_pow_half : Q -> Q) (CONFIG : config)
           (windowData cropData : list day) (kValues variableWeights : obj jsval)
           (wl : window_log) (w : window) : Prop :=
  exists s vars,
    window_score Math_exp Math_pow_half CONFIG windowData cropData kValues variableWeights
    = Some s
    /\ w_score w = round4 s
    /\ wl_final_score wl = Some s
    /\ wl_variables wl = Some vars
    /\ forall v, mem v vars
                 = existsb (String.eqb v) (scored_fields CONFIG windowData cropData).

(** The log an outcome carries. *)
Definition log_of {A : Type} (o : outcome (logData * A)) : logData :=
  match o with
  | Normal st => fst st
  | @Throws _ L _ => L
  end.

(** Two crop records that differ at most in the order of their daily
    weather records, which carry distinct dates. *)
Definition same_weather_days (c1 c2 : crop) : Prop :=
  variety c1 = variety c2 /\ region c1 = region c2 /\ k_values c1 = k_values c2
  /\ match daily_weather c1, daily_weather c2 with
     | Some d1, Some d2 => Permutation d1 d2 /\ NoDup (map date d1)
     | None, None => True
     | _, _ => False
     end.

(** The host functions do not decrease: true of the exponential, and
    of the square root on the numbers from 0 on. *)
Record HostOrder (Math_exp Math_pow_half : Q -> Q) : Prop := {
  exp_mono : forall x y, x <= y -> Math_exp x <= Math_exp y;
  pow_half_mono : forall x y, 0 <= x -> x <= y -> Math_pow_half x <= Math_pow_half y
}.

End Matching.


(* ================================================================== *)
(** * Request parameters: [weather-service.js] *)

Module WeatherService.

(** A parameter value is a string or an array of strings.  Arrays are
    objects: the value holds a reference into the store of arrays, and two
    parameter objects that hold the same reference share the array. *)
Inductive pval : Type :=
| PStr (s : string)
| PArr (l : nat).

Definition arrays : Type := list (list string).

(** The parameter object: the keys [daily], [daily_2] and [daily[]], and
    the other keys (coordinates, dates, model, time zone), which the
    function copies and does not read. *)
Record params : Type := mkParams {
  daily : option pval;
  daily_2 : option string;
  daily_list : option pval;
  others : obj string
}.

(** [a.push(s)] on the array at [l]. *)
Fixpoint push (h : arrays) (l : nat) (s : string) : arrays :=
  match h, l with
  | [], _ => []
  | xs :: t, O => (xs ++ [s]) :: t
  | xs :: t, S l' => xs :: push t l' s
  end.

(** [!v] for a parameter value that may be absent. *)
Definition absent (v : option pval) : bool :=
  match v with
  | None => true
  | Some (PStr s) => String.eqb s ""
  | Some (PArr _) => false
  end.

(** [formatOpenMeteoParams(params)]: the store afterwards and the
    object returned.  [params] itself is not written to. *)
Definition formatOpenMeteoParams (h : arrays) (p : params) : arrays * params :=
  let formatted :=
    match daily p with
    | Some (PArr l) => mkParams None (daily_2 p) (Some (PArr l)) (others p)
    | _ => p
    end in
  match daily_2 p with
  | None => (h, formatted)
  | Some s =>
      if String.eqb s "" then (h, formatted)
      else
        let (h1, current) :=
          if absent (daily_list formatted)
          then (h ++ [[]], PArr (List.length h))
          else (h, match daily_list formatted with Some v => v | None => PStr "" end) in
        match current with
        | PArr l =>
            (push h1 l s,
             mkParams (daily formatted) None (Some (PArr l)) (others formatted))
        | PStr x =>
            (h1 ++ [[x; s]],
             mkParams (daily formatted) None (Some (PArr (List.length h1))) (others formatted))
        end
  end.

(** The requests of [fetchCropWeatherData]: one call per parameter
    object, on the store the calls before it left. *)
Definition format_all (h : arrays) (ps : list params) : arrays :=
  fold_left (fun h p => fst (formatOpenMeteoParams h p)) ps h.

End WeatherService.

(* ================================================================== *)
(** * Configuration of the calibration: [crop-calibration-handler.js] *)

Module CalibrationHandler.

(** [{ ...a, ...b }] *)
Definition spread {V} (a b : obj V) : obj V :=
  fold_left (fun o kv => put (fst kv) (snd kv) o) b a.

Definition BASE_IMPORTANCE : obj jsval :=
  [("temperature_2m_max"%string, VNum 5);
   ("temperature_2m_min"%string, VNum (45 # 10));
   ("soil_moisture_0_to_10cm_mean"%string, VNum 4);
   ("precipitation_sum"%string, VNum 3);
   ("relative_humidity_2m_mean"%string, VNum (25 # 10));
   ("wind_speed_10m_mean"%string, VNum (15 # 10))].

(** [{ ...DEFAULT_CONFIG.BASE_IMPORTANCE, ...(config.BASE_IMPORTANCE || {}) }] *)
Definition mergedBaseImportance (client : option (obj jsval)) : obj jsval :=
  spread BASE_IMPORTANCE (match client with Some o => o | None => [] end).

End CalibrationHandler.

(* ================================================================== *)
(** * Concrete inputs used below *)

Module Examples.

Definition T : string := "temperature_2m_max".
Definition P : string := "precipitation_sum".

(** A record of day [n] (midnight UTC) carrying [T]. *)
Definition temp_day (n : Z) (t : Q) : day := mkDay (n * 86400000) [(T, VNum t)].

(** Calibration with the single variable [T] of importance 5. *)
Definition base_T : obj jsval := [(T, VNum 5)].

(** Two days at a constant 20 degrees. *)
Definition constant_weather : list day := [temp_day 0 20; temp_day 1 20].

(** Two days whose values differ by one half. *)
Definition narrow_weather : list day := [temp_day 0 0; temp_day 1 (1 # 2)].

Definition crop_of (dw : list day) : crop := mkCrop None None 2 (Some dw) None.

(** ** Matching *)

Definition soil : string := "soil_moisture_0_to_10cm_mean".
Definition tmin : string := "temperature_2m_min".
Definition wind : string := "wind_speed_10m_mean".
Definition humidity : string := "relative_humidity_2m_mean".

(** A record of day [n] with all six default variables; [T] is [t]. *)
Definition full_day (n : Z) (t : Q) : day :=
  mkDay (n * 86400000)
    [(soil, VNum 1); (T, VNum t); (tmin, VNum 1); (wind, VNum 1);
     (humidity, VNum 1); (P, VNum 1)].

(** The same without the key [T]. *)
Definition day_without_T (n : Z) : day :=
  mkDay (n * 86400000)
    [(soil, VNum 1); (tmin, VNum 1); (wind, VNum 1); (humidity, VNum 1); (P, VNum 1)].

(** A crop of three days against a forecast of two. *)
Definition long_crop : crop :=
  mkCrop None None 3 (Some [temp_day 0 10; temp_day 1 12; temp_day 2 11]) None.
Definition short_forecast : list day := [temp_day 100 10; temp_day 101 12].

(** The scenario of the design document: a crop of two days, 10 and 12
    degrees, with k = 2 for [T], against the forecast 10, 12, 10, 12. *)
Definition scenario_crop : crop :=
  mkCrop None None 2 (Some [temp_day 0 10; temp_day 1 12]) (Some [(T, VNum 2)]).
Definition scenario_forecast : list day :=
  [temp_day 100 10; temp_day 101 12; temp_day 102 10; temp_day 103 12].
(** The same forecast when its records carry all six default fields. *)
Definition scenario_full_forecast : list day :=
  [full_day 100 10; full_day 101 12; full_day 102 10; full_day 103 12].
Definition scenario_step_only : Matching.client_config :=
  Matching.mkClient (Some 1%positive) None None None.
Definition scenario_single_field : Matching.client_config :=
  Matching.mkClient (Some 1%positive) None None (Some [T]).

(** The log when the windows of crop "A" of the scenario are about to be
    enumerated: the crop is counted, its [windows_stats] are at zero. *)
Definition scenario_crop_log : Matching.crop_log :=
  Matching.mkCropLog [] [] (Some 2%nat) None None (Some [(T, VNum 2)])
    (Some [(T, VNum 1)]) (Some (Matching.mkStats 0 0 0)) None.
Definition scenario_log : Matching.logData :=
  Matching.mkLog (Matching.mkSummary 1 0 0 0 0 0 0) [("A"%string, scenario_crop_log)] [].

(** k = 0 for every default field. *)
Definition zero_k : obj jsval :=
  [(soil, VNum 0); (T, VNum 0); (tmin, VNum 0); (wind, VNum 0);
   (humidity, VNum 0); (P, VNum 0)].

(** k values for the maximum temperature and the minimum temperature only. *)
Definition two_k : obj jsval := [(T, VNum 3); (tmin, VNum 1)].

(** A crop with a negative k value for the precipitation, one day long,
    against a forecast that matches its temperature and exceeds its
    precipitation of 0 by 0.00004. *)
Definition negative_k_crop : crop :=
  mkCrop None None 1
    (Some [mkDay 0 [(T, VNum 10); (P, VNum 0)]])
    (Some [(T, VNum 3); (P, VNum (-2))]).
Definition negative_k_forecast : list day :=
  [mkDay (100 * 86400000) [(T, VNum 10); (P, VNum (4 # 100000))]].
Definition two_fields : Matching.client_config :=
  Matching.mkClient (Some 1%positive) None None (Some [T; P]).

(** Stand-ins for the host functions: positive, 1 at 0, at least
    [1 + x]; and a root that is exact on 0 and 4. *)
Definition exp_model (x : Q) : Q := if Qle_bool 0 x then 1 + x else 1 / (1 - x).
Definition pow_half_model (x : Q) : Q := if Qeq_bool x 4 then 2 else x.
(** A stand-in for the root that is exact on 0 and 1 and never decreases. *)
Definition pow_half_linear (x : Q) : Q := x.

End Examples.
(* ================================================================== *)
(** * Facts about objects, sums and sorting *)

Unset Implicit Arguments.

Section ObjectFacts.
Context {V : Type}.

Lemma get_put_same (k : string) (v : V) (o : obj V) : get k (put k v o) = Some v.
Proof.
  unfold get, put. induction o as [|[k' v'] o IH]; simpl.
  - now rewrite String.eqb_refl.
  - destruct (String.eqb k k') eqn:E; simpl; now rewrite E.
Qed.

Lemma get_put_other (k k' : string) (v : V) (o : obj V) :
  k <> k' -> get k (put k' v o) = get k o.
Proof.
  intros N. unfold get, put. induction o as [|[k2 v2] o IH]; simpl.
  - destruct (String.eqb_spec k k'); [contradiction | reflexivity].
  - destruct (String.eqb_spec k' k2) as [->|N2]; simpl.
    + destruct (String.eqb_spec k k2); [contradiction | reflexivity].
    + destruct (String.eqb_spec k k2); [reflexivity | exact IH].
Qed.

Lemma get_upd_same (k : string) (f : V -> V) (o : obj V) :
  get k (upd k f o) = option_map f (get k o).
Proof.
  unfold get, upd. induction o as [|[k' v'] o IH]; simpl; [reflexivity|].
  destruct (String.eqb k k') eqn:E; simpl; now rewrite E.
Qed.

Lemma get_upd_other (k k' : string) (f : V -> V) (o : obj V) :
  k <> k' -> get k (upd k' f o) = get k o.
Proof.
  intros N. unfold get, upd. induction o as [|[k2 v2] o IH]; simpl; [reflexivity|].
  destruct (String.eqb_spec k' k2) as [->|N2]; simpl.
  - destruct (String.eqb_spec k k2); [contradiction | reflexivity].
  - destruct (String.eqb_spec k k2); [reflexivity | exact IH].
Qed.

Lemma get_In (k : string) (v : V) (o : obj V) : get k o = Some v -> In (k, v) o.
Proof.
  unfold get. induction o as [|[k' v'] o IH]; simpl; [discriminate|].
  destruct (String.eqb_spec k k') as [->|N].
  - intros [= ->]. now left.
  - intros H. right. now apply IH.
Qed.
End ObjectFacts.

Section WindowKeys.
Import Matching.

Lemma wget_wput_same (k : Z) (l : window_log) (ws : list (Z * window_log)) :
  wget k (wput k l ws) = Some l.
Proof.
  unfold wget, wput. induction ws as [|[k' l'] ws IH]; simpl.
  - now rewrite Z.eqb_refl.
  - destruct (Z.eqb k k') eqn:E; simpl; now rewrite E.
Qed.
End WindowKeys.

Section SortFacts.
Context {A : Type} (le : A -> A -> bool).

Lemma insert_perm (x : A) (l : list A) : Permutation (insert le x l) (x :: l).
Proof.
  induction l as [|y t IH]; simpl; [reflexivity|].
  destruct (le x y); [reflexivity|].
  rewrite IH. apply perm_swap.
Qed.

Lemma sort_perm (l : list A) : Permutation (sort le l) l.
Proof.
  induction l as [|x t IH]; simpl; [reflexivity|].
  rewrite insert_perm. now constructor.
Qed.

Lemma sort_length (l : list A) : List.length (sort le l) = List.length l.
Proof. apply Permutation_length, sort_perm. Qed.

Lemma sort_In (x : A) (l : list A) : In x (sort le l) <-> In x l.
Proof.
  split; apply Permutation_in; [apply sort_perm | symmetry; apply sort_perm].
Qed.

(** Under a total comparison the result is in order. *)
Lemma insert_sorted (x : A) (l : list A) :
  (forall a b, le a b = true \/ le b a = true) ->
  Sorted (fun a b => le a b = true) l ->
  Sorted (fun a b => le a b = true) (insert le x l).
Proof.
  intros T. induction l as [|y t IH]; intros S; simpl.
  - repeat constructor.
  - destruct (le x y) eqn:E.
    + constructor; [exact S | constructor; exact E].
    + inversion S as [|? ? St Hd]; subst.
      constructor; [now apply IH|].
      destruct t as [|z t']; simpl.
      * constructor. destruct (T x y) as [H|H]; [congruence | exact H].
      * destruct (le x z).
        -- constructor. destruct (T x y) as [H|H]; [congruence | exact H].
        -- inversion Hd; subst. now constructor.
Qed.

Lemma sort_sorted (l : list A) :
  (forall a b, le a b = true \/ le b a = true) ->
  Sorted (fun a b => le a b = true) (sort le l).
Proof.
  intros T. induction l as [|x t IH]; simpl; [constructor | now apply insert_sorted].
Qed.
End SortFacts.

Section NumberFacts.

Lemma Qmaxb_le_l (a b : Q) : a <= Qmaxb a b.
Proof.
  unfold Qmaxb. destruct (Qle_bool a b) eqn:E.
  - now apply Qle_bool_iff.
  - apply Qle_refl.
Qed.

Lemma Qmaxb_le_r (a b : Q) : b <= Qmaxb a b.
Proof.
  unfold Qmaxb. destruct (Qle_bool a b) eqn:E.
  - apply Qle_refl.
  - apply Qlt_le_weak, Qnot_le_lt. intros H. apply Qle_bool_iff in H. congruence.
Qed.

Lemma Qmaxb_cases (a b : Q) : Qmaxb a b = a \/ Qmaxb a b = b.
Proof. unfold Qmaxb. destruct (Qle_bool a b); auto. Qed.

Lemma Qminb_le_l (a b : Q) : Qminb a b <= a.
Proof.
  unfold Qminb. destruct (Qle_bool a b) eqn:E.
  - apply Qle_refl.
  - apply Qlt_le_weak, Qnot_le_lt. intros H. apply Qle_bool_iff in H. congruence.
Qed.


Lemma Qminb_cases (a b : Q) : Qminb a b = a \/ Qminb a b = b.
Proof. unfold Qminb. destruct (Qle_bool a b); auto. Qed.

Lemma Qlt_bool_iff (a b : Q) : Qlt_bool a b = true <-> a < b.
Proof.
  unfold Qlt_bool. rewrite negb_true_iff. split.
  - intros E. apply Qnot_le_lt. intros H. apply Qle_bool_iff in H. congruence.
  - intros H. destruct (Qle_bool b a) eqn:E; [|reflexivity].
    apply Qle_bool_iff in E. exfalso. exact (Qlt_not_le _ _ H E).
Qed.

Lemma Qeq_bool_false (a b : Q) : Qeq_bool a b = false <-> ~ a == b.
Proof.
  split.
  - intros E H. apply Qeq_bool_iff in H. congruence.
  - intros H. destruct (Qeq_bool a b) eqn:E; [|reflexivity].
    apply Qeq_bool_iff in E. contradiction.
Qed.

(** [fold_left Qplus] from any start. *)
Lemma fold_plus_shift (xs : list Q) (a : Q) : fold_left Qplus xs a == a + sum xs.
Proof.
  unfold sum. revert a. induction xs as [|x xs IH]; intros a; simpl.
  - ring.
  - rewrite IH, (IH (0 + x)). ring.
Qed.

Lemma sum_cons (x : Q) (xs : list Q) : sum (x :: xs) == x + sum xs.
Proof. unfold sum at 1. simpl. rewrite fold_plus_shift. ring. Qed.

End NumberFacts.

(* ================================================================== *)
(** * Calibration *)

Section CalibrationFacts.
Import Calibration.

Lemma list_max_ge_init (xs : list Q) (x : Q) : x <= list_max x xs.
Proof.
  unfold list_max. revert x. induction xs as [|y ys IH]; intros x; simpl.
  - apply Qle_refl.
  - eapply Qle_trans; [apply (Qmaxb_le_l x y) | apply IH].
Qed.

Lemma list_max_ge_elem (xs : list Q) (x y : Q) : In y xs -> y <= list_max x xs.
Proof.
  unfold list_max. revert x. induction xs as [|z zs IH]; intros x; simpl; [tauto|].
  intros [->|H].
  - eapply Qle_trans; [apply (Qmaxb_le_r x y) | apply list_max_ge_init].
  - now apply IH.
Qed.

Lemma list_max_cases (xs : list Q) (x : Q) : list_max x xs = x \/ In (list_max x xs) xs.
Proof.
  unfold list_max. revert x. induction xs as [|z zs IH]; intros x; simpl; [now left|].
  destruct (IH (Qmaxb x z)) as [E|H].
  - rewrite E. destruct (Qmaxb_cases x z) as [-> | ->]; auto.
  - auto.
Qed.

Lemma list_min_le_init (xs : list Q) (x : Q) : list_min x xs <= x.
Proof.
  unfold list_min. revert x. induction xs as [|y ys IH]; intros x; simpl.
  - apply Qle_refl.
  - eapply Qle_trans; [apply IH | apply Qminb_le_l].
Qed.

(** On a list whose elements all equal [x], both ends are [x]. *)
Lemma list_max_constant (xs : list Q) (x : Q) :
  (forall y, In y xs -> y == x) -> list_max x xs == x.
Proof.
  intros H. destruct (list_max_cases xs x) as [-> | I]; [reflexivity | now apply H].
Qed.

Lemma list_min_constant (xs : list Q) (x : Q) :
  (forall y, In y xs -> y == x) -> list_min x xs == x.
Proof.
  unfold list_min. revert x. induction xs as [|z zs IH]; intros x H; simpl; [reflexivity|].
  assert (Ez : z == x) by (apply H; now left).
  destruct (Qminb_cases x z) as [-> | ->].
  - apply IH. intros y I. apply H. now right.
  - rewrite <- Ez. apply IH. intros y I. rewrite Ez. apply H. now right.
Qed.

Lemma calculateRange_pos (values : list (option jsval)) : 0 < calculateRange values.
Proof.
  unfold calculateRange. destruct values as [|v r]; [reflexivity|].
  destruct (validValues (v :: r)) as [|x xs]; [reflexivity|].
  destruct (Qeq_bool (list_max x xs - list_min x xs) 0) eqn:E; [reflexivity|].
  apply Qeq_bool_false in E.
  pose proof (list_max_ge_init xs x). pose proof (list_min_le_init xs x).
  apply Qnot_le_lt. intros H1. apply E. lra.
Qed.

(** A constant series has range 1.0, not 0. *)
Lemma calculateRange_constant (values : list (option jsval)) (x : Q) (xs : list Q) :
  validValues values = x :: xs -> (forall y, In y xs -> y == x) ->
  calculateRange values = 1.
Proof.
  intros E H. unfold calculateRange. destruct values as [|v r]; [reflexivity|].
  rewrite E.
  assert (Z0 : list_max x xs - list_min x xs == 0).
  { rewrite (list_max_constant xs x H), (list_min_constant xs x H). ring. }
  apply Qeq_bool_iff in Z0. now rewrite Z0.
Qed.

Lemma validValues_in_some_day (variable : string) (dw : list day) :
  validValues (map (day_get variable) dw) <> [] -> in_some_day variable dw = true.
Proof.
  unfold in_some_day. induction dw as [|d dw IH]; simpl; [congruence|].
  unfold day_has at 1, day_get at 1, mem, has, get.
  destruct (lookup String.eqb variable (vals d)) as [[| |q]|]; simpl; auto.
Qed.

Lemma In_put {V} (k k' : string) (v v' : V) (o : obj V) :
  In (k, v) (put k' v' o) -> (k = k' /\ v = v') \/ In (k, v) o.
Proof.
  unfold put. induction o as [|[k2 v2] o IH]; simpl.
  - intros [[= <- <-]|[]]. now left.
  - destruct (String.eqb_spec k' k2) as [->|N]; simpl.
    + intros [[= <- <-]|H]; auto.
    + intros [E|H]; auto. destruct (IH H); auto.
Qed.

Lemma compute_ranges_pos (dw : list day) (vars : list string) (ranges : obj Q) :
  (forall k v, In (k, v) ranges -> 0 < v) ->
  forall k v, In (k, v) (compute_ranges dw vars ranges) -> 0 < v.
Proof.
  revert ranges. induction vars as [|x r IH]; intros ranges H k v; simpl; [apply H|].
  destruct (in_some_day x dw); [|now apply IH].
  apply IH. intros k' v' I. destruct (In_put _ _ _ _ _ I) as [[_ ->] | I'].
  - apply calculateRange_pos.
  - eapply H, I'.
Qed.

Lemma compute_ranges_keep (dw : list day) (variable : string) (vars : list string)
      (ranges : obj Q) :
  get variable ranges = Some (calculateRange (map (day_get variable) dw)) ->
  get variable (compute_ranges dw vars ranges)
  = Some (calculateRange (map (day_get variable) dw)).
Proof.
  revert ranges. induction vars as [|x r IH]; intros ranges H; simpl; [exact H|].
  destruct (in_some_day x dw); [|now apply IH].
  apply IH. destruct (string_dec variable x) as [->|N].
  - apply get_put_same.
  - now rewrite get_put_other.
Qed.

Lemma compute_ranges_get (dw : list day) (variable : string) (vars : list string)
      (ranges : obj Q) :
  In variable vars -> in_some_day variable dw = true ->
  get variable (compute_ranges dw vars ranges)
  = Some (calculateRange (map (day_get variable) dw)).
Proof.
  revert ranges. induction vars as [|x r IH]; intros ranges I S; simpl; [destruct I|].
  destruct I as [->|I].
  - rewrite S. apply compute_ranges_keep, get_put_same.
  - destruct (in_some_day x dw); now apply IH.
Qed.

Lemma maxRange_ge_1 (ranges : obj Q) : 1 <= maxRange ranges.
Proof. apply list_max_ge_init. Qed.

Lemma maxRange_ge (ranges : obj Q) (k : string) (v : Q) :
  In (k, v) ranges -> v <= maxRange ranges.
Proof.
  intros I. apply list_max_ge_elem. unfold values.
  change v with (snd (k, v)). now apply in_map.
Qed.

Lemma get_normalize (ranges : obj Q) (k : string) :
  get k (normalize ranges) = option_map (fun v => v / maxRange ranges) (get k ranges).
Proof.
  unfold normalize, get. generalize (maxRange ranges) as m. intros m.
  induction ranges as [|[k' v] o IH]; simpl; [reflexivity|].
  destruct (String.eqb k k'); [reflexivity | exact IH].
Qed.

Lemma In_normalize (ranges : obj Q) (k : string) (w : Q) :
  In (k, w) (normalize ranges) <-> exists v, In (k, v) ranges /\ w = v / maxRange ranges.
Proof.
  unfold normalize. rewrite in_map_iff. split.
  - intros [[k' v] [[= <- <-] I]]. eauto.
  - intros [v [I ->]]. now exists (k, v).
Qed.

Lemma variationFactor_of_unit (n : Q) :
  0 < n -> n <= 1 -> variationFactor n = 1 - (1 # 2) * n.
Proof.
  intros P L. unfold variationFactor, Qmaxb.
  destruct (Qle_bool (1 # 10) (1 - (1 # 2) * n)) eqn:E; [reflexivity|].
  exfalso. assert (H : 1 # 10 <= 1 - (1 # 2) * n) by lra.
  apply Qle_bool_iff in H. congruence.
Qed.

Lemma unit_fraction (m : Q) : 1 <= m -> 0 < 1 / m /\ 1 / m <= 1.
Proof.
  intros H. assert (P : 0 < m) by lra. split.
  - apply Qlt_shift_div_l; lra.
  - apply Qle_shift_div_r; lra.
Qed.

Lemma compute_k_logs_grow cropName dw ranges base kDict logs e :
  In e logs -> In e (snd (compute_k cropName dw ranges base kDict logs)).
Proof.
  revert kDict logs. induction base as [|[variable importance] r IH]; intros kDict logs I;
    simpl; [exact I|].
  destruct (in_some_day variable dw); [destruct (get variable ranges)|];
    apply IH, in_or_app; now left.
Qed.

Lemma compute_k_entry cropName dw ranges base kDict logs variable importance rng :
  In (variable, importance) base ->
  in_some_day variable dw = true -> get variable ranges = Some rng ->
  In (mkEntry cropName variable (Some rng) importance (Some (variationFactor rng))
        (times importance (variationFactor rng)) false)
     (snd (compute_k cropName dw ranges base kDict logs)).
Proof.
  revert kDict logs. induction base as [|[v i] r IH]; intros kDict logs I S G;
    simpl; [destruct I|].
  destruct I as [[= -> ->]|I].
  - rewrite S, G. apply compute_k_logs_grow, in_or_app. right. now left.
  - destruct (in_some_day v dw); [destruct (get v ranges)|]; now apply IH.
Qed.

Lemma compute_k_untouched cropName dw ranges base kDict logs variable :
  ~ In variable (keys base) ->
  get variable (fst (compute_k cropName dw ranges base kDict logs)) = get variable kDict.
Proof.
  revert kDict logs. induction base as [|[v i] r IH]; intros kDict logs N;
    simpl; [reflexivity|].
  simpl in N.
  assert (Nv : variable <> v) by (intros ->; apply N; now left).
  assert (Nr : ~ In variable (keys r)) by (intros I; apply N; now right).
  destruct (in_some_day v dw); [destruct (get v ranges)|];
    rewrite (IH _ _ Nr); now apply get_put_other.
Qed.

Lemma compute_k_value cropName dw ranges base kDict logs variable importance rng :
  NoDup (keys base) -> In (variable, importance) base ->
  in_some_day variable dw = true -> get variable ranges = Some rng ->
  get variable (fst (compute_k cropName dw ranges base kDict logs))
  = Some (times importance (variationFactor rng)).
Proof.
  revert kDict logs. induction base as [|[v i] r IH]; intros kDict logs D I S G;
    simpl; [destruct I|].
  simpl in D. inversion D as [|? ? Nv Dr]; subst.
  destruct I as [[= -> ->]|I].
  - rewrite S, G, (compute_k_untouched _ _ _ _ _ _ _ Nv). apply get_put_same.
  - destruct (in_some_day v dw); [destruct (get v ranges)|]; now apply IH.
Qed.

End CalibrationFacts.

Section CalibrationClaims.
Import Calibration Examples.

(** C5 (as the code has it).  A variable of [baseImportance] whose valid
    historical values are all equal gets range 1.0, not 0: with [m] the
    divisor [max(1.0, largest range)] of the crop, its normalized range is
    [1 / m], its variation factor is [1 - 1 / (2 m)], which lies in
    [[1/2, 1)] and is never 1.0, and its k value is the base importance
    times that factor, both in [k_values] and in the calibration log. *)
Theorem constant_variable_k_value
        (cropName : string) (dw : list day) (base : obj jsval)
        (logs : list calibration_entry)
        (variable : string) (importance : jsval) (x : Q) (xs : list Q) :
  NoDup (keys base) -> In (variable, importance) base ->
  validValues (map (day_get variable) dw) = x :: xs ->
  (forall y, In y xs -> y == x) ->
  let ranges := compute_ranges dw (keys base) [] in
  let m := maxRange ranges in
  let vf := variationFactor (1 / m) in
  get variable ranges = Some 1 /\
  1 <= m /\
  get variable (normalize ranges) = Some (1 / m) /\
  vf == 1 - 1 / (2 * m) /\ 1 # 2 <= vf /\ vf < 1 /\
  get variable (fst (crop_k_values cropName dw base logs)) = Some (times importance vf) /\
  In (mkEntry cropName variable (Some (1 / m)) importance (Some vf) (times importance vf) false)
     (snd (crop_k_values cropName dw base logs)).
Proof.
  intros D I E C ranges m vf.
  assert (S : in_some_day variable dw = true).
  { apply validValues_in_some_day. rewrite E. discriminate. }
  assert (K : In variable (keys base)).
  { unfold keys. change variable with (fst (variable, importance)). now apply in_map. }
  assert (G : get variable ranges = Some 1).
  { unfold ranges. rewrite (compute_ranges_get dw variable (keys base) [] K S).
    now rewrite (calculateRange_constant _ x xs E C). }
  assert (M : 1 <= m) by apply maxRange_ge_1.
  assert (N : get variable (normalize ranges) = Some (1 / m)).
  { rewrite get_normalize, G. reflexivity. }
  destruct (unit_fraction m M) as [U1 U2].
  assert (V : vf = 1 - (1 # 2) * (1 / m)) by (now apply variationFactor_of_unit).
  repeat split; try assumption.
  - rewrite V. field. lra.
  - rewrite V. lra.
  - rewrite V. lra.
  - unfold crop_k_values. fold ranges. now apply compute_k_value.
  - unfold crop_k_values. fold ranges. now apply compute_k_entry.
Qed.

Lemma constant_variable_k_value_witness :
  get T (fst (crop_k_values "A" constant_weather base_T []))
  = Some (times (VNum 5)
            (variationFactor (1 / maxRange (compute_ranges constant_weather (keys base_T) [])))).
Proof.
  refine (proj1 (proj2 (proj2 (proj2 (proj2 (proj2 (proj2
    (constant_variable_k_value "A" constant_weather base_T [] T (VNum 5) 20 [20] _ _ _ _)))))))).
  - constructor; [simpl; tauto | constructor].
  - simpl. left. reflexivity.
  - reflexivity.
  - simpl. intros y [<- | []]. reflexivity.
Defined.

(** C5 (as stated) fails: for a crop whose only variable is constant at
    20 degrees, with base importance 5, the calibration log reports the
    variation factor 1/2 and the k value 5/2, not 1.0 and 5. *)
Lemma constant_variable_counterexample :
  ~ (forall e vf k,
        In e (out_logs (computeCropKValues [crop_of constant_weather] [("A"%string, 0%nat)]
                          base_T [])) ->
        ce_variable e = T -> ce_variation_factor e = Some vf -> ce_k_value e = VNum k ->
        vf == 1 /\ k == 5).
Proof.
  intros H.
  destruct (H (mkEntry "A" T (Some (1 / 1)) (VNum 5)
                 (Some (1 - (1 # 2) * (1 / 1))) (VNum (5 * (1 - (1 # 2) * (1 / 1)))) false)
              (1 - (1 # 2) * (1 / 1)) (5 * (1 - (1 # 2) * (1 / 1)))) as [A _];
    try reflexivity.
  - vm_compute. left. reflexivity.
  - vm_compute in A. discriminate.
Qed.

(** C6 (as the code has it).  The divisor is [max(1.0, largest range)]:
    it is 1.0 or one of the ranges, at least 1.0 and at least every range.
    Every normalized value lies in (0, 1], and a variable whose range is
    the largest of the crop and at least 1.0 gets exactly 1. *)
Theorem normalize_by_max_range_or_one (dw : list day) (vars : list string) :
  let ranges := compute_ranges dw vars [] in
  let m := maxRange ranges in
  (m = 1 \/ In m (values ranges)) /\
  1 <= m /\
  (forall k v, In (k, v) ranges -> v <= m) /\
  (forall k w, In (k, w) (normalize ranges) -> 0 < w /\ w <= 1) /\
  (forall k v, get k ranges = Some v -> 1 <= v ->
               (forall k' v', In (k', v') ranges -> v' <= v) ->
               get k (normalize ranges) = Some (v / m) /\ v / m == 1).
Proof.
  intros ranges m. subst m.
  assert (C : maxRange ranges = 1 \/ In (maxRange ranges) (values ranges))
    by apply list_max_cases.
  assert (M : 1 <= maxRange ranges) by apply maxRange_ge_1.
  assert (P : forall k v, In (k, v) ranges -> 0 < v).
  { apply compute_ranges_pos. intros k v []. }
  repeat split; try assumption.
  - intros k v. apply maxRange_ge.
  - apply In_normalize in H. destruct H as [v [I ->]].
    apply Qlt_shift_div_l; [lra|]. pose proof (P k v I). lra.
  - apply In_normalize in H. destruct H as [v [I ->]].
    apply Qle_shift_div_r; [lra|]. pose proof (maxRange_ge ranges k v I). lra.
  - rewrite get_normalize, H. reflexivity.
  - assert (L : maxRange ranges <= v).
    { destruct C as [-> | I]; [exact H0|].
      unfold values in I. apply in_map_iff in I. destruct I as [[k' v'] [E I]].
      simpl in E. rewrite <- E. eapply H1, I. }
    pose proof (maxRange_ge ranges k v (get_In _ _ _ H)) as U.
    assert (E : v == maxRange ranges) by lra. rewrite E. field. lra.
Qed.

(** C6 (as stated) fails: a crop whose only variable ranges over
    [0, 1/2] has the positive maximum range 1/2, yet the divisor is 1.0
    and the variable's normalized value is 1/2, not 1. *)
Lemma normalize_counterexample :
  let ranges := compute_ranges narrow_weather (keys base_T) [] in
  exists r w,
    ranges = [(T, r)] /\ 0 < r /\ maxRange ranges == 1 /\
    get T (normalize ranges) = Some w /\ ~ w == 1.
Proof.
  eexists. eexists. vm_compute. repeat split; try reflexivity. discriminate.
Qed.

End CalibrationClaims.

Section MutationClaim.
Import Calibration Examples.

Lemma deref_write (h : heap) (l : loc) (c c0 : crop) :
  deref h l = Some c0 -> deref (write h l c) l = Some c.
Proof.
  unfold deref. revert l. induction h as [|x t IH]; intros l; destruct l; simpl;
    try discriminate; auto.
Qed.

(** Every crop with weather data is written to in the caller's heap. *)
Lemma step_writes_crop (base : obj jsval) (st : state) (cropName : string) (l : loc)
      (c : crop) (d : day) (dw : list day) :
  deref (st_heap st) l = Some c -> daily_weather c = Some (d :: dw) ->
  deref (st_heap (step base st (cropName, l))) l
  = Some (set_k_values c (fst (crop_k_values cropName (d :: dw) base (st_calibration st)))).
Proof.
  intros D W. unfold step. rewrite D, W.
  destruct (crop_k_values cropName (d :: dw) base (st_calibration st)) as [kDict logs].
  simpl. eapply deref_write, D.
Qed.

(** C9 at a concrete input: the caller's crop object has no [k_values]
    before [computeCropKValues] and has them afterwards, while the returned
    crops table names the very same object. *)
Theorem computeCropKValues_writes_to_input :
  let h := [crop_of constant_weather] in
  let out := computeCropKValues h [("A"%string, 0%nat)] base_T [] in
  out_crops out = [("A"%string, 0%nat)]
  /\ option_map k_values (deref h 0%nat) = Some None
  /\ exists k, option_map k_values (deref (out_heap out) 0%nat) = Some (Some [(T, VNum k)]).
Proof.
  intros h out. split; [reflexivity|]. split; [reflexivity|].
  eexists. vm_compute. reflexivity.
Qed.

End MutationClaim.

(* ================================================================== *)
(** * Matching: what the loops compute *)

Section MatchingFacts.
Import Matching.
Variables Math_exp Math_pow_half : Q -> Q.
Variable CONFIG : config.

Local Abbreviation score_step := (score_variable Math_exp Math_pow_half CONFIG).
Local Abbreviation weighted := (weighted_score Math_exp Math_pow_half CONFIG).

(** ** [computeScore]: the accumulators of the loop over the fields *)

Lemma score_variable_effect wd cd kv vw name ws a v :
  scores (score_step wd cd kv vw name ws a v)
  = scores a ++ (if is_scored wd cd v then [weighted wd cd kv vw v] else [])
  /\ totalWeight (score_step wd cd kv vw name ws a v)
     = (if is_scored wd cd v then totalWeight a + weightOf CONFIG vw v else totalWeight a).
Proof.
  unfold score_variable, is_scored, in_all_days, weighted_score, variable_score, pairsOf.
  destruct (forallb (day_has v) wd); simpl;
    [destruct (forallb (day_has v) cd); simpl|]; try (now rewrite app_nil_r).
  destruct (Nat.eqb (List.length (validPairs (map (day_get v) wd) (map (day_get v) cd))) 0);
    simpl; [now rewrite app_nil_r|].
  destruct (wl_variables (windowLog a)); simpl; split; reflexivity.
Qed.

Lemma score_loop_effect wd cd kv vw name ws fields a :
  scores (fold_left (score_step wd cd kv vw name ws) fields a)
  = scores a ++ map (weighted wd cd kv vw) (filter (is_scored wd cd) fields)
  /\ totalWeight (fold_left (score_step wd cd kv vw name ws) fields a)
     = fold_left Qplus (map (weightOf CONFIG vw) (filter (is_scored wd cd) fields))
         (totalWeight a).
Proof.
  revert a. induction fields as [|v r IH]; intros a; simpl.
  - now rewrite app_nil_r.
  - destruct (IH (score_step wd cd kv vw name ws a v)) as [-> ->].
    destruct (score_variable_effect wd cd kv vw name ws a v) as [-> ->].
    destruct (is_scored wd cd v); simpl.
    + now rewrite <- app_assoc.
    + now rewrite app_nil_r.
Qed.

(** The score [computeScore] returns does not depend on the log. *)
Lemma computeScore_score wd cd kv vw name ws L :
  fst (fst (computeScore Math_exp Math_pow_half CONFIG wd cd kv vw name ws L))
  = window_score Math_exp Math_pow_half CONFIG wd cd kv vw.
Proof.
  unfold computeScore, window_score, weighted_scores, weights_used, scored_fields.
  match goal with |- context [fold_left ?f ?l ?a0] =>
    destruct (score_loop_effect wd cd kv vw name ws l a0) as [S W] end.
  simpl in S, W. rewrite S, W. unfold sum.
  match goal with |- context [if ?c then _ else _] => destruct c end; reflexivity.
Qed.

Lemma computeScore_summary wd cd kv vw name ws L :
  ld_summary (snd (computeScore Math_exp Math_pow_half CONFIG wd cd kv vw name ws L))
  = ld_summary L.
Proof.
  unfold computeScore.
  match goal with |- context [if ?c then _ else _] => destruct c end; reflexivity.
Qed.

Lemma computeScore_stats wd cd kv vw name ws L :
  stats_of (snd (computeScore Math_exp Math_pow_half CONFIG wd cd kv vw name ws L)) name
  = stats_of L name.
Proof.
  unfold computeScore, stats_of.
  match goal with |- context [if ?c then _ else _] => destruct c end; simpl;
    rewrite get_put_same; destruct (get name (ld_crop_logs L)); reflexivity.
Qed.

(** ** Counters of a crop log *)

Lemma stats_on_summary f L name : stats_of (on_summary f L) name = stats_of L name.
Proof. reflexivity. Qed.

Lemma stats_on_crop_stats f L name :
  stats_of (on_crop name (cl_on_stats f) L) name = option_map f (stats_of L name).
Proof.
  unfold stats_of, on_crop. simpl. rewrite get_upd_same.
  destruct (get name (ld_crop_logs L)); reflexivity.
Qed.

Lemma stats_on_crop_frame g L name :
  (forall c, cl_windows_stats (g c) = cl_windows_stats c) ->
  stats_of (on_crop name g L) name = stats_of L name.
Proof.
  intros H. unfold stats_of, on_crop. simpl. rewrite get_upd_same.
  destruct (get name (ld_crop_logs L)); simpl; auto.
Qed.

Lemma note_insufficient_stats ws w c :
  cl_windows_stats (note_insufficient ws w c) = cl_windows_stats c.
Proof. unfold note_insufficient. destruct (wget ws (cl_windows c)); reflexivity. Qed.

Lemma note_scored_stats ws s d c :
  cl_windows_stats (note_scored ws s d c) = cl_windows_stats c.
Proof. unfold note_scored. destruct (wget ws (cl_windows c)); reflexivity. Qed.

Lemma note_unscored_stats ws c :
  cl_windows_stats (note_unscored ws c) = cl_windows_stats c.
Proof. unfold note_unscored. destruct (wget ws (cl_windows c)); reflexivity. Qed.

(** ** One window *)

Lemma process_window_spec forecastDf cropDf kv vw name L cw i first rest :
  slice i (List.length cropDf) forecastDf = first :: rest ->
  exists L',
    process_window Math_exp Math_pow_half CONFIG forecastDf cropDf (List.length cropDf)
      kv vw name (L, cw) i
    = Normal (L', cw ++ window_result Math_exp Math_pow_half CONFIG forecastDf cropDf kv vw i)
    /\ ld_summary L'
       = window_summary Math_exp Math_pow_half CONFIG forecastDf cropDf kv vw i (ld_summary L)
    /\ stats_of L' name
       = option_map (window_stats Math_exp Math_pow_half CONFIG forecastDf cropDf kv vw i)
           (stats_of L name).
Proof.
  intros E.
  unfold process_window, window_result, window_summary, window_stats, window_insufficient,
    total_slots.
  rewrite E.
  destruct (insufficient CONFIG (validValues CONFIG (first :: rest))
              (List.length cropDf * List.length (REQUIRED_FIELDS CONFIG))) eqn:I.
  - eexists. split; [rewrite app_nil_r; reflexivity|]. split; [reflexivity|].
    rewrite stats_on_summary, stats_on_crop_stats,
      (stats_on_crop_frame _ _ _ (note_insufficient_stats _ _)), stats_on_crop_stats,
      stats_on_summary.
    destruct (stats_of L name); reflexivity.
  - match goal with |- context [computeScore ?e ?p ?c ?wd ?cd ?k ?w ?n ?s ?l] =>
      pose proof (computeScore_score wd cd k w n s l) as HS;
      pose proof (computeScore_summary wd cd k w n s l) as HM;
      pose proof (computeScore_stats wd cd k w n s l) as HT;
      destruct (computeScore e p c wd cd k w n s l) as [[score details] L3]
    end.
    simpl in HS, HM, HT. rewrite <- HS.
    destruct score as [s|].
    + eexists. split; [reflexivity|]. split.
      * simpl. rewrite HM. reflexivity.
      * rewrite (stats_on_crop_frame _ _ _ (note_scored_stats _ _ _)), stats_on_summary,
          stats_on_crop_stats, HT, stats_on_crop_stats, stats_on_summary.
        destruct (stats_of L name); reflexivity.
    + eexists. split; [rewrite app_nil_r; reflexivity|]. split.
      * simpl. rewrite HM. reflexivity.
      * rewrite (stats_on_crop_frame _ _ _ (note_unscored_stats _)), HT,
          stats_on_crop_stats, stats_on_summary.
        destruct (stats_of L name); reflexivity.
Qed.

(** ** The windows of a crop *)

Lemma slice_nonempty (l : list day) (i d : nat) :
  (0 < d)%nat -> (i + d <= List.length l)%nat ->
  exists first rest, slice i d l = first :: rest.
Proof.
  intros P B. unfold slice.
  destruct (skipn i l) as [|x t] eqn:E.
  - pose proof (length_skipn i l) as H. rewrite E in H. simpl in H. lia.
  - destruct d; [lia|]. simpl. eauto.
Qed.

Lemma starts_from_spec (fuel i limit x : nat) :
  (limit < i + fuel * Pos.to_nat (STEP_SIZE CONFIG))%nat ->
  In x (starts_from CONFIG fuel i limit)
  <-> (x <= limit)%nat /\ exists j, x = (i + j * Pos.to_nat (STEP_SIZE CONFIG))%nat.
Proof.
  pose proof (Pos2Nat.is_pos (STEP_SIZE CONFIG)) as SP.
  revert i. induction fuel as [|f IH]; intros i A; simpl.
  - split; [tauto|]. intros [B [j ->]]. lia.
  - destruct (Nat.leb_spec i limit) as [Le|Gt].
    + simpl. rewrite IH by lia. split.
      * intros [<-|[B [j ->]]].
        -- split; [exact Le|]. exists 0%nat. lia.
        -- split; [exact B|]. exists (S j). lia.
      * intros [B [[|j] ->]].
        -- left. lia.
        -- right. split; [exact B|]. exists j. lia.
    + split; [intros []|]. intros [B [j ->]]. lia.
Qed.

(** The loop visits exactly the multiples of [STEP_SIZE] at which a
    window of the crop's length still fits. *)
Lemma window_starts_spec (n d x : nat) :
  In x (window_starts CONFIG n d)
  <-> (x <= n - d)%nat /\ exists j, x = (j * Pos.to_nat (STEP_SIZE CONFIG))%nat.
Proof.
  unfold window_starts. rewrite starts_from_spec.
  - simpl. reflexivity.
  - pose proof (Pos2Nat.is_pos (STEP_SIZE CONFIG)). simpl. nia.
Qed.

Lemma window_starts_fit (n d x : nat) :
  (d <= n)%nat -> In x (window_starts CONFIG n d) -> (x + d <= n)%nat.
Proof. intros H I. apply window_starts_spec in I. lia. Qed.

Local Abbreviation wresult := (window_result Math_exp Math_pow_half CONFIG).
Local Abbreviation wsummary := (window_summary Math_exp Math_pow_half CONFIG).
Local Abbreviation wstats := (window_stats Math_exp Math_pow_half CONFIG).

Lemma windows_loop_spec forecastDf cropDf kv vw name starts :
  (forall i, In i starts ->
             exists first rest, slice i (List.length cropDf) forecastDf = first :: rest) ->
  forall L cw,
  exists L',
    windows_loop Math_exp Math_pow_half CONFIG forecastDf cropDf (List.length cropDf)
      kv vw name starts (L, cw)
    = Normal (L', cw ++ flat_map (wresult forecastDf cropDf kv vw) starts)
    /\ ld_summary L'
       = fold_left (fun s i => wsummary forecastDf cropDf kv vw i s) starts (ld_summary L)
    /\ stats_of L' name
       = option_map (fun s => fold_left (fun s i => wstats forecastDf cropDf kv vw i s) starts s)
           (stats_of L name).
Proof.
  induction starts as [|i r IH]; intros H L cw.
  - exists L. simpl. rewrite app_nil_r. repeat split. now destruct (stats_of L name).
  - destruct (H i (or_introl eq_refl)) as [first [rest E]].
    destruct (process_window_spec forecastDf cropDf kv vw name L cw i first rest E)
      as [L1 [P [S T]]].
    destruct (IH (fun j I => H j (or_intror I)) L1
                 (cw ++ wresult forecastDf cropDf kv vw i)) as [L2 [P2 [S2 T2]]].
    exists L2. cbn [windows_loop flat_map fold_left]. rewrite P, P2, <- app_assoc.
    split; [reflexivity|]. split.
    + now rewrite S2, S.
    + rewrite T2, T. now destruct (stats_of L name).
Qed.

Lemma window_result_length forecastDf cropDf kv vw i first rest :
  slice i (List.length cropDf) forecastDf = first :: rest ->
  List.length (wresult forecastDf cropDf kv vw i)
  = if window_insufficient CONFIG forecastDf (List.length cropDf) i then 0%nat
    else match window_score Math_exp Math_pow_half CONFIG
                 (slice i (List.length cropDf) forecastDf) cropDf kv vw with
         | Some _ => 1%nat
         | None => 0%nat
         end.
Proof.
  intros E. unfold window_result. rewrite E.
  destruct (window_insufficient CONFIG forecastDf (List.length cropDf) i); [reflexivity|].
  destruct (window_score _ _ _ _ _ _ _); reflexivity.
Qed.

(** The counters after the windows of a crop. *)
Lemma window_summary_fold forecastDf cropDf kv vw starts :
  (forall i, In i starts ->
             exists first rest, slice i (List.length cropDf) forecastDf = first :: rest) ->
  forall s,
  fold_left (fun s i => wsummary forecastDf cropDf kv vw i s) starts s
  = mkSummary (crops_processed s) (crops_disqualified_duration s)
      (crops_no_valid_windows s) (crops_successful s)
      (total_windows_processed s + List.length starts)
      (windows_insufficient_data s
       + List.length (filter (window_insufficient CONFIG forecastDf (List.length cropDf)) starts))
      (windows_successful s
       + List.length (flat_map (wresult forecastDf cropDf kv vw) starts)).
Proof.
  induction starts as [|i r IH]; intros H s; simpl.
  - destruct s; simpl. f_equal; lia.
  - destruct (H i (or_introl eq_refl)) as [first [rest E]].
    rewrite (IH (fun j I => H j (or_intror I))).
    rewrite length_app, (window_result_length forecastDf cropDf kv vw i first rest E).
    unfold window_summary.
    destruct (window_insufficient CONFIG forecastDf (List.length cropDf) i); simpl.
    + f_equal; lia.
    + destruct (window_score _ _ _ _ _ _ _); simpl; f_equal; lia.
Qed.

Lemma window_stats_fold forecastDf cropDf kv vw starts :
  (forall i, In i starts ->
             exists first rest, slice i (List.length cropDf) forecastDf = first :: rest) ->
  forall s,
  fold_left (fun s i => wstats forecastDf cropDf kv vw i s) starts s
  = mkStats (total_windows s + List.length starts)
      (insufficient_data s
       + List.length (filter (window_insufficient CONFIG forecastDf (List.length cropDf)) starts))
      (valid_windows s + List.length (flat_map (wresult forecastDf cropDf kv vw) starts)).
Proof.
  induction starts as [|i r IH]; intros H s; simpl.
  - destruct s; simpl. f_equal; lia.
  - destruct (H i (or_introl eq_refl)) as [first [rest E]].
    rewrite (IH (fun j I => H j (or_intror I))).
    rewrite length_app, (window_result_length forecastDf cropDf kv vw i first rest E).
    unfold window_stats.
    destruct (window_insufficient CONFIG forecastDf (List.length cropDf) i); simpl.
    + f_equal; lia.
    + destruct (window_score _ _ _ _ _ _ _); simpl; f_equal; lia.
Qed.

(** The [windows_stats] of a crop after its windows. *)
Lemma windows_stats_after_loop forecastDf cropDf kv vw name starts L cw :
  (forall i, In i starts ->
             exists first rest, slice i (List.length cropDf) forecastDf = first :: rest) ->
  stats_of L name = Some (mkStats 0 0 0) ->
  exists L' cw',
    windows_loop Math_exp Math_pow_half CONFIG forecastDf cropDf (List.length cropDf)
      kv vw name starts (L, cw) = Normal (L', cw')
    /\ stats_of L' name
       = Some (mkStats (List.length starts)
                 (List.length
                    (filter (window_insufficient CONFIG forecastDf (List.length cropDf))
                       starts))
                 (List.length (flat_map (wresult forecastDf cropDf kv vw) starts))).
Proof.
  intros V S.
  destruct (windows_loop_spec forecastDf cropDf kv vw name starts V L cw)
    as [L' [P [_ T]]].
  exists L'. eexists. split; [exact P|].
  rewrite T, S. simpl. now rewrite (window_stats_fold forecastDf cropDf kv vw starts V).
Qed.

End MatchingFacts.

Section CropFacts.
Import Matching.
Variables Math_exp Math_pow_half : Q -> Q.
Variable CONFIG : config.

Lemma derive_weights_spec name kv L :
  fst (derive_weights CONFIG name kv L) = weights_for CONFIG kv
  /\ ld_summary (snd (derive_weights CONFIG name kv L)) = ld_summary L.
Proof.
  unfold derive_weights, weights_for.
  destruct (Nat.ltb 0 (List.length (keys kv))); split; reflexivity.
Qed.

Lemma empty_slice (i : nat) (l : list day) : slice i 0 l = [].
Proof. reflexivity. Qed.

(** ** One crop: what it adds to the results and to the summary *)
Lemma process_crop_spec forecastDf L results entry :
  exists L',
    process_crop Math_exp Math_pow_half CONFIG forecastDf (L, results) entry
    = (L', results ++ crop_result Math_exp Math_pow_half CONFIG forecastDf entry)
    /\ ld_summary L'
       = crop_summary Math_exp Math_pow_half CONFIG forecastDf entry (ld_summary L).
Proof.
  destruct entry as [name c].
  unfold process_crop, crop_body, crop_result, crop_summary. cbn [snd].
  destruct (daily_weather c) as [dw|].
  2:{ eexists. split; [rewrite app_nil_r; reflexivity | reflexivity]. }
  set (cropDf := sort by_date dw).
  set (L1 := if mem name (ld_crop_logs (on_summary inc_crops_processed L))
             then on_summary inc_crops_processed L
             else mkLog (ld_summary (on_summary inc_crops_processed L))
                    (put name (new_crop_log (List.length cropDf) c)
                       (ld_crop_logs (on_summary inc_crops_processed L)))
                    (ld_errors (on_summary inc_crops_processed L))).
  assert (S1 : ld_summary L1 = inc_crops_processed (ld_summary L)).
  { unfold L1. destruct (mem name _); reflexivity. }
  destruct (Nat.ltb (List.length forecastDf) (List.length cropDf)) eqn:TL.
  { eexists. split; [rewrite app_nil_r; reflexivity|]. simpl. now rewrite S1. }
  set (L2 := if Nat.eqb (List.length (keys (kValues_of c))) 0
             then on_crop name (cl_warn WNoKValues) L1 else L1).
  assert (S2 : ld_summary L2 = inc_crops_processed (ld_summary L)).
  { unfold L2. destruct (Nat.eqb _ 0); exact S1. }
  fold (kValues_of c). fold L2.
  destruct (derive_weights_spec name (kValues_of c)
              (on_crop name (cl_set_k_values_used (kValues_of c)) L2)) as [W1 W2].
  destruct (derive_weights CONFIG name (kValues_of c)
              (on_crop name (cl_set_k_values_used (kValues_of c)) L2)) as [vw L4].
  simpl in W1, W2. subst vw.
  apply Nat.ltb_ge in TL.
  destruct (Nat.eqb (List.length cropDf) 0) eqn:DZ.
  - apply Nat.eqb_eq in DZ. rewrite DZ.
    unfold window_starts. cbn [starts_from Nat.leb windows_loop process_window].
    rewrite empty_slice.
    eexists. split; [rewrite app_nil_r; reflexivity|]. simpl. now rewrite W2, S2.
  - apply Nat.eqb_neq in DZ.
    assert (V : forall i, In i (window_starts CONFIG (List.length forecastDf)
                                  (List.length cropDf)) ->
                          exists first rest,
                            slice i (List.length cropDf) forecastDf = first :: rest).
    { intros i I. apply slice_nonempty; [lia|]. now apply (window_starts_fit CONFIG). }
    destruct (windows_loop_spec Math_exp Math_pow_half CONFIG forecastDf cropDf
                (kValues_of c) (weights_for CONFIG (kValues_of c)) name _ V
                (on_crop name (cl_set_windows_stats (Some (mkStats 0 0 0))) L4) [])
      as [L6 [P [S6 _]]].
    rewrite P. cbn [app]. fold (crop_windows Math_exp Math_pow_half CONFIG forecastDf cropDf
                                 (kValues_of c)).
    rewrite (window_summary_fold Math_exp Math_pow_half CONFIG forecastDf cropDf
               (kValues_of c) (weights_for CONFIG (kValues_of c)) _ V) in S6.
    fold (crop_windows Math_exp Math_pow_half CONFIG forecastDf cropDf (kValues_of c)) in S6.
    cbn [ld_summary on_crop] in S6. rewrite W2 in S6. cbn [ld_summary on_crop] in S6.
    rewrite S2 in S6.
    destruct (Nat.ltb 0 (List.length (crop_windows Math_exp Math_pow_half CONFIG forecastDf
                                        cropDf (kValues_of c)))).
    + eexists. split; [reflexivity|]. simpl. now rewrite S6.
    + eexists. split; [rewrite app_nil_r; reflexivity|]. simpl. now rewrite S6.
Qed.

(** ** All crops *)
Lemma crops_loop_spec forecastDf crops :
  forall L results,
  exists L',
    fold_left (process_crop Math_exp Math_pow_half CONFIG forecastDf) crops (L, results)
    = (L', results ++ flat_map (crop_result Math_exp Math_pow_half CONFIG forecastDf) crops)
    /\ ld_summary L'
       = fold_left (fun s e => crop_summary Math_exp Math_pow_half CONFIG forecastDf e s)
           crops (ld_summary L).
Proof.
  induction crops as [|e r IH]; intros L results.
  - exists L. simpl. now rewrite app_nil_r.
  - destruct (process_crop_spec forecastDf L results e) as [L1 [P S]].
    destruct (IH L1 (results ++ crop_result Math_exp Math_pow_half CONFIG forecastDf e))
      as [L2 [P2 S2]].
    exists L2. cbn [fold_left flat_map]. rewrite P, P2, <- app_assoc, S2, S. now split.
Qed.

End CropFacts.

Section RunFacts.
Import Matching.
Variables Math_exp Math_pow_half : Q -> Q.

(** The results of a run are the contributions of the crops, in order,
    and so are its summary counters. *)
Lemma run_results crops forecastData clientConfig :
  fst (runCropMatching Math_exp Math_pow_half crops forecastData clientConfig)
  = flat_map (crop_result Math_exp Math_pow_half (merge clientConfig)
                (sort by_date forecastData)) crops.
Proof.
  unfold runCropMatching, processCrops.
  destruct (crops_loop_spec Math_exp Math_pow_half (merge clientConfig)
              (sort by_date forecastData) crops empty_log []) as [L [P _]].
  rewrite P. reflexivity.
Qed.

Lemma run_summary crops forecastData clientConfig :
  ld_summary (snd (runCropMatching Math_exp Math_pow_half crops forecastData clientConfig))
  = fold_left (fun s e => crop_summary Math_exp Math_pow_half (merge clientConfig)
                            (sort by_date forecastData) e s)
      crops (mkSummary 0 0 0 0 0 0 0).
Proof.
  unfold runCropMatching, processCrops.
  destruct (crops_loop_spec Math_exp Math_pow_half (merge clientConfig)
              (sort by_date forecastData) crops empty_log []) as [L [P S]].
  rewrite P. exact S.
Qed.

End RunFacts.

(* ================================================================== *)
(** * Matching: the stated properties *)

Section CounterFacts.
Import Matching.
Variables Math_exp Math_pow_half : Q -> Q.
Variable CONFIG : config.

Local Abbreviation csummary := (crop_summary Math_exp Math_pow_half CONFIG).

(** A counter that every crop raises by an amount of its own. *)
Lemma summary_counter_fold (f : summary -> nat) (g : string * crop -> nat) forecastDf :
  (forall e s, f (csummary forecastDf e s) = (f s + g e)%nat) ->
  forall crops s,
    f (fold_left (fun s e => csummary forecastDf e s) crops s)
    = (f s + list_sum (map g crops))%nat.
Proof.
  intros H. induction crops as [|e r IH]; intros s; simpl.
  - lia.
  - rewrite IH, H. lia.
Qed.

Lemma count_as_sum {A} (p : A -> bool) (l : list A) :
  List.length (filter p l) = list_sum (map (fun x => if p x then 1%nat else 0%nat) l).
Proof.
  induction l as [|x r IH]; simpl; [reflexivity|].
  destruct (p x); simpl; now rewrite IH.
Qed.

Lemma disqualified_counter forecastDf e s :
  crops_disqualified_duration (csummary forecastDf e s)
  = (crops_disqualified_duration s + (if too_long forecastDf (snd e) then 1 else 0))%nat.
Proof.
  unfold crop_summary, too_long. destruct (daily_weather (snd e)) as [dw|]; simpl; [|lia].
  rewrite sort_length.
  destruct (Nat.ltb (List.length forecastDf) (List.length dw)); simpl; [lia|].
  destruct (Nat.eqb (List.length dw) 0); simpl; [lia|].
  destruct (Nat.ltb 0 _); simpl; lia.
Qed.

Lemma insufficient_counter forecastDf e s :
  windows_insufficient_data (csummary forecastDf e s)
  = (windows_insufficient_data s + insufficient_windows CONFIG forecastDf (snd e))%nat.
Proof.
  unfold crop_summary, insufficient_windows.
  destruct (daily_weather (snd e)) as [dw|]; simpl; [|lia].
  destruct (Nat.ltb _ _); simpl; [lia|].
  destruct (Nat.eqb _ 0); simpl; [lia|].
  destruct (Nat.ltb 0 _); simpl; lia.
Qed.

(** A crop is counted as without valid windows or as successful only
    when it is not too long. *)
Lemma settled_counter forecastDf e s :
  exists d,
    (crops_no_valid_windows (csummary forecastDf e s)
     + crops_successful (csummary forecastDf e s)
     = crops_no_valid_windows s + crops_successful s + d)%nat
    /\ (d + (if too_long forecastDf (snd e) then 1 else 0) <= 1)%nat.
Proof.
  unfold crop_summary, too_long. destruct (daily_weather (snd e)) as [dw|]; simpl.
  2:{ exists 0%nat. lia. }
  rewrite sort_length.
  destruct (Nat.ltb (List.length forecastDf) (List.length dw)); simpl.
  { exists 0%nat. lia. }
  destruct (Nat.eqb (List.length dw) 0); simpl.
  { exists 0%nat. lia. }
  exists 1%nat. destruct (Nat.ltb 0 _); simpl; lia.
Qed.

Lemma settled_fold forecastDf crops :
  forall s,
    (crops_no_valid_windows (fold_left (fun s e => csummary forecastDf e s) crops s)
     + crops_successful (fold_left (fun s e => csummary forecastDf e s) crops s)
     + List.length (filter (fun e => too_long forecastDf (snd e)) crops)
     <= crops_no_valid_windows s + crops_successful s + List.length crops)%nat.
Proof.
  induction crops as [|e r IH]; intros s; simpl; [lia|].
  specialize (IH (csummary forecastDf e s)).
  destruct (settled_counter forecastDf e s) as [d [E B]].
  destruct (too_long forecastDf (snd e)); simpl in *; lia.
Qed.

Lemma crop_result_fits forecastDf e r :
  In r (crop_result Math_exp Math_pow_half CONFIG forecastDf e) ->
  (r_duration_days r <= List.length forecastDf)%nat /\ too_long forecastDf (snd e) = false.
Proof.
  destruct e as [name c]. unfold crop_result, too_long. simpl.
  destruct (daily_weather c) as [dw|]; [|intros []].
  rewrite sort_length.
  destruct (Nat.ltb_spec (List.length forecastDf) (List.length dw)); [intros []|].
  destruct (Nat.eqb (List.length dw) 0); [intros []|].
  destruct (Nat.ltb 0 _); [|intros []].
  intros [<-|[]]. simpl. split; [lia | reflexivity].
Qed.

End CounterFacts.

Section RunCounters.
Import Matching.

(** The summary counts, over a run, the windows the gate rejects. *)
Lemma run_insufficient_total (Math_exp Math_pow_half : Q -> Q) crops forecastData cc :
  windows_insufficient_data
    (ld_summary (snd (runCropMatching Math_exp Math_pow_half crops forecastData cc)))
  = list_sum (map (fun e => insufficient_windows (merge cc) (sort by_date forecastData)
                              (snd e)) crops).
Proof.
  rewrite run_summary.
  rewrite (summary_counter_fold Math_exp Math_pow_half (merge cc)
             windows_insufficient_data
             (fun e => insufficient_windows (merge cc) (sort by_date forecastData) (snd e))
             (sort by_date forecastData)
             (insufficient_counter Math_exp Math_pow_half (merge cc)
                (sort by_date forecastData))).
  reflexivity.
Qed.

End RunCounters.

Section DurationClaim.
Import Matching.

(** C4.  A crop whose daily weather is longer than the forecast series
    leaves the loop over the crops at the duration check: whatever the
    log and the results so far, the turn of the loop for this crop raises
    [crops_processed] and [crops_disqualified_duration] by one and no other
    counter (so no window is enumerated or scored and
    [crops_no_valid_windows] is untouched), writes no error and adds
    nothing to the results.  Over a whole run the disqualified counter is
    the number of such crops, they are counted apart from the crops
    without valid windows and the successful ones, and no result comes
    from a crop that is too long. *)
Theorem disqualified_by_duration
        (Math_exp Math_pow_half : Q -> Q) (crops : obj crop) (forecastData : list day)
        (clientConfig : client_config) (cropName : string) (c : crop) (dw : list day) :
  In (cropName, c) crops -> daily_weather c = Some dw ->
  (List.length forecastData < List.length dw)%nat ->
  let forecastDf := sort by_date forecastData in
  let run := runCropMatching Math_exp Math_pow_half crops forecastData clientConfig in
  (forall L results,
      exists L',
        process_crop Math_exp Math_pow_half (merge clientConfig) forecastDf
          (L, results) (cropName, c) = (L', results)
        /\ ld_summary L'
           = inc_crops_disqualified_duration (inc_crops_processed (ld_summary L))
        /\ ld_errors L' = ld_errors L)
  /\ crops_disqualified_duration (ld_summary (snd run))
     = List.length (filter (fun e => too_long forecastData (snd e)) crops)
  /\ (1 <= crops_disqualified_duration (ld_summary (snd run)))%nat
  /\ (crops_no_valid_windows (ld_summary (snd run))
      + crops_successful (ld_summary (snd run))
      + crops_disqualified_duration (ld_summary (snd run))
      <= List.length crops)%nat
  /\ (forall r, In r (fst run) -> (r_duration_days r <= List.length forecastData)%nat).
Proof.
  intros I W TL forecastDf run.
  assert (FL : List.length forecastDf = List.length forecastData) by apply sort_length.
  assert (TLb : forall c', too_long forecastDf c' = too_long forecastData c').
  { intros c'. unfold too_long. now rewrite FL. }
  assert (CNT : crops_disqualified_duration (ld_summary (snd run))
                = List.length (filter (fun e => too_long forecastData (snd e)) crops)).
  { unfold run. rewrite run_summary.
    rewrite (summary_counter_fold Math_exp Math_pow_half (merge clientConfig)
               crops_disqualified_duration
               (fun e => if too_long (sort by_date forecastData) (snd e) then 1%nat else 0%nat)
               (sort by_date forecastData)
               (disqualified_counter Math_exp Math_pow_half (merge clientConfig)
                  (sort by_date forecastData))).
    simpl. rewrite count_as_sum. f_equal. apply map_ext. intros e.
    fold forecastDf. now rewrite TLb. }
  split; [|split; [exact CNT|split; [|split]]].
  - intros L results. unfold process_crop, crop_body. rewrite W.
    rewrite sort_length, FL.
    apply Nat.ltb_lt in TL. rewrite TL.
    eexists. split; [reflexivity|]. split.
    + simpl. destruct (mem cropName _); reflexivity.
    + simpl. destruct (mem cropName _); reflexivity.
  - rewrite CNT.
    assert (In (cropName, c) (filter (fun e => too_long forecastData (snd e)) crops)).
    { apply filter_In. split; [exact I|]. unfold too_long. simpl. rewrite W.
      now apply Nat.ltb_lt. }
    destruct (filter _ crops); [contradiction | simpl; lia].
  - rewrite CNT. unfold run. rewrite run_summary.
    pose proof (settled_fold Math_exp Math_pow_half (merge clientConfig)
                  (sort by_date forecastData) crops (mkSummary 0 0 0 0 0 0 0)) as H.
    simpl in H. fold forecastDf in H.
    rewrite (filter_ext _ (fun e => too_long forecastData (snd e))) in H
      by (intros e; apply TLb).
    fold forecastDf. lia.
  - intros r. unfold run. rewrite run_results. intros H.
    apply in_flat_map in H. destruct H as [e [_ H]].
    apply crop_result_fits in H. fold forecastDf in H. lia.
Qed.

Lemma disqualified_by_duration_witness :
  crops_disqualified_duration
    (ld_summary (snd (runCropMatching Examples.exp_model Examples.pow_half_model
                        [("A"%string, Examples.long_crop)] Examples.short_forecast
                        no_override)))
  = 1%nat.
Proof.
  refine (proj1 (proj2
    (disqualified_by_duration Examples.exp_model Examples.pow_half_model
       [("A"%string, Examples.long_crop)] Examples.short_forecast no_override
       "A" Examples.long_crop
       [Examples.temp_day 0 10; Examples.temp_day 1 12; Examples.temp_day 2 11] _ _ _))).
  - left. reflexivity.
  - reflexivity.
  - simpl. lia.
Defined.

End DurationClaim.

Section GateClaim.
Import Matching.

Lemma insufficient_true (CONFIG : config) (validCount totalValues : nat) :
  (0 < totalValues)%nat ->
  dataRatio validCount totalValues < 1 - MAX_NAN_RATIO CONFIG ->
  insufficient CONFIG validCount totalValues = true.
Proof.
  intros P H. unfold insufficient.
  destruct (Nat.eqb_spec totalValues 0); [lia|]. now apply Qlt_bool_iff.
Qed.

(** C3.  At a window the loop enumerates, if the share of valid values
    among the slots of the required fields over the days of the window is
    below [1 - MAX_NAN_RATIO], the turn of the loop ends at the gate:
    nothing is appended to the windows of the crop (and the window adds
    nothing to the results of the run); in the summary
    [total_windows_processed] and [windows_insufficient_data] are each one
    more than before and the five other counters, [windows_successful]
    among them, are what they were; in the crop's [windows_stats]
    [total_windows] and [insufficient_data] are each one more than before
    and [valid_windows] is what it was; no error is written, and the
    window log kept under the start day gets the warning while its score
    and its variables stay as they were: [computeScore] is not called. *)
Theorem insufficient_window_not_scored
        (Math_exp Math_pow_half : Q -> Q) (CONFIG : config)
        (forecastDf cropDf : list day) (kValues variableWeights : obj jsval)
        (cropName : string) (L : logData) (cropWindows : list window)
        (i : nat) (first : day) (rest : list day) :
  slice i (List.length cropDf) forecastDf = first :: rest ->
  (0 < total_slots CONFIG (List.length cropDf))%nat ->
  dataRatio (validValues CONFIG (first :: rest)) (total_slots CONFIG (List.length cropDf))
  < 1 - MAX_NAN_RATIO CONFIG ->
  let windowStart := iso_day (date first) in
  let before := window_log_of L cropName windowStart in
  exists L',
    process_window Math_exp Math_pow_half CONFIG forecastDf cropDf (List.length cropDf)
      kValues variableWeights cropName (L, cropWindows) i
    = Normal (L', cropWindows)
    /\ window_result Math_exp Math_pow_half CONFIG forecastDf cropDf kValues variableWeights i
       = []
    /\ ld_summary L'
       = mkSummary (crops_processed (ld_summary L))
           (crops_disqualified_duration (ld_summary L))
           (crops_no_valid_windows (ld_summary L))
           (crops_successful (ld_summary L))
           (S (total_windows_processed (ld_summary L)))
           (S (windows_insufficient_data (ld_summary L)))
           (windows_successful (ld_summary L))
    /\ (forall c st,
          get cropName (ld_crop_logs L) = Some c ->
          cl_windows_stats c = Some st ->
          exists c',
            get cropName (ld_crop_logs L') = Some c'
            /\ cl_windows_stats c'
               = Some (mkStats (S (total_windows st)) (S (insufficient_data st))
                         (valid_windows st)))
    /\ stats_of L' cropName
       = option_map
           (fun s => mkStats (S (total_windows s)) (S (insufficient_data s)) (valid_windows s))
           (stats_of L cropName)
    /\ ld_errors L' = ld_errors L
    /\ (forall c, get cropName (ld_crop_logs L) = Some c ->
          exists wl,
            window_log_of L' cropName windowStart = Some wl
            /\ wl_final_score wl
               = match before with Some b => wl_final_score b | None => None end
            /\ wl_variables wl
               = match before with Some b => wl_variables b | None => None end
            /\ In (WInsufficient
                     (dataRatio (validValues CONFIG (first :: rest))
                        (total_slots CONFIG (List.length cropDf)) * 100)
                     ((1 - MAX_NAN_RATIO CONFIG) * 100))
                  (wl_warnings wl)).
Proof.
  intros E P R windowStart before.
  pose proof (insufficient_true CONFIG _ _ P R) as I.
  assert (WI : window_insufficient CONFIG forecastDf (List.length cropDf) i = true).
  { unfold window_insufficient. now rewrite E. }
  destruct (process_window_spec Math_exp Math_pow_half CONFIG forecastDf cropDf
              kValues variableWeights cropName L cropWindows i first rest E)
    as [L' [PW [SM ST]]].
  assert (WR : window_result Math_exp Math_pow_half CONFIG forecastDf cropDf
                 kValues variableWeights i = []).
  { unfold window_result. rewrite E, WI. reflexivity. }
  rewrite WR, app_nil_r in PW.
  exists L'. split; [exact PW|]. split; [exact WR|].
  unfold window_summary in SM. rewrite WI in SM.
  unfold window_stats in ST. rewrite WI in ST.
  split; [exact SM|].
  split.
  { intros c st G CS. unfold stats_of in ST. rewrite G, CS in ST.
    destruct (get cropName (ld_crop_logs L')) as [c'|]; [|discriminate].
    exists c'. split; [reflexivity|]. exact ST. }
  split; [exact ST|].
  unfold process_window in PW. rewrite E in PW.
  unfold total_slots in I. rewrite I in PW. injection PW as <-.
  split; [reflexivity|].
  intros c G. unfold window_log_of, before, window_log_of. simpl.
  rewrite !get_upd_same, G. simpl.
  unfold note_insufficient. simpl. fold windowStart.
  destruct (wget windowStart (cl_windows c)) as [b|]; simpl; rewrite wget_wput_same;
    eexists; (split; [reflexivity|]); (split; [reflexivity|]); (split; [reflexivity|]).
  - unfold wl_warn. simpl. apply in_or_app. right. left. reflexivity.
  - left. reflexivity.
Qed.

(** The first window of the scenario under the default required fields:
    2 valid values on 12 slots.  The crop has been counted and its
    [windows_stats] are at zero; after the turn one window is counted as
    processed and one as having insufficient data, in the summary and in
    the crop's [windows_stats], none as successful or valid, and nothing
    is appended to the windows. *)
Lemma insufficient_window_not_scored_witness :
  exists L' c',
    process_window Examples.exp_model Examples.pow_half_model DEFAULT_CONFIG
      Examples.scenario_forecast [Examples.temp_day 0 10; Examples.temp_day 1 12] 2
      [(Examples.T, VNum 2)] [(Examples.T, VNum 1)] "A"
      (Examples.scenario_log, []) 0
    = Normal (L', [])
    /\ ld_summary L' = mkSummary 1 0 0 0 1 1 0
    /\ get "A"%string (ld_crop_logs L') = Some c'
    /\ cl_windows_stats c' = Some (mkStats 1 1 0)
    /\ window_result Examples.exp_model Examples.pow_half_model DEFAULT_CONFIG
         Examples.scenario_forecast [Examples.temp_day 0 10; Examples.temp_day 1 12]
         [(Examples.T, VNum 2)] [(Examples.T, VNum 1)] 0
       = [].
Proof.
  destruct (insufficient_window_not_scored Examples.exp_model Examples.pow_half_model
              DEFAULT_CONFIG Examples.scenario_forecast
              [Examples.temp_day 0 10; Examples.temp_day 1 12]
              [(Examples.T, VNum 2)] [(Examples.T, VNum 1)] "A"
              Examples.scenario_log [] 0
              (Examples.temp_day 100 10) [Examples.temp_day 101 12])
    as [L' [PW [WR [SM [ST _]]]]].
  - reflexivity.
  - unfold total_slots. simpl. lia.
  - reflexivity.
  - destruct (ST Examples.scenario_crop_log (mkStats 0 0 0) eq_refl eq_refl) as [c' [G CS]].
    exists L', c'. split; [exact PW|]. split; [exact SM|]. split; [exact G|].
    split; [exact CS|exact WR].
Defined.

End GateClaim.

Section PairsClaim.
Import Matching.

Lemma validPairs_spec (fs os : list (option jsval)) :
  validPairs fs os = flat_map pair_of_day (combine fs os).
Proof.
  revert os. induction fs as [|f fs IH]; intros os; [reflexivity|].
  destruct os as [|o os]; [destruct f as [[| |?]|]; reflexivity|].
  destruct f as [[| |qf]|]; simpl; try apply IH.
  destruct o as [[| |qo]|]; simpl; try apply IH. now rewrite IH.
Qed.

Lemma app_one_neq {A} (l : list A) (x : A) : l ++ [x] <> l.
Proof.
  intros H. apply (f_equal (@List.length A)) in H. rewrite length_app in H. simpl in H. lia.
Qed.

(** C7 (as the code has it).  The pairs of a variable are, day by day,
    the pairs of the days on which both sides carry a number, in order:
    exactly the days with [null] or [NaN] on either side are dropped.  A
    variable that is a key of every day on both sides is skipped, with the
    warning "No valid data points" and no error, if and only if no pair
    remains; otherwise it is scored.  A variable that is not a key of some
    day, on either side, is skipped for the window with the warning "not
    found in data" and no error, whatever its other days hold. *)
Theorem pairs_and_skipping
        (Math_exp Math_pow_half : Q -> Q) (CONFIG : config)
        (windowData cropData : list day) (kValues variableWeights : obj jsval)
        (cropName : string) (windowStart : Z) (a : acc) (varName : string) :
  In varName (REQUIRED_FIELDS CONFIG) ->
  let forecastVals := map (day_get varName) windowData in
  let optimalVals := map (day_get varName) cropData in
  let a' := score_variable Math_exp Math_pow_half CONFIG windowData cropData
              kValues variableWeights cropName windowStart a varName in
  validPairs forecastVals optimalVals
  = flat_map pair_of_day (combine forecastVals optimalVals)
  /\ (in_all_days windowData cropData varName = true ->
      (validPairs forecastVals optimalVals = []
       <-> a' = acc_warn (WNoValidPoints varName) a)
      /\ (validPairs forecastVals optimalVals <> [] ->
          scores a'
          = scores a ++ [weighted_score Math_exp Math_pow_half CONFIG windowData cropData
                           kValues variableWeights varName]
          /\ totalWeight a' = totalWeight a + weightOf CONFIG variableWeights varName))
  /\ (in_all_days windowData cropData varName = false ->
      a' = acc_warn (WNotFound varName) a)
  /\ (forall w, errors (acc_warn w a) = errors a
                /\ scores (acc_warn w a) = scores a
                /\ totalWeight (acc_warn w a) = totalWeight a
                /\ wl_warnings (windowLog (acc_warn w a)) = wl_warnings (windowLog a) ++ [w]).
Proof.
  intros _ forecastVals optimalVals a'.
  split; [now apply validPairs_spec|].
  split; [|split].
  - intros A.
    assert (SC : is_scored windowData cropData varName
                 = negb (Nat.eqb (List.length (validPairs forecastVals optimalVals)) 0)).
    { unfold is_scored. now rewrite A. }
    destruct (score_variable_effect Math_exp Math_pow_half CONFIG windowData cropData
                kValues variableWeights cropName windowStart a varName) as [S W].
    fold a' in S, W. rewrite SC in S, W.
    unfold in_all_days in A. apply andb_true_iff in A. destruct A as [A1 A2].
    split; [split|].
    + intros E. unfold a', score_variable. rewrite A1, A2. simpl.
      fold forecastVals optimalVals. now rewrite E.
    + intros E.
      destruct (validPairs forecastVals optimalVals) as [|p ps]; [reflexivity|].
      simpl in S. rewrite E in S. simpl in S. symmetry in S.
      now apply app_one_neq in S.
    + intros N.
      destruct (validPairs forecastVals optimalVals) as [|p ps]; [congruence|].
      simpl in S, W. now split.
  - intros A. unfold a', score_variable.
    unfold in_all_days in A. apply andb_false_iff in A.
    destruct A as [A|A]; rewrite A; simpl; [reflexivity|].
    now destruct (forallb (day_has varName) windowData).
  - intros w. repeat split.
Qed.

(** The first window of the scenario: both days carry the temperature on
    both sides, and both pairs are kept. *)
Lemma pairs_and_skipping_witness :
  validPairs (map (day_get Examples.T) [Examples.temp_day 100 10; Examples.temp_day 101 12])
    (map (day_get Examples.T) [Examples.temp_day 0 10; Examples.temp_day 1 12])
  = [(10, 10); (12, 12)].
Proof.
  refine (eq_trans
    (proj1 (pairs_and_skipping Examples.exp_model Examples.pow_half_model DEFAULT_CONFIG
              [Examples.temp_day 100 10; Examples.temp_day 101 12]
              [Examples.temp_day 0 10; Examples.temp_day 1 12]
              [(Examples.T, VNum 2)] [(Examples.T, VNum 1)] "A" 100
              (mkAcc [] 0 fresh_window_log []) Examples.T _)) _).
  - simpl. tauto.
  - reflexivity.
Defined.

(** C7 (as stated) fails.  Under the default configuration, take a window
    of two days whose second day lacks the key of the maximum temperature,
    against a crop with both days: 11 of 12 values are valid, so the window
    passes the completeness gate; day 0 has a number on both sides, so one
    valid pair remains; yet the variable is skipped ("not found in data")
    and the valid day is discarded with it. *)
Lemma pairs_and_skipping_counterexample :
  let windowData := [Examples.full_day 100 10; Examples.day_without_T 101] in
  let cropData := [Examples.full_day 0 10; Examples.full_day 1 12] in
  insufficient DEFAULT_CONFIG (validValues DEFAULT_CONFIG windowData)
    (total_slots DEFAULT_CONFIG 2) = false
  /\ validPairs (map (day_get Examples.T) windowData) (map (day_get Examples.T) cropData)
     = [(10, 10)]
  /\ (forall Math_exp Math_pow_half a,
         score_variable Math_exp Math_pow_half DEFAULT_CONFIG windowData cropData
           [] [] "A" 100 a Examples.T
         = acc_warn (WNotFound Examples.T) a).
Proof.
  intros windowData cropData. split; [reflexivity|]. split; [reflexivity|].
  intros Math_exp Math_pow_half a. reflexivity.
Qed.

End PairsClaim.

Section FallbackClaim.
Import Matching.
Variables Math_exp Math_pow_half : Q -> Q.
Variable CONFIG : config.

Lemma or_default_falsy (v : option jsval) (d : Q) : falsy v = true -> or_default v d = d.
Proof.
  destruct v as [[| |q]|]; simpl; try reflexivity. now intros ->.
Qed.

(** The falsy k values are the absent one, [null], [NaN] and 0. *)
Lemma falsy_cases (v : option jsval) :
  falsy v = true
  <-> v = None \/ v = Some VNull \/ v = Some VNaN \/ exists q, v = Some (VNum q) /\ q == 0.
Proof.
  destruct v as [[| |q]|]; simpl; split; auto; try (intros _; tauto).
  - intros E. right. right. right. exists q. split; [reflexivity | now apply Qeq_bool_iff].
  - intros [H|[H|[H|[q' [[= ->] H]]]]]; try discriminate. now apply Qeq_bool_iff.
Qed.

Lemma score_variable_kOf wd cd kv1 kv2 vw name ws a v :
  kOf CONFIG kv1 v = kOf CONFIG kv2 v ->
  score_variable Math_exp Math_pow_half CONFIG wd cd kv1 vw name ws a v
  = score_variable Math_exp Math_pow_half CONFIG wd cd kv2 vw name ws a v.
Proof. intros H. unfold score_variable. now rewrite H. Qed.

Lemma score_loop_kOf wd cd kv1 kv2 vw name ws fields :
  (forall v, kOf CONFIG kv1 v = kOf CONFIG kv2 v) ->
  forall a,
    fold_left (score_variable Math_exp Math_pow_half CONFIG wd cd kv1 vw name ws) fields a
    = fold_left (score_variable Math_exp Math_pow_half CONFIG wd cd kv2 vw name ws) fields a.
Proof.
  intros H. induction fields as [|v r IH]; intros a; simpl; [reflexivity|].
  now rewrite (score_variable_kOf wd cd kv1 kv2 vw name ws a v (H v)), IH.
Qed.

Lemma computeScore_kOf wd cd kv1 kv2 vw name ws L c :
  (forall v, kOf CONFIG kv1 v = kOf CONFIG kv2 v) ->
  get name (ld_crop_logs L) = Some c ->
  computeScore Math_exp Math_pow_half CONFIG wd cd kv1 vw name ws L
  = computeScore Math_exp Math_pow_half CONFIG wd cd kv2 vw name ws L.
Proof.
  intros H G. unfold computeScore. rewrite G.
  now rewrite (score_loop_kOf wd cd kv1 kv2 vw name ws (REQUIRED_FIELDS CONFIG) H).
Qed.

End FallbackClaim.

Section FallbackTheorem.
Import Matching.

(** What [x || d] reads, from its two cases. *)
Lemma fallback_value (o : option jsval) (d x : Q) :
  (falsy o = true -> x = d) ->
  (forall q, o = Some (VNum q) -> ~ q == 0 -> x = q) ->
  x = or_default o d.
Proof.
  destruct o as [[| |q]|]; simpl; intros F N; try (apply F; reflexivity).
  destruct (Qeq_bool q 0) eqn:E; [apply F; reflexivity|].
  apply N; [reflexivity|]. intros H. apply Qeq_bool_iff in H. congruence.
Qed.

Lemma or_default_number (q d : Q) : ~ q == 0 -> or_default (Some (VNum q)) d = q.
Proof.
  intros N. simpl. destruct (Qeq_bool q 0) eqn:E; [|reflexivity].
  apply Qeq_bool_iff in E. contradiction.
Qed.

(** C10.  In [computeScore], a required variable that is scored is
    scored with some k and some weight: the k is [DEFAULT_K] when the
    variable's entry in the crop's k values is absent, [null], [NaN] or 0,
    whatever its weight is, and the entry itself otherwise; the weight is
    [1 / len(REQUIRED_FIELDS)] when its entry in the weights is absent,
    [null], [NaN] or 0, whatever its k is, and the entry itself otherwise.
    That k and that weight are the ones written to the log; the weight is
    the one multiplied into the weighted score and added to the total
    weight.  The score [computeScore] returns is the sum, over the
    variables that produced a score, of the mean logistic score under the
    k so chosen times the weight so chosen, divided by the sum of the
    weights so chosen, whenever that sum is not 0.  Within a crop's log,
    [computeScore] returns the same score, the same details and the same
    log for any two k-value objects that differ only at a variable where
    both are falsy: a literal 0 cannot be told from a missing k. *)
Theorem falsy_k_and_weight_fall_back
        (Math_exp Math_pow_half : Q -> Q) (CONFIG : config)
        (windowData cropData : list day) (kValues variableWeights : obj jsval)
        (cropName : string) (windowStart : Z) (a : acc) (varName : string)
        (variables : obj var_detail) :
  In varName (REQUIRED_FIELDS CONFIG) ->
  is_scored windowData cropData varName = true ->
  wl_variables (windowLog a) = Some variables ->
  let a' := score_variable Math_exp Math_pow_half CONFIG windowData cropData
              kValues variableWeights cropName windowStart a varName in
  let pairs := pairsOf windowData cropData varName in
  let scored := scored_fields CONFIG windowData cropData in
  let uniform := 1 / of_nat (List.length (REQUIRED_FIELDS CONFIG)) in
  (exists k w d,
      scores a' = scores a ++ [variableScoreOf Math_exp Math_pow_half pairs k * w]
      /\ totalWeight a' = totalWeight a + w
      /\ wl_variables (windowLog a') = Some (put varName d variables)
      /\ d_k_value d = k /\ d_weight d = w
      /\ d_score d = variableScoreOf Math_exp Math_pow_half pairs k
      /\ d_weighted_score d = variableScoreOf Math_exp Math_pow_half pairs k * w
      /\ errors a' = errors a
      /\ (falsy (get varName kValues) = true -> k = DEFAULT_K CONFIG)
      /\ (forall q, get varName kValues = Some (VNum q) -> ~ q == 0 -> k = q)
      /\ (falsy (get varName variableWeights) = true -> w = uniform)
      /\ (forall q, get varName variableWeights = Some (VNum q) -> ~ q == 0 -> w = q))
  /\ (forall v : option jsval,
         falsy v = true
         <-> v = None \/ v = Some VNull \/ v = Some VNaN
             \/ exists q, v = Some (VNum q) /\ q == 0)
  /\ (forall (K W : string -> Q) (L : logData),
         (forall v, In v scored ->
            (falsy (get v kValues) = true -> K v = DEFAULT_K CONFIG)
            /\ (forall q, get v kValues = Some (VNum q) -> ~ q == 0 -> K v = q)
            /\ (falsy (get v variableWeights) = true -> W v = uniform)
            /\ (forall q, get v variableWeights = Some (VNum q) -> ~ q == 0 -> W v = q)) ->
         ~ sum (map W scored) == 0 ->
         fst (fst (computeScore Math_exp Math_pow_half CONFIG windowData cropData
                     kValues variableWeights cropName windowStart L))
         = Some (sum (map (fun v =>
                             variableScoreOf Math_exp Math_pow_half
                               (pairsOf windowData cropData v) (K v) * W v) scored)
                 / sum (map W scored)))
  /\ (forall kValues' L c,
         falsy (get varName kValues) = true ->
         falsy (get varName kValues') = true ->
         (forall u, u <> varName -> get u kValues' = get u kValues) ->
         get cropName (ld_crop_logs L) = Some c ->
         computeScore Math_exp Math_pow_half CONFIG windowData cropData
           kValues' variableWeights cropName windowStart L
         = computeScore Math_exp Math_pow_half CONFIG windowData cropData
             kValues variableWeights cropName windowStart L).
Proof.
  intros _ SC V a' pairs scored uniform.
  split; [|split; [|split]].
  - exists (kOf CONFIG kValues varName), (weightOf CONFIG variableWeights varName).
    destruct (score_variable_effect Math_exp Math_pow_half CONFIG windowData cropData
                kValues variableWeights cropName windowStart a varName) as [S T].
    fold a' in S, T. rewrite SC in S, T.
    unfold weighted_score, variable_score in S. fold pairs in S.
    unfold is_scored, in_all_days in SC. fold pairs in SC.
    apply andb_true_iff in SC. destruct SC as [SC1 SC2].
    apply andb_true_iff in SC1. destruct SC1 as [A1 A2].
    apply negb_true_iff in SC2. unfold pairs, pairsOf in SC2.
    assert (E : a' = score_variable Math_exp Math_pow_half CONFIG windowData cropData
                       kValues variableWeights cropName windowStart a varName) by reflexivity.
    unfold score_variable in E. rewrite A1, A2, SC2, V in E. simpl in E.
    eexists. split; [exact S|]. split; [exact T|].
    split; [rewrite E; reflexivity|].
    split; [reflexivity|]. split; [reflexivity|].
    split; [reflexivity|]. split; [reflexivity|].
    split; [rewrite E; reflexivity|].
    unfold kOf, weightOf, uniform.
    split; [intros F; now apply or_default_falsy|].
    split; [intros q G N; rewrite G; now apply or_default_number|].
    split; [intros F; now apply or_default_falsy|].
    intros q G N. rewrite G. now apply or_default_number.
  - apply falsy_cases.
  - intros K W L H NZ.
    assert (EK : forall v, In v scored -> K v = kOf CONFIG kValues v).
    { intros v I. destruct (H v I) as [H1 [H2 _]]. unfold kOf.
      now apply fallback_value. }
    assert (EW : forall v, In v scored -> W v = weightOf CONFIG variableWeights v).
    { intros v I. destruct (H v I) as [_ [_ [H3 H4]]]. unfold weightOf.
      now apply fallback_value. }
    assert (MW : map W scored = weights_used CONFIG windowData cropData variableWeights).
    { unfold weights_used. apply map_ext_in. exact EW. }
    assert (MS : map (fun v => variableScoreOf Math_exp Math_pow_half
                                 (pairsOf windowData cropData v) (K v) * W v) scored
                 = weighted_scores Math_exp Math_pow_half CONFIG windowData cropData
                     kValues variableWeights).
    { unfold weighted_scores. apply map_ext_in. intros v I.
      unfold weighted_score, variable_score. now rewrite (EK v I), (EW v I). }
    rewrite computeScore_score. unfold window_score. rewrite MS, MW. rewrite MW in NZ.
    assert (NE : Nat.eqb (List.length (weighted_scores Math_exp Math_pow_half CONFIG
                                         windowData cropData kValues variableWeights)) 0
                 = false).
    { apply Nat.eqb_neq. unfold weighted_scores. rewrite length_map. fold scored.
      intros Z. apply NZ. unfold weights_used. fold scored.
      destruct scored; [reflexivity | discriminate]. }
    assert (NQ : Qeq_bool (sum (weights_used CONFIG windowData cropData variableWeights)) 0
                 = false).
    { destruct (Qeq_bool _ 0) eqn:Q0; [|reflexivity].
      apply Qeq_bool_iff in Q0. contradiction. }
    cbv zeta. rewrite NE, NQ. reflexivity.
  - intros kValues' L c FK FK' Same G.
    apply (computeScore_kOf Math_exp Math_pow_half CONFIG windowData cropData
             kValues' kValues variableWeights cropName windowStart L c); [|exact G].
    intros u. unfold kOf. destruct (string_dec u varName) as [->|N].
    + now rewrite !or_default_falsy.
    + now rewrite (Same u N).
Qed.

(** One day, 10 degrees on both sides, under the default configuration.
    A crop without k values is scored with the default weights: the k of
    the temperature falls back to 2 while its weight is the 1/6 of the
    table.  With a [null] k and the weight 1/2, the k falls back to 2 and
    the weight stays 1/2.  With k = 3 and no weight, the k is 3 and the
    weight falls back to 1/6.  With k = 0 and no weight, [computeScore] returns the mean
    logistic score under k = 2 times 1/6, divided by 1/6. *)
Lemma falsy_k_and_weight_fall_back_witness :
  (exists d,
      wl_variables
        (windowLog
           (score_variable Examples.exp_model Examples.pow_half_model DEFAULT_CONFIG
              [Examples.temp_day 100 10] [Examples.temp_day 0 10]
              [] (DEFAULT_VARIABLE_WEIGHTS DEFAULT_CONFIG) "A" 100
              (mkAcc [] 0 fresh_window_log []) Examples.T))
      = Some (put Examples.T d [])
      /\ d_k_value d = 2 /\ d_weight d = 1 / 6)
  /\ (exists d,
         wl_variables
           (windowLog
              (score_variable Examples.exp_model Examples.pow_half_model DEFAULT_CONFIG
                 [Examples.temp_day 100 10] [Examples.temp_day 0 10]
                 [(Examples.T, VNull)] [(Examples.T, VNum (1 # 2))] "A" 100
                 (mkAcc [] 0 fresh_window_log []) Examples.T))
         = Some (put Examples.T d [])
         /\ d_k_value d = 2 /\ d_weight d = 1 # 2)
  /\ (exists d,
         wl_variables
           (windowLog
              (score_variable Examples.exp_model Examples.pow_half_model DEFAULT_CONFIG
                 [Examples.temp_day 100 10] [Examples.temp_day 0 10]
                 [(Examples.T, VNum 3)] [] "A" 100
                 (mkAcc [] 0 fresh_window_log []) Examples.T))
         = Some (put Examples.T d [])
         /\ d_k_value d = 3 /\ d_weight d = 1 / 6)
  /\ fst (fst (computeScore Examples.exp_model Examples.pow_half_model DEFAULT_CONFIG
                 [Examples.temp_day 100 10] [Examples.temp_day 0 10]
                 [(Examples.T, VNum 0)] [] "A" 100 empty_log))
     = Some (sum [variableScoreOf Examples.exp_model Examples.pow_half_model [(10, 10)] 2
                  * (1 / 6)]
             / sum [1 / 6]).
Proof.
  split; [|split; [|split]].
  - destruct (falsy_k_and_weight_fall_back Examples.exp_model Examples.pow_half_model
                DEFAULT_CONFIG [Examples.temp_day 100 10] [Examples.temp_day 0 10]
                [] (DEFAULT_VARIABLE_WEIGHTS DEFAULT_CONFIG) "A" 100
                (mkAcc [] 0 fresh_window_log []) Examples.T [])
      as [[k [w [d [_ [_ [V [K [W [_ [_ [_ [FK [_ [_ NW]]]]]]]]]]]]]] _].
    + simpl. tauto.
    + reflexivity.
    + reflexivity.
    + exists d. split; [exact V|]. split.
      * rewrite K. apply FK. reflexivity.
      * rewrite W. apply NW; [reflexivity | discriminate].
  - destruct (falsy_k_and_weight_fall_back Examples.exp_model Examples.pow_half_model
                DEFAULT_CONFIG [Examples.temp_day 100 10] [Examples.temp_day 0 10]
                [(Examples.T, VNull)] [(Examples.T, VNum (1 # 2))] "A" 100
                (mkAcc [] 0 fresh_window_log []) Examples.T [])
      as [[k [w [d [_ [_ [V [K [W [_ [_ [_ [FK [_ [_ NW]]]]]]]]]]]]]] _].
    + simpl. tauto.
    + reflexivity.
    + reflexivity.
    + exists d. split; [exact V|]. split.
      * rewrite K. apply FK. reflexivity.
      * rewrite W. apply NW; [reflexivity | discriminate].
  - destruct (falsy_k_and_weight_fall_back Examples.exp_model Examples.pow_half_model
                DEFAULT_CONFIG [Examples.temp_day 100 10] [Examples.temp_day 0 10]
                [(Examples.T, VNum 3)] [] "A" 100
                (mkAcc [] 0 fresh_window_log []) Examples.T [])
      as [[k [w [d [_ [_ [V [K [W [_ [_ [_ [_ [NK [FW _]]]]]]]]]]]]]] _].
    + simpl. tauto.
    + reflexivity.
    + reflexivity.
    + exists d. split; [exact V|]. split.
      * rewrite K. apply NK; [reflexivity | discriminate].
      * rewrite W. apply FW. reflexivity.
  - destruct (falsy_k_and_weight_fall_back Examples.exp_model Examples.pow_half_model
                DEFAULT_CONFIG [Examples.temp_day 100 10] [Examples.temp_day 0 10]
                [(Examples.T, VNum 0)] [] "A" 100
                (mkAcc [] 0 fresh_window_log []) Examples.T [])
      as [_ [_ [CS _]]].
    + simpl. tauto.
    + reflexivity.
    + reflexivity.
    + apply (CS (fun _ => 2) (fun _ => 1 / 6) empty_log).
      * intros v I. vm_compute in I. destruct I as [<-|[]].
        split; [reflexivity|]. split.
        { intros q G N. exfalso. apply N. injection G as <-. reflexivity. }
        split; [reflexivity|]. intros q G. discriminate G.
      * discriminate.
Defined.

End FallbackTheorem.

Section WeightsClaim.
Import Matching.

Lemma validKValues_get_gen (kv : obj jsval) (f : string) (fields : list string) :
  forall acc,
    get f (fold_left
             (fun o field =>
                match get field kv with
                | None | Some VNull => o
                | Some v => put field v o
                end) fields acc)
    = match (if existsb (String.eqb f) fields then present_k (get f kv) else None) with
      | Some v => Some v
      | None => get f acc
      end.
Proof.
  induction fields as [|h r IH]; intros acc; simpl; [reflexivity|].
  rewrite IH. destruct (String.eqb_spec f h) as [->|N]; simpl.
  - destruct (get h kv) as [[| |q]|] eqn:G; simpl;
      try (destruct (existsb (String.eqb h) r); reflexivity);
      rewrite get_put_same; destruct (existsb (String.eqb h) r); reflexivity.
  - destruct (if existsb (String.eqb f) r then present_k (get f kv) else None);
      [reflexivity|].
    destruct (get h kv) as [[| |q]|]; try reflexivity; now apply get_put_other.
Qed.

Lemma validKValues_get (CONFIG : config) (kv : obj jsval) (f : string) :
  get f (validKValues CONFIG kv)
  = if existsb (String.eqb f) (REQUIRED_FIELDS CONFIG) then present_k (get f kv) else None.
Proof.
  unfold validKValues. rewrite validKValues_get_gen.
  now destruct (if existsb _ _ then _ else _).
Qed.

Lemma get_normalized_weights (valid : obj jsval) (f : string) :
  get f (normalized_weights valid)
  = option_map (fun v => div_js v (kSum valid)) (get f valid).
Proof.
  unfold normalized_weights, get. generalize (kSum valid) as s. intros s.
  induction valid as [|[k v] o IH]; simpl; [reflexivity|].
  destruct (String.eqb f k); [reflexivity | exact IH].
Qed.

Lemma values_normalized_weights (valid : obj jsval) :
  values (normalized_weights valid)
  = map (fun v => div_js v (kSum valid)) (values valid).
Proof.
  unfold normalized_weights, values. generalize (kSum valid) as s. intros s.
  induction valid as [|[k v] o IH]; simpl; [reflexivity | now rewrite IH].
Qed.

Lemma plus_js_numbers (qs : list Q) (a : Q) :
  fold_left plus_js (map VNum qs) (Some a) = Some (fold_left Qplus qs a).
Proof. revert a. induction qs as [|q r IH]; intros a; simpl; [reflexivity | apply IH]. Qed.

Lemma sum_map_div (qs : list Q) (s : Q) : sum (map (fun q => q / s) qs) == sum qs / s.
Proof.
  induction qs as [|q r IH]; simpl.
  - unfold sum. simpl. unfold Qdiv. ring.
  - rewrite !sum_cons, IH. unfold Qdiv. ring.
Qed.

(** C2 (as the code has it).  For a crop whose [k_values] object is not
    empty, the weights are derived from the k values of the required fields
    that are present and not [null] (here the numbers [qs]): a field
    without such a k value gets no weight entry and does not enter the
    divisor; every other field gets its k value divided by [kSum], which is
    the sum of those k values when that sum is not 0 and 1 when it is 0.
    So the weights sum to 1 when the sum of the k values is not 0, and to
    0 when it is. *)
Theorem weights_from_k_values
        (CONFIG : config) (cropName : string) (kValues : obj jsval) (L : logData)
        (qs : list Q) :
  (0 < List.length (keys kValues))%nat ->
  values (validKValues CONFIG kValues) = map VNum qs ->
  let weights := fst (derive_weights CONFIG cropName kValues L) in
  let s := kSum (validKValues CONFIG kValues) in
  s = (if Qeq_bool (sum qs) 0 then 1 else sum qs)
  /\ (forall f,
         get f weights
         = option_map (fun v => div_js v s)
             (if existsb (String.eqb f) (REQUIRED_FIELDS CONFIG)
              then present_k (get f kValues) else None))
  /\ values weights = map (fun q => VNum (q / s)) qs
  /\ (~ sum qs == 0 -> sum (map (fun q => q / s) qs) == 1)
  /\ (sum qs == 0 -> sum (map (fun q => q / s) qs) == 0).
Proof.
  intros NE V weights s.
  assert (W : weights = normalized_weights (validKValues CONFIG kValues)).
  { unfold weights, derive_weights. apply Nat.ltb_lt in NE. now rewrite NE. }
  assert (S : s = (if Qeq_bool (sum qs) 0 then 1 else sum qs)).
  { unfold s, kSum. rewrite V, plus_js_numbers. reflexivity. }
  split; [exact S|]. split; [|split; [|split]].
  - intros f. rewrite W, get_normalized_weights, validKValues_get. reflexivity.
  - rewrite W, values_normalized_weights, V, map_map. reflexivity.
  - intros N. rewrite sum_map_div, S.
    destruct (Qeq_bool (sum qs) 0) eqn:E.
    + apply Qeq_bool_iff in E. contradiction.
    + field. exact N.
  - intros Z. rewrite sum_map_div, Z. unfold Qdiv. ring.
Qed.

Lemma weights_from_k_values_witness :
  sum (map (fun q => q / kSum (validKValues DEFAULT_CONFIG Examples.two_k)) [3; 1]) == 1.
Proof.
  refine (proj1 (proj2 (proj2 (proj2
    (weights_from_k_values DEFAULT_CONFIG "A" Examples.two_k empty_log [3; 1] _ _)))) _).
  - simpl. lia.
  - reflexivity.
  - vm_compute. discriminate.
Defined.

(** C2 (as stated) fails: a crop with the k value 0 for each of the six
    default fields has a non-null k value for every required field, yet its
    six weights are 0 and sum to 0, not to 1. *)
Lemma weights_from_k_values_counterexample :
  exists ws,
    values (fst (derive_weights DEFAULT_CONFIG "A" Examples.zero_k empty_log))
    = map VNum ws
    /\ List.length ws = 6%nat
    /\ (forall w, In w ws -> w == 0)
    /\ sum ws == 0 /\ ~ sum ws == 1.
Proof.
  exists [0; 0; 0; 0; 0; 0]. split; [vm_compute; reflexivity|]. split; [reflexivity|]. split.
  - simpl. intros w H. repeat (destruct H as [<-|H]; [reflexivity|]). destruct H.
  - split; [reflexivity | discriminate].
Qed.

End WeightsClaim.

Section ScoreBounds.
Import Matching.
Variables Math_exp Math_pow_half : Q -> Q.
Hypothesis Math_ok : MathSpec Math_exp Math_pow_half.

Lemma of_nat_S (n : nat) : of_nat (S n) == of_nat n + 1.
Proof. unfold of_nat. rewrite Nat2Z.inj_succ, <- Z.add_1_r, inject_Z_plus. reflexivity. Qed.

Lemma of_nat_pos (n : nat) : (0 < n)%nat -> 0 < of_nat n.
Proof.
  intros H. unfold of_nat. change 0 with (inject_Z 0). rewrite <- Zlt_Qlt. lia.
Qed.

Lemma sum_unit_bounds (l : list Q) :
  (forall x, In x l -> 0 <= x /\ x <= 1) -> 0 <= sum l /\ sum l <= of_nat (List.length l).
Proof.
  induction l as [|x r IH]; intros H.
  - unfold sum, of_nat. simpl. split; apply Qle_refl.
  - destruct (IH (fun y I => H y (or_intror I))) as [A B].
    destruct (H x (or_introl eq_refl)) as [C D].
    cbn [List.length]. rewrite sum_cons, of_nat_S. lra.
Qed.

Lemma sum_constant (l : list Q) (c : Q) :
  (forall x, In x l -> x == c) -> sum l == c * of_nat (List.length l).
Proof.
  induction l as [|x r IH]; intros H.
  - unfold sum, of_nat. simpl. ring.
  - cbn [List.length].
    rewrite sum_cons, of_nat_S, (IH (fun y I => H y (or_intror I))),
      (H x (or_introl eq_refl)). ring.
Qed.

Lemma logistic_in_unit (x : Q) : 0 <= 1 / (1 + Math_exp x) /\ 1 / (1 + Math_exp x) <= 1.
Proof.
  pose proof (exp_pos Math_ok x) as P. split.
  - apply Qle_shift_div_l; lra.
  - apply Qle_shift_div_r; lra.
Qed.

Lemma In_logisticScore (ds : list Q) (k x : Q) :
  In x (logisticScore Math_exp Math_pow_half ds k)
  <-> exists d, In d ds /\ x = 1 / (1 + Math_exp (clip ((- k) * Math_pow_half d))).
Proof.
  unfold logisticScore, safeExp. rewrite !map_map, in_map_iff. split.
  - intros [d [<- I]]. eauto.
  - intros [d [I ->]]. eauto.
Qed.

Lemma logisticScore_length (ds : list Q) (k : Q) :
  List.length (logisticScore Math_exp Math_pow_half ds k) = List.length ds.
Proof. unfold logisticScore, safeExp. now rewrite !length_map. Qed.

(** The score of a variable with at least one pair is a mean of
    logistic values. *)
Lemma variableScoreOf_unit (pairs : list (Q * Q)) (k : Q) :
  pairs <> [] ->
  0 <= variableScoreOf Math_exp Math_pow_half pairs k
  /\ variableScoreOf Math_exp Math_pow_half pairs k <= 1.
Proof.
  intros N. unfold variableScoreOf.
  set (l := logisticScore Math_exp Math_pow_half (map relDelta pairs) k).
  assert (B : forall x, In x l -> 0 <= x /\ x <= 1).
  { intros x I. apply In_logisticScore in I. destruct I as [d [_ ->]].
    apply logistic_in_unit. }
  destruct (sum_unit_bounds l B) as [S0 S1].
  assert (P : 0 < of_nat (List.length l)).
  { apply of_nat_pos. unfold l. rewrite logisticScore_length, length_map.
    destruct pairs; [congruence | simpl; lia]. }
  split.
  - apply Qle_shift_div_l; lra.
  - apply Qle_shift_div_r; lra.
Qed.

Lemma clip_small (y : Q) : y == 0 -> clip y = y.
Proof.
  intros E. unfold clip, Qminb, Qmaxb.
  destruct (Qle_bool 709 y) eqn:A.
  - apply Qle_bool_iff in A. lra.
  - destruct (Qle_bool (-709) y) eqn:B; [reflexivity|].
    assert (H : -709 <= y) by lra.
    apply Qle_bool_iff in H. congruence.
Qed.

(** The value of the logistic transform at a relative delta of 0. *)
Lemma logistic_at_zero (k d : Q) :
  d == 0 -> 1 / (1 + Math_exp (clip ((- k) * Math_pow_half d))) == 1 # 2.
Proof.
  intros E.
  assert (Z : (- k) * Math_pow_half d == 0).
  { rewrite (pow_half_zero Math_ok E). ring. }
  rewrite (clip_small _ Z), (exp_zero Math_ok Z). reflexivity.
Qed.

Lemma relDelta_exact (p : Q * Q) : fst p == snd p -> relDelta p == 0.
Proof.
  intros E. unfold relDelta.
  assert (Z : fst p - snd p == 0) by (rewrite E; ring).
  rewrite Z. reflexivity.
Qed.

Lemma variableScoreOf_exact (pairs : list (Q * Q)) (k : Q) :
  pairs <> [] -> (forall p, In p pairs -> fst p == snd p) ->
  variableScoreOf Math_exp Math_pow_half pairs k == 1 # 2.
Proof.
  intros N H. unfold variableScoreOf.
  set (l := logisticScore Math_exp Math_pow_half (map relDelta pairs) k).
  assert (C : forall x, In x l -> x == 1 # 2).
  { intros x I. apply In_logisticScore in I. destruct I as [d [I ->]].
    apply in_map_iff in I. destruct I as [p [<- I]].
    apply logistic_at_zero, relDelta_exact, H, I. }
  assert (P : 0 < of_nat (List.length l)).
  { apply of_nat_pos. unfold l. rewrite logisticScore_length, length_map.
    destruct pairs; [congruence | simpl; lia]. }
  rewrite (sum_constant l (1 # 2) C). field. lra.
Qed.

(** Rounding to four decimals keeps a score inside [0, 1]. *)
Lemma round4_unit (s : Q) : 0 <= s -> s <= 1 -> 0 <= round4 s /\ round4 s <= 1.
Proof.
  intros A B. unfold round4.
  assert (L : (0 <= Qfloor (s * 10000 + (1 # 2)))%Z).
  { assert (H : 1 # 2 <= s * 10000 + (1 # 2)) by lra.
    apply Qfloor_resp_le in H. exact H. }
  assert (U : (Qfloor (s * 10000 + (1 # 2)) <= 10000)%Z).
  { assert (H : s * 10000 + (1 # 2) <= 10000 + (1 # 2)) by lra.
    apply Qfloor_resp_le in H. exact H. }
  rewrite Zle_Qle in L, U.
  change (inject_Z 0) with 0 in L. change (inject_Z 10000) with 10000 in U.
  set (z := inject_Z (Qfloor (s * 10000 + (1 # 2)))) in *. split.
  - apply Qle_shift_div_l; [reflexivity | lra].
  - apply Qle_shift_div_r; [reflexivity | lra].
Qed.

Lemma round4_half (s : Q) : s == 1 # 2 -> round4 s == 1 # 2.
Proof. intros E. unfold round4. rewrite E. reflexivity. Qed.

End ScoreBounds.

Section WeightFacts.
Import Matching.
Variable CONFIG : config.

Lemma plus_js_nonneg (vs : list jsval) :
  (forall q, In (VNum q) vs -> 0 <= q) ->
  forall a, 0 <= a ->
    match fold_left plus_js vs (Some a) with
    | Some b => 0 <= b
    | None => True
    end.
Proof.
  induction vs as [|v r IH]; intros H a A; simpl; [exact A|].
  assert (Hr : forall q, In (VNum q) r -> 0 <= q) by (intros q I; apply H; now right).
  destruct v as [| |q]; simpl.
  - apply IH; [exact Hr | lra].
  - clear. induction r as [|v r IH]; simpl; [exact I | exact IH].
  - apply IH; [exact Hr|]. pose proof (H q (or_introl eq_refl)). lra.
Qed.

Lemma kSum_pos (valid : obj jsval) :
  (forall f q, In (f, VNum q) valid -> 0 <= q) -> 0 < kSum valid.
Proof.
  intros H. unfold kSum.
  assert (Hv : forall q, In (VNum q) (values valid) -> 0 <= q).
  { intros q I. unfold values in I. apply in_map_iff in I.
    destruct I as [[f v] [E I]]. simpl in E. subst v. eapply H, I. }
  pose proof (plus_js_nonneg (values valid) Hv 0 (Qle_refl 0)) as P.
  destruct (fold_left plus_js (values valid) (Some 0)) as [b|]; [|reflexivity].
  destruct (Qeq_bool b 0) eqn:E; [reflexivity|].
  apply Qeq_bool_false in E. lra.
Qed.

Lemma validKValues_In_gen (kv : obj jsval) (f : string) (v : jsval) (fields : list string) :
  forall acc,
    In (f, v) (fold_left
                 (fun o field =>
                    match get field kv with
                    | None | Some VNull => o
                    | Some v => put field v o
                    end) fields acc) ->
    In (f, v) acc \/ get f kv = Some v.
Proof.
  induction fields as [|h r IH]; intros acc I; simpl in I; [now left|].
  destruct (IH _ I) as [J|J]; [|now right].
  destruct (get h kv) as [[| |q]|] eqn:G; auto;
    destruct (In_put _ _ _ _ _ J) as [[-> ->]|K]; auto.
Qed.

Lemma validKValues_In (kv : obj jsval) (f : string) (v : jsval) :
  In (f, v) (validKValues CONFIG kv) -> get f kv = Some v.
Proof.
  intros I. destruct (validKValues_In_gen kv f v _ _ I) as [[]|H]. exact H.
Qed.

Lemma default_weights_In (fields : list string) (f : string) (v : jsval) :
  forall acc,
    In (f, v) (fold_left (fun o field => put field (VNum (1 / nfields CONFIG)) o) fields acc) ->
    In (f, v) acc \/ v = VNum (1 / nfields CONFIG).
Proof.
  induction fields as [|h r IH]; intros acc I; simpl in I; [now left|].
  destruct (IH _ I) as [J|J]; [|now right].
  destruct (In_put _ _ _ _ _ J) as [[_ ->]|K]; auto.
Qed.

Lemma nfields_inv_nonneg : 0 <= 1 / nfields CONFIG.
Proof.
  unfold nfields. destruct (REQUIRED_FIELDS CONFIG) as [|x r].
  - discriminate.
  - apply Qlt_le_weak, Qlt_shift_div_l; [apply of_nat_pos; simpl; lia | reflexivity].
Qed.

Lemma nfields_inv_pos (v : string) : In v (REQUIRED_FIELDS CONFIG) -> 0 < 1 / nfields CONFIG.
Proof.
  intros I. unfold nfields. destruct (REQUIRED_FIELDS CONFIG) as [|x r]; [destruct I|].
  apply Qlt_shift_div_l; [apply of_nat_pos; simpl; lia | reflexivity].
Qed.

(** With no negative k value, no derived weight is negative. *)
Lemma weights_for_nonneg (kv : obj jsval) :
  (forall f k, get f kv = Some (VNum k) -> 0 <= k) ->
  forall f q, In (f, VNum q) (weights_for CONFIG kv) -> 0 <= q.
Proof.
  intros H f q I. unfold weights_for in I.
  destruct (Nat.ltb 0 (List.length (keys kv))).
  - unfold normalized_weights in I. apply in_map_iff in I.
    destruct I as [[f' v] [E I]]. simpl in E. injection E as -> E.
    assert (S : 0 < kSum (validKValues CONFIG kv)).
    { apply kSum_pos. intros g k J. eapply H, validKValues_In, J. }
    destruct v as [| |k]; simpl in E; try discriminate; injection E as <-.
    + apply Qle_shift_div_l; [exact S | lra].
    + apply validKValues_In in I. apply H in I.
      apply Qle_shift_div_l; [exact S | lra].
  - unfold DEFAULT_VARIABLE_WEIGHTS in I.
    destruct (default_weights_In _ _ _ _ I) as [[]|[= ->]]. apply nfields_inv_nonneg.
Qed.

Lemma weightOf_pos (vw : obj jsval) (v : string) :
  (forall f q, In (f, VNum q) vw -> 0 <= q) ->
  In v (REQUIRED_FIELDS CONFIG) -> 0 < weightOf CONFIG vw v.
Proof.
  intros H I. pose proof (nfields_inv_pos v I) as P. unfold weightOf, or_default.
  destruct (get v vw) as [[| |q]|] eqn:G; try exact P.
  destruct (Qeq_bool q 0) eqn:E; [exact P|].
  apply Qeq_bool_false in E. apply get_In, H in G. lra.
Qed.

Lemma weighted_mean_unit (used : list string) (s w : string -> Q) :
  (forall v, In v used -> 0 <= s v /\ s v <= 1 /\ 0 < w v) ->
  0 <= sum (map (fun v => s v * w v) used)
  /\ sum (map (fun v => s v * w v) used) <= sum (map w used)
  /\ (used <> [] -> 0 < sum (map w used)).
Proof.
  induction used as [|x r IH]; intros H.
  - unfold sum. simpl. repeat split; try apply Qle_refl. congruence.
  - destruct (IH (fun v I => H v (or_intror I))) as [A [B C]].
    destruct (H x (or_introl eq_refl)) as [S0 [S1 W]].
    cbn [map]. rewrite !sum_cons.
    assert (P0 : 0 <= s x * w x) by (apply Qmult_le_0_compat; lra).
    assert (P1 : s x * w x <= w x).
    { rewrite <- (Qmult_1_l (w x)) at 2. apply Qmult_le_compat_r; lra. }
    split; [lra|]. split; [lra|]. intros _. lra.
Qed.

End WeightFacts.

Section ReportedScore.
Import Matching.
Variables Math_exp Math_pow_half : Q -> Q.

Lemma window_result_origin CONFIG forecastDf cropDf kv vw i w :
  In w (window_result Math_exp Math_pow_half CONFIG forecastDf cropDf kv vw i) ->
  exists first rest s,
    slice i (List.length cropDf) forecastDf = first :: rest
    /\ window_insufficient CONFIG forecastDf (List.length cropDf) i = false
    /\ window_score Math_exp Math_pow_half CONFIG (first :: rest) cropDf kv vw = Some s
    /\ w = mkWindow (iso_day (date first)) (round4 s).
Proof.
  unfold window_result.
  destruct (slice i (List.length cropDf) forecastDf) as [|first rest] eqn:E; [intros []|].
  destruct (window_insufficient CONFIG forecastDf (List.length cropDf) i) eqn:I;
    [intros []|].
  destruct (window_score Math_exp Math_pow_half CONFIG (first :: rest) cropDf kv vw)
    as [s|] eqn:S; [|intros []].
  intros [<-|[]]. exists first, rest, s. repeat split; auto.
Qed.

(** Where a window of the results comes from. *)
Lemma result_window_origin crops forecastData cc r w :
  In r (fst (runCropMatching Math_exp Math_pow_half crops forecastData cc)) ->
  In w (r_windows r) ->
  exists c dw i first rest s,
    In (r_name r, c) crops /\ daily_weather c = Some dw
    /\ r_k_values_used r = kValues_of c
    /\ In i (window_starts (merge cc) (List.length (sort by_date forecastData))
               (List.length (sort by_date dw)))
    /\ slice i (List.length (sort by_date dw)) (sort by_date forecastData) = first :: rest
    /\ window_insufficient (merge cc) (sort by_date forecastData)
         (List.length (sort by_date dw)) i = false
    /\ window_score Math_exp Math_pow_half (merge cc) (first :: rest) (sort by_date dw)
         (kValues_of c) (weights_for (merge cc) (kValues_of c)) = Some s
    /\ w = mkWindow (iso_day (date first)) (round4 s).
Proof.
  rewrite run_results. intros R W.
  apply in_flat_map in R. destruct R as [[name c] [IC R]].
  unfold crop_result in R.
  destruct (daily_weather c) as [dw|] eqn:D; [|destruct R].
  destruct (Nat.ltb _ _); [destruct R|].
  destruct (Nat.eqb _ 0); [destruct R|].
  destruct (Nat.ltb 0 _); [|destruct R].
  destruct R as [<-|[]]. simpl in W. simpl.
  apply sort_In in W. unfold crop_windows in W.
  apply in_flat_map in W. destruct W as [i [IS W]].
  apply window_result_origin in W. destruct W as [first [rest [s [E [I [S ->]]]]]].
  exists c, dw, i, first, rest, s. repeat split; assumption.
Qed.

Lemma window_score_none CONFIG wd cd kv vw :
  window_score Math_exp Math_pow_half CONFIG wd cd kv vw = None
  <-> scored_fields CONFIG wd cd = [] \/ sum (weights_used CONFIG wd cd vw) == 0.
Proof.
  unfold window_score, weighted_scores. rewrite length_map.
  destruct (scored_fields CONFIG wd cd) as [|v r] eqn:U; simpl.
  - split; auto.
  - destruct (Qeq_bool (sum (weights_used CONFIG wd cd vw)) 0) eqn:E.
    + apply Qeq_bool_iff in E. split; auto.
    + apply Qeq_bool_false in E. split; [discriminate|].
      intros [H|H]; [discriminate | contradiction].
Qed.

Lemma window_score_some CONFIG wd cd kv vw s :
  window_score Math_exp Math_pow_half CONFIG wd cd kv vw = Some s ->
  scored_fields CONFIG wd cd <> []
  /\ ~ sum (weights_used CONFIG wd cd vw) == 0
  /\ s = sum (weighted_scores Math_exp Math_pow_half CONFIG wd cd kv vw)
         / sum (weights_used CONFIG wd cd vw).
Proof.
  intros H.
  destruct (scored_fields CONFIG wd cd) as [|v r] eqn:U.
  - assert (N : window_score Math_exp Math_pow_half CONFIG wd cd kv vw = None)
      by (apply window_score_none; now left).
    congruence.
  - split; [discriminate|].
    unfold window_score, weighted_scores in H. rewrite length_map, U in H. simpl in H.
    destruct (Qeq_bool (sum (weights_used CONFIG wd cd vw)) 0) eqn:E; [discriminate|].
    apply Qeq_bool_false in E. split; [exact E|].
    injection H as <-. unfold weighted_scores. now rewrite U.
Qed.

Hypothesis Math_ok : MathSpec Math_exp Math_pow_half.

Lemma variable_score_unit CONFIG wd cd kv v :
  is_scored wd cd v = true ->
  0 <= variable_score Math_exp Math_pow_half CONFIG wd cd kv v
  /\ variable_score Math_exp Math_pow_half CONFIG wd cd kv v <= 1.
Proof.
  intros S. unfold variable_score. apply (variableScoreOf_unit _ _ Math_ok).
  unfold is_scored in S. apply andb_true_iff in S. destruct S as [_ S].
  destruct (pairsOf wd cd v); [discriminate | discriminate].
Qed.

Lemma window_score_unit CONFIG wd cd kv vw s :
  window_score Math_exp Math_pow_half CONFIG wd cd kv vw = Some s ->
  (forall v, In v (scored_fields CONFIG wd cd) -> 0 < weightOf CONFIG vw v) ->
  0 <= s /\ s <= 1.
Proof.
  intros H W. destruct (window_score_some _ _ _ _ _ _ H) as [N [Z ->]].
  destruct (weighted_mean_unit (scored_fields CONFIG wd cd)
              (variable_score Math_exp Math_pow_half CONFIG wd cd kv)
              (weightOf CONFIG vw)) as [A [B C]].
  { intros v I. pose proof (W v I) as P.
    unfold scored_fields in I. apply filter_In in I. destruct I as [_ I].
    destruct (variable_score_unit CONFIG wd cd kv v I). auto. }
  specialize (C N).
  change (sum (map (fun v => variable_score Math_exp Math_pow_half CONFIG wd cd kv v
                             * weightOf CONFIG vw v) (scored_fields CONFIG wd cd)))
    with (sum (weighted_scores Math_exp Math_pow_half CONFIG wd cd kv vw)) in A, B.
  change (sum (map (weightOf CONFIG vw) (scored_fields CONFIG wd cd)))
    with (sum (weights_used CONFIG wd cd vw)) in B, C.
  split.
  - apply Qle_shift_div_l; lra.
  - apply Qle_shift_div_r; lra.
Qed.

End ReportedScore.

Section HostModels.
Import Matching Examples.

(** The stand-ins meet what is assumed of the host functions. *)
Lemma models_ok : MathSpec exp_model pow_half_model.
Proof.
  split.
  - intros x. unfold exp_model. destruct (Qle_bool 0 x) eqn:E.
    + apply Qle_bool_iff in E. lra.
    + assert (N : x < 0).
      { apply Qnot_le_lt. intros H. apply Qle_bool_iff in H. congruence. }
      apply Qlt_shift_div_l; lra.
  - intros x E. unfold exp_model.
    assert (H : 0 <= x) by lra. apply Qle_bool_iff in H. rewrite H. lra.
  - intros x E. unfold pow_half_model.
    destruct (Qeq_bool x 4) eqn:F; [|exact E].
    apply Qeq_bool_iff in F. lra.
Qed.

Lemma models_grow : HostGrowth exp_model pow_half_model.
Proof.
  split.
  - intros x. unfold exp_model. destruct (Qle_bool 0 x) eqn:E; [lra|].
    assert (N : x < 0).
    { apply Qnot_le_lt. intros H. apply Qle_bool_iff in H. congruence. }
    apply Qle_shift_div_l; [lra|].
    assert (S : 0 <= x * x) by (apply Qsqr_nonneg || nra). lra.
  - intros x E. unfold pow_half_model. apply Qeq_bool_iff in E. now rewrite E.
Qed.

End HostModels.

Section ReportedScoreClaim.
Import Matching.

(** C1 (as the code has it).  Every window of the results of a crop
    comes from a start index of the loop over the forecast sorted by date:
    its days are the slice of the sorted forecast at that index, as long as
    the crop's sorted daily weather, its start is the day of the first of
    them, it passed the completeness gate, and on it the loop over the
    required fields scored at least one variable with a total weight other
    than 0.  Its reported score is the sum of the weighted scores of the
    variables that produced a score on that slice against the crop's
    sorted daily weather, with the crop's k values and the weights derived
    from them, divided by the sum of the weights of those variables only,
    rounded to four decimals.  The reported score lies in [0, 1] when the
    crop has no negative k value.  [computeScore] returns [null] exactly
    when no variable produced a score or the weights used sum to 0, and
    on such a window the turn of the loop leaves the windows of the crop as
    they were: it adds nothing to the results. *)
Theorem reported_score_is_weighted_mean
        (Math_exp Math_pow_half : Q -> Q) (crops : obj crop) (forecastData : list day)
        (clientConfig : client_config) (r : result) (w : window) :
  MathSpec Math_exp Math_pow_half ->
  In r (fst (runCropMatching Math_exp Math_pow_half crops forecastData clientConfig)) ->
  In w (r_windows r) ->
  (exists c dw i first rest,
      let CONFIG := merge clientConfig in
      let forecastDf := sort by_date forecastData in
      let cropData := sort by_date dw in
      let windowData := first :: rest in
      let kValues := kValues_of c in
      let variableWeights := weights_for CONFIG kValues in
      In (r_name r, c) crops
      /\ daily_weather c = Some dw
      /\ r_k_values_used r = kValues
      /\ In i (window_starts CONFIG (List.length forecastDf) (List.length cropData))
      /\ slice i (List.length cropData) forecastDf = windowData
      /\ w_start w = iso_day (date first)
      /\ window_insufficient CONFIG forecastDf (List.length cropData) i = false
      /\ scored_fields CONFIG windowData cropData <> []
      /\ ~ sum (weights_used CONFIG windowData cropData variableWeights) == 0
      /\ (forall cropName windowStart L,
             fst (fst (computeScore Math_exp Math_pow_half CONFIG
                         windowData cropData kValues variableWeights
                         cropName windowStart L))
             = Some (sum (weighted_scores Math_exp Math_pow_half CONFIG
                            windowData cropData kValues variableWeights)
                     / sum (weights_used CONFIG windowData cropData variableWeights)))
      /\ w_score w
         = round4 (sum (weighted_scores Math_exp Math_pow_half CONFIG
                          windowData cropData kValues variableWeights)
                   / sum (weights_used CONFIG windowData cropData variableWeights))
      /\ ((forall f k, get f kValues = Some (VNum k) -> 0 <= k) ->
          0 <= w_score w /\ w_score w <= 1))
  /\ (forall CONFIG windowData cropData kValues variableWeights cropName windowStart L,
         fst (fst (computeScore Math_exp Math_pow_half CONFIG windowData cropData
                     kValues variableWeights cropName windowStart L)) = None
         <-> scored_fields CONFIG windowData cropData = []
             \/ sum (weights_used CONFIG windowData cropData variableWeights) == 0)
  /\ (forall CONFIG forecastDf cropDf kValues variableWeights i,
         window_score Math_exp Math_pow_half CONFIG
           (slice i (List.length cropDf) forecastDf) cropDf kValues variableWeights = None ->
         window_result Math_exp Math_pow_half CONFIG forecastDf cropDf
           kValues variableWeights i = []
         /\ (forall cropName L cropWindows,
                slice i (List.length cropDf) forecastDf <> [] ->
                exists L',
                  process_window Math_exp Math_pow_half CONFIG forecastDf cropDf
                    (List.length cropDf) kValues variableWeights cropName
                    (L, cropWindows) i
                  = Normal (L', cropWindows))).
Proof.
  intros M R W. split; [|split].
  - destruct (result_window_origin Math_exp Math_pow_half crops forecastData clientConfig
                r w R W)
      as [c [dw [i [first [rest [s [IC [D [K [IS [E [I [S ->]]]]]]]]]]]]].
    destruct (window_score_some _ _ _ _ _ _ _ _ S) as [N [Z Es]].
    exists c, dw, i, first, rest. cbv zeta.
    split; [exact IC|]. split; [exact D|]. split; [exact K|]. split; [exact IS|].
    split; [exact E|]. split; [reflexivity|]. split; [exact I|].
    split; [exact N|]. split; [exact Z|]. split; [|split].
    + intros cropName windowStart L. rewrite computeScore_score, S, Es. reflexivity.
    + simpl. now rewrite Es.
    + intros NN. simpl. apply round4_unit;
        apply (window_score_unit Math_exp Math_pow_half M (merge clientConfig)
                 (first :: rest) (sort by_date dw) (kValues_of c)
                 (weights_for (merge clientConfig) (kValues_of c)) s S);
        intros v Iv; apply weightOf_pos;
          try (apply weights_for_nonneg; exact NN);
          unfold scored_fields in Iv; apply filter_In in Iv; tauto.
  - intros. rewrite computeScore_score. apply window_score_none.
  - intros CONFIG forecastDf cropDf kValues variableWeights i H.
    assert (WR : window_result Math_exp Math_pow_half CONFIG forecastDf cropDf
                   kValues variableWeights i = []).
    { unfold window_result. rewrite H.
      destruct (slice i (List.length cropDf) forecastDf); [reflexivity|].
      now destruct (window_insufficient CONFIG forecastDf (List.length cropDf) i). }
    split; [exact WR|].
    intros cropName L cropWindows NE.
    destruct (slice i (List.length cropDf) forecastDf) as [|first rest] eqn:E;
      [congruence|].
    destruct (process_window_spec Math_exp Math_pow_half CONFIG forecastDf cropDf
                kValues variableWeights cropName L cropWindows i first rest E)
      as [L' [PW _]].
    rewrite WR, app_nil_r in PW. exists L'. exact PW.
Qed.

(** The best window of the scenario, with the temperature as the only
    required field: it starts on day 101, where the forecast reads 12 and
    10 against the crop's 10 and 12, and its 0.5774 is the rounded mean
    over those two days. *)
Lemma reported_score_is_weighted_mean_witness :
  exists i first rest,
    slice i 2 (sort by_date Examples.scenario_forecast) = first :: rest
    /\ first :: rest = [Examples.temp_day 101 12; Examples.temp_day 102 10]
    /\ iso_day (date first) = 101%Z
    /\ 5774 # 10000
       = round4 (sum (weighted_scores Examples.exp_model Examples.pow_half_model
                        (merge Examples.scenario_single_field) (first :: rest)
                        (sort by_date [Examples.temp_day 0 10; Examples.temp_day 1 12])
                        [(Examples.T, VNum 2)]
                        (weights_for (merge Examples.scenario_single_field)
                           [(Examples.T, VNum 2)]))
                 / sum (weights_used (merge Examples.scenario_single_field) (first :: rest)
                          (sort by_date [Examples.temp_day 0 10; Examples.temp_day 1 12])
                          (weights_for (merge Examples.scenario_single_field)
                             [(Examples.T, VNum 2)])))
    /\ 0 <= 5774 # 10000 /\ 5774 # 10000 <= 1.
Proof.
  destruct (reported_score_is_weighted_mean
              Examples.exp_model Examples.pow_half_model
              [("A"%string, Examples.scenario_crop)] Examples.scenario_forecast
              Examples.scenario_single_field
              (mkResult "A" None None 2 [(Examples.T, VNum 2)]
                 [mkWindow 101 (5774 # 10000); mkWindow 100 (5000 # 10000);
                  mkWindow 102 (5000 # 10000)])
              (mkWindow 101 (5774 # 10000)) models_ok)
    as [[c [dw [i [first [rest [IC [D [_ [IS [E [WS [_ [_ [_ [_ [SC B]]]]]]]]]]]]]]]] _].
  - vm_compute. left. reflexivity.
  - simpl. left. reflexivity.
  - destruct IC as [Ec|[]]. injection Ec as <-.
    injection D as <-.
    exists i, first, rest.
    cbn [w_start w_score] in WS, SC.
    split; [exact E|].
    split.
    { rewrite <- E. clear - IS WS E.
      vm_compute in IS.
      destruct IS as [<-|[<-|[<-|[]]]]; vm_compute in E; injection E as <- <-;
        vm_compute in WS; try discriminate WS; reflexivity. }
    split; [symmetry; exact WS|].
    split; [exact SC|].
    apply B.
    intros f k G. simpl in G. unfold get in G. simpl in G.
    destruct (String.eqb f Examples.T); [|discriminate].
    injection G as <-. discriminate.
Defined.

End ReportedScoreClaim.

Section ExactMatch.
Import Matching.
Variables Math_exp Math_pow_half : Q -> Q.
Hypothesis Math_ok : MathSpec Math_exp Math_pow_half.

Lemma sum_map_scaled {A} (l : list A) (f g : A -> Q) (c : Q) :
  (forall x, In x l -> f x == c * g x) -> sum (map f l) == c * sum (map g l).
Proof.
  induction l as [|x r IH]; intros H.
  - unfold sum. simpl. ring.
  - cbn [map]. rewrite !sum_cons, (H x (or_introl eq_refl)),
      (IH (fun y I => H y (or_intror I))). ring.
Qed.

(** A window on which every valid pair of every scored variable is an
    exact match scores 1/2, whatever the k values and the weights. *)
Lemma window_score_exact CONFIG wd cd kv vw s :
  window_score Math_exp Math_pow_half CONFIG wd cd kv vw = Some s ->
  (forall v, In v (scored_fields CONFIG wd cd) ->
             forall p, In p (pairsOf wd cd v) -> fst p == snd p) ->
  s == 1 # 2.
Proof.
  intros H X. destruct (window_score_some _ _ _ _ _ _ _ _ H) as [N [Z ->]].
  unfold weighted_scores, weights_used in *.
  rewrite (sum_map_scaled (scored_fields CONFIG wd cd)
             (weighted_score Math_exp Math_pow_half CONFIG wd cd kv vw)
             (weightOf CONFIG vw) (1 # 2)).
  - field. exact Z.
  - intros v I. unfold weighted_score, variable_score.
    rewrite (variableScoreOf_exact _ _ Math_ok); [reflexivity| |now apply X].
    unfold scored_fields in I. apply filter_In in I. destruct I as [_ I].
    unfold is_scored in I. apply andb_true_iff in I. destruct I as [_ I].
    destruct (pairsOf wd cd v); discriminate.
Qed.

(** A window that passes the gate and has a scored variable with a
    total weight other than 0 is in the crop's result. *)
Lemma window_in_results crops forecastData cc name c dw i first rest :
  In (name, c) crops -> daily_weather c = Some dw ->
  (List.length (sort by_date dw) <= List.length (sort by_date forecastData))%nat ->
  In i (window_starts (merge cc) (List.length (sort by_date forecastData))
          (List.length (sort by_date dw))) ->
  slice i (List.length (sort by_date dw)) (sort by_date forecastData) = first :: rest ->
  window_insufficient (merge cc) (sort by_date forecastData)
    (List.length (sort by_date dw)) i = false ->
  scored_fields (merge cc) (first :: rest) (sort by_date dw) <> [] ->
  ~ sum (weights_used (merge cc) (first :: rest) (sort by_date dw)
           (weights_for (merge cc) (kValues_of c))) == 0 ->
  exists s,
    window_score Math_exp Math_pow_half (merge cc) (first :: rest) (sort by_date dw)
      (kValues_of c) (weights_for (merge cc) (kValues_of c)) = Some s
    /\ In (mkResult name (variety c) (region c) (List.length (sort by_date dw))
             (kValues_of c)
             (sort by_score_desc
                (crop_windows Math_exp Math_pow_half (merge cc)
                   (sort by_date forecastData) (sort by_date dw) (kValues_of c))))
          (fst (runCropMatching Math_exp Math_pow_half crops forecastData cc))
    /\ In (mkWindow (iso_day (date first)) (round4 s))
          (sort by_score_desc
             (crop_windows Math_exp Math_pow_half (merge cc)
                (sort by_date forecastData) (sort by_date dw) (kValues_of c))).
Proof.
  intros IC D LE IS E I N Z.
  destruct (window_score Math_exp Math_pow_half (merge cc) (first :: rest)
              (sort by_date dw) (kValues_of c) (weights_for (merge cc) (kValues_of c)))
    as [s|] eqn:S.
  2:{ apply window_score_none in S. tauto. }
  assert (W : In (mkWindow (iso_day (date first)) (round4 s))
                (crop_windows Math_exp Math_pow_half (merge cc) (sort by_date forecastData)
                   (sort by_date dw) (kValues_of c))).
  { unfold crop_windows. apply in_flat_map. exists i. split; [exact IS|].
    unfold window_result. rewrite E, I, S. now left. }
  exists s. split; [reflexivity|]. split.
  - rewrite run_results. apply in_flat_map. exists (name, c). split; [exact IC|].
    unfold crop_result. rewrite D. cbv zeta.
    apply Nat.ltb_ge in LE. rewrite LE.
    destruct (Nat.eqb_spec (List.length (sort by_date dw)) 0) as [Z0|_].
    { rewrite Z0 in E. discriminate E. }
    destruct (crop_windows Math_exp Math_pow_half (merge cc) (sort by_date forecastData)
                (sort by_date dw) (kValues_of c)) eqn:C; [destruct W|].
    simpl. left. reflexivity.
  - now apply sort_In.
Qed.

(** When moreover every valid pair of its scored variables is an exact
    match, its reported score is 1/2. *)
Lemma exact_window_in_results crops forecastData cc name c dw i first rest :
  In (name, c) crops -> daily_weather c = Some dw ->
  let CONFIG := merge cc in
  let forecastDf := sort by_date forecastData in
  let cropDf := sort by_date dw in
  let kv := kValues_of c in
  let vw := weights_for CONFIG kv in
  (List.length cropDf <= List.length forecastDf)%nat ->
  In i (window_starts CONFIG (List.length forecastDf) (List.length cropDf)) ->
  slice i (List.length cropDf) forecastDf = first :: rest ->
  window_insufficient CONFIG forecastDf (List.length cropDf) i = false ->
  scored_fields CONFIG (first :: rest) cropDf <> [] ->
  ~ sum (weights_used CONFIG (first :: rest) cropDf vw) == 0 ->
  (forall v, In v (scored_fields CONFIG (first :: rest) cropDf) ->
             forall p, In p (pairsOf (first :: rest) cropDf v) -> fst p == snd p) ->
  let r := mkResult name (variety c) (region c) (List.length cropDf) kv
             (sort by_score_desc
                (crop_windows Math_exp Math_pow_half CONFIG forecastDf cropDf kv)) in
  In r (fst (runCropMatching Math_exp Math_pow_half crops forecastData cc))
  /\ exists w, In w (r_windows r) /\ w_start w = iso_day (date first) /\ w_score w == 1 # 2.
Proof.
  intros IC D CONFIG forecastDf cropDf kv vw LE IS E I N Z X r.
  subst r vw kv cropDf forecastDf CONFIG.
  destruct (window_in_results crops forecastData cc name c dw i first rest
              IC D LE IS E I N Z) as [s [S [R W]]].
  split; [exact R|].
  exists (mkWindow (iso_day (date first)) (round4 s)). split; [exact W|].
  split; [reflexivity|]. simpl. apply round4_half.
  exact (window_score_exact (merge cc) (first :: rest) (sort by_date dw) (kValues_of c)
           (weights_for (merge cc) (kValues_of c)) s S X).
Qed.

End ExactMatch.

(** Discharges the next premise of [H], a fact about the concrete
    scenario, by evaluation. *)
Ltac side_condition H :=
  match type of H with
  | ?A -> _ =>
      let a := fresh "a" in
      assert (a : A) by (vm_compute; first [lia | tauto | reflexivity | discriminate]);
      specialize (H a); clear a
  end.


Section ScenarioClaim.
Import Matching Examples.

Lemma scenario_exact_pairs (CONFIG : config) (first : day) (rest : list day) :
  (CONFIG = merge scenario_single_field \/ CONFIG = merge scenario_step_only) ->
  In (first :: rest)
     [[temp_day 100 10; temp_day 101 12]; [temp_day 102 10; temp_day 103 12];
      [full_day 100 10; full_day 101 12]; [full_day 102 10; full_day 103 12]] ->
  forall v,
    In v (scored_fields CONFIG (first :: rest)
            (sort by_date [temp_day 0 10; temp_day 1 12])) ->
    forall p,
      In p (pairsOf (first :: rest) (sort by_date [temp_day 0 10; temp_day 1 12]) v) ->
      fst p == snd p.
Proof.
  intros [-> | ->] [E|[E|[E|[E|[]]]]] v Iv p Ip; injection E as <- <-;
    vm_compute in Iv; repeat (destruct Iv as [<-|Iv]); try (destruct Iv);
    vm_compute in Ip; repeat (destruct Ip as [<-|Ip]); try (destruct Ip); reflexivity.
Qed.

(** C8 (as the code has it).  A relative delta of 0 gives the daily
    logistic score 1/2 for every k.  In the scenario of the design
    document (a crop of two days, 10 and 12 degrees, k = 2, against the
    forecast 10, 12, 10, 12 with [STEP_SIZE] 1), the windows at offsets 0
    and 2 are scored and both are reported with the score 1/2 once they
    pass the completeness gate: when the maximum temperature is the only
    required field, or when the records of the forecast also carry the five
    other default fields. *)
Theorem exact_match_scores_one_half (Math_exp Math_pow_half : Q -> Q) :
  MathSpec Math_exp Math_pow_half ->
  (forall k d x, d == 0 -> In x (logisticScore Math_exp Math_pow_half [d] k) -> x == 1 # 2)
  /\ (exists r w0 w2,
         In r (fst (runCropMatching Math_exp Math_pow_half [("A"%string, scenario_crop)]
                      scenario_forecast scenario_single_field))
         /\ In w0 (r_windows r) /\ w_start w0 = 100%Z /\ w_score w0 == 1 # 2
         /\ In w2 (r_windows r) /\ w_start w2 = 102%Z /\ w_score w2 == 1 # 2)
  /\ (exists r w0 w2,
         In r (fst (runCropMatching Math_exp Math_pow_half [("A"%string, scenario_crop)]
                      scenario_full_forecast scenario_step_only))
         /\ In w0 (r_windows r) /\ w_start w0 = 100%Z /\ w_score w0 == 1 # 2
         /\ In w2 (r_windows r) /\ w_start w2 = 102%Z /\ w_score w2 == 1 # 2).
Proof.
  intros M. split; [|split].
  - intros k d x E I. apply In_logisticScore in I. destruct I as [d' [[<-|[]] ->]].
    now apply logistic_at_zero.
  - pose proof (exact_window_in_results Math_exp Math_pow_half M
                  [("A"%string, scenario_crop)] scenario_forecast scenario_single_field
                  "A" scenario_crop [temp_day 0 10; temp_day 1 12] 0
                  (temp_day 100 10) [temp_day 101 12] (or_introl eq_refl) eq_refl) as H0.
    pose proof (exact_window_in_results Math_exp Math_pow_half M
                  [("A"%string, scenario_crop)] scenario_forecast scenario_single_field
                  "A" scenario_crop [temp_day 0 10; temp_day 1 12] 2
                  (temp_day 102 10) [temp_day 103 12] (or_introl eq_refl) eq_refl) as H2.
    cbv zeta in H0, H2.
    do 6 side_condition H0. do 6 side_condition H2.
    specialize (H0 (scenario_exact_pairs _ _ _ (or_introl eq_refl) (or_introl eq_refl))).
    specialize (H2 (scenario_exact_pairs _ _ _ (or_introl eq_refl)
                      (or_intror (or_introl eq_refl)))).
    destruct H0 as [R [w0 [I0 [S0 V0]]]]. destruct H2 as [_ [w2 [I2 [S2 V2]]]].
    eexists. exists w0, w2.
    exact (conj R (conj I0 (conj S0 (conj V0 (conj I2 (conj S2 V2)))))).
  - pose proof (exact_window_in_results Math_exp Math_pow_half M
                  [("A"%string, scenario_crop)] scenario_full_forecast scenario_step_only
                  "A" scenario_crop [temp_day 0 10; temp_day 1 12] 0
                  (full_day 100 10) [full_day 101 12] (or_introl eq_refl) eq_refl) as H0.
    pose proof (exact_window_in_results Math_exp Math_pow_half M
                  [("A"%string, scenario_crop)] scenario_full_forecast scenario_step_only
                  "A" scenario_crop [temp_day 0 10; temp_day 1 12] 2
                  (full_day 102 10) [full_day 103 12] (or_introl eq_refl) eq_refl) as H2.
    cbv zeta in H0, H2.
    do 6 side_condition H0. do 6 side_condition H2.
    specialize (H0 (scenario_exact_pairs _ _ _ (or_intror eq_refl)
                      (or_intror (or_intror (or_introl eq_refl))))).
    specialize (H2 (scenario_exact_pairs _ _ _ (or_intror eq_refl)
                      (or_intror (or_intror (or_intror (or_introl eq_refl)))))).
    destruct H0 as [R [w0 [I0 [S0 V0]]]]. destruct H2 as [_ [w2 [I2 [S2 V2]]]].
    eexists. exists w0, w2.
    exact (conj R (conj I0 (conj S0 (conj V0 (conj I2 (conj S2 V2)))))).
Qed.

Lemma exact_match_scores_one_half_witness :
  exists r w0 w2,
    In r (fst (runCropMatching exp_model pow_half_model [("A"%string, scenario_crop)]
                 scenario_forecast scenario_single_field))
    /\ In w0 (r_windows r) /\ w_start w0 = 100%Z /\ w_score w0 == 1 # 2
    /\ In w2 (r_windows r) /\ w_start w2 = 102%Z /\ w_score w2 == 1 # 2.
Proof.
  exact (proj1 (proj2 (exact_match_scores_one_half exp_model pow_half_model models_ok))).
Defined.

(** C8 (as stated) fails.  With [STEP_SIZE] = 1 and nothing else
    overridden, the six default fields are required; each window of the
    forecast carries 2 valid values on 12 slots, below the 85% the gate
    asks for, so no window is scored and the run has no result, whatever
    the host functions. *)
Lemma scenario_counterexample :
  ~ (exists Math_exp Math_pow_half r,
        In r (fst (runCropMatching Math_exp Math_pow_half [("A"%string, scenario_crop)]
                     scenario_forecast scenario_step_only))).
Proof.
  intros [Math_exp [Math_pow_half [r H]]].
  rewrite run_results in H. vm_compute in H. exact H.
Qed.

End ScenarioClaim.

Section OutOfRange.
Import Matching Examples.

Lemma clip_inside (y : Q) : -709 <= y -> y < 709 -> clip y = y.
Proof.
  intros A B. unfold clip, Qminb, Qmaxb.
  destruct (Qle_bool 709 y) eqn:E.
  - apply Qle_bool_iff in E. lra.
  - apply Qle_bool_iff in A. now rewrite A.
Qed.

Lemma round4_mono (a b : Q) : a <= b -> round4 a <= round4 b.
Proof.
  intros H. unfold round4.
  assert (F : (Qfloor (a * 10000 + (1 # 2)) <= Qfloor (b * 10000 + (1 # 2)))%Z)
    by (apply Qfloor_resp_le; lra).
  rewrite Zle_Qle in F.
  apply Qle_shift_div_l; [reflexivity|].
  unfold Qdiv. rewrite <- Qmult_assoc, (Qmult_comm (/ 10000)), Qmult_inv_r, Qmult_1_r;
    [exact F | discriminate].
Qed.

(** The score of the window of [negative_k_crop], whatever the host
    functions: the temperature matches exactly and scores 1/2 with weight
    3, the precipitation scores at most 1/6 with weight -2. *)
Lemma negative_k_score (Math_exp Math_pow_half : Q -> Q) (s : Q) :
  MathSpec Math_exp Math_pow_half -> HostGrowth Math_exp Math_pow_half ->
  window_score Math_exp Math_pow_half (merge two_fields) negative_k_forecast
    (sort by_date [mkDay 0 [(T, VNum 10); (P, VNum 0)]])
    (kValues_of negative_k_crop) (weights_for (merge two_fields) (kValues_of negative_k_crop))
  = Some s ->
  7 # 6 <= s.
Proof.
  intros M G S.
  destruct (window_score_some _ _ _ _ _ _ _ _ S) as [_ [_ ->]].
  unfold weighted_scores, weights_used.
  change (scored_fields (merge two_fields) negative_k_forecast
            (sort by_date [mkDay 0 [(T, VNum 10); (P, VNum 0)]])) with [T; P].
  cbn [map]. unfold weighted_score, variable_score.
  change (pairsOf negative_k_forecast
            (sort by_date [mkDay 0 [(T, VNum 10); (P, VNum 0)]]) P)
    with [(4 # 100000, 0)].
  change (kOf (merge two_fields) (kValues_of negative_k_crop) P) with (-2).
  set (wT := weightOf (merge two_fields)
               (weights_for (merge two_fields) (kValues_of negative_k_crop)) T).
  set (wP := weightOf (merge two_fields)
               (weights_for (merge two_fields) (kValues_of negative_k_crop)) P).
  assert (WT : wT == 3) by reflexivity.
  assert (WP : wP == -2) by reflexivity.
  set (vT := variableScoreOf Math_exp Math_pow_half
               (pairsOf negative_k_forecast
                  (sort by_date [mkDay 0 [(T, VNum 10); (P, VNum 0)]]) T)
               (kOf (merge two_fields) (kValues_of negative_k_crop) T)).
  assert (VT : vT == 1 # 2).
  { apply (variableScoreOf_exact _ _ M); [discriminate|].
    intros p Ip. vm_compute in Ip. destruct Ip as [<-|[]]. reflexivity. }
  unfold variableScoreOf, logisticScore, safeExp. cbn [map List.length].
  set (y := - -2 * Math_pow_half (relDelta (4 # 100000, 0))).
  assert (Y : y == 4).
  { unfold y. rewrite (pow_half_four G (x := relDelta (4 # 100000, 0))); reflexivity. }
  assert (C : clip y = y) by (apply clip_inside; lra).
  rewrite C.
  pose proof (exp_above G y) as E.
  set (e := Math_exp y) in *.
  assert (X : 1 / (1 + e) <= 1 # 6) by (apply Qle_shift_div_r; lra).
  set (x := 1 / (1 + e)) in *.
  assert (N : sum [vT * wT; (sum [x] / of_nat 1) * wP] == (1 # 2) * 3 + x * -2).
  { rewrite !sum_cons, WT, WP, VT. unfold sum, of_nat. simpl fold_left.
    change (inject_Z (Z.of_nat 1)) with 1. field. }
  assert (D : sum [wT; wP] == 1).
  { rewrite !sum_cons, WT, WP. reflexivity. }
  rewrite N, D.
  assert (Z1 : forall a, a / 1 == a) by (intros a; field). rewrite Z1. lra.
Qed.

(** C1 (as stated) fails.  A crop with k = 3 for the temperature and
    k = -2 for the precipitation gets the weights 3 and -2.  On a forecast
    day that matches its temperature and misses its precipitation by four
    times the epsilon, the temperature scores 1/2 and the precipitation
    [1 / (1 + exp 4)], so the score is at least 7/6 and the reported score
    at least 1.1667: no exponential and no square root put it in [0, 1]. *)
Lemma reported_score_counterexample :
  ~ (exists Math_exp Math_pow_half,
        MathSpec Math_exp Math_pow_half /\ HostGrowth Math_exp Math_pow_half
        /\ forall r w,
             In r (fst (runCropMatching Math_exp Math_pow_half
                          [("A"%string, negative_k_crop)] negative_k_forecast two_fields)) ->
             In w (r_windows r) -> 0 <= w_score w /\ w_score w <= 1).
Proof.
  intros [Math_exp [Math_pow_half [M [G H]]]].
  pose proof (window_in_results Math_exp Math_pow_half
                [("A"%string, negative_k_crop)] negative_k_forecast two_fields
                "A" negative_k_crop [mkDay 0 [(T, VNum 10); (P, VNum 0)]] 0
                (mkDay (100 * 86400000) [(T, VNum 10); (P, VNum (4 # 100000))]) []
                (or_introl eq_refl) eq_refl) as W.
  do 6 side_condition W.
  destruct W as [s [S [R I]]].
  destruct (H _ _ R I) as [_ B]. simpl in B.
  pose proof (negative_k_score Math_exp Math_pow_half s M G S) as L.
  apply round4_mono in L.
  assert (F : round4 (7 # 6) <= 1) by (eapply Qle_trans; [exact L | exact B]).
  apply F. reflexivity.
Qed.

(** The stand-ins are admissible host functions: the statement refuted
    above is not empty. *)
Lemma admissible_host_functions :
  exists Math_exp Math_pow_half,
    MathSpec Math_exp Math_pow_half /\ HostGrowth Math_exp Math_pow_half.
Proof. exists exp_model, pow_half_model. split; [apply models_ok | apply models_grow]. Qed.

End OutOfRange.

(* ================================================================== *)
(** * Further properties of the matching engine *)

Section Accounting.
Import Matching.
Variables Math_exp Math_pow_half : Q -> Q.
Variable CONFIG : config.

Local Abbreviation csummary := (crop_summary Math_exp Math_pow_half CONFIG).
Local Abbreviation cresult := (crop_result Math_exp Math_pow_half CONFIG).

Lemma crop_summary_outcomes forecastDf e s :
  crops_processed (csummary forecastDf e s) = S (crops_processed s)
  /\ crops_successful (csummary forecastDf e s)
     = (crops_successful s + List.length (cresult forecastDf e))%nat
  /\ (crops_disqualified_duration (csummary forecastDf e s)
      + crops_no_valid_windows (csummary forecastDf e s)
      + crops_successful (csummary forecastDf e s)
      + (if throws_at (snd e) then 1 else 0)
      = crops_disqualified_duration s + crops_no_valid_windows s + crops_successful s + 1)%nat.
Proof.
  destruct e as [name c]. unfold crop_summary, crop_result, throws_at. cbn [snd].
  destruct (daily_weather c) as [dw|]; simpl; [|lia].
  rewrite sort_length.
  destruct (Nat.ltb_spec (List.length forecastDf) (List.length dw)); simpl.
  { destruct (Nat.eqb_spec (List.length dw) 0); lia. }
  destruct (Nat.eqb (List.length dw) 0); simpl; [lia|].
  destruct (Nat.ltb 0 _); simpl; lia.
Qed.

Lemma crop_summary_windows forecastDf e s :
  (windows_insufficient_data s + windows_successful s <= total_windows_processed s)%nat ->
  (windows_insufficient_data (csummary forecastDf e s)
   + windows_successful (csummary forecastDf e s)
   <= total_windows_processed (csummary forecastDf e s))%nat.
Proof.
  intros H. destruct e as [name c]. unfold crop_summary. cbn [snd].
  destruct (daily_weather c) as [dw|]; [|destruct s; simpl in *; lia].
  cbv zeta.
  destruct (Nat.ltb _ _); [destruct s; simpl in *; lia|].
  destruct (Nat.eqb_spec (List.length (sort by_date dw)) 0) as [Z|NZ];
    [destruct s; simpl in *; lia|].
  set (starts := window_starts CONFIG (List.length forecastDf)
                   (List.length (sort by_date dw))).
  assert (B : (List.length (filter (window_insufficient CONFIG forecastDf
                                      (List.length (sort by_date dw))) starts)
               + List.length (crop_windows Math_exp Math_pow_half CONFIG forecastDf
                                (sort by_date dw) (kValues_of c))
               <= List.length starts)%nat).
  { unfold crop_windows. fold starts. clearbody starts.
    induction starts as [|i r IH]; simpl; [lia|].
    rewrite length_app.
    assert (W : (List.length (window_result Math_exp Math_pow_half CONFIG forecastDf
                                (sort by_date dw) (kValues_of c)
                                (weights_for CONFIG (kValues_of c)) i)
                 <= if window_insufficient CONFIG forecastDf
                         (List.length (sort by_date dw)) i then 0 else 1)%nat).
    { unfold window_result.
      destruct (slice i (List.length (sort by_date dw)) forecastDf);
        [destruct (window_insufficient _ _ _ _); simpl; lia|].
      destruct (window_insufficient _ _ _ _); simpl; [lia|].
      destruct (window_score _ _ _ _ _ _ _); simpl; lia. }
    destruct (window_insufficient CONFIG forecastDf (List.length (sort by_date dw)) i);
      simpl in *; lia. }
  subst starts. destruct s.
  destruct (Nat.ltb 0 _);
    cbn [windows_insufficient_data windows_successful total_windows_processed
         inc_crops_successful inc_crops_no_valid_windows inc_crops_processed
         crops_processed crops_disqualified_duration crops_no_valid_windows
         crops_successful] in *; lia.
Qed.

Lemma accounting_fold forecastDf crops :
  forall s,
    let s' := fold_left (fun s e => csummary forecastDf e s) crops s in
    crops_processed s' = (crops_processed s + List.length crops)%nat
    /\ crops_successful s'
       = (crops_successful s + List.length (flat_map (cresult forecastDf) crops))%nat
    /\ (crops_disqualified_duration s' + crops_no_valid_windows s' + crops_successful s'
        + List.length (filter (fun e => throws_at (snd e)) crops)
        = crops_disqualified_duration s + crops_no_valid_windows s + crops_successful s
          + List.length crops)%nat
    /\ ((windows_insufficient_data s + windows_successful s
         <= total_windows_processed s)%nat ->
        (windows_insufficient_data s' + windows_successful s'
         <= total_windows_processed s')%nat).
Proof.
  induction crops as [|e r IH]; intros s; cbn [fold_left flat_map filter List.length].
  - repeat split; try lia; auto.
  - destruct (IH (csummary forecastDf e s)) as [A [B [C D]]].
    destruct (crop_summary_outcomes forecastDf e s) as [A1 [B1 C1]].
    pose proof (crop_summary_windows forecastDf e s) as D1.
    cbv zeta in *. rewrite A, B, A1, B1, length_app.
    split; [lia|]. split; [lia|]. split.
    + destruct (throws_at (snd e)); simpl in *; lia.
    + intros H. apply D, D1, H.
Qed.

End Accounting.

Section AccountingTheorem.
Import Matching.

(** X1.  Every crop of a run ends in exactly one of four ways: it is
    disqualified by its duration, it has no valid window, it is successful,
    or its processing throws (no daily weather, or an empty one); so the
    three outcome counters and the number of throwing crops add up to
    [crops_processed], which is the number of crops.  [crops_successful] is
    the number of results, and the windows counted as insufficient or
    successful never exceed the windows processed. *)
Theorem every_crop_is_accounted_for
        (Math_exp Math_pow_half : Q -> Q) (crops : obj crop) (forecastData : list day)
        (clientConfig : client_config) :
  let run := runCropMatching Math_exp Math_pow_half crops forecastData clientConfig in
  let s := ld_summary (snd run) in
  crops_processed s = List.length crops
  /\ crops_successful s = List.length (fst run)
  /\ (crops_disqualified_duration s + crops_no_valid_windows s + crops_successful s
      + List.length (filter (fun e => throws_at (snd e)) crops)
      = crops_processed s)%nat
  /\ (windows_insufficient_data s + windows_successful s <= total_windows_processed s)%nat.
Proof.
  intros run s. unfold s, run. rewrite run_summary, run_results.
  destruct (accounting_fold Math_exp Math_pow_half (merge clientConfig)
              (sort by_date forecastData) crops (mkSummary 0 0 0 0 0 0 0))
    as [A [B [C D]]].
  cbv zeta in *. simpl in A, B, C, D.
  split; [exact A|]. split; [exact B|]. split; [lia|]. apply D. lia.
Qed.

End AccountingTheorem.

Section ThrowingCrops.
Import Matching.

Lemma derive_weights_errors (CONFIG : config) name kv L :
  ld_errors (snd (derive_weights CONFIG name kv L)) = ld_errors L.
Proof.
  unfold derive_weights. destruct (Nat.ltb 0 (List.length (keys kv))); reflexivity.
Qed.

(** X2.  A crop without daily weather, or with an empty one, makes the
    per-crop [try] throw: the turn of the loop over the crops adds nothing
    to the results, appends exactly one error entry that names the crop,
    counts the crop as processed and under none of the three outcomes, and
    leaves the counters of insufficient and successful windows alone.  With
    an empty daily weather one window is counted as processed before the
    throw, even against an empty forecast; with none, no window is. *)
Theorem unusable_weather_is_an_error
        (Math_exp Math_pow_half : Q -> Q) (CONFIG : config) (forecastDf : list day)
        (L : logData) (results : list result) (cropName : string) (c : crop) :
  throws_at c = true ->
  let thrown := match daily_weather c with None => NoDailyWeather | Some _ => EmptyWindow end in
  let windows := match daily_weather c with None => 0%nat | Some _ => 1%nat end in
  exists L',
    process_crop Math_exp Math_pow_half CONFIG forecastDf (L, results) (cropName, c)
    = (L', results)
    /\ ld_errors L' = ld_errors L ++ [crop_error cropName thrown]
    /\ ld_summary L'
       = mkSummary (S (crops_processed (ld_summary L)))
           (crops_disqualified_duration (ld_summary L))
           (crops_no_valid_windows (ld_summary L))
           (crops_successful (ld_summary L))
           (total_windows_processed (ld_summary L) + windows)
           (windows_insufficient_data (ld_summary L))
           (windows_successful (ld_summary L)).
Proof.
  intros T thrown windows. subst thrown windows. unfold throws_at in T.
  destruct (daily_weather c) as [[|d dw]|] eqn:D; try discriminate.
  - unfold process_crop, crop_body. rewrite D.
    cbn [sort fold_right List.length Nat.ltb Nat.leb].
    match goal with |- context [derive_weights ?a ?b ?c ?d] =>
      pose proof (derive_weights_errors a b c d) as E;
      destruct (derive_weights_spec a b c d) as [_ M];
      destruct (derive_weights a b c d) as [vw L4]
    end.
    simpl in E, M.
    assert (E' : ld_errors L4 = ld_errors L)
      by (rewrite E; repeat match goal with |- context [if ?b then _ else _] => destruct b end;
          reflexivity).
    assert (M' : ld_summary L4 = inc_crops_processed (ld_summary L))
      by (rewrite M; repeat match goal with |- context [if ?b then _ else _] => destruct b end;
          reflexivity).
    clear E M.
    unfold window_starts. cbn [starts_from Nat.leb windows_loop process_window].
    rewrite empty_slice.
    eexists. split; [reflexivity|]. split.
    + simpl. rewrite E'. reflexivity.
    + simpl. rewrite M'. destruct (ld_summary L); simpl.
      rewrite Nat.add_1_r. reflexivity.
  - unfold process_crop, crop_body. rewrite D.
    eexists. split; [reflexivity|]. split; [reflexivity|].
    simpl. destruct (ld_summary L); simpl. rewrite Nat.add_0_r. reflexivity.
Qed.

Lemma unusable_weather_is_an_error_witness :
  exists L',
    process_crop Examples.exp_model Examples.pow_half_model DEFAULT_CONFIG []
      (empty_log, []) ("A"%string, mkCrop None None 0 (Some []) None)
    = (L', [])
    /\ ld_errors L' = [crop_error "A" EmptyWindow]
    /\ ld_summary L' = mkSummary 1 0 0 0 1 0 0.
Proof.
  exact (unusable_weather_is_an_error Examples.exp_model Examples.pow_half_model
           DEFAULT_CONFIG [] empty_log [] "A" (mkCrop None None 0 (Some []) None) eq_refl).
Defined.

End ThrowingCrops.

Section StableSort.
Import JS.
Context {A : Type} (le : A -> A -> bool).

(** Insertion passes over the elements it does not go before; what it
    passes over is never one it compares as first. *)
Lemma insert_filter (p : A -> bool) (x : A) (l : list A) :
  (forall a b, p a = true -> p b = true -> le a b = true) ->
  filter p (insert le x l) = filter p (x :: l).
Proof.
  intros C. induction l as [|y t IH]; [reflexivity|].
  simpl insert. destruct (le x y) eqn:E; [reflexivity|].
  simpl filter in *. rewrite IH.
  destruct (p x) eqn:Px; destruct (p y) eqn:Py; try reflexivity.
  rewrite (C x y Px Py) in E. discriminate.
Qed.

Lemma sort_filter (p : A -> bool) (l : list A) :
  (forall a b, p a = true -> p b = true -> le a b = true) ->
  filter p (sort le l) = filter p l.
Proof.
  intros C. induction l as [|x t IH]; [reflexivity|].
  simpl sort. rewrite insert_filter by exact C.
  simpl. rewrite IH. reflexivity.
Qed.

Lemma Sorted_weaken (R R' : A -> A -> Prop) (l : list A) :
  (forall a b, R a b -> R' a b) -> Sorted R l -> Sorted R' l.
Proof.
  intros W. induction 1 as [|a l S IH H]; constructor; [exact IH|].
  destruct H; constructor; auto.
Qed.
End StableSort.

Section Enumeration.
Import Matching.
Variable CONFIG : config.

Local Abbreviation step := (Pos.to_nat (STEP_SIZE CONFIG)).

Lemma starts_from_length (fuel i limit : nat) :
  (limit < i + fuel * step)%nat ->
  List.length (starts_from CONFIG fuel i limit)
  = if Nat.leb i limit then ((limit - i) / step + 1)%nat else 0%nat.
Proof.
  pose proof (Pos2Nat.is_pos (STEP_SIZE CONFIG)) as SP.
  revert i. induction fuel as [|f IH]; intros i B.
  - simpl. destruct (Nat.leb_spec i limit); [lia | reflexivity].
  - simpl. destruct (Nat.leb_spec i limit) as [Le|Gt]; [|reflexivity].
    simpl. rewrite IH by lia.
    destruct (Nat.leb_spec (i + step) limit) as [Le'|Gt'].
    + replace (limit - i)%nat with ((limit - (i + step)) + 1 * step)%nat by lia.
      rewrite Nat.div_add by lia. lia.
    + rewrite Nat.div_small by lia. reflexivity.
Qed.

Lemma starts_from_nth (fuel i limit k : nat) :
  (k < List.length (starts_from CONFIG fuel i limit))%nat ->
  nth k (starts_from CONFIG fuel i limit) 0%nat = (i + k * step)%nat.
Proof.
  revert i k. induction fuel as [|f IH]; intros i k B; simpl in *; [lia|].
  destruct (Nat.leb i limit); simpl in *; [|lia].
  destruct k as [|k]; [lia|].
  rewrite IH by lia. lia.
Qed.

Lemma slice_length (l : list day) (i d : nat) :
  (i + d <= List.length l)%nat -> List.length (slice i d l) = d.
Proof.
  intros B. unfold slice. rewrite length_firstn, length_skipn. lia.
Qed.

Lemma slice_incl (l : list day) (i d : nat) (x : day) :
  In x (slice i d l) -> In x l.
Proof.
  unfold slice. intros H.
  assert (I : In x (skipn i l)).
  { rewrite <- (firstn_skipn d (skipn i l)). apply in_or_app. now left. }
  rewrite <- (firstn_skipn i l). apply in_or_app. now right.
Qed.

Lemma window_starts_length (n d : nat) :
  (d <= n)%nat ->
  List.length (window_starts CONFIG n d) = ((n - d) / step + 1)%nat.
Proof.
  intros B. pose proof (Pos2Nat.is_pos (STEP_SIZE CONFIG)) as SP.
  unfold window_starts. rewrite starts_from_length by (simpl; nia).
  simpl. rewrite Nat.sub_0_r. reflexivity.
Qed.

(** X3.  The windows a crop of [d] days is tried at, in a forecast of at
    least [d] records: there are [(n - d) / STEP_SIZE + 1] of them, the
    [k]-th starts at record [k * STEP_SIZE], and each one holds exactly
    [d] records of the forecast. *)
Theorem windows_slide_by_step (forecastDf : list day) (d : nat) :
  (d <= List.length forecastDf)%nat ->
  let starts := window_starts CONFIG (List.length forecastDf) d in
  List.length starts = ((List.length forecastDf - d) / step + 1)%nat
  /\ (forall k, (k < List.length starts)%nat -> nth k starts 0%nat = (k * step)%nat)
  /\ (forall i, In i starts ->
        List.length (slice i d forecastDf) = d
        /\ forall x, In x (slice i d forecastDf) -> In x forecastDf).
Proof.
  intros B starts. subst starts.
  pose proof (Pos2Nat.is_pos (STEP_SIZE CONFIG)) as SP.
  split; [|split].
  - unfold window_starts. rewrite starts_from_length by (simpl; nia).
    simpl. rewrite Nat.sub_0_r. reflexivity.
  - intros k K. unfold window_starts in *. rewrite starts_from_nth by exact K.
    reflexivity.
  - intros i I. split.
    + apply slice_length. now apply (window_starts_fit CONFIG).
    + intros x. apply slice_incl.
Qed.

End Enumeration.

Section EnumerationWitness.
Import Matching.

Lemma windows_slide_by_step_witness :
  let starts := window_starts DEFAULT_CONFIG (List.length Examples.scenario_full_forecast) 1 in
  List.length starts
  = ((List.length Examples.scenario_full_forecast - 1) / Pos.to_nat (STEP_SIZE DEFAULT_CONFIG) + 1)%nat
  /\ (forall k, (k < List.length starts)%nat ->
                nth k starts 0%nat = (k * Pos.to_nat (STEP_SIZE DEFAULT_CONFIG))%nat)
  /\ (forall i, In i starts ->
        List.length (slice i 1 Examples.scenario_full_forecast) = 1%nat
        /\ forall x, In x (slice i 1 Examples.scenario_full_forecast) ->
                     In x Examples.scenario_full_forecast).
Proof.
  apply (windows_slide_by_step DEFAULT_CONFIG Examples.scenario_full_forecast 1).
  vm_compute. lia.
Defined.
End EnumerationWitness.

Section ResultShape.
Import JS Matching.
Variables Math_exp Math_pow_half : Q -> Q.

Lemma by_score_desc_total (a b : window) :
  by_score_desc a b = true \/ by_score_desc b a = true.
Proof.
  unfold by_score_desc.
  destruct (Qlt_le_dec (w_score a) (w_score b)) as [H|H].
  - right. apply Qle_bool_iff. now apply Qlt_le_weak.
  - left. now apply Qle_bool_iff.
Qed.

Lemma crop_result_inv (CONFIG : config) (forecastDf : list day) (name : string) (c : crop)
      (r : result) :
  In r (crop_result Math_exp Math_pow_half CONFIG forecastDf (name, c)) ->
  exists dw,
    daily_weather c = Some dw
    /\ (1 <= List.length dw <= List.length forecastDf)%nat
    /\ crop_windows Math_exp Math_pow_half CONFIG forecastDf (sort by_date dw) (kValues_of c)
       <> []
    /\ r = mkResult name (variety c) (region c) (List.length dw) (kValues_of c)
             (sort by_score_desc
                (crop_windows Math_exp Math_pow_half CONFIG forecastDf (sort by_date dw)
                   (kValues_of c))).
Proof.
  unfold crop_result.
  destruct (daily_weather c) as [dw|]; [|intros []].
  rewrite sort_length.
  destruct (Nat.ltb_spec (List.length forecastDf) (List.length dw)); [intros []|].
  destruct (Nat.eqb_spec (List.length dw) 0); [intros []|].
  destruct (crop_windows _ _ _ _ _ _) as [|w ws] eqn:W; [intros []|].
  simpl Nat.ltb. cbv iota. intros [<-|[]].
  exists dw. rewrite W. split; [reflexivity|]. split; [lia|]. split; [discriminate|]. reflexivity.
Qed.

Lemma result_inv (crops : obj crop) (forecastData : list day) (cc : client_config)
      (r : result) :
  In r (fst (runCropMatching Math_exp Math_pow_half crops forecastData cc)) ->
  exists name c dw,
    In (name, c) crops
    /\ daily_weather c = Some dw
    /\ (1 <= List.length dw <= List.length forecastData)%nat
    /\ crop_windows Math_exp Math_pow_half (merge cc) (sort by_date forecastData)
         (sort by_date dw) (kValues_of c) <> []
    /\ r = mkResult name (variety c) (region c) (List.length dw) (kValues_of c)
             (sort by_score_desc
                (crop_windows Math_exp Math_pow_half (merge cc) (sort by_date forecastData)
                   (sort by_date dw) (kValues_of c))).
Proof.
  rewrite run_results. intros I. apply in_flat_map in I. destruct I as [[name c] [I R]].
  apply crop_result_inv in R. destruct R as [dw [D [B [N E]]]].
  rewrite sort_length in B. exists name, c, dw. auto.
Qed.

Lemma result_has_window (crops : obj crop) (forecastData : list day) (cc : client_config)
      (r : result) :
  In r (fst (runCropMatching Math_exp Math_pow_half crops forecastData cc)) ->
  exists w, In w (r_windows r).
Proof.
  intros I. destruct (result_inv _ _ _ _ I) as [name [c [dw [_ [_ [_ [N ->]]]]]]].
  simpl. destruct (crop_windows _ _ _ _ _ _) as [|w ws] eqn:E; [contradiction|].
  exists w. apply sort_In. now left.
Qed.

Lemma window_result_short (CONFIG : config) forecastDf cropDf kv vw i :
  (List.length (window_result Math_exp Math_pow_half CONFIG forecastDf cropDf kv vw i) <= 1)%nat.
Proof.
  unfold window_result.
  destruct (slice i (List.length cropDf) forecastDf); [simpl; lia|].
  destruct (window_insufficient CONFIG forecastDf (List.length cropDf) i); [simpl; lia|].
  destruct (window_score _ _ _ _ _ _ _); simpl; lia.
Qed.

Lemma flat_map_short {A B : Type} (f : A -> list B) (l : list A) :
  (forall a, (List.length (f a) <= 1)%nat) ->
  (List.length (flat_map f l) <= List.length l)%nat.
Proof.
  intros S. induction l as [|a t IH]; simpl; [lia|].
  rewrite length_app. specialize (S a). lia.
Qed.

(** X4.  What a result says about its crop.  Every result of a run
    belongs to a crop of the input: it repeats the crop's name, variety,
    region and k values, its duration is the number of the crop's weather
    records, which is at least one and at most the number of forecast
    records; it holds at least one window and at most as many as were
    tried, and every window starts on the UTC day of a forecast record. *)
Theorem results_describe_their_crops
        (crops : obj crop) (forecastData : list day) (cc : client_config) (r : result) :
  In r (fst (runCropMatching Math_exp Math_pow_half crops forecastData cc)) ->
  exists c dw,
    In (r_name r, c) crops
    /\ daily_weather c = Some dw
    /\ r_variety r = variety c /\ r_region r = region c
    /\ r_k_values_used r = kValues_of c
    /\ r_duration_days r = List.length dw
    /\ (1 <= List.length dw <= List.length forecastData)%nat
    /\ (1 <= List.length (r_windows r)
        <= (List.length forecastData - List.length dw)
           / Pos.to_nat (STEP_SIZE (merge cc)) + 1)%nat
    /\ forall w, In w (r_windows r) ->
         exists d0, In d0 forecastData /\ w_start w = iso_day (date d0).
Proof.
  intros I. destruct (result_inv _ _ _ _ I) as [name [c [dw [Ic [D [B [N ->]]]]]]].
  exists c, dw. simpl.
  do 7 (split; [first [exact Ic | exact D | reflexivity | exact B]|]).
  split.
  - rewrite sort_length. split.
    + destruct (crop_windows _ _ _ _ _ _); [contradiction|simpl; lia].
    + unfold crop_windows.
      eapply Nat.le_trans; [apply flat_map_short; intros; apply window_result_short|].
      rewrite !sort_length.
      rewrite (window_starts_length (merge cc)) by lia. apply Nat.le_refl.
  - intros w Iw. apply sort_In in Iw. unfold crop_windows in Iw.
    apply in_flat_map in Iw. destruct Iw as [i [_ Iw]].
    apply window_result_origin in Iw. destruct Iw as [first [rest [s [E [_ [_ ->]]]]]].
    exists first. split; [|reflexivity].
    apply (sort_In by_date). apply (slice_incl _ i (List.length (sort by_date dw))).
    rewrite E. now left.
Qed.

(** X5.  Ranking.  The windows of a result are the windows that were
    scored for its crop, in descending order of the reported score; windows
    with equal reported scores keep the order in which they were tried,
    that is the order of their start in the forecast. *)
Theorem windows_are_ranked
        (crops : obj crop) (forecastData : list day) (cc : client_config) (r : result) :
  In r (fst (runCropMatching Math_exp Math_pow_half crops forecastData cc)) ->
  exists c dw,
    In (r_name r, c) crops /\ daily_weather c = Some dw
    /\ let tried := crop_windows Math_exp Math_pow_half (merge cc)
                      (sort by_date forecastData) (sort by_date dw) (kValues_of c) in
       Permutation (r_windows r) tried
       /\ Sorted (fun a b => w_score b <= w_score a) (r_windows r)
       /\ forall q, filter (fun w => Qeq_bool (w_score w) q) (r_windows r)
                    = filter (fun w => Qeq_bool (w_score w) q) tried.
Proof.
  intros I. destruct (result_inv _ _ _ _ I) as [name [c [dw [Ic [D [B [N ->]]]]]]].
  exists c, dw. simpl. split; [exact Ic|]. split; [exact D|]. split; [|split].
  - apply sort_perm.
  - apply (Sorted_weaken (fun a b => by_score_desc a b = true)).
    + intros a b H. unfold by_score_desc in H. now apply Qle_bool_iff.
    + apply sort_sorted. apply by_score_desc_total.
  - intros q. apply sort_filter. intros a b Pa Pb.
    apply Qeq_bool_iff in Pa, Pb. unfold by_score_desc. apply Qle_bool_iff.
    rewrite Pa, Pb. apply Qle_refl.
Qed.

End ResultShape.

Section ResultShapeWitness.
Import JS Matching.

Lemma results_describe_their_crops_witness :
  exists r c dw,
    In r (fst (runCropMatching Examples.exp_model Examples.pow_half_model
                 [("A"%string, Examples.scenario_crop)] Examples.scenario_full_forecast
                 Examples.scenario_step_only))
    /\ In (r_name r, c) [("A"%string, Examples.scenario_crop)]
    /\ daily_weather c = Some dw
    /\ r_duration_days r = List.length dw
    /\ (1 <= List.length (r_windows r))%nat.
Proof.
  pose (run := runCropMatching Examples.exp_model Examples.pow_half_model
                 [("A"%string, Examples.scenario_crop)] Examples.scenario_full_forecast
                 Examples.scenario_step_only).
  assert (N : exists r, In r (fst run)).
  { destruct (fst run) as [|r rs] eqn:E; [vm_compute in E; discriminate|].
    exists r. now left. }
  destruct N as [r I].
  destruct (results_describe_their_crops Examples.exp_model Examples.pow_half_model
              _ _ _ r I) as [c [dw [A [D [_ [_ [_ [U [_ [[W _] _]]]]]]]]]].
  exists r, c, dw. auto.
Defined.

Lemma windows_are_ranked_witness :
  exists r,
    In r (fst (runCropMatching Examples.exp_model Examples.pow_half_model
                 [("A"%string, Examples.scenario_crop)] Examples.scenario_full_forecast
                 Examples.scenario_step_only))
    /\ Sorted (fun a b => w_score b <= w_score a) (r_windows r).
Proof.
  pose (run := runCropMatching Examples.exp_model Examples.pow_half_model
                 [("A"%string, Examples.scenario_crop)] Examples.scenario_full_forecast
                 Examples.scenario_step_only).
  assert (N : exists r, In r (fst run)).
  { destruct (fst run) as [|r rs] eqn:E; [vm_compute in E; discriminate|].
    exists r. now left. }
  destruct N as [r I].
  destruct (windows_are_ranked Examples.exp_model Examples.pow_half_model
              _ _ _ r I) as [c [dw [_ [_ [_ [S _]]]]]].
  exists r. auto.
Defined.
End ResultShapeWitness.

Section ScoreOrder.
Import JS Matching.
Variables Math_exp Math_pow_half : Q -> Q.
Hypothesis Math_ok : MathSpec Math_exp Math_pow_half.
Hypothesis Math_order : HostOrder Math_exp Math_pow_half.

Lemma Qle_bool_false (a b : Q) : Qle_bool a b = false -> b < a.
Proof.
  intros E. apply Qnot_le_lt. intros H. apply Qle_bool_iff in H. congruence.
Qed.

Lemma clip_mono (x y : Q) : x <= y -> clip x <= clip y.
Proof.
  intros H. unfold clip, Qmaxb, Qminb.
  destruct (Qle_bool 709 x) eqn:A; destruct (Qle_bool 709 y) eqn:B;
    [apply Qle_bool_iff in A | apply Qle_bool_iff in A
     | apply Qle_bool_false in A | apply Qle_bool_false in A];
    [apply Qle_bool_iff in B | apply Qle_bool_false in B
     | apply Qle_bool_iff in B | apply Qle_bool_false in B].
  - apply Qle_refl.
  - lra.
  - change (Qle_bool (-709) 709) with true. cbv iota.
    destruct (Qle_bool (-709) x) eqn:C; [apply Qle_bool_iff in C; lra | discriminate].
  - destruct (Qle_bool (-709) x) eqn:C; destruct (Qle_bool (-709) y) eqn:D;
      [apply Qle_bool_iff in C | apply Qle_bool_iff in C
       | apply Qle_bool_false in C | apply Qle_bool_false in C];
      [apply Qle_bool_iff in D | apply Qle_bool_false in D
       | apply Qle_bool_iff in D | apply Qle_bool_false in D]; lra.
Qed.

Lemma relDelta_nonneg (p : Q * Q) : 0 <= relDelta p.
Proof.
  unfold relDelta.
  pose proof (Qabs_nonneg (fst p - snd p)) as A.
  pose proof (Qabs_nonneg (snd p)) as B.
  apply Qle_shift_div_l; lra.
Qed.

Lemma pow_half_nonneg (d : Q) : 0 <= d -> 0 <= Math_pow_half d.
Proof.
  intros H. rewrite <- (pow_half_zero Math_ok (Qeq_refl 0)).
  apply (pow_half_mono Math_order); [apply Qle_refl | exact H].
Qed.

(** The daily score [1 / (1 + exp(-k * d^0.5))] does not decrease with
    the relative delta [d]. *)
Lemma logistic_mono (k d1 d2 : Q) :
  0 <= k -> 0 <= d1 -> d1 <= d2 ->
  1 / (1 + Math_exp (clip ((- k) * Math_pow_half d1)))
  <= 1 / (1 + Math_exp (clip ((- k) * Math_pow_half d2))).
Proof.
  intros K D H.
  pose proof (pow_half_mono Math_order D H) as P.
  assert (A : (- k) * Math_pow_half d2 <= (- k) * Math_pow_half d1) by nra.
  apply clip_mono in A. apply (exp_mono Math_order) in A.
  pose proof (exp_pos Math_ok (clip (- k * Math_pow_half d1))) as P1.
  pose proof (exp_pos Math_ok (clip (- k * Math_pow_half d2))) as P2.
  set (e1 := Math_exp (clip (- k * Math_pow_half d1))) in *.
  set (e2 := Math_exp (clip (- k * Math_pow_half d2))) in *.
  apply Qle_shift_div_l; [lra|].
  assert (E : 1 / (1 + e1) * (1 + e2) == (1 + e2) / (1 + e1)) by (field; lra).
  rewrite E. apply Qle_shift_div_r; lra.
Qed.

Lemma logistic_ge_half (k d : Q) :
  0 <= k -> 0 <= d -> 1 # 2 <= 1 / (1 + Math_exp (clip ((- k) * Math_pow_half d))).
Proof.
  intros K D.
  rewrite <- (logistic_at_zero Math_exp Math_pow_half Math_ok k 0 (Qeq_refl 0)).
  apply logistic_mono; [exact K | apply Qle_refl | exact D].
Qed.

Lemma sum_lower (l : list Q) (lo : Q) :
  (forall x, In x l -> lo <= x) -> lo * of_nat (List.length l) <= sum l.
Proof.
  induction l as [|x r IH]; intros H.
  - unfold sum, of_nat. simpl. change (inject_Z 0) with 0. lra.
  - pose proof (IH (fun y I => H y (or_intror I))) as A.
    pose proof (H x (or_introl eq_refl)) as B.
    cbn [List.length]. rewrite sum_cons, of_nat_S. lra.
Qed.

Lemma sum_pointwise (l1 l2 : list Q) : Forall2 Qle l1 l2 -> sum l1 <= sum l2.
Proof.
  induction 1 as [|x y r1 r2 H F IH].
  - apply Qle_refl.
  - rewrite !sum_cons. lra.
Qed.

Lemma logisticScore_pointwise (ds1 ds2 : list Q) (k : Q) :
  0 <= k -> Forall2 (fun a b => 0 <= a /\ a <= b) ds1 ds2 ->
  Forall2 Qle (logisticScore Math_exp Math_pow_half ds1 k)
          (logisticScore Math_exp Math_pow_half ds2 k).
Proof.
  intros K. unfold logisticScore, safeExp. rewrite !map_map.
  induction 1 as [|a b r1 r2 [A B] F IH]; simpl; constructor.
  - now apply logistic_mono.
  - exact IH.
Qed.

Lemma variableScoreOf_ge_half (pairs : list (Q * Q)) (k : Q) :
  pairs <> [] -> 0 <= k ->
  1 # 2 <= variableScoreOf Math_exp Math_pow_half pairs k.
Proof.
  intros N K. unfold variableScoreOf.
  set (l := logisticScore Math_exp Math_pow_half (map relDelta pairs) k).
  assert (B : forall x, In x l -> 1 # 2 <= x).
  { intros x I. apply In_logisticScore in I. destruct I as [d [I ->]].
    apply in_map_iff in I. destruct I as [p [<- _]].
    apply logistic_ge_half; [exact K | apply relDelta_nonneg]. }
  pose proof (sum_lower l (1 # 2) B) as S.
  assert (P : 0 < of_nat (List.length l)).
  { apply of_nat_pos. unfold l. rewrite logisticScore_length, length_map.
    destruct pairs; [congruence | simpl; lia]. }
  apply Qle_shift_div_l; [exact P | exact S].
Qed.

Lemma weighted_mean_lower (used : list string) (s w : string -> Q) (lo : Q) :
  (forall v, In v used -> lo <= s v /\ 0 < w v) ->
  lo * sum (map w used) <= sum (map (fun v => s v * w v) used).
Proof.
  induction used as [|x r IH]; intros H.
  - unfold sum. simpl. lra.
  - pose proof (IH (fun v I => H v (or_intror I))) as A.
    destruct (H x (or_introl eq_refl)) as [B W].
    cbn [map]. rewrite !sum_cons.
    assert (C : lo * w x <= s x * w x) by (apply Qmult_le_compat_r; lra).
    lra.
Qed.

Lemma kOf_nonneg (CONFIG : config) (kv : obj jsval) (v : string) :
  (forall f k, get f kv = Some (VNum k) -> 0 <= k) ->
  0 <= DEFAULT_K CONFIG -> 0 <= kOf CONFIG kv v.
Proof.
  intros H D. unfold kOf, or_default.
  destruct (get v kv) as [[| |q]|] eqn:G; try exact D.
  destruct (Qeq_bool q 0); [exact D | exact (H v q G)].
Qed.

Lemma window_score_ge_half (CONFIG : config) wd cd kv s :
  (forall f k, get f kv = Some (VNum k) -> 0 <= k) ->
  0 <= DEFAULT_K CONFIG ->
  window_score Math_exp Math_pow_half CONFIG wd cd kv (weights_for CONFIG kv) = Some s ->
  1 # 2 <= s.
Proof.
  intros NN D S.
  destruct (window_score_some _ _ _ _ _ _ _ _ S) as [N [Z ->]].
  assert (W : forall v, In v (scored_fields CONFIG wd cd) ->
                        0 < weightOf CONFIG (weights_for CONFIG kv) v).
  { intros v Iv. apply weightOf_pos.
    - apply weights_for_nonneg. exact NN.
    - unfold scored_fields in Iv. apply filter_In in Iv. tauto. }
  pose proof (weighted_mean_lower (scored_fields CONFIG wd cd)
                (variable_score Math_exp Math_pow_half CONFIG wd cd kv)
                (weightOf CONFIG (weights_for CONFIG kv)) (1 # 2)) as L.
  assert (L' : (1 # 2) * sum (weights_used CONFIG wd cd (weights_for CONFIG kv))
               <= sum (weighted_scores Math_exp Math_pow_half CONFIG wd cd kv
                         (weights_for CONFIG kv))).
  { apply L. intros v Iv. split; [|exact (W v Iv)].
    unfold variable_score. apply variableScoreOf_ge_half.
    - unfold scored_fields in Iv. apply filter_In in Iv. destruct Iv as [_ Iv].
      unfold is_scored in Iv. apply andb_true_iff in Iv. destruct Iv as [_ Iv].
      destruct (pairsOf wd cd v); [discriminate | discriminate].
    - apply kOf_nonneg; assumption. }
  destruct (weighted_mean_unit (scored_fields CONFIG wd cd)
              (variable_score Math_exp Math_pow_half CONFIG wd cd kv)
              (weightOf CONFIG (weights_for CONFIG kv))) as [_ [_ P]].
  { intros v Iv. pose proof (W v Iv).
    unfold scored_fields in Iv. apply filter_In in Iv. destruct Iv as [_ Iv].
    destruct (variable_score_unit Math_exp Math_pow_half Math_ok CONFIG wd cd kv v Iv).
    auto. }
  specialize (P N).
  apply Qle_shift_div_l; [exact P | exact L'].
Qed.

End ScoreOrder.

Section ScoreOrderTheorems.
Import JS Matching.

(** X6.  When no k value of a crop is negative and [DEFAULT_K] is not
    negative, no window of a result is reported with a score below 0.5:
    the score of an exact match is the lowest one there is.  (The host
    functions are taken to be positive, exact at 0 and not decreasing.) *)
Theorem no_score_below_one_half
        (Math_exp Math_pow_half : Q -> Q) (crops : obj crop) (forecastData : list day)
        (cc : client_config) (r : result) (w : window) :
  MathSpec Math_exp Math_pow_half -> HostOrder Math_exp Math_pow_half ->
  (forall name c f k, In (name, c) crops -> get f (kValues_of c) = Some (VNum k) -> 0 <= k) ->
  0 <= DEFAULT_K (merge cc) ->
  In r (fst (runCropMatching Math_exp Math_pow_half crops forecastData cc)) ->
  In w (r_windows r) ->
  1 # 2 <= w_score w.
Proof.
  intros M O NN D R W.
  destruct (result_window_origin Math_exp Math_pow_half crops forecastData cc r w R W)
    as [c [dw [i [first [rest [s [IC [_ [_ [_ [_ [_ [S ->]]]]]]]]]]]]].
  simpl.
  assert (H : 1 # 2 <= s).
  { apply (window_score_ge_half Math_exp Math_pow_half M O (merge cc)
             (first :: rest) (sort by_date dw) (kValues_of c) s);
      [intros f k; apply (NN (r_name r) c f k IC) | exact D | exact S]. }
  apply round4_mono in H.
  rewrite (round4_half (1 # 2) (Qeq_refl _)) in H. exact H.
Qed.

(** X7.  The score of a variable does not decrease when the relative
    deltas of its days grow: for a k that is not negative, the daily
    scores of the larger deltas are, day by day, at least those of the
    smaller ones, and so is their mean.  A worse fit of a variable never
    lowers its score. *)
Theorem larger_deltas_score_higher
        (Math_exp Math_pow_half : Q -> Q) (pairs1 pairs2 : list (Q * Q)) (k : Q) :
  MathSpec Math_exp Math_pow_half -> HostOrder Math_exp Math_pow_half ->
  0 <= k -> pairs1 <> [] ->
  Forall2 (fun p q => relDelta p <= relDelta q) pairs1 pairs2 ->
  Forall2 Qle (logisticScore Math_exp Math_pow_half (map relDelta pairs1) k)
          (logisticScore Math_exp Math_pow_half (map relDelta pairs2) k)
  /\ variableScoreOf Math_exp Math_pow_half pairs1 k
     <= variableScoreOf Math_exp Math_pow_half pairs2 k.
Proof.
  intros M O K N F.
  assert (P : Forall2 Qle (logisticScore Math_exp Math_pow_half (map relDelta pairs1) k)
                      (logisticScore Math_exp Math_pow_half (map relDelta pairs2) k)).
  { apply (logisticScore_pointwise Math_exp Math_pow_half M O); [exact K|].
    clear N. induction F as [|p q r1 r2 H F IH]; simpl; constructor.
    - split; [apply relDelta_nonneg | exact H].
    - exact IH. }
  split; [exact P|].
  unfold variableScoreOf.
  pose proof (sum_pointwise _ _ P) as S.
  assert (E : List.length pairs1 = List.length pairs2)
    by (clear - F; induction F; simpl; congruence).
  rewrite !logisticScore_length, !length_map, <- E.
  assert (Pn : 0 < of_nat (List.length pairs1)).
  { apply of_nat_pos. destruct pairs1; [congruence | simpl; lia]. }
  apply Qle_shift_div_l; [exact Pn|].
  set (n := of_nat (List.length pairs1)) in *.
  set (a := sum (logisticScore Math_exp Math_pow_half (map relDelta pairs1) k)) in *.
  assert (X : a / n * n == a) by (field; lra).
  rewrite X. exact S.
Qed.

Lemma models_ordered : HostOrder Examples.exp_model Examples.pow_half_linear.
Proof.
  split.
  - intros x y H. unfold Examples.exp_model.
    destruct (Qle_bool 0 x) eqn:A; destruct (Qle_bool 0 y) eqn:B;
      [apply Qle_bool_iff in A | apply Qle_bool_iff in A
       | apply Qle_bool_false in A | apply Qle_bool_false in A];
      [apply Qle_bool_iff in B | apply Qle_bool_false in B
       | apply Qle_bool_iff in B | apply Qle_bool_false in B].
    + lra.
    + lra.
    + apply Qle_trans with 1; [apply Qle_shift_div_r; lra | lra].
    + apply Qle_shift_div_l; [lra|].
      assert (E : 1 / (1 - x) * (1 - y) == (1 - y) / (1 - x)) by (field; lra).
      rewrite E. apply Qle_shift_div_r; lra.
  - intros x y _ H. exact H.
Qed.

Lemma models_linear_ok : MathSpec Examples.exp_model Examples.pow_half_linear.
Proof.
  split.
  - apply (exp_pos models_ok).
  - apply (exp_zero models_ok).
  - intros x E. exact E.
Qed.

Lemma no_score_below_one_half_witness :
  exists r w,
    In r (fst (runCropMatching Examples.exp_model Examples.pow_half_linear
                 [("A"%string, Examples.scenario_crop)] Examples.scenario_full_forecast
                 Examples.scenario_step_only))
    /\ In w (r_windows r) /\ 1 # 2 <= w_score w.
Proof.
  pose (run := runCropMatching Examples.exp_model Examples.pow_half_linear
                 [("A"%string, Examples.scenario_crop)] Examples.scenario_full_forecast
                 Examples.scenario_step_only).
  assert (N0 : exists r, In r (fst run)).
  { destruct (fst run) as [|r rs] eqn:E; [vm_compute in E; discriminate|].
    exists r. now left. }
  destruct N0 as [r R].
  pose proof (result_has_window _ _ _ _ _ r R) as N.
  destruct N as [w W]. exists r, w. split; [exact R|]. split; [exact W|].
  apply (no_score_below_one_half Examples.exp_model Examples.pow_half_linear
           [("A"%string, Examples.scenario_crop)] Examples.scenario_full_forecast
           Examples.scenario_step_only r w models_linear_ok models_ordered).
  - intros name c f k [E|[]] G. injection E as <- <-.
    unfold get in G. simpl in G.
    destruct (String.eqb f Examples.T); [|discriminate].
    injection G as <-. discriminate.
  - discriminate.
  - exact R.
  - exact W.
Defined.

Lemma larger_deltas_score_higher_witness :
  variableScoreOf Examples.exp_model Examples.pow_half_linear [(10, 10)] 2
  <= variableScoreOf Examples.exp_model Examples.pow_half_linear [(12, 10)] 2.
Proof.
  apply (larger_deltas_score_higher Examples.exp_model Examples.pow_half_linear
           [(10, 10)] [(12, 10)] 2 models_linear_ok models_ordered).
  - discriminate.
  - discriminate.
  - constructor; [|constructor]. vm_compute. discriminate.
Defined.

End ScoreOrderTheorems.

Section SortedUnique.
Context {A : Type} (R : A -> A -> Prop).

Lemma sorted_perm_eq (l1 l2 : list A) :
  (forall a b c, R a b -> R b c -> R a c) ->
  Sorted R l1 -> Sorted R l2 -> Permutation l1 l2 ->
  (forall a b, In a l1 -> In b l1 -> R a b -> R b a -> a = b) ->
  l1 = l2.
Proof.
  intros T. revert l2. induction l1 as [|a t1 IH]; intros l2 S1 S2 P An.
  - apply Permutation_nil in P. now subst.
  - destruct l2 as [|b t2].
    + apply Permutation_sym, Permutation_nil in P. discriminate.
    + assert (SS1 : StronglySorted R (a :: t1)) by (apply Sorted_StronglySorted; auto).
      assert (SS2 : StronglySorted R (b :: t2)) by (apply Sorted_StronglySorted; auto).
      inversion SS1 as [|? ? St1 F1]; subst. inversion SS2 as [|? ? St2 F2]; subst.
      rewrite Forall_forall in F1, F2.
      assert (Ia : In a (b :: t2)) by (apply (Permutation_in _ P); now left).
      assert (Ib : In b (a :: t1))
        by (apply (Permutation_in _ (Permutation_sym P)); now left).
      assert (E : a = b).
      { destruct Ia as [->|Ia]; [reflexivity|].
        destruct Ib as [->|Ib]; [reflexivity|].
        apply An; [now left | now right | now apply F1 | now apply F2]. }
      subst b. f_equal. apply IH.
      * now apply StronglySorted_Sorted.
      * now apply StronglySorted_Sorted.
      * now apply Permutation_cons_inv in P.
      * intros x y Ix Iy. apply An; now right.
Qed.

Lemma NoDup_map_inj {B : Type} (f : A -> B) (l : list A) (a b : A) :
  NoDup (map f l) -> In a l -> In b l -> f a = f b -> a = b.
Proof.
  induction l as [|x t IH]; intros N Ia Ib E; [destruct Ia|].
  simpl in N. inversion N as [|? ? Nx Nt]; subst.
  destruct Ia as [->|Ia]; destruct Ib as [->|Ib].
  - reflexivity.
  - exfalso. apply Nx. rewrite E. now apply in_map.
  - exfalso. apply Nx. rewrite <- E. now apply in_map.
  - now apply IH.
Qed.
End SortedUnique.

Section RecordOrder.
Import JS Matching.

Lemma sort_by_date_unique (l1 l2 : list day) :
  Permutation l1 l2 -> NoDup (map date l1) -> sort by_date l1 = sort by_date l2.
Proof.
  intros P N.
  apply (sorted_perm_eq (fun a b => by_date a b = true)).
  - unfold by_date. intros a b c H1 H2. apply Z.leb_le in H1, H2. apply Z.leb_le. lia.
  - apply sort_sorted. unfold by_date. intros a b.
    destruct (Z.leb_spec (date a) (date b)); [now left|].
    right. apply Z.leb_le. lia.
  - apply sort_sorted. unfold by_date. intros a b.
    destruct (Z.leb_spec (date a) (date b)); [now left|].
    right. apply Z.leb_le. lia.
  - rewrite sort_perm, P. symmetry. apply sort_perm.
  - intros a b Ia Ib H1 H2. apply sort_In in Ia, Ib.
    apply (NoDup_map_inj date l1 a b N Ia Ib).
    unfold by_date in H1, H2. apply Z.leb_le in H1, H2. lia.
Qed.

Lemma process_crop_same_days (Math_exp Math_pow_half : Q -> Q) (CONFIG : config)
      (forecastDf : list day) (st : logData * list result) (name : string) (c1 c2 : crop) :
  same_weather_days c1 c2 ->
  process_crop Math_exp Math_pow_half CONFIG forecastDf st (name, c1)
  = process_crop Math_exp Math_pow_half CONFIG forecastDf st (name, c2).
Proof.
  destruct c1 as [v1 r1 n1 d1 k1], c2 as [v2 r2 n2 d2 k2].
  unfold same_weather_days. simpl. intros [-> [-> [-> D]]].
  destruct st as [L results].
  destruct d1 as [d1|]; destruct d2 as [d2|]; try contradiction; [|reflexivity].
  destruct D as [P N].
  unfold process_crop, crop_body, new_crop_log.
  cbn [daily_weather variety region k_values].
  rewrite (sort_by_date_unique d1 d2 P N). reflexivity.
Qed.

(** X8.  The order of the records does not matter.  Two runs whose
    forecasts hold the same records in another order, and whose crops
    differ only in the order of their daily weather records, give the same
    results and the same log, as long as the dates within the forecast and
    within each crop's weather are distinct. *)
Theorem record_order_is_irrelevant
        (Math_exp Math_pow_half : Q -> Q) (crops1 crops2 : obj crop)
        (forecast1 forecast2 : list day) (cc : client_config) :
  Permutation forecast1 forecast2 -> NoDup (map date forecast1) ->
  Forall2 (fun e1 e2 => fst e1 = fst e2 /\ same_weather_days (snd e1) (snd e2))
          crops1 crops2 ->
  runCropMatching Math_exp Math_pow_half crops1 forecast1 cc
  = runCropMatching Math_exp Math_pow_half crops2 forecast2 cc.
Proof.
  intros P N F. unfold runCropMatching, processCrops.
  rewrite (sort_by_date_unique forecast1 forecast2 P N).
  generalize (@empty_log, @nil result).
  induction F as [|[n1 c1] [n2 c2] t1 t2 [E S] F IH]; intros st; [reflexivity|].
  simpl in E. subst n2. cbn [fold_left].
  rewrite (process_crop_same_days Math_exp Math_pow_half (merge cc) _ st n1 c1 c2 S).
  apply IH.
Qed.

Lemma record_order_is_irrelevant_witness :
  runCropMatching Examples.exp_model Examples.pow_half_model
    [("A"%string, Examples.scenario_crop)] Examples.scenario_full_forecast
    Examples.scenario_step_only
  = runCropMatching Examples.exp_model Examples.pow_half_model
      [("A"%string, Examples.scenario_crop)] (rev Examples.scenario_full_forecast)
      Examples.scenario_step_only.
Proof.
  apply record_order_is_irrelevant.
  - apply Permutation_rev.
  - unfold Examples.scenario_full_forecast. simpl.
    repeat constructor; simpl; intuition discriminate.
  - constructor; [|constructor]. split; [reflexivity|].
    unfold same_weather_days, Examples.scenario_crop. simpl.
    repeat split; [apply Permutation_refl|].
    repeat constructor; simpl; intuition discriminate.
Defined.
End RecordOrder.

Section CalibrationShape.
Import JS Calibration.

Lemma put_fresh {V} (k : string) (v : V) (o : obj V) :
  ~ In k (keys o) -> put k v o = o ++ [(k, v)].
Proof.
  unfold put. induction o as [|[k' v'] o IH]; simpl; intros N; [reflexivity|].
  destruct (String.eqb_spec k k') as [->|D]; [exfalso; apply N; now left|].
  rewrite IH; [reflexivity|]. intros I. apply N. now right.
Qed.

Lemma entry_of_variable cropName dw ranges vi :
  ce_variable (entry_of cropName dw ranges vi) = fst vi.
Proof.
  unfold entry_of. destruct (in_some_day (fst vi) dw); [destruct (get (fst vi) ranges)|];
    reflexivity.
Qed.

Lemma compute_k_shape cropName dw ranges base kDict logs :
  NoDup (keys base) -> (forall v, In v (keys base) -> ~ In v (keys kDict)) ->
  compute_k cropName dw ranges base kDict logs
  = (kDict ++ map (fun e => (ce_variable e, ce_k_value e))
                (map (entry_of cropName dw ranges) base),
     logs ++ map (entry_of cropName dw ranges) base).
Proof.
  revert kDict logs. induction base as [|[v i] r IH]; intros kDict logs N F.
  - simpl. now rewrite !app_nil_r.
  - simpl in N. inversion N as [|? ? Nv Nr]; subst.
    assert (Fv : ~ In v (keys kDict)) by (apply F; now left).
    assert (Step : forall k e,
               ce_variable e = v -> ce_k_value e = k ->
               compute_k cropName dw ranges r (put v k kDict) (logs ++ [e])
               = (kDict ++ (v, k) :: map (fun e => (ce_variable e, ce_k_value e))
                                       (map (entry_of cropName dw ranges) r),
                  logs ++ e :: map (entry_of cropName dw ranges) r)).
    { intros k e _ _. rewrite IH.
      - rewrite (put_fresh v k kDict Fv), <- !app_assoc. reflexivity.
      - exact Nr.
      - intros x Ix. rewrite (put_fresh v k kDict Fv). unfold keys. rewrite map_app.
        intros I. apply in_app_or in I. destruct I as [I|[<-|[]]].
        + apply (F x); [now right | exact I].
        + apply Nv. exact Ix. }
    cbn [compute_k map].
    remember (entry_of cropName dw ranges (v, i)) as e eqn:Ee.
    unfold entry_of in Ee. cbn [fst snd] in Ee.
    destruct (in_some_day v dw); [destruct (get v ranges)|]; subst e; now apply Step.
Qed.

Lemma normalized_range (dw : list day) (vars : list string) (v : string) :
  In v vars -> in_some_day v dw = true ->
  exists r, get v (normalize (compute_ranges dw vars [])) = Some r /\ 0 < r /\ r <= 1.
Proof.
  intros I S.
  pose proof (compute_ranges_get dw v vars [] I S) as G.
  set (ranges := compute_ranges dw vars []) in *.
  exists (calculateRange (map (day_get v) dw) / maxRange ranges).
  split; [rewrite get_normalize, G; reflexivity|].
  pose proof (calculateRange_pos (map (day_get v) dw)) as P.
  pose proof (maxRange_ge_1 ranges) as M1.
  pose proof (maxRange_ge ranges v _ (get_In _ _ _ G)) as M.
  split.
  - apply Qlt_shift_div_l; lra.
  - apply Qle_shift_div_r; lra.
Qed.

(** X9.  What the calibration of one crop records.  For base importances
    with distinct names, the loop appends one log entry per variable, in
    the order of the base importances, and the crop's k values are exactly
    the (variable, k value) pairs of those entries.  A variable that occurs
    in the weather has a normalized range in (0, 1], the variation factor
    [1 - range / 2] (so the floor of 0.1 is never reached) and the k value
    importance times that factor; a variable that does not occur is
    marked as missing and keeps its importance, or [null] when that is
    falsy. *)
Theorem calibration_records_every_variable
        (cropName : string) (dw : list day) (base : obj jsval)
        (logs : list calibration_entry) :
  NoDup (keys base) ->
  let out := crop_k_values cropName dw base logs in
  exists entries,
    snd out = logs ++ entries
    /\ map ce_variable entries = keys base
    /\ map ce_importance entries = values base
    /\ fst out = map (fun e => (ce_variable e, ce_k_value e)) entries
    /\ Forall (fun e =>
                ce_crop e = cropName
                /\ if in_some_day (ce_variable e) dw
                   then ce_note_missing e = false
                        /\ exists r, ce_range e = Some r /\ 0 < r /\ r <= 1
                             /\ ce_variation_factor e = Some (1 - (1 # 2) * r)
                             /\ ce_k_value e = times (ce_importance e) (1 - (1 # 2) * r)
                   else ce_note_missing e = true /\ ce_range e = None
                        /\ ce_variation_factor e = None
                        /\ ce_k_value e = or_null (ce_importance e))
         entries.
Proof.
  intros N out. subst out. unfold crop_k_values.
  set (ranges := normalize (compute_ranges dw (keys base) [])).
  rewrite (compute_k_shape cropName dw ranges base [] logs N) by (intros v _ []).
  exists (map (entry_of cropName dw ranges) base). simpl.
  split; [reflexivity|]. split; [|split; [|split; [reflexivity|]]].
  - unfold keys. rewrite map_map. apply map_ext. intros vi. apply entry_of_variable.
  - unfold values. rewrite map_map. apply map_ext. intros vi. unfold entry_of.
    destruct (in_some_day (fst vi) dw); [destruct (get (fst vi) ranges)|]; reflexivity.
  - apply Forall_forall. intros e I. apply in_map_iff in I.
    destruct I as [[v i] [<- I]].
    assert (K : In v (keys base)).
    { unfold keys. change v with (fst (v, i)). now apply in_map. }
    rewrite entry_of_variable. unfold entry_of. cbn [fst snd].
    destruct (in_some_day v dw) eqn:S.
    + destruct (normalized_range dw (keys base) v K S) as [r [G [P L]]].
      fold ranges in G. rewrite G. cbn.
      rewrite (variationFactor_of_unit r P L).
      split; [reflexivity|]. split; [reflexivity|].
      exists r. auto.
    + cbn. auto.
Qed.

Lemma calibration_records_every_variable_witness :
  exists entries,
    snd (crop_k_values "A" Examples.constant_weather Examples.base_T []) = entries
    /\ map ce_variable entries = keys Examples.base_T.
Proof.
  destruct (calibration_records_every_variable "A" Examples.constant_weather
              Examples.base_T []) as [entries [S [V _]]].
  - constructor; [simpl; tauto | constructor].
  - exists entries. split; [exact S | exact V].
Defined.

End CalibrationShape.

Section CalibrationHeap.
Import JS Calibration.

Lemma compute_k_fst_indep n1 n2 dw ranges base kDict logs1 logs2 :
  fst (compute_k n1 dw ranges base kDict logs1)
  = fst (compute_k n2 dw ranges base kDict logs2).
Proof.
  revert kDict logs1 logs2.
  induction base as [|[v i] r IH]; intros kDict logs1 logs2; simpl; [reflexivity|].
  destruct (in_some_day v dw); [destruct (get v ranges)|]; apply IH.
Qed.

Lemma crop_k_values_indep n dw base logs :
  fst (crop_k_values n dw base logs) = fst (crop_k_values "" dw base []).
Proof. unfold crop_k_values. apply compute_k_fst_indep. Qed.

Lemma length_write (h : heap) (l : loc) (c : crop) :
  List.length (write h l c) = List.length h.
Proof.
  revert l. induction h as [|x t IH]; intros l; destruct l; simpl; auto.
Qed.

Lemma deref_write_other (h : heap) (l l' : loc) (c : crop) :
  l' <> l -> deref (write h l c) l' = deref h l'.
Proof.
  unfold deref. revert l l'. induction h as [|x t IH]; intros l l' N;
    destruct l, l'; simpl; try reflexivity; try congruence.
  apply IH. congruence.
Qed.

Local Abbreviation named l crops :=
  (existsb (fun e : string * loc => Nat.eqb (snd e) l) crops).
Local Abbreviation calibrated base crops c l :=
  (match daily_weather c with
   | Some (d :: dw) =>
       if named l crops then set_k_values c (fst (crop_k_values "" (d :: dw) base [])) else c
   | _ => c
   end).
Local Abbreviation without_weather h :=
  (fun e : string * loc =>
     match deref h (snd e) with
     | Some c => match daily_weather c with None | Some [] => true | _ => false end
     | None => false
     end).

Lemma fold_step_spec (base : obj jsval) (h : heap) (errors : list error_entry)
      (crops : obj loc) :
  let st := fold_left (step base) crops (mkState h errors []) in
  List.length (st_heap st) = List.length h
  /\ (forall l, deref (st_heap st) l
                = option_map (fun c => calibrated base crops c l) (deref h l))
  /\ st_errors st
     = errors ++ map (fun e => mkErr (fst e)) (filter (without_weather h) crops).
Proof.
  induction crops as [|[name l] crops IH] using rev_ind.
  - simpl. split; [reflexivity|]. split; [|now rewrite app_nil_r].
    intros l. destruct (deref h l) as [c|]; [|reflexivity].
    simpl. destruct (daily_weather c) as [[|d dw]|]; reflexivity.
  - cbv zeta in *. rewrite fold_left_app. cbn [fold_left].
    set (st := fold_left (step base) crops (mkState h errors [])) in *.
    destruct IH as [Len [Der Err]].
    rewrite filter_app, map_app, app_assoc, <- Err. cbn [filter snd].
    assert (Ex : forall l', named l' (crops ++ [(name, l)])
                            = named l' crops || Nat.eqb l l').
    { intros l'. rewrite existsb_app. simpl. now rewrite orb_false_r. }
    unfold step at 1 2 3. cbn [fst snd].
    pose proof (Der l) as Dl.
    destruct (deref h l) as [c|] eqn:Dh; simpl in Dl; rewrite Dl.
    + assert (W : daily_weather (calibrated base crops c l) = daily_weather c).
      { destruct (daily_weather c) as [[|d dw]|] eqn:E; try exact E.
        destruct (named l crops); simpl; exact E. }
      destruct (daily_weather c) as [[|d dw]|] eqn:E.
      * rewrite W. simpl. split; [exact Len|]. split; [|reflexivity].
        intros l'. rewrite Der. destruct (deref h l') as [c'|] eqn:D'; [|reflexivity].
        simpl. destruct (daily_weather c') as [[|d' dw']|] eqn:E'; try reflexivity.
        rewrite Ex. destruct (Nat.eqb_spec l l') as [->|Ne].
        -- rewrite Dh in D'. injection D' as <-. congruence.
        -- now rewrite orb_false_r.
      * rewrite W.
        destruct (crop_k_values name (d :: dw) base (st_calibration st))
          as [kDict logs] eqn:CK.
        assert (Ek : kDict = fst (crop_k_values "" (d :: dw) base [])).
        { rewrite <- (crop_k_values_indep name (d :: dw) base (st_calibration st)).
          now rewrite CK. }
        simpl. rewrite length_write. split; [exact Len|].
        split; [|now rewrite app_nil_r].
        intros l'. destruct (Nat.eqb_spec l l') as [<-|Ne].
        -- rewrite (deref_write _ _ _ _ Dl), Dh. simpl. rewrite E, Ex, Nat.eqb_refl,
             orb_true_r, Ek.
           destruct (named l crops); reflexivity.
        -- rewrite deref_write_other by congruence. rewrite Der.
           destruct (deref h l') as [c'|]; [|reflexivity]. simpl.
           destruct (daily_weather c') as [[|d' dw']|]; try reflexivity.
           rewrite Ex. destruct (Nat.eqb_spec l l'); [contradiction|].
           now rewrite orb_false_r.
      * rewrite W. simpl. split; [exact Len|]. split; [|reflexivity].
        intros l'. rewrite Der. destruct (deref h l') as [c'|] eqn:D'; [|reflexivity].
        simpl. destruct (daily_weather c') as [[|d' dw']|] eqn:E'; try reflexivity.
        rewrite Ex. destruct (Nat.eqb_spec l l') as [->|Ne].
        -- rewrite Dh in D'. injection D' as <-. congruence.
        -- now rewrite orb_false_r.
    + simpl. rewrite app_nil_r. split; [exact Len|]. split; [|reflexivity].
      intros l'. rewrite Der. destruct (deref h l') as [c'|] eqn:D'; [|reflexivity].
      simpl. destruct (daily_weather c') as [[|d' dw']|] eqn:E'; try reflexivity.
      rewrite Ex. destruct (Nat.eqb_spec l l') as [->|Ne].
      * congruence.
      * now rewrite orb_false_r.
Qed.

(** X10.  What calibration does to the caller's crop objects.  The
    returned name table is the one passed in, and no crop object is added
    or removed.  A crop object with at least one weather record that is
    named in the table gets new k values, which depend on its weather and
    on the base importances only (not on its name, on the k values it had,
    or on the crops before it); its variety, region, duration and weather
    stay as they were.  Every other crop object is left untouched.  The
    errors grow by one entry for each name whose crop has no weather
    record, in the order of the table. *)
Theorem calibration_changes_only_k_values
        (h : heap) (crops : obj loc) (base : obj jsval) (errors : list error_entry) :
  let out := computeCropKValues h crops base errors in
  out_crops out = crops
  /\ List.length (out_heap out) = List.length h
  /\ (forall l,
        deref (out_heap out) l
        = match deref h l with
          | None => None
          | Some c =>
              Some match daily_weather c with
                   | Some (d :: dw) =>
                       if existsb (fun e => Nat.eqb (snd e) l) crops
                       then set_k_values c (fst (crop_k_values "" (d :: dw) base []))
                       else c
                   | _ => c
                   end
          end)
  /\ (forall l c, deref h l = Some c ->
        exists c', deref (out_heap out) l = Some c'
                   /\ variety c' = variety c /\ region c' = region c
                   /\ duration_days c' = duration_days c
                   /\ daily_weather c' = daily_weather c)
  /\ out_errors out
     = errors ++ map (fun e => mkErr (fst e))
                   (filter (fun e => match deref h (snd e) with
                                     | Some c => match daily_weather c with
                                                 | None | Some [] => true
                                                 | _ => false
                                                 end
                                     | None => false
                                     end) crops).
Proof.
  intros out. subst out. unfold computeCropKValues. cbn [out_crops out_heap out_errors].
  destruct (fold_step_spec base h errors crops) as [Len [Der Err]].
  split; [reflexivity|]. split; [exact Len|]. split; [|split; [|exact Err]].
  - intros l. rewrite Der. destruct (deref h l); reflexivity.
  - intros l c D. rewrite Der, D. simpl. eexists. split; [reflexivity|].
    destruct (daily_weather c) as [[|d dw]|] eqn:E; try (repeat split; exact E).
    destruct (existsb _ crops); simpl; repeat split; exact E.
Qed.

(** X11.  Calibrating again changes nothing: a second call on the crop
    objects left by a first call, with the same names and base
    importances, leaves every crop object as the first call left it. *)
Theorem calibration_is_idempotent
        (h : heap) (crops : obj loc) (base : obj jsval)
        (errors errors' : list error_entry) :
  let once := computeCropKValues h crops base errors in
  out_heap (computeCropKValues (out_heap once) crops base errors') = out_heap once.
Proof.
  intros once. subst once. unfold computeCropKValues. cbn [out_heap].
  destruct (fold_step_spec base h errors crops) as [_ [Der _]].
  set (h1 := st_heap (fold_left (step base) crops (mkState h errors []))) in *.
  destruct (fold_step_spec base h1 errors' crops) as [_ [Der' _]].
  apply nth_error_ext. intros l. fold (deref h1 l).
  match goal with |- nth_error ?x l = _ => fold (deref x l) end.
  rewrite Der', Der.
  destruct (deref h l) as [c|]; [|reflexivity]. simpl. f_equal.
  destruct (daily_weather c) as [[|d dw]|] eqn:E; try (rewrite E; reflexivity).
  destruct (existsb _ crops) eqn:N.
  - simpl. rewrite E. reflexivity.
  - rewrite E. reflexivity.
Qed.

End CalibrationHeap.

Section RangeFacts.
Import JS Calibration.





End RangeFacts.

Section LinearScore.
Import JS Matching.

Lemma linear_value (d maxDelta : Q) :
  0 < maxDelta ->
  let x := Qmaxb 0 (Qminb 1 (1 - d / maxDelta)) in
  0 <= x /\ x <= 1
  /\ (0 <= d -> d <= maxDelta -> x == 1 - d / maxDelta)
  /\ (d <= 0 -> x == 1) /\ (maxDelta <= d -> x == 0).
Proof.
  intros P x. subst x.
  assert (A : 0 <= d -> 0 <= d / maxDelta) by (intros; apply Qle_shift_div_l; lra).
  assert (B : d <= maxDelta -> d / maxDelta <= 1) by (intros; apply Qle_shift_div_r; lra).
  assert (C : d <= 0 -> d / maxDelta <= 0) by (intros; apply Qle_shift_div_r; lra).
  assert (D : maxDelta <= d -> 1 <= d / maxDelta) by (intros; apply Qle_shift_div_l; lra).
  set (q := d / maxDelta) in *. unfold Qmaxb, Qminb.
  destruct (Qle_bool 1 (1 - q)) eqn:F;
    [apply Qle_bool_iff in F | apply Qle_bool_false in F];
    match goal with
    | |- context [Qle_bool ?a ?b] =>
        destruct (Qle_bool a b) eqn:E;
        [apply Qle_bool_iff in E | apply Qle_bool_false in E]
    end;
    (split; [lra|]); (split; [lra|]); (split; [intros; lra|]);
    (split; intros; lra).
Qed.

Lemma linear_value_mono (d1 d2 maxDelta : Q) :
  0 < maxDelta -> d1 <= d2 ->
  Qmaxb 0 (Qminb 1 (1 - d2 / maxDelta)) <= Qmaxb 0 (Qminb 1 (1 - d1 / maxDelta)).
Proof.
  intros P H.
  assert (A : d1 / maxDelta <= d2 / maxDelta).
  { apply Qle_shift_div_l; [exact P|].
    assert (E : d1 / maxDelta * maxDelta == d1) by (field; lra). lra. }
  set (q1 := d1 / maxDelta) in *. set (q2 := d2 / maxDelta) in *.
  unfold Qmaxb, Qminb.
  destruct (Qle_bool 1 (1 - q1)) eqn:F1;
    [apply Qle_bool_iff in F1 | apply Qle_bool_false in F1];
    (destruct (Qle_bool 1 (1 - q2)) eqn:F2;
     [apply Qle_bool_iff in F2 | apply Qle_bool_false in F2]);
    repeat match goal with
           | |- context [Qle_bool ?a ?b] =>
               let E := fresh "E" in
               destruct (Qle_bool a b) eqn:E;
               [apply Qle_bool_iff in E | apply Qle_bool_false in E]
           end; lra.
Qed.

(** X13.  [linearScore], for a positive [maxDelta]: one score per relative
    delta, each in [0, 1]; a delta in [0, maxDelta] scores
    [1 - delta / maxDelta], a delta of 0 or less scores 1 and a delta of
    [maxDelta] or more scores 0; and the score never grows with the
    delta. *)
Theorem linearScore_decreases_in_unit (relDelta : list Q) (maxDelta : Q) :
  0 < maxDelta ->
  List.length (linearScore relDelta maxDelta) = List.length relDelta
  /\ (forall i d, nth_error relDelta i = Some d ->
        exists x, nth_error (linearScore relDelta maxDelta) i = Some x
                  /\ 0 <= x /\ x <= 1
                  /\ (0 <= d -> d <= maxDelta -> x == 1 - d / maxDelta)
                  /\ (d <= 0 -> x == 1) /\ (maxDelta <= d -> x == 0))
  /\ (forall larger, Forall2 Qle relDelta larger ->
        Forall2 (fun a b => b <= a) (linearScore relDelta maxDelta)
                (linearScore larger maxDelta)).
Proof.
  intros P. unfold linearScore. split; [apply length_map|]. split.
  - intros i d E. eexists. split; [apply map_nth_error; exact E|].
    apply (linear_value d maxDelta P).
  - intros larger F. induction F as [|a b r1 r2 H F IH]; simpl; constructor.
    + now apply linear_value_mono.
    + exact IH.
Qed.

Lemma linearScore_decreases_in_unit_witness :
  List.length (linearScore [0; 1 # 2; 3] 1) = 3%nat.
Proof.
  apply (linearScore_decreases_in_unit [0; 1 # 2; 3] 1). reflexivity.
Defined.

End LinearScore.

Section Rounding.
Import JS Matching.

Lemma Qfloor_unique (x : Q) (z : Z) :
  inject_Z z <= x -> x < inject_Z (z + 1) -> Qfloor x = z.
Proof.
  intros A B.
  assert (L : (z <= Qfloor x)%Z).
  { apply Qfloor_resp_le in A. now rewrite Qfloor_Z in A. }
  assert (U : (Qfloor x < z + 1)%Z).
  { rewrite Zlt_Qlt. eapply Qle_lt_trans; [apply Qfloor_le | exact B]. }
  lia.
Qed.

(** X14.  Rounding to four decimals: the reported score is a whole
    number of ten-thousandths, it differs from the score by at most
    0.00005 (a score exactly halfway is rounded up), and rounding a
    reported score again gives it back. *)
Theorem round4_is_nearest (s : Q) :
  (exists z : Z, round4 s == inject_Z z / 10000)
  /\ - (1 # 20000) < round4 s - s /\ round4 s - s <= 1 # 20000
  /\ round4 (round4 s) == round4 s.
Proof.
  unfold round4 at 1 2 3.
  set (x := s * 10000 + (1 # 2)).
  pose proof (Qfloor_le x) as A. pose proof (Qlt_floor x) as B.
  rewrite inject_Z_plus in B. change (inject_Z 1) with 1 in B.
  set (z := inject_Z (Qfloor x)) in *.
  assert (E : z / 10000 == z * (1 # 10000)) by (field; discriminate).
  split; [exists (Qfloor x); reflexivity|].
  split; [rewrite E; unfold x in *; lra|].
  split; [rewrite E; unfold x in *; lra|].
  unfold round4.
  assert (F : Qfloor (inject_Z (Qfloor x) / 10000 * 10000 + (1 # 2)) = Qfloor x).
  { apply Qfloor_unique.
    - fold z. assert (G : z / 10000 * 10000 == z) by (field; discriminate). lra.
    - rewrite inject_Z_plus. change (inject_Z 1) with 1. fold z.
      assert (G : z / 10000 * 10000 == z) by (field; discriminate). lra. }
  fold x. rewrite F. reflexivity.
Qed.

End Rounding.

Section DataGate.
Import JS Matching.
Variable CONFIG : config.

Lemma of_nat_le (a b : nat) : (a <= b)%nat -> of_nat a <= of_nat b.
Proof. intros H. unfold of_nat. rewrite <- Zle_Qle. lia. Qed.

Lemma valid_day_has (f : string) (d : day) :
  valid (day_get f d) = true -> day_has f d = true.
Proof.
  unfold day_has, day_get, mem, has, get.
  destruct (lookup String.eqb f (vals d)); [reflexivity | discriminate].
Qed.

Lemma filter_length_bound {A} (p : A -> bool) (l : list A) :
  (List.length (filter p l) <= List.length l)%nat.
Proof.
  induction l as [|x r IH]; simpl; [lia|]. destruct (p x); simpl; lia.
Qed.

Lemma filter_all {A} (p : A -> bool) (l : list A) :
  (forall x, In x l -> p x = true) -> filter p l = l.
Proof.
  induction l as [|x r IH]; intros H; simpl; [reflexivity|].
  rewrite (H x (or_introl eq_refl)), IH; [reflexivity|].
  intros y I. apply H. now right.
Qed.

Lemma dataRatio_unit (v t : nat) :
  (0 < t)%nat -> 0 <= dataRatio v t /\ ((v <= t)%nat -> dataRatio v t <= 1).
Proof.
  intros P. unfold dataRatio.
  pose proof (of_nat_pos t P) as Pt.
  pose proof (of_nat_le 0 v (Nat.le_0_l v)) as Pv.
  change (of_nat 0) with 0 in Pv. split.
  - apply Qle_shift_div_l; lra.
  - intros L. apply of_nat_le in L. apply Qle_shift_div_r; lra.
Qed.

(** X15.  The data gate of a window.  The count of valid values never
    exceeds days times required fields, and equals it when every record
    of the window carries a number for every required field; such a window
    passes the gate whenever [MAX_NAN_RATIO] is not negative.  A window
    with fewer valid values than one that is rejected is rejected too.
    With [MAX_NAN_RATIO] at 1 or more the gate rejects nothing; with a
    negative one it rejects every window that has a slot. *)
Theorem data_gate_bounds (windowDf : list day) :
  let total := (List.length windowDf * List.length (REQUIRED_FIELDS CONFIG))%nat in
  (validValues CONFIG windowDf <= total)%nat
  /\ ((forall d f, In d windowDf -> In f (REQUIRED_FIELDS CONFIG) ->
                   valid (day_get f d) = true) ->
      validValues CONFIG windowDf = total
      /\ (0 <= MAX_NAN_RATIO CONFIG ->
          insufficient CONFIG (validValues CONFIG windowDf) total = false))
  /\ (forall v1 v2 t, (v1 <= v2)%nat ->
        insufficient CONFIG v2 t = true -> insufficient CONFIG v1 t = true)
  /\ (1 <= MAX_NAN_RATIO CONFIG -> forall v t, insufficient CONFIG v t = false)
  /\ (MAX_NAN_RATIO CONFIG < 0 ->
      forall v t, (0 < t)%nat -> (v <= t)%nat -> insufficient CONFIG v t = true).
Proof.
  intros total. subst total.
  split; [|split; [|split; [|split]]].
  - unfold validValues. induction windowDf as [|d r IH]; simpl; [lia|].
    pose proof (filter_length_bound
                  (fun field => day_has field d && valid (day_get field d))
                  (REQUIRED_FIELDS CONFIG)).
    lia.
  - intros C.
    assert (E : validValues CONFIG windowDf
                = (List.length windowDf * List.length (REQUIRED_FIELDS CONFIG))%nat).
    { unfold validValues. induction windowDf as [|d r IH]; simpl; [reflexivity|].
      rewrite filter_all.
      - rewrite IH; [reflexivity|]. intros d' f I. apply C. now right.
      - intros f I. pose proof (C d f (or_introl eq_refl) I) as V.
        now rewrite V, (valid_day_has f d V). }
    split; [exact E|]. intros M. rewrite E. unfold insufficient.
    destruct (Nat.eqb_spec (List.length windowDf * List.length (REQUIRED_FIELDS CONFIG)) 0)
      as [Z|NZ]; [reflexivity|].
    set (t := (List.length windowDf * List.length (REQUIRED_FIELDS CONFIG))%nat) in *.
    assert (P : 0 < of_nat t) by (apply of_nat_pos; lia).
    assert (R : dataRatio t t == 1) by (unfold dataRatio; field; lra).
    unfold Qlt_bool. apply negb_false_iff, Qle_bool_iff. lra.
  - intros v1 v2 t L. unfold insufficient.
    destruct (Nat.eqb_spec t 0) as [Z|NZ]; [discriminate|].
    intros I. apply Qlt_bool_iff in I. apply Qlt_bool_iff.
    assert (P : 0 < of_nat t) by (apply of_nat_pos; lia).
    apply of_nat_le in L.
    assert (D : dataRatio v1 t <= dataRatio v2 t).
    { unfold dataRatio. apply Qle_shift_div_l; [exact P|].
      assert (E : of_nat v1 / of_nat t * of_nat t == of_nat v1) by (field; lra). lra. }
    lra.
  - intros M v t. unfold insufficient.
    destruct (Nat.eqb_spec t 0) as [Z|NZ]; [reflexivity|].
    destruct (dataRatio_unit v t) as [A _]; [lia|].
    unfold Qlt_bool. apply negb_false_iff, Qle_bool_iff. lra.
  - intros M v t P L. unfold insufficient.
    destruct (Nat.eqb_spec t 0) as [Z|NZ]; [lia|].
    destruct (dataRatio_unit v t P) as [_ B]. specialize (B L).
    apply Qlt_bool_iff. lra.
Qed.

End DataGate.

Section DefaultWeights.
Import JS Matching.
Variables Math_exp Math_pow_half : Q -> Q.
Variable CONFIG : config.

Lemma default_weight (v : string) :
  weightOf CONFIG (DEFAULT_VARIABLE_WEIGHTS CONFIG) v = 1 / nfields CONFIG.
Proof.
  unfold weightOf, or_default.
  destruct (get v (DEFAULT_VARIABLE_WEIGHTS CONFIG)) as [[| |q]|] eqn:G; try reflexivity.
  apply get_In in G. unfold DEFAULT_VARIABLE_WEIGHTS in G.
  apply default_weights_In in G. destruct G as [[]|E].
  injection E as ->. now destruct (Qeq_bool (1 / nfields CONFIG) 0).
Qed.

(** X16.  A crop without k values.  Its weights are the default ones,
    every variable weighs [1 / REQUIRED_FIELDS.length] and is scored with
    [DEFAULT_K], and the score of a window on which at least one variable
    produces a score is the plain mean of the scores of those variables. *)
Theorem no_k_values_plain_mean
        (windowData cropData : list day) (cropName : string) (windowStart : Z)
        (L : logData) :
  scored_fields CONFIG windowData cropData <> [] ->
  fst (derive_weights CONFIG cropName [] L) = DEFAULT_VARIABLE_WEIGHTS CONFIG
  /\ (forall v, kOf CONFIG [] v = DEFAULT_K CONFIG
                /\ weightOf CONFIG (DEFAULT_VARIABLE_WEIGHTS CONFIG) v
                   = 1 / of_nat (List.length (REQUIRED_FIELDS CONFIG)))
  /\ exists s,
       fst (fst (computeScore Math_exp Math_pow_half CONFIG windowData cropData []
                   (DEFAULT_VARIABLE_WEIGHTS CONFIG) cropName windowStart L)) = Some s
       /\ s == sum (map (fun v => variableScoreOf Math_exp Math_pow_half
                                    (pairsOf windowData cropData v) (DEFAULT_K CONFIG))
                      (scored_fields CONFIG windowData cropData))
               / of_nat (List.length (scored_fields CONFIG windowData cropData)).
Proof.
  intros N. split; [reflexivity|]. split.
  - intros v. split; [reflexivity | apply default_weight].
  - rewrite computeScore_score.
    set (fields := scored_fields CONFIG windowData cropData) in *.
    set (w := 1 / nfields CONFIG).
    assert (Pw : 0 < w).
    { destruct fields as [|v r] eqn:E; [congruence|].
      apply (nfields_inv_pos CONFIG v).
      assert (I : In v fields) by (rewrite E; now left).
      unfold fields, scored_fields in I. apply filter_In in I. tauto. }
    assert (Pm : 0 < of_nat (List.length fields)).
    { apply of_nat_pos. destruct fields; [congruence | simpl; lia]. }
    assert (W : sum (weights_used CONFIG windowData cropData (DEFAULT_VARIABLE_WEIGHTS CONFIG))
                == w * of_nat (List.length fields)).
    { unfold weights_used. fold fields.
      rewrite (sum_constant (map _ fields) w).
      - now rewrite length_map.
      - intros x I. apply in_map_iff in I. destruct I as [v [<- _]].
        rewrite default_weight. reflexivity. }
    assert (S : sum (weighted_scores Math_exp Math_pow_half CONFIG windowData cropData []
                       (DEFAULT_VARIABLE_WEIGHTS CONFIG))
                == w * sum (map (fun v => variableScoreOf Math_exp Math_pow_half
                                            (pairsOf windowData cropData v) (DEFAULT_K CONFIG))
                              fields)).
    { unfold weighted_scores. fold fields. apply sum_map_scaled.
      intros v _. unfold weighted_score. rewrite default_weight. fold w.
      unfold variable_score. change (kOf CONFIG [] v) with (DEFAULT_K CONFIG). ring. }
    destruct (window_score Math_exp Math_pow_half CONFIG windowData cropData []
                (DEFAULT_VARIABLE_WEIGHTS CONFIG)) as [s|] eqn:E.
    + exists s. split; [reflexivity|].
      destruct (window_score_some _ _ _ _ _ _ _ _ E) as [_ [_ ->]].
      rewrite S, W. field. split; lra.
    + exfalso. apply window_score_none in E. destruct E as [E|E]; [contradiction|].
      rewrite W in E. nra.
Qed.

End DefaultWeights.

Section DefaultWeightsWitness.
Import JS Matching.

Lemma no_k_values_plain_mean_witness :
  exists s,
    fst (fst (computeScore Examples.exp_model Examples.pow_half_model DEFAULT_CONFIG
                [Examples.full_day 100 10; Examples.full_day 101 12]
                [Examples.temp_day 0 10; Examples.temp_day 1 12] []
                (DEFAULT_VARIABLE_WEIGHTS DEFAULT_CONFIG) "A" 100 empty_log)) = Some s.
Proof.
  destruct (no_k_values_plain_mean Examples.exp_model Examples.pow_half_model DEFAULT_CONFIG
              [Examples.full_day 100 10; Examples.full_day 101 12]
              [Examples.temp_day 0 10; Examples.temp_day 1 12] "A" 100 empty_log)
    as [_ [_ [s [E _]]]].
  - vm_compute. discriminate.
  - exists s. exact E.
Defined.
End DefaultWeightsWitness.

Section RequestParameters.
Import JS WeatherService.

Lemma push_same (h : arrays) (l : nat) (s : string) (xs : list string) :
  nth_error h l = Some xs -> nth_error (push h l s) l = Some (xs ++ [s]).
Proof.
  revert l. induction h as [|ys t IH]; intros l; destruct l; simpl; try discriminate.
  - now intros [= ->].
  - apply IH.
Qed.

Lemma push_other (h : arrays) (l l' : nat) (s : string) :
  l' <> l -> nth_error (push h l s) l' = nth_error h l'.
Proof.
  revert l l'. induction h as [|ys t IH]; intros l l' N; destruct l, l'; simpl;
    try reflexivity; try congruence.
  apply IH. congruence.
Qed.

Lemma push_length (h : arrays) (l : nat) (s : string) :
  List.length (push h l s) = List.length h.
Proof. revert l. induction h as [|ys t IH]; intros l; destruct l; simpl; auto. Qed.

Lemma format_shared (h : arrays) (p : params) (l : nat) (s : string) :
  daily p = Some (PArr l) -> daily_2 p = Some s -> s <> ""%string ->
  formatOpenMeteoParams h p
  = (push h l s, mkParams None None (Some (PArr l)) (others p)).
Proof.
  intros D D2 N. unfold formatOpenMeteoParams. rewrite D, D2.
  destruct (String.eqb_spec s ""); [contradiction|]. reflexivity.
Qed.

(** X17.  Formatting writes to the caller's array.  When [daily] is an
    array and [daily_2] is not empty, the object returned has neither
    [daily] nor [daily_2]; its [daily[]] is the very array the caller
    passed as [daily], not a copy, and [daily_2] has been appended to it in
    place: the caller's own [daily] is one element longer after the call.
    No other array changes. *)
Theorem formatting_appends_to_callers_array
        (h : arrays) (p : params) (l : nat) (xs : list string) (s : string) :
  daily p = Some (PArr l) -> nth_error h l = Some xs ->
  daily_2 p = Some s -> s <> ""%string ->
  let out := formatOpenMeteoParams h p in
  snd out = mkParams None None (Some (PArr l)) (others p)
  /\ daily_list (snd out) = daily p
  /\ nth_error (fst out) l = Some (xs ++ [s])
  /\ List.length (fst out) = List.length h
  /\ (forall l', l' <> l -> nth_error (fst out) l' = nth_error h l').
Proof.
  intros D H D2 N out. subst out. rewrite (format_shared h p l s D D2 N). simpl.
  split; [reflexivity|]. split; [now rewrite D|]. split; [now apply push_same|].
  split; [apply push_length|]. intros l' Ne. now apply push_other.
Qed.

Lemma formatting_appends_to_callers_array_witness :
  nth_error
    (fst (formatOpenMeteoParams [["temperature_2m_max"%string]]
            (mkParams (Some (PArr 0)) (Some "precipitation_sum"%string) None [])))
    0
  = Some (["temperature_2m_max"%string] ++ ["precipitation_sum"%string]).
Proof.
  refine (proj1 (proj2 (proj2
    (formatting_appends_to_callers_array [["temperature_2m_max"%string]]
       (mkParams (Some (PArr 0)) (Some "precipitation_sum"%string) None [])
       0 ["temperature_2m_max"%string] "precipitation_sum" _ _ _ _)))).
  - reflexivity.
  - reflexivity.
  - reflexivity.
  - discriminate.
Defined.

Lemma repeat_snoc {A} (x : A) (n : nat) : repeat x n ++ [x] = repeat x (S n).
Proof. induction n as [|n IH]; simpl; [reflexivity | now rewrite IH]. Qed.

Lemma format_all_shared (ps : list params) (l : nat) (s : string) :
  (forall p, In p ps -> daily p = Some (PArr l) /\ daily_2 p = Some s) ->
  s <> ""%string ->
  forall h xs, nth_error h l = Some xs ->
               nth_error (format_all h ps) l = Some (xs ++ repeat s (List.length ps)).
Proof.
  intros A N. induction ps as [|p r IH]; intros h xs H.
  - simpl. now rewrite app_nil_r.
  - unfold format_all. cbn [fold_left].
    destruct (A p (or_introl eq_refl)) as [D D2].
    rewrite (format_shared h p l s D D2 N). cbn [fst].
    fold (format_all (push h l s) r).
    rewrite (IH (fun q I => A q (or_intror I)) (push h l s) (xs ++ [s])
                (push_same h l s xs H)).
    rewrite <- app_assoc. reflexivity.
Qed.

(** X18.  The appended name accumulates.  When every request of a
    batch is formatted from a parameter object that carries the same
    [daily] array and the same non-empty [daily_2], as the requests of
    [fetchCropWeatherData] are, the shared array holds [k] more copies of
    [daily_2] after the first [k] requests: the k-th request is sent with
    [k] copies, and the array keeps all of them after the batch. *)
Theorem repeated_requests_accumulate
        (h : arrays) (ps : list params) (l : nat) (xs : list string) (s : string) :
  (forall p, In p ps -> daily p = Some (PArr l) /\ daily_2 p = Some s) ->
  s <> ""%string -> nth_error h l = Some xs ->
  forall k, (k <= List.length ps)%nat ->
            nth_error (format_all h (firstn k ps)) l = Some (xs ++ repeat s k).
Proof.
  intros A N H k K.
  rewrite (format_all_shared (firstn k ps) l s) with (xs := xs).
  - rewrite length_firstn, Nat.min_l by exact K. reflexivity.
  - intros p I. apply A. rewrite <- (firstn_skipn k ps). apply in_or_app. now left.
  - exact N.
  - exact H.
Qed.

Lemma repeated_requests_accumulate_witness :
  nth_error
    (format_all [["temperature_2m_max"%string]]
       (firstn 2
          [mkParams (Some (PArr 0)) (Some "precipitation_sum"%string) None [];
           mkParams (Some (PArr 0)) (Some "precipitation_sum"%string) None []]))
    0
  = Some (["temperature_2m_max"%string] ++ repeat "precipitation_sum"%string 2).
Proof.
  apply (repeated_requests_accumulate [["temperature_2m_max"%string]]
           [mkParams (Some (PArr 0)) (Some "precipitation_sum"%string) None [];
            mkParams (Some (PArr 0)) (Some "precipitation_sum"%string) None []]
           0 ["temperature_2m_max"%string] "precipitation_sum").
  - intros p [<-|[<-|[]]]; split; reflexivity.
  - discriminate.
  - reflexivity.
  - simpl. lia.
Defined.

End RequestParameters.

Section BaseImportance.
Import JS Calibration CalibrationHandler.

Lemma get_fresh {V} (k : string) (o : obj V) : ~ In k (keys o) -> get k o = None.
Proof.
  unfold get. induction o as [|[k' v] o IH]; simpl; intros N; [reflexivity|].
  destruct (String.eqb_spec k k') as [->|D]; [exfalso; apply N; now left|].
  apply IH. intros I. apply N. now right.
Qed.

Lemma mem_keys {V} (k : string) (o : obj V) : mem k o = true <-> In k (keys o).
Proof.
  unfold mem, has. induction o as [|[k' v] o IH]; simpl; [split; [discriminate | tauto]|].
  destruct (String.eqb_spec k k') as [->|D]; [split; auto|].
  rewrite IH. split; [auto | intros [E|I]; [congruence | exact I]].
Qed.

Lemma keys_put {V} (k : string) (v : V) (o : obj V) :
  keys (put k v o) = if mem k o then keys o else keys o ++ [k].
Proof.
  unfold put, mem, has. induction o as [|[k' v'] o IH]; simpl; [reflexivity|].
  destruct (String.eqb_spec k k') as [->|D]; [reflexivity|].
  simpl. rewrite IH. now destruct (lookup String.eqb k o).
Qed.

Lemma get_spread {V} (a b : obj V) (k : string) :
  NoDup (keys b) ->
  get k (spread a b) = match get k b with Some v => Some v | None => get k a end.
Proof.
  unfold spread. revert a. induction b as [|[k1 v1] b IH]; intros a N; [reflexivity|].
  simpl in N. inversion N as [|? ? N1 Nb]; subst.
  cbn [fold_left fst snd]. rewrite (IH _ Nb).
  unfold get at 3. simpl. fold (get k b).
  destruct (String.eqb_spec k k1) as [->|D].
  - rewrite (get_fresh k1 b N1). apply get_put_same.
  - destruct (get k b); [reflexivity|]. now apply get_put_other.
Qed.

Lemma keys_spread {V} (a b : obj V) :
  NoDup (keys b) ->
  keys (spread a b) = keys a ++ filter (fun k => negb (mem k a)) (keys b).
Proof.
  unfold spread. revert a. induction b as [|[k1 v1] b IH]; intros a N.
  - simpl. now rewrite app_nil_r.
  - simpl in N. inversion N as [|? ? N1 Nb]; subst.
    change (keys ((k1, v1) :: b)) with (k1 :: keys b) in *.
    cbn [fold_left fst snd filter]. rewrite (IH _ Nb), keys_put.
    assert (F : filter (fun k => negb (mem k (put k1 v1 a))) (keys b)
                = filter (fun k => negb (mem k a)) (keys b)).
    { apply filter_ext_in. intros k I. f_equal.
      assert (D : k <> k1) by (intros ->; contradiction).
      unfold mem, has. fold (get k (put k1 v1 a)). fold (get k a).
      now rewrite get_put_other. }
    rewrite F. destruct (mem k1 a); simpl; [reflexivity|].
    now rewrite <- app_assoc.
Qed.

Lemma NoDup_keys_spread {V} (a b : obj V) :
  NoDup (keys a) -> NoDup (keys b) -> NoDup (keys (spread a b)).
Proof.
  intros Na Nb. rewrite (keys_spread a b Nb).
  apply NoDup_app.
  - exact Na.
  - now apply NoDup_filter.
  - intros k Ia If. apply filter_In in If. destruct If as [_ M].
    apply mem_keys in Ia. rewrite Ia in M. discriminate.
Qed.

Lemma keys_crop_k_values (cropName : string) (dw : list day) (base : obj jsval)
      (logs : list calibration_entry) :
  NoDup (keys base) -> keys (fst (crop_k_values cropName dw base logs)) = keys base.
Proof.
  intros N. unfold crop_k_values.
  rewrite (compute_k_shape cropName dw _ base [] logs N) by (intros v _ []).
  simpl. unfold keys. rewrite !map_map. apply map_ext. intros vi.
  apply entry_of_variable.
Qed.

(** X19.  The base importances after the client's overrides.  An
    override replaces the importance of a variable or adds a variable
    after the defaults; it never removes one.  So the six default variables
    are always calibrated, in the default order and before the client's own
    variables: the k values of every crop with weather have exactly the
    names of the merged base importances. *)
Theorem default_importances_survive (client : option (obj jsval)) :
  NoDup (keys (match client with Some o => o | None => [] end)) ->
  let override := match client with Some o => o | None => [] end in
  let base := mergedBaseImportance client in
  keys base
  = keys BASE_IMPORTANCE ++ filter (fun k => negb (mem k BASE_IMPORTANCE)) (keys override)
  /\ NoDup (keys base)
  /\ (forall k, get k base
                = match get k override with
                  | Some v => Some v
                  | None => get k BASE_IMPORTANCE
                  end)
  /\ (forall cropName dw logs,
        keys (fst (crop_k_values cropName dw base logs)) = keys base).
Proof.
  intros N override base. subst override base. unfold mergedBaseImportance.
  set (o := match client with Some o => o | None => [] end) in *.
  assert (Nb : NoDup (keys BASE_IMPORTANCE)).
  { unfold BASE_IMPORTANCE. simpl.
    repeat (constructor; [simpl; intuition discriminate|]). constructor. }
  assert (Nm : NoDup (keys (spread BASE_IMPORTANCE o))) by now apply NoDup_keys_spread.
  split; [now apply keys_spread|]. split; [exact Nm|]. split.
  - intros k. now apply get_spread.
  - intros cropName dw logs. now apply keys_crop_k_values.
Qed.

Lemma default_importances_survive_witness :
  keys (mergedBaseImportance (Some [("temperature_2m_max"%string, VNum 1);
                                    ("sunshine"%string, VNum 2)]))
  = keys BASE_IMPORTANCE ++ ["sunshine"%string].
Proof.
  refine (proj1 (default_importances_survive
                   (Some [("temperature_2m_max"%string, VNum 1);
                          ("sunshine"%string, VNum 2)]) _)).
  simpl. repeat (constructor; [simpl; intuition discriminate|]). constructor.
Defined.

End BaseImportance.

Section LogFrame.
Import JS Matching.
Variables Math_exp Math_pow_half : Q -> Q.
Variable CONFIG : config.

Lemma keys_upd {V} (k : string) (f : V -> V) (o : obj V) : keys (upd k f o) = keys o.
Proof.
  unfold upd. induction o as [|[k' v] o IH]; simpl; [reflexivity|].
  destruct (String.eqb k k'); simpl; [reflexivity | now rewrite IH].
Qed.

Lemma get_mem {V} (k : string) (o : obj V) (v : V) : get k o = Some v -> mem k o = true.
Proof. unfold get, mem, has. now intros ->. Qed.

Lemma get_none_keys {V} (k : string) (o : obj V) : get k o = None -> ~ In k (keys o).
Proof.
  intros G I. apply mem_keys in I. unfold mem, has in I. fold (get k o) in I.
  rewrite G in I. discriminate.
Qed.

Lemma log_frame_refl name L : log_frame name L L.
Proof. split; [reflexivity|]. split; [reflexivity|]. intros cl G. eauto. Qed.

Lemma log_frame_trans name L1 L2 L3 :
  log_frame name L1 L2 -> log_frame name L2 L3 -> log_frame name L1 L3.
Proof.
  intros [K1 [O1 N1]] [K2 [O2 N2]]. split; [congruence|]. split.
  - intros other D. rewrite (O2 other D). now apply O1.
  - intros cl G. destruct (N1 cl G) as [cl1 [G1 F1]].
    destruct (N2 cl1 G1) as [cl2 [G2 F2]]. exists cl2. split; [exact G2 | congruence].
Qed.

Lemma log_frame_on_summary name f L : log_frame name L (on_summary f L).
Proof.
  split; [reflexivity|]. split; [reflexivity|]. intros cl G. exists cl. now split.
Qed.

Lemma log_frame_on_crop name f L :
  (forall c, cl_fixed (f c) = cl_fixed c) -> log_frame name L (on_crop name f L).
Proof.
  intros H. unfold log_frame, on_crop. cbn [ld_crop_logs]. split; [apply keys_upd|]. split.
  - intros other D. now apply get_upd_other.
  - intros cl G. rewrite get_upd_same, G. simpl. eauto.
Qed.

Lemma log_frame_computeScore wd cd kv vw name ws L cl :
  get name (ld_crop_logs L) = Some cl ->
  log_frame name L (snd (computeScore Math_exp Math_pow_half CONFIG wd cd kv vw name ws L)).
Proof.
  intros G. unfold log_frame, computeScore. rewrite G.
  match goal with |- context [if ?c then _ else _] => destruct c end;
    cbn [snd ld_crop_logs].
  - split; [rewrite keys_put, (get_mem _ _ _ G); reflexivity|]. split.
    + intros other D. now apply get_put_other.
    + intros cl0 [= <-]. rewrite get_put_same. eexists. split; reflexivity.
  - split; [rewrite keys_put, (get_mem _ _ _ G); reflexivity|]. split.
    + intros other D. now apply get_put_other.
    + intros cl0 [= <-]. rewrite get_put_same. eexists. split; reflexivity.
Qed.

Lemma cl_fixed_note_insufficient ws w c : cl_fixed (note_insufficient ws w c) = cl_fixed c.
Proof. unfold note_insufficient. destruct (wget ws (cl_windows c)); reflexivity. Qed.

Lemma cl_fixed_note_scored ws s d c : cl_fixed (note_scored ws s d c) = cl_fixed c.
Proof. unfold note_scored. destruct (wget ws (cl_windows c)); reflexivity. Qed.

Lemma cl_fixed_note_unscored ws c : cl_fixed (note_unscored ws c) = cl_fixed c.
Proof. unfold note_unscored. destruct (wget ws (cl_windows c)); reflexivity. Qed.

Lemma process_window_frame forecastDf cropDf d kv vw name L cw i cl :
  get name (ld_crop_logs L) = Some cl ->
  log_frame name L
    (log_of (process_window Math_exp Math_pow_half CONFIG forecastDf cropDf d kv vw name
               (L, cw) i)).
Proof.
  intros G. unfold process_window.
  set (L2 := on_crop name (cl_on_stats inc_total_windows)
               (on_summary inc_total_windows_processed L)).
  assert (F2 : log_frame name L L2).
  { unfold L2. eapply log_frame_trans; [|apply log_frame_on_crop; reflexivity].
    apply log_frame_on_summary. }
  destruct (slice i d forecastDf) as [|first rest]; [exact F2|].
  destruct (insufficient CONFIG _ _).
  - cbn [log_of fst].
    eapply log_frame_trans; [|apply log_frame_on_summary].
    eapply log_frame_trans; [|apply log_frame_on_crop; reflexivity].
    eapply log_frame_trans; [|apply log_frame_on_crop, cl_fixed_note_insufficient].
    exact F2.
  - destruct (proj2 (proj2 F2) cl G) as [cl2 [G2 E2]].
    pose proof (log_frame_computeScore (first :: rest) cropDf kv vw name
                  (iso_day (date first)) L2 cl2 G2) as F3.
    destruct (computeScore Math_exp Math_pow_half CONFIG (first :: rest) cropDf kv vw name
                (iso_day (date first)) L2) as [[score details] L3].
    cbn [snd] in F3.
    assert (F : log_frame name L L3) by (eapply log_frame_trans; [exact F2 | exact F3]).
    destruct score as [s|]; cbn [log_of fst].
    + eapply log_frame_trans; [|apply log_frame_on_crop, cl_fixed_note_scored].
      eapply log_frame_trans; [|apply log_frame_on_summary].
      eapply log_frame_trans; [|apply log_frame_on_crop; reflexivity].
      exact F.
    + eapply log_frame_trans; [exact F|]. apply log_frame_on_crop, cl_fixed_note_unscored.
Qed.

Lemma windows_loop_frame forecastDf cropDf d kv vw name starts :
  forall L cw cl,
    get name (ld_crop_logs L) = Some cl ->
    log_frame name L
      (log_of (windows_loop Math_exp Math_pow_half CONFIG forecastDf cropDf d kv vw name
                 starts (L, cw))).
Proof.
  induction starts as [|i r IH]; intros L cw cl G; [apply log_frame_refl|].
  cbn [windows_loop].
  pose proof (process_window_frame forecastDf cropDf d kv vw name L cw i cl G) as F.
  destruct (process_window Math_exp Math_pow_half CONFIG forecastDf cropDf d kv vw name
              (L, cw) i) as [[L1 cw1]|L1 e]; [|exact F].
  cbn [log_of fst] in F.
  destruct (proj2 (proj2 F) cl G) as [cl1 [G1 E1]].
  eapply log_frame_trans; [exact F|].
  apply (IH L1 cw1 cl1 G1).
Qed.

End LogFrame.

Section CropLog.
Import JS Matching.
Variables Math_exp Math_pow_half : Q -> Q.
Variable CONFIG : config.

Lemma log_at_on_crop name f L0 L c :
  log_at name L0 L c -> log_at name L0 (on_crop name f L) (f c).
Proof.
  intros [K [O N]]. unfold log_at, on_crop. cbn [ld_crop_logs].
  split; [now rewrite keys_upd|]. split.
  - intros other D. rewrite get_upd_other by exact D. now apply O.
  - now rewrite get_upd_same, N.
Qed.

Lemma log_at_on_summary name f L0 L c :
  log_at name L0 L c -> log_at name L0 (on_summary f L) c.
Proof. intros H. exact H. Qed.

Lemma log_at_same_logs name L0 L L' c :
  log_at name L0 L c -> ld_crop_logs L' = ld_crop_logs L -> log_at name L0 L' c.
Proof. unfold log_at. intros H ->. exact H. Qed.

Lemma log_at_frame name L0 L L' c :
  log_at name L0 L c -> log_frame name L L' ->
  exists c', log_at name L0 L' c' /\ cl_fixed c' = cl_fixed c.
Proof.
  intros [K [O N]] [K' [O' N']]. destruct (N' c N) as [c' [G E]].
  exists c'. split; [|exact E]. split; [congruence|]. split; [|exact G].
  intros other D. rewrite (O' other D). now apply O.
Qed.

Lemma cl_warn_all_fields ws c :
  cl_fixed (cl_warn_all ws c) = cl_fixed c
  /\ cl_windows_stats (cl_warn_all ws c) = cl_windows_stats c.
Proof.
  unfold cl_warn_all. revert c. induction ws as [|w r IH]; intros c; [now split|].
  simpl. destruct (IH (cl_warn w c)) as [-> ->]. now split.
Qed.

Lemma derive_weights_log name kv L0 L c :
  log_at name L0 L c ->
  exists c',
    log_at name L0 (snd (derive_weights CONFIG name kv L)) c'
    /\ cl_fixed c'
       = (cl_duration_days c, cl_region c, cl_variety c, cl_k_values_used c,
          Some (weights_for CONFIG kv), cl_top_windows c)
    /\ cl_windows_stats c' = cl_windows_stats c.
Proof.
  intros A. unfold derive_weights, weights_for.
  destruct (Nat.ltb 0 (List.length (keys kv))); cbn [snd].
  - eexists. split; [apply log_at_on_crop, log_at_on_crop, A|].
    destruct (cl_warn_all_fields (missing_k_warnings CONFIG (validKValues CONFIG kv)) c)
      as [F S].
    unfold cl_fixed in *. injection F as F1 F2 F3 F4 F5 F6.
    cbn [cl_set_normalized_weights cl_duration_days cl_region cl_variety cl_k_values_used
           cl_normalized_weights cl_top_windows cl_windows_stats].
    rewrite F1, F2, F3, F4, F6, S. split; reflexivity.
  - eexists. split; [apply log_at_on_crop, A|]. split; reflexivity.
Qed.

Lemma get_none_mem {V} (k : string) (o : obj V) : get k o = None -> mem k o = false.
Proof. unfold get, mem, has. now intros ->. Qed.

(** The log of a crop that is processed for the first time. *)
Lemma process_crop_log forecastDf L results name c dw :
  get name (ld_crop_logs L) = None -> daily_weather c = Some dw ->
  let L' := fst (process_crop Math_exp Math_pow_half CONFIG forecastDf (L, results)
                   (name, c)) in
  keys (ld_crop_logs L') = keys (ld_crop_logs L) ++ [name]
  /\ (forall other, other <> name ->
        get other (ld_crop_logs L') = get other (ld_crop_logs L))
  /\ exists cl, get name (ld_crop_logs L') = Some cl
                /\ crop_logged Math_exp Math_pow_half CONFIG forecastDf c dw cl.
Proof.
  intros G D L'. subst L'.
  unfold process_crop, crop_body. rewrite D.
  set (cropDf := sort by_date dw).
  change (ld_crop_logs (on_summary inc_crops_processed L)) with (ld_crop_logs L).
  rewrite (get_none_mem _ _ G).
  set (L1 := mkLog (ld_summary (on_summary inc_crops_processed L))
               (put name (new_crop_log (List.length cropDf) c) (ld_crop_logs L))
               (ld_errors (on_summary inc_crops_processed L))).
  assert (K1 : keys (ld_crop_logs L1) = keys (ld_crop_logs L) ++ [name]).
  { unfold L1. cbn [ld_crop_logs]. rewrite put_fresh by (now apply get_none_keys).
    unfold keys. now rewrite map_app. }
  assert (O1 : forall other, other <> name ->
                 get other (ld_crop_logs L1) = get other (ld_crop_logs L)).
  { intros other Ne. unfold L1. cbn [ld_crop_logs]. now apply get_put_other. }
  assert (A1 : log_at name L1 L1 (new_crop_log (List.length cropDf) c)).
  { split; [reflexivity|]. split; [reflexivity|]. unfold L1. cbn [ld_crop_logs].
    apply get_put_same. }
  assert (Done : forall Lx cl,
             log_at name L1 Lx cl ->
             crop_logged Math_exp Math_pow_half CONFIG forecastDf c dw cl ->
             keys (ld_crop_logs Lx) = keys (ld_crop_logs L) ++ [name]
             /\ (forall other, other <> name ->
                   get other (ld_crop_logs Lx) = get other (ld_crop_logs L))
             /\ exists cl, get name (ld_crop_logs Lx) = Some cl
                           /\ crop_logged Math_exp Math_pow_half CONFIG forecastDf c dw cl).
  { intros Lx cl [K [O N]] H. split; [congruence|]. split.
    - intros other Ne. rewrite (O other Ne). now apply O1.
    - exists cl. now split. }
  destruct (Nat.ltb (List.length forecastDf) (List.length cropDf)) eqn:TL.
  { (* longer than the forecast *)
    cbn [fst]. eapply Done.
    - apply log_at_on_summary, log_at_on_crop, A1.
    - apply Nat.ltb_lt in TL. unfold crop_logged. fold cropDf. cbv zeta.
      split; [reflexivity|]. split; [reflexivity|]. split; [reflexivity|].
      split; [intros _; repeat split; reflexivity | intros [_ B]; lia]. }
  apply Nat.ltb_ge in TL.
  fold (kValues_of c).
  set (c2 := if Nat.eqb (List.length (keys (kValues_of c))) 0
             then cl_warn WNoKValues (new_crop_log (List.length cropDf) c)
             else new_crop_log (List.length cropDf) c).
  set (L2 := if Nat.eqb (List.length (keys (kValues_of c))) 0
             then on_crop name (cl_warn WNoKValues) L1 else L1).
  assert (A2 : log_at name L1 L2 c2).
  { unfold L2, c2. destruct (Nat.eqb _ 0); [apply log_at_on_crop, A1 | exact A1]. }
  assert (A3 : log_at name L1 (on_crop name (cl_set_k_values_used (kValues_of c)) L2)
                 (cl_set_k_values_used (kValues_of c) c2))
    by (apply log_at_on_crop, A2).
  destruct (derive_weights_log name (kValues_of c) L1 _ _ A3) as [c4 [A4 [F4 S4]]].
  destruct (derive_weights_spec CONFIG name (kValues_of c)
              (on_crop name (cl_set_k_values_used (kValues_of c)) L2)) as [W _].
  destruct (derive_weights CONFIG name (kValues_of c)
              (on_crop name (cl_set_k_values_used (kValues_of c)) L2)) as [vw L4].
  cbn [fst snd] in W, A4. subst vw.
  set (c5 := cl_set_windows_stats (Some (mkStats 0 0 0)) c4).
  set (L5 := on_crop name (cl_set_windows_stats (Some (mkStats 0 0 0))) L4).
  assert (A5 : log_at name L1 L5 c5) by (apply log_at_on_crop, A4).
  assert (Static : forall cl, cl_fixed cl = cl_fixed c5 ->
                     cl_duration_days cl = Some (List.length cropDf)
                     /\ cl_region cl = Some (or_unknown (region c))
                     /\ cl_variety cl = Some (or_unknown (variety c))
                     /\ cl_k_values_used cl = Some (kValues_of c)
                     /\ cl_normalized_weights cl = Some (weights_for CONFIG (kValues_of c))
                     /\ cl_top_windows cl = None).
  { intros cl E. unfold cl_fixed in E, F4. unfold c5 in E.
    cbn [cl_set_windows_stats cl_duration_days cl_region cl_variety cl_k_values_used
           cl_normalized_weights cl_top_windows] in E.
    injection F4 as F41 F42 F43 F44 F45 F46.
    injection E as E1 E2 E3 E4 E5 E6.
    rewrite E1, E2, E3, E4, E5, E6, F41, F42, F43, F44, F45, F46.
    unfold c2. destruct (Nat.eqb _ 0); repeat split; reflexivity. }
  destruct (Nat.eqb (List.length cropDf) 0) eqn:DZ.
  - (* no weather record: the first window throws *)
    apply Nat.eqb_eq in DZ. rewrite DZ.
    unfold window_starts. cbn [starts_from Nat.leb windows_loop process_window].
    rewrite empty_slice. cbn [fst].
    eapply Done.
    + apply log_at_on_crop.
      apply (log_at_same_logs name L1
               (on_crop name (cl_on_stats inc_total_windows)
                  (on_summary inc_total_windows_processed L5)));
        [apply log_at_on_crop, log_at_on_summary, A5 | reflexivity].
    + destruct (Static c5 eq_refl) as [S1 [S2 [S3 _]]].
      unfold crop_logged. fold cropDf. cbv zeta.
      split; [exact S1|]. split; [exact S2|]. split; [exact S3|].
      split; intros B; lia.
  - apply Nat.eqb_neq in DZ.
    assert (V : forall i, In i (window_starts CONFIG (List.length forecastDf)
                                  (List.length cropDf)) ->
                          exists first rest,
                            slice i (List.length cropDf) forecastDf = first :: rest).
    { intros i I. apply slice_nonempty; [lia|]. now apply (window_starts_fit CONFIG). }
    destruct (windows_loop_spec Math_exp Math_pow_half CONFIG forecastDf cropDf
                (kValues_of c) (weights_for CONFIG (kValues_of c)) name _ V L5 [])
      as [L6 [P _]].
    destruct (windows_stats_after_loop Math_exp Math_pow_half CONFIG forecastDf cropDf
                (kValues_of c) (weights_for CONFIG (kValues_of c)) name
                (window_starts CONFIG (List.length forecastDf) (List.length cropDf)) L5 [] V)
      as [L6' [cw' [P' T]]].
    { unfold stats_of. destruct A5 as [_ [_ ->]]. reflexivity. }
    rewrite P in P'. injection P' as <- _.
    pose proof (windows_loop_frame Math_exp Math_pow_half CONFIG forecastDf cropDf
                  (List.length cropDf) (kValues_of c) (weights_for CONFIG (kValues_of c))
                  name (window_starts CONFIG (List.length forecastDf) (List.length cropDf))
                  L5 [] c5 (proj2 (proj2 A5))) as F.
    rewrite P in F. cbn [log_of fst] in F.
    destruct (log_at_frame name L1 L5 L6 c5 A5 F) as [c6 [A6 E6]].
    destruct (Static c6 E6) as [S1 [S2 [S3 [Sk [Sw St]]]]].
    assert (T6 : cl_windows_stats c6
                 = Some (mkStats
                           (List.length (window_starts CONFIG (List.length forecastDf)
                                           (List.length cropDf)))
                           (List.length
                              (filter (window_insufficient CONFIG forecastDf
                                         (List.length cropDf))
                                 (window_starts CONFIG (List.length forecastDf)
                                    (List.length cropDf))))
                           (List.length
                              (crop_windows Math_exp Math_pow_half CONFIG forecastDf cropDf
                                 (kValues_of c))))).
    { unfold stats_of in T. destruct A6 as [_ [_ G6]]. rewrite G6 in T. exact T. }
    rewrite P. cbn [app].
    fold (crop_windows Math_exp Math_pow_half CONFIG forecastDf cropDf (kValues_of c)).
    destruct (Nat.ltb 0 (List.length (crop_windows Math_exp Math_pow_half CONFIG forecastDf
                                        cropDf (kValues_of c)))) eqn:NE; cbn [fst].
    + eapply Done.
      * apply log_at_on_crop, log_at_on_summary, A6.
      * unfold crop_logged. fold cropDf. cbv zeta. rewrite NE.
        split; [exact S1|]. split; [exact S2|]. split; [exact S3|].
        split; [intros B; lia|]. intros _.
        split; [exact Sk|]. split; [exact Sw|]. split; [exact T6 | reflexivity].
    + eapply Done.
      * apply log_at_on_crop, log_at_on_summary, A6.
      * unfold crop_logged. fold cropDf. cbv zeta. rewrite NE.
        split; [exact S1|]. split; [exact S2|]. split; [exact S3|].
        split; [intros B; lia|]. intros _.
        split; [exact Sk|]. split; [exact Sw|]. split; [exact T6 | exact St].
Qed.

End CropLog.

Section RunLog.
Import JS Matching.
Variables Math_exp Math_pow_half : Q -> Q.
Variable CONFIG : config.

Local Abbreviation has_weather :=
  (fun e : string * crop =>
     match daily_weather (snd e) with Some _ => true | None => false end).

Lemma upd_absent {V} (k : string) (f : V -> V) (o : obj V) :
  get k o = None -> upd k f o = o.
Proof.
  unfold get, upd. induction o as [|[k' v] o IH]; simpl; [reflexivity|].
  destruct (String.eqb k k'); [discriminate|]. intros G. now rewrite IH.
Qed.

Lemma process_crop_no_weather forecastDf L results name c :
  daily_weather c = None -> get name (ld_crop_logs L) = None ->
  ld_crop_logs (fst (process_crop Math_exp Math_pow_half CONFIG forecastDf (L, results)
                       (name, c)))
  = ld_crop_logs L.
Proof.
  intros D G. unfold process_crop, crop_body. rewrite D.
  cbn [fst on_crop ld_crop_logs ld_summary ld_errors on_summary].
  now apply upd_absent.
Qed.

Lemma gate_and_results_bound forecastDf cropDf kv vw starts :
  (List.length (filter (window_insufficient CONFIG forecastDf (List.length cropDf)) starts)
   + List.length (flat_map (window_result Math_exp Math_pow_half CONFIG forecastDf cropDf
                              kv vw) starts)
   <= List.length starts)%nat.
Proof.
  induction starts as [|i r IH]; [simpl; lia|].
  cbn [filter flat_map List.length]. rewrite length_app.
  assert (B : ((if window_insufficient CONFIG forecastDf (List.length cropDf) i
                then 1 else 0)
               + List.length (window_result Math_exp Math_pow_half CONFIG forecastDf cropDf
                                kv vw i) <= 1)%nat).
  { pose proof (window_result_short Math_exp Math_pow_half CONFIG forecastDf cropDf
                  kv vw i) as WS.
    unfold window_result in *.
    destruct (slice i (List.length cropDf) forecastDf) as [|first rest];
      [destruct (window_insufficient _ _ _ _); simpl; lia|].
    destruct (window_insufficient CONFIG forecastDf (List.length cropDf) i);
      simpl in *; lia. }
  destruct (window_insufficient CONFIG forecastDf (List.length cropDf) i);
    cbn [List.length]; lia.
Qed.

Lemma crops_loop_logs forecastDf crops :
  NoDup (keys crops) ->
  forall L results,
    (forall name, In name (keys crops) -> get name (ld_crop_logs L) = None) ->
    let L' := fst (fold_left (process_crop Math_exp Math_pow_half CONFIG forecastDf)
                     crops (L, results)) in
    keys (ld_crop_logs L') = keys (ld_crop_logs L) ++ map fst (filter has_weather crops)
    /\ (forall other, ~ In other (keys crops) ->
          get other (ld_crop_logs L') = get other (ld_crop_logs L))
    /\ (forall name c dw,
          In (name, c) crops -> daily_weather c = Some dw ->
          exists cl, get name (ld_crop_logs L') = Some cl
                     /\ crop_logged Math_exp Math_pow_half CONFIG forecastDf c dw cl).
Proof.
  induction crops as [|[name0 c0] r IH]; intros N L results Fresh; cbv zeta.
  - simpl. rewrite app_nil_r. split; [reflexivity|]. split; [reflexivity|].
    intros name c dw [].
  - change (keys ((name0, c0) :: r)) with (name0 :: keys r) in *.
    inversion N as [|? ? N0 Nr]; subst.
    cbn [fold_left].
    assert (G0 : get name0 (ld_crop_logs L) = None) by (apply Fresh; now left).
    destruct (process_crop Math_exp Math_pow_half CONFIG forecastDf (L, results)
                (name0, c0)) as [L1 results1] eqn:PC.
    destruct (daily_weather c0) as [dw0|] eqn:D0.
    + pose proof (process_crop_log Math_exp Math_pow_half CONFIG forecastDf L results
                    name0 c0 dw0 G0 D0) as H.
      cbv zeta in H. rewrite PC in H. cbn [fst] in H. destruct H as [K1 [O1 [cl0 [G1 C1]]]].
      assert (Fresh1 : forall name, In name (keys r) -> get name (ld_crop_logs L1) = None).
      { intros name I. rewrite O1 by (intros ->; contradiction).
        apply Fresh. now right. }
      destruct (IH Nr L1 results1 Fresh1) as [K [O E]].
      split; [|split].
      * rewrite K, K1. cbn [filter snd]. rewrite D0. cbn [map fst].
        now rewrite <- app_assoc.
      * intros other NI. rewrite O by (intros I; apply NI; now right).
        apply O1. intros ->. apply NI. now left.
      * intros name c dw [[= <- <-]|I] D.
        -- rewrite O by exact N0. rewrite D0 in D. injection D as <-.
           exists cl0. now split.
        -- now apply (E name c dw).
    + pose proof (process_crop_no_weather forecastDf L results name0 c0 D0 G0) as H.
      rewrite PC in H. cbn [fst] in H.
      assert (Fresh1 : forall name, In name (keys r) -> get name (ld_crop_logs L1) = None).
      { intros name I. rewrite H. apply Fresh. now right. }
      destruct (IH Nr L1 results1 Fresh1) as [K [O E]].
      split; [|split].
      * rewrite K, H. cbn [filter snd]. now rewrite D0.
      * intros other NI. rewrite O by (intros I; apply NI; now right). now rewrite H.
      * intros name c dw [[= <- <-]|I] D; [congruence|]. now apply (E name c dw).
Qed.

End RunLog.

Section RunLogTheorem.
Import JS Matching.

(** X20.  The crop logs of a run, for crops with distinct names.  There
    is one crop log for every crop that has a [daily_weather], in the order
    of the crops, and none for a crop without.  The log of a crop records
    the number of its weather records and its region and variety
    ("Unknown" when empty or absent).  For a crop longer than the forecast
    it records no k values, weights, counters or top windows.  For a crop
    of [d >= 1] days that fits it records the k values and the weights
    used, the counters of its windows ([(n - d) / STEP_SIZE + 1] tried,
    those rejected by the data gate, those scored) and, when at least one
    window was scored, the start days of the three best windows in the
    order of the ranking. *)
Theorem crop_logs_describe_the_crops
        (Math_exp Math_pow_half : Q -> Q) (crops : obj crop) (forecastData : list day)
        (cc : client_config) :
  NoDup (keys crops) ->
  let logs := ld_crop_logs (snd (runCropMatching Math_exp Math_pow_half crops
                                   forecastData cc)) in
  let forecastDf := sort by_date forecastData in
  let n := List.length forecastData in
  keys logs
  = map fst (filter (fun e => match daily_weather (snd e) with
                              | Some _ => true
                              | None => false
                              end) crops)
  /\ forall name c dw,
       In (name, c) crops -> daily_weather c = Some dw ->
       let d := List.length dw in
       let starts := window_starts (merge cc) n d in
       let tried := crop_windows Math_exp Math_pow_half (merge cc) forecastDf
                      (sort by_date dw) (kValues_of c) in
       exists cl,
         get name logs = Some cl
         /\ cl_duration_days cl = Some d
         /\ cl_region cl = Some (or_unknown (region c))
         /\ cl_variety cl = Some (or_unknown (variety c))
         /\ ((n < d)%nat ->
             cl_k_values_used cl = None /\ cl_normalized_weights cl = None
             /\ cl_windows_stats cl = None /\ cl_top_windows cl = None)
         /\ ((1 <= d <= n)%nat ->
             cl_k_values_used cl = Some (kValues_of c)
             /\ cl_normalized_weights cl = Some (weights_for (merge cc) (kValues_of c))
             /\ cl_windows_stats cl
                = Some (mkStats
                          ((n - d) / Pos.to_nat (STEP_SIZE (merge cc)) + 1)
                          (List.length
                             (filter (window_insufficient (merge cc) forecastDf d) starts))
                          (List.length tried))
             /\ (List.length (filter (window_insufficient (merge cc) forecastDf d) starts)
                 + List.length tried
                 <= (n - d) / Pos.to_nat (STEP_SIZE (merge cc)) + 1)%nat
             /\ cl_top_windows cl
                = if Nat.ltb 0 (List.length tried)
                  then Some (map w_start (firstn 3 (sort by_score_desc tried)))
                  else None).
Proof.
  intros N logs forecastDf n.
  assert (E : logs = ld_crop_logs
                       (fst (fold_left (process_crop Math_exp Math_pow_half (merge cc)
                                          forecastDf) crops (empty_log, [])))).
  { unfold logs, runCropMatching, processCrops. fold forecastDf.
    now destruct (fold_left _ crops (empty_log, [])). }
  destruct (crops_loop_logs Math_exp Math_pow_half (merge cc) forecastDf crops N
              empty_log [] (fun _ _ => eq_refl)) as [K [_ C]].
  rewrite <- E in K, C. split; [exact K|].
  intros name c dw I D d starts tried.
  destruct (C name c dw I D) as [cl [G H]]. exists cl. split; [exact G|].
  unfold crop_logged in H. cbv zeta in H.
  unfold forecastDf in H. rewrite !sort_length in H. fold forecastDf n d in H.
  fold starts tried in H.
  destruct H as [H1 [H2 [H3 [H4 H5]]]].
  split; [exact H1|]. split; [exact H2|]. split; [exact H3|]. split; [exact H4|].
  intros B. destruct (H5 B) as [Hk [Hw [Hs Ht]]].
  assert (Len : List.length starts
                = ((n - d) / Pos.to_nat (STEP_SIZE (merge cc)) + 1)%nat).
  { unfold starts. apply window_starts_length. lia. }
  rewrite Len in Hs.
  split; [exact Hk|]. split; [exact Hw|]. split; [exact Hs|]. split; [|exact Ht].
  rewrite <- Len. unfold starts, tried, crop_windows, forecastDf, n, d.
  rewrite <- (sort_length by_date dw), <- (sort_length by_date forecastData).
  apply gate_and_results_bound.
Qed.

Lemma crop_logs_describe_the_crops_witness :
  keys (ld_crop_logs (snd (runCropMatching Examples.exp_model Examples.pow_half_model
                             [("A"%string, Examples.scenario_crop)]
                             Examples.scenario_full_forecast
                             Examples.scenario_step_only)))
  = ["A"%string].
Proof.
  refine (proj1 (crop_logs_describe_the_crops Examples.exp_model Examples.pow_half_model
                   [("A"%string, Examples.scenario_crop)] Examples.scenario_full_forecast
                   Examples.scenario_step_only _)).
  constructor; [simpl; tauto | constructor].
Defined.

End RunLogTheorem.

Section VariableDetails.
Import JS Matching.

Lemma pairs_count (fs os : list (option jsval)) :
  List.length fs = List.length os ->
  (List.length (validPairs fs os) + count_nan fs <= List.length fs
   /\ List.length (validPairs fs os) + count_nan os <= List.length fs
   /\ List.length fs <= List.length (validPairs fs os) + count_nan fs + count_nan os)%nat.
Proof.
  unfold count_nan. revert os.
  induction fs as [|f fs IH]; intros [|o os] E; simpl in E; try discriminate;
    [simpl; lia|].
  injection E as E. specialize (IH os E).
  destruct f as [[| |f]|]; destruct o as [[| |o]|]; simpl; lia.
Qed.

Lemma count_nan_days (varName : string) (ds : list day) :
  count_nan (map (day_get varName) ds)
  = List.length
      (filter (fun d => match day_get varName d with
                        | Some (VNum _) => false
                        | _ => true
                        end) ds).
Proof.
  unfold count_nan. induction ds as [|d ds IH]; [reflexivity|].
  cbn [map filter]. destruct (day_get varName d) as [[| |q]|]; cbn [valid negb List.length];
    rewrite ?IH; reflexivity.
Qed.

(** X21.  The details logged for a scored variable of a window whose
    log has a [variables] object, when window and crop have the same
    number of days: the entry carries the k value and the weight that were
    used, the number of valid pairs, which is at least 1, the number of
    forecast days of the window whose value is not a number under
    [nan_forecast] and the number of such days of the crop under
    [nan_optimal], the mean of the relative deltas of the valid pairs and
    the mean of their logistic scores.  Valid pairs and invalid values of
    either side never exceed the days, and together they cover them.  The
    mean relative delta is not negative, the score lies in [0, 1], the
    weighted score is score times weight; it is the score appended to
    [scores], its weight is added to [totalWeight], and no error is
    logged. *)
Theorem variable_detail_is_consistent
        (Math_exp Math_pow_half : Q -> Q) (CONFIG : config)
        (windowData cropData : list day) (kValues variableWeights : obj jsval)
        (cropName : string) (windowStart : Z) (a : acc) (varName : string)
        (variables : obj var_detail) :
  MathSpec Math_exp Math_pow_half ->
  List.length windowData = List.length cropData ->
  is_scored windowData cropData varName = true ->
  wl_variables (windowLog a) = Some variables ->
  let a' := score_variable Math_exp Math_pow_half CONFIG windowData cropData
              kValues variableWeights cropName windowStart a varName in
  let days := List.length windowData in
  let not_a_number (d : day) :=
      match day_get varName d with
      | Some (VNum _) => false
      | _ => true
      end in
  let pairs := pairsOf windowData cropData varName in
  exists dt,
    wl_variables (windowLog a') = Some (put varName dt variables)
    /\ errors a' = errors a
    /\ d_k_value dt = kOf CONFIG kValues varName
    /\ d_weight dt = weightOf CONFIG variableWeights varName
    /\ d_valid_points dt = List.length pairs
    /\ (1 <= d_valid_points dt)%nat
    /\ (d_valid_points dt + d_nan_forecast dt <= days)%nat
    /\ (d_valid_points dt + d_nan_optimal dt <= days)%nat
    /\ (days <= d_valid_points dt + d_nan_forecast dt + d_nan_optimal dt)%nat
    /\ 0 <= d_avg_rel_delta dt
    /\ 0 <= d_score dt /\ d_score dt <= 1
    /\ d_weighted_score dt = d_score dt * d_weight dt
    /\ d_nan_forecast dt = List.length (filter not_a_number windowData)
    /\ d_nan_optimal dt = List.length (filter not_a_number cropData)
    /\ d_avg_rel_delta dt = sum (map relDelta pairs) / of_nat (List.length pairs)
    /\ d_score dt
       = sum (logisticScore Math_exp Math_pow_half (map relDelta pairs)
                (kOf CONFIG kValues varName))
         / of_nat (List.length pairs)
    /\ scores a' = scores a ++ [d_weighted_score dt]
    /\ totalWeight a' = totalWeight a + d_weight dt.
Proof.
  intros M E S V a' days not_a_number pairs. subst a' days not_a_number pairs.
  unfold is_scored, in_all_days in S. unfold pairsOf in *.
  apply andb_true_iff in S. destruct S as [S1 S2].
  apply andb_true_iff in S1. destruct S1 as [Hw Hc].
  apply negb_true_iff in S2.
  unfold score_variable. rewrite Hw, Hc. cbn [negb orb]. rewrite S2, V.
  rewrite <- !(count_nan_days varName).
  set (fs := map (day_get varName) windowData) in *.
  set (os := map (day_get varName) cropData) in *.
  assert (EL : List.length fs = List.length os) by (unfold fs, os; now rewrite !length_map).
  destruct (pairs_count fs os EL) as [C1 [C2 C3]].
  assert (LF : List.length fs = List.length windowData) by (unfold fs; apply length_map).
  assert (NP : validPairs fs os <> []).
  { intros Z. rewrite Z in S2. discriminate. }
  assert (P1 : (1 <= List.length (validPairs fs os))%nat).
  { destruct (validPairs fs os); [congruence | simpl; lia]. }
  eexists. cbn [windowLog wl_variables errors scores totalWeight].
  split; [reflexivity|].
  cbn [d_k_value d_weight d_valid_points d_nan_forecast d_nan_optimal d_avg_rel_delta
         d_score d_weighted_score].
  split; [reflexivity|]. split; [reflexivity|]. split; [reflexivity|].
  split; [reflexivity|]. split; [exact P1|].
  split; [lia|]. split; [lia|]. split; [lia|].
  split; [|split; [|split; [|split; [reflexivity|]]]].
  - rewrite length_map.
    assert (P : 0 < of_nat (List.length (validPairs fs os))) by (apply of_nat_pos; lia).
    apply Qle_shift_div_l; [exact P|].
    pose proof (sum_lower (map relDelta (validPairs fs os)) 0) as SL.
    rewrite length_map in SL.
    assert (B : 0 * of_nat (List.length (validPairs fs os))
                <= sum (map relDelta (validPairs fs os))).
    { apply SL. intros x I. apply in_map_iff in I. destruct I as [p [<- _]].
      apply relDelta_nonneg. }
    lra.
  - apply (variableScoreOf_unit Math_exp Math_pow_half M _ _ NP).
  - apply (variableScoreOf_unit Math_exp Math_pow_half M _ _ NP).
  - split; [reflexivity|]. split; [reflexivity|].
    split; [rewrite length_map; reflexivity|].
    split; [|split; reflexivity].
    unfold variableScoreOf, logisticScore, safeExp. cbv zeta.
    rewrite !length_map. reflexivity.
Qed.

(** A window whose first day has no number for the maximum temperature,
    against a crop that has one on both days: one valid pair, one invalid
    forecast value, no invalid crop value, and the pair (12, 12) has
    relative delta 0 and score one half. *)
Lemma variable_detail_is_consistent_witness :
  exists dt,
    wl_variables
      (windowLog
         (score_variable Examples.exp_model Examples.pow_half_model DEFAULT_CONFIG
            [mkDay (100 * 86400000) [(Examples.T, VNull)]; Examples.full_day 101 12]
            [Examples.temp_day 0 10; Examples.temp_day 1 12] [] [] "A" 100
            (mkAcc [] 0 fresh_window_log []) Examples.T))
    = Some (put Examples.T dt [])
    /\ d_valid_points dt = 1%nat
    /\ d_nan_forecast dt = 1%nat
    /\ d_nan_optimal dt = 0%nat
    /\ d_avg_rel_delta dt == 0
    /\ d_k_value dt = 2
    /\ d_weight dt = 1 / 6.
Proof.
  destruct (variable_detail_is_consistent Examples.exp_model Examples.pow_half_model
              DEFAULT_CONFIG
              [mkDay (100 * 86400000) [(Examples.T, VNull)]; Examples.full_day 101 12]
              [Examples.temp_day 0 10; Examples.temp_day 1 12] [] [] "A" 100
              (mkAcc [] 0 fresh_window_log []) Examples.T [] models_ok)
    as [dt [V [_ [K [W [P [_ [_ [_ [_ [_ [_ [_ [_ [NF [NO [AV _]]]]]]]]]]]]]]]]].
  - reflexivity.
  - reflexivity.
  - reflexivity.
  - exists dt. split; [exact V|].
    split; [rewrite P; reflexivity|].
    split; [rewrite NF; reflexivity|].
    split; [rewrite NO; reflexivity|].
    split; [rewrite AV; reflexivity|].
    split; [rewrite K; reflexivity|].
    rewrite W; reflexivity.
Defined.

End VariableDetails.

Section ErrorLog.
Import JS Matching.
Variables Math_exp Math_pow_half : Q -> Q.
Variable CONFIG : config.

Lemma log_at_get name L0 L c : log_at name L0 L c -> get name (ld_crop_logs L) = Some c.
Proof. intros [_ [_ G]]. exact G. Qed.

Lemma wget_fresh (k : Z) (ws : list (Z * window_log)) :
  ~ In k (keys ws) -> wget k ws = None.
Proof.
  unfold wget. induction ws as [|[k' l] ws IH]; simpl; intros N; [reflexivity|].
  destruct (Z.eqb_spec k k') as [->|D]; [exfalso; apply N; now left|].
  apply IH. intros I. apply N. now right.
Qed.

Lemma keys_wput (k : Z) (l : window_log) (ws : list (Z * window_log)) (x : Z) :
  In x (keys (wput k l ws)) -> x = k \/ In x (keys ws).
Proof.
  unfold wput. induction ws as [|[k' l'] ws IH]; simpl.
  - intros [<-|[]]. now left.
  - destruct (Z.eqb_spec k k') as [->|D]; simpl.
    + intros [<-|I]; auto.
    + intros [<-|I]; auto. destruct (IH I); auto.
Qed.

Lemma keys_note_insufficient ws w c x :
  In x (keys (cl_windows (note_insufficient ws w c))) -> x = ws \/ In x (keys (cl_windows c)).
Proof.
  unfold note_insufficient. destruct (wget ws (cl_windows c)); apply keys_wput.
Qed.

Lemma keys_note_scored ws s d c x :
  In x (keys (cl_windows (note_scored ws s d c))) -> x = ws \/ In x (keys (cl_windows c)).
Proof. unfold note_scored. destruct (wget ws (cl_windows c)); apply keys_wput. Qed.

Lemma keys_note_unscored ws c x :
  In x (keys (cl_windows (note_unscored ws c))) -> x = ws \/ In x (keys (cl_windows c)).
Proof. unfold note_unscored. destruct (wget ws (cl_windows c)); apply keys_wput. Qed.

Lemma score_variable_errors wd cd kv vw name ws a v :
  wl_variables (windowLog a) <> None ->
  errors (score_variable Math_exp Math_pow_half CONFIG wd cd kv vw name ws a v) = errors a
  /\ wl_variables
       (windowLog (score_variable Math_exp Math_pow_half CONFIG wd cd kv vw name ws a v))
     <> None.
Proof.
  intros N. unfold score_variable.
  destruct (negb (forallb (day_has v) wd) || negb (forallb (day_has v) cd));
    [now split|].
  destruct (Nat.eqb _ 0); [now split|].
  destruct (wl_variables (windowLog a)); [|contradiction]. simpl. split; [reflexivity|].
  discriminate.
Qed.

Lemma score_loop_errors wd cd kv vw name ws fields :
  forall a,
    wl_variables (windowLog a) <> None ->
    errors (fold_left (score_variable Math_exp Math_pow_half CONFIG wd cd kv vw name ws)
              fields a)
    = errors a.
Proof.
  induction fields as [|v r IH]; intros a N; [reflexivity|].
  cbn [fold_left].
  destruct (score_variable_errors wd cd kv vw name ws a v N) as [E N'].
  rewrite (IH _ N'). exact E.
Qed.

(** [computeScore] on a window the crop log does not know yet. *)
Lemma computeScore_fresh_window wd cd kv vw name ws L cl :
  get name (ld_crop_logs L) = Some cl -> wget ws (cl_windows cl) = None ->
  ld_errors (snd (computeScore Math_exp Math_pow_half CONFIG wd cd kv vw name ws L))
  = ld_errors L
  /\ exists wl,
       ld_crop_logs (snd (computeScore Math_exp Math_pow_half CONFIG wd cd kv vw name ws L))
       = put name (cl_set_windows (wput ws wl (cl_windows cl)) cl) (ld_crop_logs L).
Proof.
  intros G W. unfold computeScore. rewrite G, W.
  pose proof (score_loop_errors wd cd kv vw name ws (REQUIRED_FIELDS CONFIG)
                (mkAcc [] 0 fresh_window_log (ld_errors L))) as E.
  cbn [windowLog errors] in E.
  match goal with |- context [if ?c then _ else _] => destruct c end;
    cbn [snd ld_errors ld_crop_logs]; (split; [apply E; discriminate|]);
    eexists; reflexivity.
Qed.

Lemma process_window_errors forecastDf cropDf d kv vw name L cw i cl first rest :
  get name (ld_crop_logs L) = Some cl ->
  slice i d forecastDf = first :: rest ->
  ~ In (iso_day (date first)) (keys (cl_windows cl)) ->
  exists L' cw' cl',
    process_window Math_exp Math_pow_half CONFIG forecastDf cropDf d kv vw name (L, cw) i
    = Normal (L', cw')
    /\ ld_errors L' = ld_errors L
    /\ get name (ld_crop_logs L') = Some cl'
    /\ (forall k, In k (keys (cl_windows cl')) ->
                  k = iso_day (date first) \/ In k (keys (cl_windows cl))).
Proof.
  intros G E N. unfold process_window. rewrite E.
  set (ws := iso_day (date first)) in *.
  set (L2 := on_crop name (cl_on_stats inc_total_windows)
               (on_summary inc_total_windows_processed L)).
  assert (A0 : log_at name L L cl) by (split; [reflexivity|]; split; [reflexivity | exact G]).
  assert (A2 : log_at name L L2 (cl_on_stats inc_total_windows cl))
    by (apply log_at_on_crop, log_at_on_summary, A0).
  destruct (insufficient CONFIG _ _).
  - eexists. eexists. eexists. split; [reflexivity|]. split; [reflexivity|]. split.
    + eapply (log_at_get name L).
      apply log_at_on_summary, log_at_on_crop, log_at_on_crop, A2.
    + intros k I. apply keys_note_insufficient in I. exact I.
  - destruct (computeScore_fresh_window (first :: rest) cropDf kv vw name ws L2
                (cl_on_stats inc_total_windows cl) (proj2 (proj2 A2)) (wget_fresh _ _ N))
      as [Er [wl Lg]].
    destruct (computeScore Math_exp Math_pow_half CONFIG (first :: rest) cropDf kv vw name
                ws L2) as [[score details] L3].
    cbn [snd] in Er, Lg.
    assert (A3 : log_at name L L3
                   (cl_set_windows (wput ws wl (cl_windows cl))
                      (cl_on_stats inc_total_windows cl))).
    { destruct A2 as [K2 [O2 N2]]. unfold log_at. rewrite Lg. split; [|split].
      - rewrite keys_put, (get_mem _ _ _ N2). exact K2.
      - intros other D. rewrite get_put_other by exact D. now apply O2.
      - apply get_put_same. }
    destruct score as [s|].
    + eexists. eexists. eexists. split; [reflexivity|]. split; [exact Er|]. split.
      * eapply (log_at_get name L).
        apply log_at_on_crop, log_at_on_summary, log_at_on_crop, A3.
      * intros k I. apply keys_note_scored in I. destruct I as [I|I]; [now left|].
        now apply keys_wput in I.
    + eexists. eexists. eexists. split; [reflexivity|]. split; [exact Er|]. split.
      * eapply (log_at_get name L). apply log_at_on_crop, A3.
      * intros k I. apply keys_note_unscored in I. destruct I as [I|I]; [now left|].
        now apply keys_wput in I.
Qed.

Local Abbreviation start_day forecastDf d :=
  (fun i : nat => option_map (fun x => iso_day (date x)) (hd_error (slice i d forecastDf))).

Lemma windows_loop_errors forecastDf cropDf d kv vw name starts :
  (forall i, In i starts -> exists first rest, slice i d forecastDf = first :: rest) ->
  NoDup (map (start_day forecastDf d) starts) ->
  forall L cw cl,
    get name (ld_crop_logs L) = Some cl ->
    (forall i first rest, In i starts -> slice i d forecastDf = first :: rest ->
                          ~ In (iso_day (date first)) (keys (cl_windows cl))) ->
    ld_errors (log_of (windows_loop Math_exp Math_pow_half CONFIG forecastDf cropDf d
                         kv vw name starts (L, cw)))
    = ld_errors L.
Proof.
  induction starts as [|i r IH]; intros V ND L cw cl G Fresh; [reflexivity|].
  cbn [windows_loop].
  destruct (V i (or_introl eq_refl)) as [first [rest E]].
  destruct (process_window_errors forecastDf cropDf d kv vw name L cw i cl first rest G E
              (Fresh i first rest (or_introl eq_refl) E))
    as [L1 [cw1 [cl1 [P [Er [G1 K1]]]]]].
  rewrite P. cbn [map] in ND. inversion ND as [|? ? Ni Nr]; subst.
  rewrite (IH (fun j I => V j (or_intror I)) Nr L1 cw1 cl1 G1); [exact Er|].
  intros j f2 r2 Ij Ej Ik. destruct (K1 _ Ik) as [Eq|Old].
  - apply Ni. apply in_map_iff. exists j. split; [|exact Ij].
    rewrite E, Ej. simpl. now rewrite Eq.
  - exact (Fresh j f2 r2 (or_intror Ij) Ej Old).
Qed.

End ErrorLog.

Section RunErrors.
Import JS Matching.
Variables Math_exp Math_pow_half : Q -> Q.
Variable CONFIG : config.

Local Abbreviation utc_day := (fun x : day => iso_day (date x)).
Local Abbreviation start_day forecastDf d :=
  (fun i : nat => option_map (fun x => iso_day (date x)) (hd_error (slice i d forecastDf))).

Lemma hd_slice (l : list day) (i d : nat) :
  (0 < d)%nat -> hd_error (slice i d l) = nth_error l i.
Proof.
  intros P. unfold slice. destruct d as [|d]; [lia|].
  revert l. induction i as [|i IH]; intros [|x t]; simpl; try reflexivity.
  apply IH.
Qed.

Lemma starts_from_ge (fuel i limit x : nat) :
  In x (starts_from CONFIG fuel i limit) -> (i <= x)%nat.
Proof.
  revert i. induction fuel as [|f IH]; intros i; simpl; [tauto|].
  destruct (Nat.leb i limit); [|intros []].
  intros [<-|I]; [lia|]. apply IH in I. lia.
Qed.

Lemma starts_from_NoDup (fuel i limit : nat) : NoDup (starts_from CONFIG fuel i limit).
Proof.
  revert i. induction fuel as [|f IH]; intros i; simpl; [constructor|].
  destruct (Nat.leb i limit); [|constructor].
  constructor; [|apply IH].
  intros I. apply starts_from_ge in I. pose proof (Pos2Nat.is_pos (STEP_SIZE CONFIG)). lia.
Qed.

Lemma NoDup_map_on {A B : Type} (f : A -> B) (l : list A) :
  (forall x y, In x l -> In y l -> f x = f y -> x = y) -> NoDup l -> NoDup (map f l).
Proof.
  intros Inj N. induction N as [|x t Nx Nt IH]; simpl; constructor.
  - intros I. apply in_map_iff in I. destruct I as [y [E I]].
    assert (y = x) by (apply Inj; [now right | now left | exact E]).
    subst y. contradiction.
  - apply IH. intros a b Ia Ib. apply Inj; now right.
Qed.

Lemma start_days_NoDup (forecastDf : list day) (d : nat) :
  (0 < d)%nat -> (d <= List.length forecastDf)%nat ->
  NoDup (map utc_day forecastDf) ->
  NoDup (map (start_day forecastDf d)
           (window_starts CONFIG (List.length forecastDf) d)).
Proof.
  intros P B N. apply NoDup_map_on; [|apply starts_from_NoDup].
  intros i j Ii Ij E. rewrite !hd_slice in E by exact P.
  apply (window_starts_fit CONFIG) in Ii; [|exact B].
  rewrite <- !(nth_error_map utc_day) in E.
  apply (proj1 (NoDup_nth_error _) N); [rewrite length_map; lia | exact E].
Qed.

Lemma cl_warn_all_windows ws c : cl_windows (cl_warn_all ws c) = cl_windows c.
Proof.
  unfold cl_warn_all. revert c. induction ws as [|w r IH]; intros c; [reflexivity|].
  simpl. now rewrite IH.
Qed.

Lemma derive_weights_windows name kv L0 L c :
  log_at name L0 L c ->
  exists c', log_at name L0 (snd (derive_weights CONFIG name kv L)) c'
             /\ cl_windows c' = cl_windows c.
Proof.
  intros A. unfold derive_weights.
  destruct (Nat.ltb 0 (List.length (keys kv))); cbn [snd].
  - eexists. split; [apply log_at_on_crop, log_at_on_crop, A|].
    cbn [cl_set_normalized_weights cl_windows]. apply cl_warn_all_windows.
  - eexists. split; [apply log_at_on_crop, A | reflexivity].
Qed.

(** The errors a crop that is processed for the first time adds. *)
Lemma process_crop_errors forecastDf L results name c :
  get name (ld_crop_logs L) = None ->
  NoDup (map utc_day forecastDf) ->
  ld_errors (fst (process_crop Math_exp Math_pow_half CONFIG forecastDf (L, results)
                    (name, c)))
  = ld_errors L
    ++ (if throws_at c
        then [crop_error name (match daily_weather c with
                               | None => NoDailyWeather
                               | Some _ => EmptyWindow
                               end)]
        else []).
Proof.
  intros G N. unfold process_crop, crop_body, throws_at. cbv zeta.
  destruct (daily_weather c) as [dw|] eqn:D; [|reflexivity].
  set (cropDf := sort by_date dw).
  change (ld_crop_logs (on_summary inc_crops_processed L)) with (ld_crop_logs L).
  rewrite (get_none_mem _ _ G).
  set (L1 := mkLog (ld_summary (on_summary inc_crops_processed L))
               (put name (new_crop_log (List.length cropDf) c) (ld_crop_logs L))
               (ld_errors (on_summary inc_crops_processed L))).
  assert (A1 : log_at name L1 L1 (new_crop_log (List.length cropDf) c)).
  { split; [reflexivity|]. split; [reflexivity|]. unfold L1. cbn [ld_crop_logs].
    apply get_put_same. }
  rewrite <- (sort_length by_date dw). fold cropDf.
  destruct (Nat.ltb (List.length forecastDf) (List.length cropDf)) eqn:TL.
  { apply Nat.ltb_lt in TL.
    destruct (Nat.eqb_spec (List.length cropDf) 0) as [Z|NZ]; [lia|].
    cbn [fst]. now rewrite app_nil_r. }
  apply Nat.ltb_ge in TL.
  set (kv := match k_values c with Some k => k | None => [] end).
  set (c2 := if Nat.eqb (List.length (keys kv)) 0
             then cl_warn WNoKValues (new_crop_log (List.length cropDf) c)
             else new_crop_log (List.length cropDf) c).
  set (L2 := if Nat.eqb (List.length (keys kv)) 0
             then on_crop name (cl_warn WNoKValues) L1 else L1).
  assert (A2 : log_at name L1 L2 c2).
  { unfold L2, c2. destruct (Nat.eqb _ 0); [apply log_at_on_crop, A1 | exact A1]. }
  assert (E2 : ld_errors L2 = ld_errors L).
  { unfold L2. destruct (Nat.eqb _ 0); reflexivity. }
  assert (W2 : cl_windows c2 = []).
  { unfold c2. destruct (Nat.eqb _ 0); reflexivity. }
  assert (A3 : log_at name L1 (on_crop name (cl_set_k_values_used kv) L2)
                 (cl_set_k_values_used kv c2))
    by (apply log_at_on_crop, A2).
  destruct (derive_weights_windows name kv L1 _ _ A3) as [c4 [A4 W4]].
  pose proof (derive_weights_errors CONFIG name kv
                (on_crop name (cl_set_k_values_used kv) L2)) as E4.
  destruct (derive_weights CONFIG name kv (on_crop name (cl_set_k_values_used kv) L2))
    as [vw L4].
  cbn [snd] in A4, E4. cbn [ld_errors on_crop] in E4. rewrite E2 in E4.
  cbn [cl_set_k_values_used cl_windows] in W4. rewrite W2 in W4.
  set (L5 := on_crop name (cl_set_windows_stats (Some (mkStats 0 0 0))) L4).
  assert (A5 : log_at name L1 L5 (cl_set_windows_stats (Some (mkStats 0 0 0)) c4))
    by (apply log_at_on_crop, A4).
  destruct (Nat.eqb (List.length cropDf) 0) eqn:DZ.
  - apply Nat.eqb_eq in DZ. rewrite DZ.
    unfold window_starts. cbn [starts_from Nat.leb windows_loop process_window].
    rewrite empty_slice. unfold L5. cbn [fst on_crop ld_errors on_summary].
    unfold logError, crop_error. now rewrite E4.
  - apply Nat.eqb_neq in DZ.
    assert (V : forall i, In i (window_starts CONFIG (List.length forecastDf)
                                  (List.length cropDf)) ->
                          exists first rest,
                            slice i (List.length cropDf) forecastDf = first :: rest).
    { intros i I. apply slice_nonempty; [lia|]. now apply (window_starts_fit CONFIG). }
    pose proof (windows_loop_errors Math_exp Math_pow_half CONFIG forecastDf cropDf
                  (List.length cropDf) kv vw name
                  (window_starts CONFIG (List.length forecastDf) (List.length cropDf)) V
                  (start_days_NoDup forecastDf (List.length cropDf) ltac:(lia) TL N)
                  L5 [] _ (log_at_get _ _ _ _ A5)) as EL.
    cbn [cl_set_windows_stats cl_windows] in EL. rewrite W4 in EL.
    specialize (EL (fun _ _ _ _ _ I => I)).
    destruct (windows_loop Math_exp Math_pow_half CONFIG forecastDf cropDf
                (List.length cropDf) kv vw name
                (window_starts CONFIG (List.length forecastDf) (List.length cropDf))
                (L5, [])) as [[L6 cw]|L6 e] eqn:WL.
    + cbn [log_of fst] in EL.
      destruct (Nat.ltb 0 (List.length cw)); cbn [fst on_crop ld_errors on_summary];
        rewrite EL, app_nil_r; exact E4.
    + exfalso.
      destruct (windows_loop_spec Math_exp Math_pow_half CONFIG forecastDf cropDf
                  kv vw name _ V L5 []) as [L6' [P _]].
      rewrite P in WL. discriminate.
Qed.

Lemma crops_loop_errors forecastDf crops :
  NoDup (keys crops) -> NoDup (map utc_day forecastDf) ->
  forall L results,
    (forall name, In name (keys crops) -> get name (ld_crop_logs L) = None) ->
    ld_errors (fst (fold_left (process_crop Math_exp Math_pow_half CONFIG forecastDf)
                      crops (L, results)))
    = ld_errors L
      ++ map (fun e => crop_error (fst e) (match daily_weather (snd e) with
                                           | None => NoDailyWeather
                                           | Some _ => EmptyWindow
                                           end))
           (filter (fun e => throws_at (snd e)) crops).
Proof.
  intros N Nd. induction crops as [|[name0 c0] r IH]; intros L results Fresh.
  - simpl. now rewrite app_nil_r.
  - change (keys ((name0, c0) :: r)) with (name0 :: keys r) in *.
    inversion N as [|? ? N0 Nr]; subst.
    cbn [fold_left].
    assert (G0 : get name0 (ld_crop_logs L) = None) by (apply Fresh; now left).
    pose proof (process_crop_errors forecastDf L results name0 c0 G0 Nd) as E0.
    assert (Fresh1 : forall name, In name (keys r) ->
              get name (ld_crop_logs
                          (fst (process_crop Math_exp Math_pow_half CONFIG forecastDf
                                  (L, results) (name0, c0)))) = None).
    { intros name I.
      assert (Ne : name <> name0) by (intros ->; contradiction).
      destruct (daily_weather c0) as [dw0|] eqn:D0.
      - destruct (process_crop_log Math_exp Math_pow_half CONFIG forecastDf L results
                    name0 c0 dw0 G0 D0) as [_ [O _]].
        rewrite (O name Ne). apply Fresh. now right.
      - rewrite (process_crop_no_weather Math_exp Math_pow_half CONFIG forecastDf L results
                   name0 c0 D0 G0).
        apply Fresh. now right. }
    destruct (process_crop Math_exp Math_pow_half CONFIG forecastDf (L, results)
                (name0, c0)) as [L1 results1].
    cbn [fst] in E0, Fresh1.
    rewrite (IH Nr L1 results1 Fresh1), E0, <- app_assoc.
    cbn [filter snd]. destruct (throws_at c0); reflexivity.
Qed.

End RunErrors.

Section RunErrorsTheorem.
Import JS Matching.

(** X22.  The errors of a run over crops with distinct names, against
    a forecast whose records fall on distinct UTC days: the log holds
    exactly one error for every crop without a usable daily weather (none,
    or an empty one), in the order of the crops, and nothing else.  A run
    in which every crop has at least one weather record logs no error. *)
Theorem errors_are_the_unusable_crops
        (Math_exp Math_pow_half : Q -> Q) (crops : obj crop) (forecastData : list day)
        (cc : client_config) :
  NoDup (keys crops) ->
  NoDup (map (fun x => iso_day (date x)) forecastData) ->
  let errs := ld_errors (snd (runCropMatching Math_exp Math_pow_half crops
                                forecastData cc)) in
  errs = map (fun e => crop_error (fst e) (match daily_weather (snd e) with
                                           | None => NoDailyWeather
                                           | Some _ => EmptyWindow
                                           end))
           (filter (fun e => throws_at (snd e)) crops)
  /\ ((forall e, In e crops -> throws_at (snd e) = false) -> errs = []).
Proof.
  intros N Nd errs.
  assert (Nd' : NoDup (map (fun x => iso_day (date x)) (sort by_date forecastData))).
  { eapply Permutation_NoDup; [|exact Nd].
    apply Permutation_map, Permutation_sym, sort_perm. }
  assert (E : errs = ld_errors
                       (fst (fold_left (process_crop Math_exp Math_pow_half (merge cc)
                                          (sort by_date forecastData))
                               crops (empty_log, [])))).
  { unfold errs, runCropMatching, processCrops.
    now destruct (fold_left _ crops (empty_log, [])). }
  rewrite (crops_loop_errors Math_exp Math_pow_half (merge cc) (sort by_date forecastData)
             crops N Nd' empty_log [] (fun _ _ => eq_refl)) in E.
  cbn [ld_errors empty_log app] in E.
  split; [exact E|].
  intros H. rewrite E.
  assert (F : filter (fun e => throws_at (snd e)) crops = []).
  { clear - H. induction crops as [|e r IH]; [reflexivity|].
    simpl. rewrite (H e (or_introl eq_refl)). apply IH.
    intros x I. apply H. now right. }
  now rewrite F.
Qed.

Lemma errors_are_the_unusable_crops_witness :
  ld_errors (snd (runCropMatching Examples.exp_model Examples.pow_half_model
                    [("A"%string, Examples.scenario_crop);
                     ("B"%string, mkCrop None None 0 None None)]
                    Examples.scenario_full_forecast Examples.scenario_step_only))
  = [crop_error "B" NoDailyWeather].
Proof.
  refine (proj1 (errors_are_the_unusable_crops Examples.exp_model Examples.pow_half_model
                   [("A"%string, Examples.scenario_crop);
                    ("B"%string, mkCrop None None 0 None None)]
                   Examples.scenario_full_forecast Examples.scenario_step_only _ _)).
  - repeat (constructor; [simpl; intuition discriminate|]). constructor.
  - unfold Examples.scenario_full_forecast. vm_compute.
    repeat (constructor; [simpl; intuition discriminate|]). constructor.
Defined.

End RunErrorsTheorem.

Section WindowStarts.
Import JS Matching.
Variables Math_exp Math_pow_half : Q -> Q.
Variable CONFIG : config.

Local Abbreviation start_day forecastDf d :=
  (fun i : nat => option_map (fun x => iso_day (date x)) (hd_error (slice i d forecastDf))).

Lemma window_result_start forecastDf cropDf kv vw i w :
  In w (window_result Math_exp Math_pow_half CONFIG forecastDf cropDf kv vw i) ->
  start_day forecastDf (List.length cropDf) i = Some (w_start w).
Proof.
  intros I. apply window_result_origin in I.
  destruct I as [first [rest [s [E [_ [_ ->]]]]]]. now rewrite E.
Qed.

Lemma tried_starts_NoDup forecastDf cropDf kv vw starts :
  NoDup (map (start_day forecastDf (List.length cropDf)) starts) ->
  NoDup (map w_start
           (flat_map (window_result Math_exp Math_pow_half CONFIG forecastDf cropDf kv vw)
              starts)).
Proof.
  induction starts as [|i r IH]; intros N; [constructor|].
  cbn [map flat_map] in *. inversion N as [|? ? Ni Nr]; subst.
  specialize (IH Nr).
  pose proof (window_result_short Math_exp Math_pow_half CONFIG forecastDf cropDf kv vw i)
    as Sh.
  pose proof (window_result_start forecastDf cropDf kv vw i) as St.
  destruct (window_result Math_exp Math_pow_half CONFIG forecastDf cropDf kv vw i)
    as [|w [|w2 t]]; [exact IH | | simpl in Sh; lia].
  cbn [app map]. constructor; [|exact IH].
  intros I. apply in_map_iff in I. destruct I as [w' [E I]].
  apply in_flat_map in I. destruct I as [j [Ij Iw]].
  apply window_result_start in Iw.
  apply Ni. apply in_map_iff. exists j. split; [|exact Ij].
  rewrite Iw, E. symmetry. apply St. now left.
Qed.

Lemma crop_summary_window_counts forecastDf e s :
  windows_successful (crop_summary Math_exp Math_pow_half CONFIG forecastDf e s)
  = (windows_successful s
     + list_sum (map (fun r => List.length (r_windows r))
                   (crop_result Math_exp Math_pow_half CONFIG forecastDf e)))%nat
  /\ total_windows_processed (crop_summary Math_exp Math_pow_half CONFIG forecastDf e s)
     = (total_windows_processed s
        + match daily_weather (snd e) with
          | None => 0
          | Some dw =>
              if Nat.ltb (List.length forecastDf) (List.length dw) then 0
              else if Nat.eqb (List.length dw) 0 then 1
                   else (List.length forecastDf - List.length dw)
                        / Pos.to_nat (STEP_SIZE CONFIG) + 1
          end)%nat.
Proof.
  destruct e as [name c]. unfold crop_summary, crop_result. cbn [snd].
  destruct (daily_weather c) as [dw|]; [|destruct s; simpl; lia].
  cbv zeta. rewrite !sort_length.
  destruct (Nat.ltb_spec (List.length forecastDf) (List.length dw));
    [destruct s; simpl; lia|].
  destruct (Nat.eqb_spec (List.length dw) 0) as [Z|NZ]; [destruct s; simpl; lia|].
  rewrite (window_starts_length CONFIG) by lia.
  destruct (crop_windows Math_exp Math_pow_half CONFIG forecastDf (sort by_date dw)
              (kValues_of c)) as [|w ws] eqn:E.
  - destruct s; simpl; lia.
  - change (Nat.ltb 0 (List.length (w :: ws))) with true. cbv iota.
    cbn [map list_sum r_windows]. rewrite sort_length.
    destruct s; simpl; lia.
Qed.

Lemma window_counts_fold forecastDf crops :
  forall s,
    let s' := fold_left (fun s e => crop_summary Math_exp Math_pow_half CONFIG forecastDf e s)
                crops s in
    windows_successful s'
    = (windows_successful s
       + list_sum (map (fun r => List.length (r_windows r))
                     (flat_map (crop_result Math_exp Math_pow_half CONFIG forecastDf)
                        crops)))%nat
    /\ total_windows_processed s'
       = (total_windows_processed s
          + list_sum
              (map (fun e =>
                      match daily_weather (snd e) with
                      | None => 0
                      | Some dw =>
                          if Nat.ltb (List.length forecastDf) (List.length dw) then 0
                          else if Nat.eqb (List.length dw) 0 then 1
                               else (List.length forecastDf - List.length dw)
                                    / Pos.to_nat (STEP_SIZE CONFIG) + 1
                      end) crops))%nat.
Proof.
  induction crops as [|e r IH]; intros s; cbv zeta.
  - simpl. split; lia.
  - cbn [fold_left flat_map map].
    destruct (IH (crop_summary Math_exp Math_pow_half CONFIG forecastDf e s)) as [A B].
    destruct (crop_summary_window_counts forecastDf e s) as [C D].
    rewrite A, B, C, D, map_app, list_sum_app.
    match goal with |- _ /\ _ = (_ + list_sum (?x :: ?l))%nat =>
      change (list_sum (x :: l)) with (x + list_sum l)%nat end.
    split; lia.
Qed.

End WindowStarts.

Section WindowStartsTheorems.
Import JS Matching.

(** X23.  Against a forecast whose records fall on distinct UTC days,
    the windows of a result have pairwise distinct start days: a start day
    names one window of the crop. *)
Theorem result_windows_have_distinct_starts
        (Math_exp Math_pow_half : Q -> Q) (crops : obj crop) (forecastData : list day)
        (cc : client_config) (r : result) :
  NoDup (map (fun x => iso_day (date x)) forecastData) ->
  In r (fst (runCropMatching Math_exp Math_pow_half crops forecastData cc)) ->
  NoDup (map w_start (r_windows r)).
Proof.
  intros Nd I.
  destruct (result_inv Math_exp Math_pow_half crops forecastData cc r I)
    as [name [c [dw [_ [_ [B [_ ->]]]]]]].
  cbn [r_windows].
  assert (Nd' : NoDup (map (fun x => iso_day (date x)) (sort by_date forecastData))).
  { eapply Permutation_NoDup; [|exact Nd].
    apply Permutation_map, Permutation_sym, sort_perm. }
  eapply Permutation_NoDup;
    [apply Permutation_map, Permutation_sym, sort_perm|].
  unfold crop_windows. apply tried_starts_NoDup.
  apply start_days_NoDup; [rewrite sort_length; lia | rewrite !sort_length; lia | exact Nd'].
Qed.

Lemma result_windows_have_distinct_starts_witness :
  exists r,
    In r (fst (runCropMatching Examples.exp_model Examples.pow_half_model
                 [("A"%string, Examples.scenario_crop)] Examples.scenario_full_forecast
                 Examples.scenario_step_only))
    /\ NoDup (map w_start (r_windows r)).
Proof.
  pose (run := runCropMatching Examples.exp_model Examples.pow_half_model
                 [("A"%string, Examples.scenario_crop)] Examples.scenario_full_forecast
                 Examples.scenario_step_only).
  assert (N : exists r, In r (fst run)).
  { destruct (fst run) as [|r rs] eqn:E; [vm_compute in E; discriminate|].
    exists r. now left. }
  destruct N as [r I]. exists r. split; [exact I|].
  apply (result_windows_have_distinct_starts Examples.exp_model Examples.pow_half_model
           [("A"%string, Examples.scenario_crop)] Examples.scenario_full_forecast
           Examples.scenario_step_only r); [|exact I].
  vm_compute. repeat (constructor; [simpl; intuition discriminate|]). constructor.
Defined.

(** X24.  The window counters of the summary.  [windows_successful] is
    the number of windows in the results, all crops together.
    [total_windows_processed] adds up, over the crops, the windows tried:
    none for a crop without daily weather or longer than the forecast,
    [(n - d) / STEP_SIZE + 1] for a crop of [d >= 1] days that fits, and one
    for a crop with an empty daily weather. *)
Theorem summary_counts_the_windows
        (Math_exp Math_pow_half : Q -> Q) (crops : obj crop) (forecastData : list day)
        (cc : client_config) :
  let run := runCropMatching Math_exp Math_pow_half crops forecastData cc in
  let s := ld_summary (snd run) in
  let n := List.length forecastData in
  windows_successful s = list_sum (map (fun r => List.length (r_windows r)) (fst run))
  /\ total_windows_processed s
     = list_sum
         (map (fun e =>
                 match daily_weather (snd e) with
                 | None => 0%nat
                 | Some dw =>
                     if Nat.ltb n (List.length dw) then 0%nat
                     else if Nat.eqb (List.length dw) 0 then 1%nat
                          else ((n - List.length dw) / Pos.to_nat (STEP_SIZE (merge cc))
                                + 1)%nat
                 end) crops).
Proof.
  intros run s n. subst run s n.
  rewrite run_summary, run_results.
  destruct (window_counts_fold Math_exp Math_pow_half (merge cc)
              (sort by_date forecastData) crops (mkSummary 0 0 0 0 0 0 0)) as [A B].
  cbv zeta in A, B. rewrite A, B. rewrite !sort_length. split; reflexivity.
Qed.

End WindowStartsTheorems.

Section WindowLogs.
Import JS Matching.
Variables Math_exp Math_pow_half : Q -> Q.
Variable CONFIG : config.

Lemma mem_put {V} (k k' : string) (v : V) (o : obj V) :
  mem k (put k' v o) = String.eqb k k' || mem k o.
Proof.
  unfold mem, has. fold (get k (put k' v o)). fold (get k o).
  destruct (String.eqb_spec k k') as [->|D].
  - now rewrite get_put_same.
  - now rewrite get_put_other.
Qed.

Lemma wget_wput_other (k k' : Z) (l : window_log) (ws : list (Z * window_log)) :
  k <> k' -> wget k (wput k' l ws) = wget k ws.
Proof.
  intros N. unfold wget, wput. induction ws as [|[k2 l2] ws IH]; simpl.
  - destruct (Z.eqb_spec k k'); [contradiction | reflexivity].
  - destruct (Z.eqb_spec k' k2) as [->|N2]; simpl.
    + destruct (Z.eqb_spec k k2); [contradiction | reflexivity].
    + destruct (Z.eqb_spec k k2); [reflexivity | exact IH].
Qed.

Lemma score_variable_variables wd cd kv vw name ws a f vars0 :
  wl_variables (windowLog a) = Some vars0 ->
  exists vars,
    wl_variables (windowLog (score_variable Math_exp Math_pow_half CONFIG wd cd kv vw
                               name ws a f))
    = Some vars
    /\ forall v, mem v vars
                 = mem v vars0 || (if is_scored wd cd f then String.eqb v f else false).
Proof.
  intros V. unfold score_variable, is_scored, in_all_days, pairsOf.
  destruct (forallb (day_has f) wd); cbn [negb orb andb];
    [destruct (forallb (day_has f) cd); cbn [negb orb andb]|].
  - destruct (Nat.eqb _ 0); cbn [negb].
    + exists vars0. split; [exact V|]. intros v. now rewrite orb_false_r.
    + rewrite V. eexists. split; [reflexivity|]. intros v. rewrite mem_put.
      apply orb_comm.
  - exists vars0. split; [exact V|]. intros v. now rewrite orb_false_r.
  - exists vars0. split; [exact V|]. intros v. now rewrite orb_false_r.
Qed.

Lemma score_loop_variables wd cd kv vw name ws fields :
  forall a vars0,
    wl_variables (windowLog a) = Some vars0 ->
    exists vars,
      wl_variables
        (windowLog (fold_left (score_variable Math_exp Math_pow_half CONFIG wd cd kv vw
                                 name ws) fields a))
      = Some vars
      /\ forall v, mem v vars
                   = mem v vars0
                     || existsb (String.eqb v) (filter (is_scored wd cd) fields).
Proof.
  induction fields as [|f r IH]; intros a vars0 V.
  - exists vars0. split; [exact V|]. intros v. simpl. now rewrite orb_false_r.
  - cbn [fold_left].
    destruct (score_variable_variables wd cd kv vw name ws a f vars0 V) as [vars1 [V1 M1]].
    destruct (IH _ vars1 V1) as [vars [V2 M2]].
    exists vars. split; [exact V2|]. intros v. rewrite M2, M1. cbn [filter].
    destruct (is_scored wd cd f); cbn [existsb].
    + now rewrite orb_assoc.
    + now rewrite orb_false_r.
Qed.

(** [computeScore] on a window the crop log does not know yet, when it
    produces a score. *)
Lemma computeScore_scored wd cd kv vw name ws L cl s :
  get name (ld_crop_logs L) = Some cl -> wget ws (cl_windows cl) = None ->
  window_score Math_exp Math_pow_half CONFIG wd cd kv vw = Some s ->
  exists vars warns L3,
    computeScore Math_exp Math_pow_half CONFIG wd cd kv vw name ws L
    = (Some s, Some vars, L3)
    /\ ld_crop_logs L3
       = put name (cl_set_windows
                     (wput ws (mkWindowLog (Some vars) warns (Some s)) (cl_windows cl)) cl)
           (ld_crop_logs L)
    /\ forall v, mem v vars = existsb (String.eqb v) (scored_fields CONFIG wd cd).
Proof.
  intros G W S.
  pose proof (computeScore_score Math_exp Math_pow_half CONFIG wd cd kv vw name ws L) as CS.
  rewrite S in CS. unfold computeScore in *. rewrite G, W in *.
  destruct (score_loop_variables wd cd kv vw name ws (REQUIRED_FIELDS CONFIG)
              (mkAcc [] 0 fresh_window_log (ld_errors L)) [] eq_refl) as [vars [V M]].
  match type of CS with context [if ?c then _ else _] => destruct c end;
    cbn [fst] in CS; [discriminate|].
  injection CS as CS. rewrite CS, V.
  eexists. eexists. eexists. split; [reflexivity|]. cbn [ld_crop_logs].
  split; [reflexivity|]. intros v. rewrite M. reflexivity.
Qed.

Lemma process_window_logs forecastDf cropDf kv vw name L cw i cl first rest :
  get name (ld_crop_logs L) = Some cl ->
  slice i (List.length cropDf) forecastDf = first :: rest ->
  ~ In (iso_day (date first)) (keys (cl_windows cl)) ->
  exists L' cl',
    process_window Math_exp Math_pow_half CONFIG forecastDf cropDf (List.length cropDf)
      kv vw name (L, cw) i
    = Normal (L', cw ++ window_result Math_exp Math_pow_half CONFIG forecastDf cropDf
                          kv vw i)
    /\ get name (ld_crop_logs L') = Some cl'
    /\ (forall k, k <> iso_day (date first) ->
                  wget k (cl_windows cl') = wget k (cl_windows cl))
    /\ (forall k, In k (keys (cl_windows cl')) ->
                  k = iso_day (date first) \/ In k (keys (cl_windows cl)))
    /\ (forall w, In w (window_result Math_exp Math_pow_half CONFIG forecastDf cropDf
                          kv vw i) ->
          w_start w = iso_day (date first)
          /\ exists wl, wget (iso_day (date first)) (cl_windows cl') = Some wl
                        /\ window_logged Math_exp Math_pow_half CONFIG (first :: rest)
                             cropDf kv vw wl w).
Proof.
  intros G E N.
  destruct (process_window_errors Math_exp Math_pow_half CONFIG forecastDf cropDf
              (List.length cropDf) kv vw name L cw i cl first rest G E N)
    as [L' [cw' [cl' [P [_ [G' K']]]]]].
  destruct (process_window_spec Math_exp Math_pow_half CONFIG forecastDf cropDf kv vw name
              L cw i first rest E) as [L'' [P' _]].
  rewrite P' in P. injection P as -> <-.
  exists L', cl'. split; [exact P'|]. split; [exact G'|].
  revert P' G'. unfold process_window, window_result, window_insufficient, total_slots.
  rewrite E.
  set (ws := iso_day (date first)) in *.
  set (L2 := on_crop name (cl_on_stats inc_total_windows)
               (on_summary inc_total_windows_processed L)).
  assert (A0 : log_at name L L cl) by (split; [reflexivity|]; split; [reflexivity | exact G]).
  assert (A2 : log_at name L L2 (cl_on_stats inc_total_windows cl))
    by (apply log_at_on_crop, log_at_on_summary, A0).
  destruct (insufficient CONFIG _ _).
  - intros P' G'. apply (f_equal (@log_of _)) in P'. cbn [log_of fst] in P'. subst L'.
    erewrite (log_at_get name L) in G'
      by (apply log_at_on_summary, log_at_on_crop, log_at_on_crop, A2).
    injection G' as <-.
    split; [|split; [exact K' | intros w []]].
    intros k D. cbn [cl_on_stats cl_set_windows_stats cl_windows].
    unfold note_insufficient. cbn [cl_on_stats cl_set_windows_stats cl_windows].
    destruct (wget ws (cl_windows cl)); cbn [cl_set_windows cl_windows];
      now apply wget_wput_other.
  - destruct (window_score Math_exp Math_pow_half CONFIG (first :: rest) cropDf kv vw)
      as [s|] eqn:S.
    + destruct (computeScore_scored (first :: rest) cropDf kv vw name ws L2
                  (cl_on_stats inc_total_windows cl) s (proj2 (proj2 A2))
                  (wget_fresh _ _ N) S) as [vars [warns [L3 [CS [Lg M]]]]].
      rewrite CS.
      assert (A3 : log_at name L L3
                     (cl_set_windows
                        (wput ws (mkWindowLog (Some vars) warns (Some s)) (cl_windows cl))
                        (cl_on_stats inc_total_windows cl))).
      { destruct A2 as [K2 [O2 N2]]. unfold log_at. rewrite Lg. split; [|split].
        - rewrite keys_put, (get_mem _ _ _ N2). exact K2.
        - intros other D. rewrite get_put_other by exact D. now apply O2.
        - apply get_put_same. }
      intros P' G'. apply (f_equal (@log_of _)) in P'. cbn [log_of fst] in P'. subst L'.
      erewrite (log_at_get name L) in G'
        by (apply log_at_on_crop, log_at_on_summary, log_at_on_crop, A3).
      injection G' as <-.
      split; [|split; [exact K'|]];
        unfold note_scored;
        cbn [cl_on_stats cl_set_windows_stats cl_set_windows cl_windows];
        rewrite wget_wput_same; cbn [cl_set_windows cl_windows wl_warnings].
      * intros k D. rewrite !wget_wput_other by exact D. reflexivity.
      * intros w [<-|[]]. split; [reflexivity|].
        eexists. split; [apply wget_wput_same|].
        exists s, vars. split; [exact S|]. split; [reflexivity|].
        split; [reflexivity|]. split; [reflexivity | exact M].
    + pose proof (computeScore_score Math_exp Math_pow_half CONFIG (first :: rest) cropDf
                    kv vw name ws L2) as CS.
      rewrite S in CS.
      destruct (computeScore_fresh_window Math_exp Math_pow_half CONFIG (first :: rest)
                  cropDf kv vw name ws L2 (cl_on_stats inc_total_windows cl)
                  (proj2 (proj2 A2)) (wget_fresh _ _ N)) as [_ [wl Lg]].
      destruct (computeScore Math_exp Math_pow_half CONFIG (first :: rest) cropDf kv vw
                  name ws L2) as [[score details] L3].
      cbn [fst snd] in CS, Lg. subst score.
      assert (A3 : log_at name L L3
                     (cl_set_windows (wput ws wl (cl_windows cl))
                        (cl_on_stats inc_total_windows cl))).
      { destruct A2 as [K2 [O2 N2]]. unfold log_at. rewrite Lg. split; [|split].
        - rewrite keys_put, (get_mem _ _ _ N2). exact K2.
        - intros other D. rewrite get_put_other by exact D. now apply O2.
        - apply get_put_same. }
      intros P' G'. apply (f_equal (@log_of _)) in P'. cbn [log_of fst] in P'. subst L'.
      erewrite (log_at_get name L) in G' by (apply log_at_on_crop, A3).
      injection G' as <-.
      split; [|split; [exact K' | intros w []]].
      intros k D. unfold note_unscored.
      cbn [cl_on_stats cl_set_windows_stats cl_set_windows cl_windows].
      rewrite wget_wput_same. cbn [cl_set_windows cl_windows].
      rewrite !wget_wput_other by exact D. reflexivity.
Qed.

End WindowLogs.

Section LoopLogs.
Import JS Matching.
Variables Math_exp Math_pow_half : Q -> Q.
Variable CONFIG : config.

Local Abbreviation utc_day := (fun x : day => iso_day (date x)).
Local Abbreviation start_day forecastDf d :=
  (fun i : nat => option_map (fun x => iso_day (date x)) (hd_error (slice i d forecastDf))).
Local Abbreviation wresult := (window_result Math_exp Math_pow_half CONFIG).
Local Abbreviation wlogged := (window_logged Math_exp Math_pow_half CONFIG).

Lemma windows_loop_logs forecastDf cropDf kv vw name starts :
  (forall i, In i starts ->
             exists first rest, slice i (List.length cropDf) forecastDf = first :: rest) ->
  NoDup (map (start_day forecastDf (List.length cropDf)) starts) ->
  forall L cw cl,
    get name (ld_crop_logs L) = Some cl ->
    (forall i first rest, In i starts ->
                          slice i (List.length cropDf) forecastDf = first :: rest ->
                          ~ In (iso_day (date first)) (keys (cl_windows cl))) ->
    exists L' cl',
      windows_loop Math_exp Math_pow_half CONFIG forecastDf cropDf (List.length cropDf)
        kv vw name starts (L, cw)
      = Normal (L', cw ++ flat_map (wresult forecastDf cropDf kv vw) starts)
      /\ get name (ld_crop_logs L') = Some cl'
      /\ (forall k,
            (forall i first rest, In i starts ->
               slice i (List.length cropDf) forecastDf = first :: rest ->
               k <> iso_day (date first)) ->
            wget k (cl_windows cl') = wget k (cl_windows cl))
      /\ (forall k, In k (keys (cl_windows cl')) ->
            (exists i first rest,
                In i starts /\ slice i (List.length cropDf) forecastDf = first :: rest
                /\ k = iso_day (date first))
            \/ In k (keys (cl_windows cl)))
      /\ (forall w, In w (flat_map (wresult forecastDf cropDf kv vw) starts) ->
            exists i first rest wl,
              In i starts
              /\ slice i (List.length cropDf) forecastDf = first :: rest
              /\ w_start w = iso_day (date first)
              /\ wget (w_start w) (cl_windows cl') = Some wl
              /\ wlogged (first :: rest) cropDf kv vw wl w).
Proof.
  induction starts as [|i r IH]; intros V ND L cw cl G Fresh.
  - exists L, cl. cbn [windows_loop flat_map]. rewrite app_nil_r.
    split; [reflexivity|]. split; [exact G|]. split; [reflexivity|].
    split; [intros k I; now right | intros w []].
  - destruct (V i (or_introl eq_refl)) as [first [rest E]].
    destruct (process_window_logs Math_exp Math_pow_half CONFIG forecastDf cropDf kv vw
                name L cw i cl first rest G E (Fresh i first rest (or_introl eq_refl) E))
      as [L1 [cl1 [P [G1 [F1 [K1 W1]]]]]].
    cbn [map] in ND. inversion ND as [|? ? Ni Nr]; subst.
    assert (Other : forall j f2 r2, In j r ->
                      slice j (List.length cropDf) forecastDf = f2 :: r2 ->
                      iso_day (date first) <> iso_day (date f2)).
    { intros j f2 r2 Ij Ej Eq. apply Ni. apply in_map_iff. exists j.
      split; [|exact Ij]. rewrite E, Ej. simpl. now rewrite Eq. }
    destruct (IH (fun j I => V j (or_intror I)) Nr L1
                (cw ++ wresult forecastDf cropDf kv vw i) cl1 G1)
      as [L' [cl' [P2 [G2 [F2 [K2 W2]]]]]].
    { intros j f2 r2 Ij Ej Ik. destruct (K1 _ Ik) as [Eq|Old].
      - exact (Other j f2 r2 Ij Ej (eq_sym Eq)).
      - exact (Fresh j f2 r2 (or_intror Ij) Ej Old). }
    exists L', cl'. cbn [windows_loop flat_map]. rewrite P, P2, <- app_assoc.
    split; [reflexivity|]. split; [exact G2|]. split; [|split].
    + intros k H. rewrite F2.
      * apply F1. exact (H i first rest (or_introl eq_refl) E).
      * intros j f2 r2 Ij Ej. exact (H j f2 r2 (or_intror Ij) Ej).
    + intros k Ik. destruct (K2 k Ik) as [[j [f2 [r2 [Ij [Ej Ek]]]]]|Ik1].
      * left. exists j, f2, r2. split; [now right | now split].
      * destruct (K1 k Ik1) as [Ek|Old]; [|now right].
        left. exists i, first, rest. split; [now left | now split].
    + intros w Iw. apply in_app_or in Iw. destruct Iw as [Iw|Iw].
      * destruct (W1 w Iw) as [Sw [wl [Gw Lw]]].
        exists i, first, rest, wl. split; [now left|]. split; [exact E|].
        split; [exact Sw|]. split; [|exact Lw].
        rewrite Sw, F2; [exact Gw|].
        intros j f2 r2 Ij Ej. exact (Other j f2 r2 Ij Ej).
      * destruct (W2 w Iw) as [j [f2 [r2 [wl [Ij H]]]]].
        exists j, f2, r2, wl. split; [now right | exact H].
Qed.

(** The window logs of a crop that is processed for the first time. *)
Lemma process_crop_window_logs forecastDf L results name c dw :
  get name (ld_crop_logs L) = None -> daily_weather c = Some dw ->
  NoDup (map utc_day forecastDf) ->
  exists cl,
    get name (ld_crop_logs (fst (process_crop Math_exp Math_pow_half CONFIG forecastDf
                                   (L, results) (name, c))))
    = Some cl
    /\ forall r w,
         In r (crop_result Math_exp Math_pow_half CONFIG forecastDf (name, c)) ->
         In w (r_windows r) ->
         exists i first rest wl,
           slice i (List.length (sort by_date dw)) forecastDf = first :: rest
           /\ w_start w = iso_day (date first)
           /\ wget (w_start w) (cl_windows cl) = Some wl
           /\ wlogged (first :: rest) (sort by_date dw) (kValues_of c)
                (weights_for CONFIG (kValues_of c)) wl w.
Proof.
  intros G D N.
  destruct (process_crop_log Math_exp Math_pow_half CONFIG forecastDf L results name c dw
              G D) as [_ [_ [cl [Gcl _]]]].
  exists cl. split; [exact Gcl|].
  revert Gcl. unfold process_crop, crop_body, crop_result. cbv zeta. rewrite D.
  set (cropDf := sort by_date dw).
  change (ld_crop_logs (on_summary inc_crops_processed L)) with (ld_crop_logs L).
  rewrite (get_none_mem _ _ G).
  set (L1 := mkLog (ld_summary (on_summary inc_crops_processed L))
               (put name (new_crop_log (List.length cropDf) c) (ld_crop_logs L))
               (ld_errors (on_summary inc_crops_processed L))).
  assert (A1 : log_at name L1 L1 (new_crop_log (List.length cropDf) c)).
  { split; [reflexivity|]. split; [reflexivity|]. unfold L1. cbn [ld_crop_logs].
    apply get_put_same. }
  destruct (Nat.ltb (List.length forecastDf) (List.length cropDf)) eqn:TL;
    [intros _ r w []|].
  apply Nat.ltb_ge in TL.
  destruct (Nat.eqb (List.length cropDf) 0) eqn:DZ; [intros _ r w []|].
  apply Nat.eqb_neq in DZ.
  fold (kValues_of c).
  set (kv := kValues_of c).
  set (c2 := if Nat.eqb (List.length (keys kv)) 0
             then cl_warn WNoKValues (new_crop_log (List.length cropDf) c)
             else new_crop_log (List.length cropDf) c).
  set (L2 := if Nat.eqb (List.length (keys kv)) 0
             then on_crop name (cl_warn WNoKValues) L1 else L1).
  assert (A2 : log_at name L1 L2 c2).
  { unfold L2, c2. destruct (Nat.eqb _ 0); [apply log_at_on_crop, A1 | exact A1]. }
  assert (W2 : cl_windows c2 = []).
  { unfold c2. destruct (Nat.eqb _ 0); reflexivity. }
  assert (A3 : log_at name L1 (on_crop name (cl_set_k_values_used kv) L2)
                 (cl_set_k_values_used kv c2))
    by (apply log_at_on_crop, A2).
  destruct (derive_weights_windows CONFIG name kv L1 _ _ A3) as [c4 [A4 W4]].
  destruct (derive_weights_spec CONFIG name kv
              (on_crop name (cl_set_k_values_used kv) L2)) as [Wf _].
  destruct (derive_weights CONFIG name kv (on_crop name (cl_set_k_values_used kv) L2))
    as [vw L4].
  cbn [fst snd] in A4, Wf. subst vw.
  cbn [cl_set_k_values_used cl_windows] in W4. rewrite W2 in W4.
  set (L5 := on_crop name (cl_set_windows_stats (Some (mkStats 0 0 0))) L4).
  assert (A5 : log_at name L1 L5 (cl_set_windows_stats (Some (mkStats 0 0 0)) c4))
    by (apply log_at_on_crop, A4).
  assert (V : forall i, In i (window_starts CONFIG (List.length forecastDf)
                                (List.length cropDf)) ->
                        exists first rest,
                          slice i (List.length cropDf) forecastDf = first :: rest).
  { intros i I. apply slice_nonempty; [lia|]. now apply (window_starts_fit CONFIG). }
  destruct (windows_loop_logs forecastDf cropDf kv (weights_for CONFIG kv) name
              (window_starts CONFIG (List.length forecastDf) (List.length cropDf)) V
              (start_days_NoDup CONFIG forecastDf (List.length cropDf) ltac:(lia) TL N)
              L5 [] _ (log_at_get _ _ _ _ A5))
    as [L6 [cl6 [P [G6 [_ [_ W6]]]]]].
  { intros i first rest _ _. cbn [cl_set_windows_stats cl_windows]. rewrite W4.
    intros []. }
  rewrite P. cbn [app].
  fold (crop_windows Math_exp Math_pow_half CONFIG forecastDf cropDf kv) in *.
  assert (A6 : log_at name L1 L6 cl6).
  { destruct (windows_loop_frame Math_exp Math_pow_half CONFIG forecastDf cropDf
                (List.length cropDf) kv (weights_for CONFIG kv) name
                (window_starts CONFIG (List.length forecastDf) (List.length cropDf))
                L5 [] _ (log_at_get _ _ _ _ A5)) as [K [O _]].
    rewrite P in K, O. cbn [log_of fst] in K, O.
    destruct A5 as [K5 [O5 _]]. split; [congruence|]. split; [|exact G6].
    intros other Ne. rewrite (O other Ne). now apply O5. }
  destruct (Nat.ltb 0 (List.length (crop_windows Math_exp Math_pow_half CONFIG forecastDf
                                      cropDf kv))); cbn [fst].
  - intros Gcl r w [<-|[]] Iw. cbn [r_windows] in Iw. apply sort_In in Iw.
    erewrite (log_at_get name L1) in Gcl
      by (apply log_at_on_crop, log_at_on_summary, A6).
    injection Gcl as <-. cbn [cl_set_top_windows cl_windows].
    destruct (W6 w Iw) as [i [first [rest [wl [_ H]]]]].
    exists i, first, rest, wl. exact H.
  - intros _ r w [].
Qed.

Lemma crops_loop_property forecastDf (P : string -> crop -> crop_log -> Prop) crops :
  (forall L results name c,
      get name (ld_crop_logs L) = None -> daily_weather c <> None ->
      exists cl,
        get name (ld_crop_logs (fst (process_crop Math_exp Math_pow_half CONFIG forecastDf
                                       (L, results) (name, c)))) = Some cl
        /\ P name c cl) ->
  NoDup (keys crops) ->
  forall L results,
    (forall name, In name (keys crops) -> get name (ld_crop_logs L) = None) ->
    forall name c,
      In (name, c) crops -> daily_weather c <> None ->
      exists cl,
        get name (ld_crop_logs
                    (fst (fold_left (process_crop Math_exp Math_pow_half CONFIG forecastDf)
                            crops (L, results)))) = Some cl
        /\ P name c cl.
Proof.
  intros Step. induction crops as [|[name0 c0] r IH]; intros N L results Fresh name c I D;
    [destruct I|].
  change (keys ((name0, c0) :: r)) with (name0 :: keys r) in *.
  inversion N as [|? ? N0 Nr]; subst.
  cbn [fold_left].
  assert (G0 : get name0 (ld_crop_logs L) = None) by (apply Fresh; now left).
  assert (Fresh1 : forall x, In x (keys r) ->
            get x (ld_crop_logs
                     (fst (process_crop Math_exp Math_pow_half CONFIG forecastDf
                             (L, results) (name0, c0)))) = None).
  { intros x Ix.
    assert (Ne : x <> name0) by (intros ->; contradiction).
    destruct (daily_weather c0) as [dw0|] eqn:D0.
    - destruct (process_crop_log Math_exp Math_pow_half CONFIG forecastDf L results
                  name0 c0 dw0 G0 D0) as [_ [O _]].
      rewrite (O x Ne). apply Fresh. now right.
    - rewrite (process_crop_no_weather Math_exp Math_pow_half CONFIG forecastDf L results
                 name0 c0 D0 G0).
      apply Fresh. now right. }
  destruct I as [[= -> ->]|I].
  - destruct (Step L results name c G0 D) as [cl [Gc Pc]].
    destruct (process_crop Math_exp Math_pow_half CONFIG forecastDf (L, results)
                (name, c)) as [L1 results1].
    cbn [fst] in Gc, Fresh1.
    destruct (crops_loop_logs Math_exp Math_pow_half CONFIG forecastDf r Nr L1 results1
                Fresh1) as [_ [O _]].
    exists cl. split; [|exact Pc]. rewrite (O name N0). exact Gc.
  - destruct (process_crop Math_exp Math_pow_half CONFIG forecastDf (L, results)
                (name0, c0)) as [L1 results1].
    cbn [fst] in Fresh1.
    exact (IH Nr L1 results1 Fresh1 name c I D).
Qed.

End LoopLogs.

Section LoggedWindows.
Import JS Matching.

(** X25.  Every window of the results is in the log.  For crops with
    distinct names and a forecast whose records fall on distinct UTC days,
    a window of a result comes from a stretch of the sorted forecast that
    starts on its start day; the crop log of its crop holds, under that
    start day, a window log whose final score is the score before rounding
    (the reported score is that score rounded to four decimals), and the
    window's variable details have an entry for exactly the variables that
    produced a score on that stretch. *)
Theorem result_windows_are_logged
        (Math_exp Math_pow_half : Q -> Q) (crops : obj crop) (forecastData : list day)
        (cc : client_config) (r : result) (w : window) :
  NoDup (keys crops) ->
  NoDup (map (fun x => iso_day (date x)) forecastData) ->
  In r (fst (runCropMatching Math_exp Math_pow_half crops forecastData cc)) ->
  In w (r_windows r) ->
  let logs := snd (runCropMatching Math_exp Math_pow_half crops forecastData cc) in
  exists c dw i first rest s vars,
    In (r_name r, c) crops /\ daily_weather c = Some dw
    /\ slice i (List.length dw) (sort by_date forecastData) = first :: rest
    /\ w_start w = iso_day (date first)
    /\ window_score Math_exp Math_pow_half (merge cc) (first :: rest) (sort by_date dw)
         (kValues_of c) (weights_for (merge cc) (kValues_of c)) = Some s
    /\ w_score w = round4 s
    /\ option_map wl_final_score (window_log_of logs (r_name r) (w_start w))
       = Some (Some s)
    /\ variable_details logs (r_name r) w = Some vars
    /\ forall v, mem v vars
                 = existsb (String.eqb v)
                     (scored_fields (merge cc) (first :: rest) (sort by_date dw)).
Proof.
  intros N Nd R W logs.
  assert (Nd' : NoDup (map (fun x => iso_day (date x)) (sort by_date forecastData))).
  { eapply Permutation_NoDup; [|exact Nd].
    apply Permutation_map, Permutation_sym, sort_perm. }
  assert (E : ld_crop_logs logs
              = ld_crop_logs
                  (fst (fold_left (process_crop Math_exp Math_pow_half (merge cc)
                                     (sort by_date forecastData)) crops (empty_log, [])))).
  { unfold logs, runCropMatching, processCrops.
    now destruct (fold_left _ crops (empty_log, [])). }
  rewrite run_results in R. apply in_flat_map in R. destruct R as [[name c] [Ic Rc]].
  destruct (crop_result_inv Math_exp Math_pow_half (merge cc) (sort by_date forecastData)
              name c r Rc) as [dw [D [_ [_ Er]]]].
  assert (En : r_name r = name) by (rewrite Er; reflexivity).
  destruct (crops_loop_property Math_exp Math_pow_half (merge cc)
              (sort by_date forecastData)
              (fun name c cl =>
                 forall dw r w,
                   daily_weather c = Some dw ->
                   In r (crop_result Math_exp Math_pow_half (merge cc)
                           (sort by_date forecastData) (name, c)) ->
                   In w (r_windows r) ->
                   exists i first rest wl,
                     slice i (List.length (sort by_date dw)) (sort by_date forecastData)
                     = first :: rest
                     /\ w_start w = iso_day (date first)
                     /\ wget (w_start w) (cl_windows cl) = Some wl
                     /\ window_logged Math_exp Math_pow_half (merge cc) (first :: rest)
                          (sort by_date dw) (kValues_of c)
                          (weights_for (merge cc) (kValues_of c)) wl w)
              crops) with (L := empty_log) (results := @nil result) (name := name) (c := c)
    as [cl [G P]].
  - intros L results name' c' G' D'.
    destruct (daily_weather c') as [dw'|] eqn:Dw; [|congruence].
    destruct (process_crop_window_logs Math_exp Math_pow_half (merge cc)
                (sort by_date forecastData) L results name' c' dw' G' Dw Nd')
      as [cl' [Gc Pc]].
    exists cl'. split; [exact Gc|].
    intros dw2 r2 w2 [= <-] I2 J2. exact (Pc r2 w2 I2 J2).
  - exact N.
  - intros x _. reflexivity.
  - exact Ic.
  - congruence.
  - rewrite <- E in G.
    destruct (P dw r w D Rc W) as [i [first [rest [wl [Sl [Sw [Gw Lg]]]]]]].
    destruct Lg as [s [vars [Sc [Rd [Fs [Vs M]]]]]].
    rewrite sort_length in Sl.
    exists c, dw, i, first, rest, s, vars.
    rewrite En. split; [exact Ic|]. split; [exact D|]. split; [exact Sl|].
    split; [exact Sw|]. split; [exact Sc|]. split; [exact Rd|].
    unfold window_log_of, variable_details. rewrite G, Gw. cbn [option_map].
    split; [now rewrite Fs|]. split; [exact Vs | exact M].
Qed.

Lemma result_windows_are_logged_witness :
  exists r w vars,
    In r (fst (runCropMatching Examples.exp_model Examples.pow_half_model
                 [("A"%string, Examples.scenario_crop)] Examples.scenario_full_forecast
                 Examples.scenario_step_only))
    /\ In w (r_windows r)
    /\ variable_details
         (snd (runCropMatching Examples.exp_model Examples.pow_half_model
                 [("A"%string, Examples.scenario_crop)] Examples.scenario_full_forecast
                 Examples.scenario_step_only)) (r_name r) w
       = Some vars.
Proof.
  pose (run := runCropMatching Examples.exp_model Examples.pow_half_model
                 [("A"%string, Examples.scenario_crop)] Examples.scenario_full_forecast
                 Examples.scenario_step_only).
  assert (N0 : exists r, In r (fst run)).
  { destruct (fst run) as [|r rs] eqn:E; [vm_compute in E; discriminate|].
    exists r. now left. }
  destruct N0 as [r R].
  destruct (result_has_window _ _ _ _ _ r R) as [w W].
  destruct (result_windows_are_logged Examples.exp_model Examples.pow_half_model
              [("A"%string, Examples.scenario_crop)] Examples.scenario_full_forecast
              Examples.scenario_step_only r w)
    as [c [dw [i [first [rest [s [vars [_ [_ [_ [_ [_ [_ [_ [V _]]]]]]]]]]]]]]].
  - constructor; [simpl; tauto | constructor].
  - vm_compute. repeat (constructor; [simpl; intuition discriminate|]). constructor.
  - exact R.
  - exact W.
  - exists r, w, vars. split; [exact R|]. split; [exact W | exact V].
Defined.

End LoggedWindows.

Section CalibratedScores.
Import JS Matching.

Lemma times_nonneg (importance : jsval) (vf k : Q) :
  (forall q, importance = VNum q -> 0 <= q) -> 0 <= vf ->
  Calibration.times importance vf = VNum k -> 0 <= k.
Proof.
  intros H P. destruct importance as [| |q]; simpl; intros E; try discriminate;
    injection E as <-.
  - lra.
  - apply Qmult_le_0_compat; [now apply H | exact P].
Qed.

Lemma or_null_nonneg (importance : jsval) (k : Q) :
  (forall q, importance = VNum q -> 0 <= q) ->
  Calibration.or_null importance = VNum k -> 0 <= k.
Proof.
  intros H. destruct importance as [| |q]; simpl; try discriminate.
  destruct (Qeq_bool q 0); [discriminate|]. intros [= <-]. now apply H.
Qed.

Lemma variationFactor_pos (r : Q) : 0 <= Calibration.variationFactor r.
Proof.
  unfold Calibration.variationFactor.
  pose proof (Qmaxb_le_l (1 # 10) (1 - (1 # 2) * r)). lra.
Qed.

(** The calibration of base importances that are not negative gives no
    negative k value. *)
Lemma crop_k_values_nonneg (cropName : string) (dw : list day) (base : obj jsval)
      (logs : list Calibration.calibration_entry) (f : string) (k : Q) :
  NoDup (keys base) ->
  (forall v q, In (v, VNum q) base -> 0 <= q) ->
  get f (fst (Calibration.crop_k_values cropName dw base logs)) = Some (VNum k) ->
  0 <= k.
Proof.
  intros N H G. unfold Calibration.crop_k_values in G.
  rewrite (compute_k_shape cropName dw _ base [] logs N) in G by (intros v _ []).
  cbn [fst app] in G. apply get_In in G. rewrite map_map in G.
  apply in_map_iff in G. destruct G as [[v i] [E I]].
  assert (Hi : forall q, i = VNum q -> 0 <= q) by (intros q ->; exact (H v q I)).
  unfold Calibration.entry_of in E. cbn [fst snd] in E.
  destruct (Calibration.in_some_day v dw);
    [destruct (get v _) as [rng|]|]; cbn in E; injection E as _ E.
  - exact (times_nonneg i _ k Hi (variationFactor_pos rng) E).
  - exact (or_null_nonneg i k Hi E).
  - exact (or_null_nonneg i k Hi E).
Qed.

(** X26.  Calibration and matching together.  When the base importances
    are not negative, the k values that the calibration gives a crop are
    not negative either; so for crops that carry such k values, and a
    [DEFAULT_K] that is not negative, every reported score lies between
    0.5 and 1.  (The host functions are taken to be positive, exact at 0
    and not decreasing.) *)
Theorem calibrated_crops_score_in_upper_half
        (Math_exp Math_pow_half : Q -> Q) (base : obj jsval) (crops : obj crop)
        (forecastData : list day) (cc : client_config) (r : result) (w : window) :
  MathSpec Math_exp Math_pow_half -> HostOrder Math_exp Math_pow_half ->
  NoDup (keys base) ->
  (forall v q, In (v, VNum q) base -> 0 <= q) ->
  (forall name c, In (name, c) crops ->
     exists history logs,
       k_values c = Some (fst (Calibration.crop_k_values name history base logs))) ->
  0 <= DEFAULT_K (merge cc) ->
  In r (fst (runCropMatching Math_exp Math_pow_half crops forecastData cc)) ->
  In w (r_windows r) ->
  1 # 2 <= w_score w /\ w_score w <= 1.
Proof.
  intros M O N B K D R W.
  destruct (result_window_origin Math_exp Math_pow_half crops forecastData cc r w R W)
    as [c [dw [i [first [rest [s [IC [_ [_ [_ [_ [_ [S ->]]]]]]]]]]]]].
  cbn [w_score].
  assert (NN : forall f k, get f (kValues_of c) = Some (VNum k) -> 0 <= k).
  { intros f k G. destruct (K (r_name r) c IC) as [history [logs Ek]].
    unfold kValues_of in G. rewrite Ek in G.
    exact (crop_k_values_nonneg (r_name r) history base logs f k N B G). }
  assert (Lo : 1 # 2 <= s)
    by exact (window_score_ge_half Math_exp Math_pow_half M O (merge cc)
                (first :: rest) (sort by_date dw) (kValues_of c) s NN D S).
  assert (Hi : 0 <= s /\ s <= 1).
  { apply (window_score_unit Math_exp Math_pow_half M (merge cc) (first :: rest)
             (sort by_date dw) (kValues_of c) (weights_for (merge cc) (kValues_of c)) s S).
    intros v Iv. apply weightOf_pos.
    - apply weights_for_nonneg. exact NN.
    - unfold scored_fields in Iv. apply filter_In in Iv. tauto. }
  split.
  - apply round4_mono in Lo. rewrite (round4_half (1 # 2) (Qeq_refl _)) in Lo. exact Lo.
  - apply round4_unit; tauto.
Qed.

Lemma calibrated_crops_score_in_upper_half_witness :
  exists r w,
    In r (fst (runCropMatching Examples.exp_model Examples.pow_half_linear
                 [("A"%string,
                   mkCrop None None 2 (Some Examples.narrow_weather)
                     (Some (fst (Calibration.crop_k_values "A" Examples.narrow_weather
                                   Examples.base_T []))))]
                 Examples.scenario_full_forecast Examples.scenario_step_only))
    /\ In w (r_windows r)
    /\ 1 # 2 <= w_score w /\ w_score w <= 1.
Proof.
  pose (crops := [("A"%string,
                   mkCrop None None 2 (Some Examples.narrow_weather)
                     (Some (fst (Calibration.crop_k_values "A" Examples.narrow_weather
                                   Examples.base_T []))))]).
  pose (run := runCropMatching Examples.exp_model Examples.pow_half_linear crops
                 Examples.scenario_full_forecast Examples.scenario_step_only).
  assert (N0 : exists r, In r (fst run)).
  { destruct (fst run) as [|r rs] eqn:E; [vm_compute in E; discriminate|].
    exists r. now left. }
  destruct N0 as [r R].
  destruct (result_has_window _ _ _ _ _ r R) as [w W].
  exists r, w. split; [exact R|]. split; [exact W|].
  apply (calibrated_crops_score_in_upper_half Examples.exp_model Examples.pow_half_linear
           Examples.base_T crops Examples.scenario_full_forecast
           Examples.scenario_step_only r w models_linear_ok models_ordered).
  - constructor; [simpl; tauto | constructor].
  - intros v q [[= <- <-]|[]]. discriminate.
  - intros name c [[= <- <-]|[]]. exists Examples.narrow_weather, []. reflexivity.
  - discriminate.
  - exact R.
  - exact W.
Defined.

End CalibratedScores.
